(* ===== verification/_CoqProject ===== *)
-Q . S2P
Prelude.v
StdMap.v
ByteBuffer.v
CString.v
Hpack.v
Stats.v
StatsThreads.v
EventQ.v
EventPop.v
Workers.v
MsgCentre.v
IoLoop.v
Stopping.v
Http.v
Tls.v
Http1.v
Http1Pieces.v
Http2.v
Http2Split.v
Http2Mux.v
Conn.v
ConnCallback.v
LockFree.v
Callbacks.v
Debugging.v
Config.v
Factory.v
Session.v
Server.v
ServerStops.v
ServerStart.v
Errors.v
Logging.v
Clock.v
UtilsConfig.v
