(* ===== verification/Prelude.v ===== *)
(** * A verification of the HTTPS server simulator

    The program is the C++ library under src/codes/core (namespaces
    [https_server_sim], [utils], [protocol], [config], [debug_chain]). Paths
    below are relative to that directory.

    ** The program

    A [Server] reads a [config::Config], opens the listeners and owns a
    [ConnectionManager] and a [MsgCenter]. The message centre runs I/O threads,
    an [EventLoop] fed by an [EventQueue], and a [WorkerPool]. A [Connection]
    has two [Buffer]s and a [ProtocolHandler]: [Http1Handler] or
    [Http2Handler], each over a [TlsHandler] whose settings come from the
    configuration by [ConfigConverter] and whose kind from the protocol
    factories. Requests go to a callback registry; a [DebugChain] can delay,
    log, disconnect or rewrite the status. [utils] holds the buffers, the
    lock-free queue, the statistics, the logger, the clocks, the error codes
    and a second configuration class.

    ** The files

    - Prelude (this file): bytes, machine integers ([wrap w] is reduction modulo
      [2^w]), lengths and slices in [Z], the hint databases [sim] and [blen],
      the tactics [zb], [ifz] and [blia].
    - StdMap: [std::map] as a sorted association list, over the class
      [KeyOrder]. CString: the C library's string functions.
    - ByteBuffer ([Buffer]): utils buffer.cpp. LockFree ([LockFreeQueue]):
      utils lockfree_queue.hpp. Stats ([Statistics]): statistics.cpp, and
      StatsThreads: its counters under concurrent calls. Errors ([Error]): error.cpp. Logging ([Logger]): logger.cpp. Clock ([Time]):
      time.cpp. UtilsConfig: utils config.cpp.
    - EventQ ([EventQueue], [EventLoop]), EventPop (the blocking [pop] of many
      threads), Workers ([WorkerPool]), MsgCentre
      ([IoThread]: tables and events; [MsgCenter]), IoLoop (the loop of an I/O
      thread with its wake-up pipe, [wake_up], [start], [stop]), Stopping
      ([MsgCenter::stop] and the threads it joins): msg_center.
    - Http ([HttpMessage], [HttpParser]), Hpack, Tls ([Alpn], [Stub], [Tls],
      [TlsInit]), Http1 ([Http1Handler]), Http2 ([Http2Stream],
      [Http2Handler]): protocol. Http1Pieces and Http2Split: the handlers on
      input that arrives in several TLS records. Http2Mux: an abstract server of
      many streams, and the simulation that [Http2Handler] implements it. Factory
      ([ConfigConverter], [ProtocolFactory]): config_converter.cpp and the two
      factories.
    - Conn ([Connection], [ConnectionManager]), ConnCallback (the state callback,
      which may call back into its connection): connection. Session: the
      interface [ProtocolHandler], its two implementations and a connection as
      their client. Callbacks ([Callback]): callback. Debugging ([DebugChain]):
      debug_chain. Config: config. Server, ServerStops (concurrent calls of
      [Server::stop]), ServerStart (with a [start] under way): server.

    Definitions and record fields keep the names of the code. A member function
    is a function from the object's record to the new record and the returned
    value; overloads are told apart by a suffix.

    ** Conventions

    - Undefined behaviour is a value: [None], [UB] or [Undefined]. The safety
      theorems say it is not reached, or in which cases it is; where it is, a
      theorem shows the input.
    - The TLS layer has undefined behaviour of its own: OpenSSL's [TlsHandler]
      overflows the connection's write buffer when that is full. Theorems about
      any layer say what they ask of it ([serves]: one read, then so many writes)
      or name its failure as an exception ([tls_undefined], [write_undefined]);
      [Tls.openssl_serves] gives the room in the write buffer that is enough, and
      [stub_total], [plain_total] say that the other layers have none.
    - A C++ exception that the code catches is a value of the result
      ([Err], [false], or a code).
    - Sequential objects are step functions. Threads are interleavings:
      StatsThreads, EventPop, Workers, LockFree, IoLoop, Stopping, ServerStops and
      ServerStart have one step per access to shared memory, per system call or
      per critical section; EventQ and Callbacks, whose methods hold one mutex
      throughout, one step per method; the theorems quantify over all
      sequences of steps.
    - What the program only calls is a parameter with its documented laws: the
      class [TlsLayer] is what a protocol handler needs of TLS, implemented by
      [plain_layer] (a scripted peer, for the examples), [stub_layer] and
      [openssl_layer]; [TlsCloses] what it needs of a closed one; [OpenSSL],
      [SslConfig] and [BioPair] are the library calls; the JSON parser and
      printer are functions; system calls, clocks and thread creation are
      arguments.
    - Where components meet there is a class of operations and a class of laws:
      [TlsLayer] between the handlers and TLS, [ProtocolHandler] and
      [HandlerLaws] (Session) between a connection and its handler.
    - Fuel: [Http1Handler.loop_fuel] counts the states of the parser, and a
      rank shows that it suffices; [Http2Handler.frames_loop] has one unit per
      byte of the buffer, of which every frame consumes at least nine;
      [Hpack.decode_loop] has one per byte; [EventLoop.loop] one per pending
      event; [encode_rest] has five, the 7-bit groups of 32 bits. The waits of
      [Server.stop] have 301 and 51 rounds, enough by the clock's progress that
      [ticks] states. [ConnCallback.exec] has one unit per nested call. The
      theorems conclude that the result is reached. The concurrent models have no
      fuel: a weight that every step lowers bounds their runs
      ([run_steps_bounded]).

    ** What is shown

    - Serving: complete HTTP/1.1 and HTTP/2 requests are answered with the
      documented response, and each [on_read] returns, without undefined
      behaviour but for that of the TLS layer and, in HTTP/2, of the HPACK
      decoder on an over-long integer ([http1_request_answered],
      [http2_request_answered], [http1_on_read_safe], [http2_on_read_safe]). The requests of a kept-alive
      HTTP/1.1 connection are answered in order ([http1_serves_in_order]), those
      of an HTTP/2 connection each as if they were alone, however they are
      interleaved ([http2_multiplexing]). How the bytes are cut into TLS records
      does not matter to HTTP/2 ([http2_split_invariant]), nor how a body is cut
      to HTTP/1.1 ([http1_body_in_pieces]). The fragmentation of headers and
      bodies, the settings and the windows of HTTP/2.
    - A connection and its handler: no session of calls hangs, and none goes
      wrong but for the cases above and the assertion of a debug build
      ([session_safe]); a closed connection neither reads nor writes any more
      ([closed_connection_silent]).
    - Formats: HPACK, header lines, SETTINGS, integers and configurations read
      back what was written; the grammar of the request line; ALPN picks the
      server's first protocol that the client offers.
    - Data structures: [Buffer] refines a byte queue, with what it reads out
      ([buffer_refines_queue]), [EventQueue] a bounded
      priority bag, and draining it is a stable sort; the lock-free queue is a
      FIFO that never touches a freed node, and its consumer never waits.
    - Concurrency and life cycles: concurrent statistics lose no update
      ([counters_exact]); every event goes to one caller of [pop], and none sleeps
      while there is one ([pop_wakes_up]); every task runs exactly once and the
      pool drains; an I/O thread misses no wake-up, closes what it opened once and
      stops ([waiting_registered], [descriptors_closed], [stop_returns]); when
      the message centre's [stop] returns and when it hangs
      ([centre_stop_returns], [stop_hangs]); what concurrent calls of
      [Server::stop] do ([concurrent_stops]), and what they leave of a server that
      is being started, with a bound on their steps ([start_against_stops]); the
      message centre, the
      connections, the manager and the server keep their invariants under any
      calls and failures (a server, as long as no start times out), a state callback that calls back included
      ([reentrant_lifecycle], [close_reentrant]); [Server.stop] ends.
    - Debugging and callbacks: the order of the chain and how the debug context
      goes from handler to handler ([debug_chain_order]), the ownership of its
      handlers, what the default handlers do; no null callback is called.
    - Errors: what each load, [validate] and TLS [init] return, in every case,
      and for which numbers of a file a load is undefined
      ([config_load_outcomes], [utils_config_load]).

    Theorems about behaviour that contradicts a comment or the purpose of the
    code say so in their own comment: among them [h2_negotiated_but_not_served]
    and [default_cipher_suite_fails_init] (Factory), [tls_read_echoes_ciphertext]
    (Tls), [hpack_overlong_integer_ub] (Hpack), [client_preface_blocks_connection]
    and [fragmented_request_unanswered] (Http2), [headers_before_eagain_are_lost]
    (Http), [negative_content_length_accepted] (Http1), [buffer_write_past_max]
    (ByteBuffer), [task_posted_during_stop_is_lost] (Workers),
    [failed_start_leaks_threads] and [io_events_run_no_handler] (MsgCentre),
    [restart_leaves_centre_running], [reinit_keeps_old_ports] and
    [start_timeout_terminates] (Server), [two_stops_close_twice] (ServerStops),
    [post_callback_task_races] (Stopping), [wake_up_after_close] and
    [blocking_read_end_hangs] (IoLoop), [logger_blocks_only_on_reinit] and
    [init_after_set_file_loses_log] (Logging), [config_port_wraps] (Config).

    ** Not modelled

    - The kernel's side of I/O: what [kevent] reports and what a pipe holds are
      arguments or steps of the environment. The epoll and IOCP loops of
      io_thread.cpp are stubs that sleep until [running_] is cleared.
    - [Server::init] and [cleanup] called concurrently with [start] or [stop].
    - Memory orders weaker than sequential consistency, except that LockFree has
      no location where they would differ; allocation failure.
    - Formatting by [vsnprintf] and [put_time]; the texts of error messages of
      utils::Config; the log lines the program writes about itself.
    - Singletons' accessors, getters and setters that are record projections,
      the macros of logger.hpp, core_dummy.cpp, [DefaultTimeSource].
    - The vendored nlohmann library, the tests, the client and the scripts. *)

From Stdlib Require Export ZArith Lia List Strings.Byte Strings.String.
From stdpp Require Export base numbers list option gmap.
Open Scope Z_scope.

(** * Bytes and strings

    A byte buffer ([uint8_t*], [std::vector<uint8_t>]) and a [std::string] are
    both a [list byte]: the source converts between them with
    [reinterpret_cast]. *)

Abbreviation bytes := (list byte).

(** The value of a [uint8_t]. *)
Definition b2z (b : byte) : Z := Z.of_N (Byte.to_N b).

(** [static_cast<uint8_t>(z)]. *)
Definition z2b (z : Z) : byte :=
  match Byte.of_N (Z.to_N (z mod 256)) with
  | Some b => b
  | None => x00
  end.

(** A string literal of the source. *)
Definition str (s : string) : bytes := list_byte_of_string s.

(** [size()] of a string or a vector, as a [size_t]. *)
Definition blen {A} (l : list A) : Z := Z.of_nat (length l).

#[export] Instance byte_eq_decision : EqDecision byte := Byte.byte_eq_dec.

(** * Machine integers: unsigned values are kept reduced modulo [2^w]. *)

Definition wrap (w z : Z) : Z := z mod 2 ^ w.
Definition u8 (z : Z) : Z := wrap 8 z.
Definition u16 (z : Z) : Z := wrap 16 z.
Definition u32 (z : Z) : Z := wrap 32 z.
Definition u64 (z : Z) : Z := wrap 64 z.

Definition is_u8 (z : Z) : Prop := 0 <= z < 2 ^ 8.
Definition is_u16 (z : Z) : Prop := 0 <= z < 2 ^ 16.
Definition is_u32 (z : Z) : Prop := 0 <= z < 2 ^ 32.
Definition is_u64 (z : Z) : Prop := 0 <= z < 2 ^ 64.

(** [static_cast<int32_t>] of an unsigned or wider value. *)
Definition i32 (z : Z) : Z := (z + 2 ^ 31) mod 2 ^ 32 - 2 ^ 31.

(** [take]/[drop]/[lookup] with a [size_t] index. *)
Definition ztake {A} (n : Z) (l : list A) : list A := take (Z.to_nat n) l.
Definition zdrop {A} (n : Z) (l : list A) : list A := drop (Z.to_nat n) l.
Definition zlookup {A} (l : list A) (n : Z) : option A :=
  if n <? 0 then None else l !! Z.to_nat n.

(** [std::vector::resize]: truncate, or extend with value-initialised bytes. *)
Definition vresize (n : Z) (l : bytes) : bytes :=
  ztake n l ++ replicate (Z.to_nat n - length l)%nat x00.

(** * Automation *)

Create HintDb sim discriminated.
Create Rewrite HintDb blen.

(** Case analysis on the boolean comparisons of the goal and of the hypotheses. *)
Ltac zb :=
  repeat match goal with
  | H : (_ <? _) = true |- _ => apply Z.ltb_lt in H
  | H : (_ <? _) = false |- _ => apply Z.ltb_ge in H
  | H : (_ <=? _) = true |- _ => apply Z.leb_le in H
  | H : (_ <=? _) = false |- _ => apply Z.leb_gt in H
  | H : (_ =? _) = true |- _ => apply Z.eqb_eq in H
  | H : (_ =? _) = false |- _ => apply Z.eqb_neq in H
  | H : negb _ = true |- _ => apply negb_true_iff in H
  | H : negb _ = false |- _ => apply negb_false_iff in H
  | H : (_ && _)%bool = true |- _ => apply andb_true_iff in H; destruct H
  | H : (_ || _)%bool = false |- _ => apply orb_false_iff in H; destruct H
  end.

(** Destruct the innermost condition of the goal and normalise it. *)
Ltac ifz :=
  match goal with
  | |- context [if ?b then _ else _] =>
      lazymatch b with
      | context [if _ then _ else _] => fail
      | _ => let E := fresh "E" in destruct b eqn:E; zb
      end
  end.

Ltac ifz_in H :=
  match type of H with
  | context [if ?b then _ else _] =>
      lazymatch b with
      | context [if _ then _ else _] => fail
      | _ => let E := fresh "E" in destruct b eqn:E; zb
      end
  end.

(** * Lemmas on bytes *)

Lemma b2z_range b : 0 <= b2z b < 256.
Proof. unfold b2z. pose proof (Byte.to_N_bounded b). lia. Qed.

Lemma b2z_z2b z : b2z (z2b z) = z mod 256.
Proof.
  unfold b2z, z2b.
  pose proof (Z.mod_pos_bound z 256 ltac:(lia)) as Hb.
  destruct (Byte.of_N (Z.to_N (z mod 256))) as [b|] eqn:E.
  - apply Byte.to_of_N in E. rewrite E. lia.
  - apply Byte.of_N_None_iff in E. lia.
Qed.

Lemma z2b_b2z b : z2b (b2z b) = b.
Proof.
  unfold z2b. pose proof (b2z_range b). rewrite Z.mod_small by lia.
  unfold b2z. rewrite N2Z.id, Byte.of_to_N. reflexivity.
Qed.

Lemma b2z_inj a b : b2z a = b2z b -> a = b.
Proof. intros H. rewrite <- (z2b_b2z a), <- (z2b_b2z b), H. reflexivity. Qed.

Lemma b2z_z2b_small z : 0 <= z < 256 -> b2z (z2b z) = z.
Proof. intros H. rewrite b2z_z2b. apply Z.mod_small. exact H. Qed.
#[export] Hint Resolve b2z_range z2b_b2z : sim.

Lemma z2b_mod z : z2b (z mod 256) = z2b z.
Proof. apply b2z_inj. rewrite !b2z_z2b. apply Z.mod_mod. lia. Qed.

Lemma land_255 z : Z.land z 255 = z mod 256.
Proof. change 255 with (Z.ones 8). rewrite Z.land_ones by lia. reflexivity. Qed.

Lemma land_127 z : Z.land z 127 = z mod 128.
Proof. change 127 with (Z.ones 7). rewrite Z.land_ones by lia. reflexivity. Qed.

Lemma land_shiftl_low a b n :
  0 <= n -> 0 <= b < 2 ^ n -> Z.land (Z.shiftl a n) b = 0.
Proof.
  intros Hn Hb. apply Z.bits_inj'. intros i Hi.
  rewrite Z.land_spec, Z.bits_0.
  destruct (Z.lt_ge_cases i n) as [Hlt|Hge].
  - rewrite Z.shiftl_spec_low by lia. reflexivity.
  - rewrite <- (Z.mod_small b (2 ^ n)), Z.mod_pow2_bits_high by lia.
    apply andb_false_r.
Qed.

(** Disjoint [|] is addition: the source builds integers out of bytes this way. *)
Lemma lor_shiftl_add a b n :
  0 <= n -> 0 <= b < 2 ^ n -> Z.lor (Z.shiftl a n) b = a * 2 ^ n + b.
Proof.
  intros Hn Hb. pose proof (land_shiftl_low a b n Hn Hb) as H.
  rewrite <- Z.shiftl_mul_pow2 by lia.
  rewrite <- Z.lxor_lor, Z.add_nocarry_lxor by exact H. reflexivity.
Qed.

(** * Lists indexed by [size_t] *)

Lemma blen_nonneg {A} (l : list A) : 0 <= blen l.
Proof. unfold blen. lia. Qed.

Lemma blen_app {A} (l k : list A) : blen (l ++ k) = blen l + blen k.
Proof. unfold blen. rewrite length_app. lia. Qed.

Lemma blen_cons {A} (a : A) l : blen (a :: l) = 1 + blen l.
Proof. unfold blen. cbn [length]. lia. Qed.

Lemma blen_nil {A} : blen (@nil A) = 0.
Proof. reflexivity. Qed.

Lemma blen_0_nil {A} (l : list A) : blen l = 0 -> l = [].
Proof. unfold blen. destruct l; cbn [length]; [reflexivity|lia]. Qed.

Lemma blen_replicate {A} n (a : A) : blen (replicate n a) = Z.of_nat n.
Proof. unfold blen. rewrite length_replicate. reflexivity. Qed.

Lemma blen_ztake {A} n (l : list A) : blen (ztake n l) = Z.min (Z.max 0 n) (blen l).
Proof. unfold blen, ztake. rewrite length_take. lia. Qed.

Lemma blen_zdrop {A} n (l : list A) : blen (zdrop n l) = Z.max 0 (blen l - Z.max 0 n).
Proof. unfold blen, zdrop. rewrite length_drop. lia. Qed.

Lemma blen_vresize n l : 0 <= n -> blen (vresize n l) = n.
Proof.
  intros Hn. unfold vresize. rewrite blen_app, blen_ztake, blen_replicate.
  unfold blen. lia.
Qed.
#[export] Hint Rewrite @blen_app @blen_cons @blen_nil @blen_replicate @blen_ztake
  @blen_zdrop : blen.
#[export] Hint Resolve blen_nonneg : sim.

(** Normalise lengths and close the goal arithmetically. *)
Ltac blia := autorewrite with blen in *; unfold blen in *; lia.

Lemma ztake_zdrop {A} n (l : list A) : ztake n l ++ zdrop n l = l.
Proof. apply take_drop. Qed.

Lemma ztake_app_all {A} (l k : list A) : ztake (blen l) (l ++ k) = l.
Proof. unfold ztake, blen. rewrite Nat2Z.id. apply take_app_length. Qed.

Lemma zdrop_app_all {A} (l k : list A) : zdrop (blen l) (l ++ k) = k.
Proof. unfold zdrop, blen. rewrite Nat2Z.id. apply drop_app_length. Qed.

Lemma ztake_app_le {A} n (l k : list A) : n <= blen l -> ztake n (l ++ k) = ztake n l.
Proof. intros H. unfold ztake. apply take_app_le. unfold blen in H. lia. Qed.

Lemma ztake_app_ge {A} n (l k : list A) :
  blen l <= n -> ztake n (l ++ k) = l ++ ztake (n - blen l) k.
Proof.
  intros H. unfold ztake, blen in *. rewrite take_app_ge by lia.
  f_equal. f_equal. lia.
Qed.

Lemma zdrop_app_le {A} n (l k : list A) : n <= blen l -> zdrop n (l ++ k) = zdrop n l ++ k.
Proof. intros H. unfold zdrop. apply drop_app_le. unfold blen in H. lia. Qed.

Lemma zdrop_app_ge {A} n (l k : list A) :
  blen l <= n -> zdrop n (l ++ k) = zdrop (n - blen l) k.
Proof.
  intros H. unfold zdrop, blen in *. rewrite drop_app_ge by lia. f_equal. lia.
Qed.

Lemma ztake_0 {A} (l : list A) n : n <= 0 -> ztake n l = [].
Proof. intros H. unfold ztake. replace (Z.to_nat n) with 0%nat by lia. reflexivity. Qed.

Lemma zdrop_0 {A} (l : list A) n : n <= 0 -> zdrop n l = l.
Proof. intros H. unfold zdrop. replace (Z.to_nat n) with 0%nat by lia. reflexivity. Qed.

Lemma ztake_ge {A} (l : list A) n : blen l <= n -> ztake n l = l.
Proof. intros H. unfold ztake, blen in *. apply take_ge. lia. Qed.

Lemma zdrop_ge {A} (l : list A) n : blen l <= n -> zdrop n l = [].
Proof. intros H. unfold zdrop, blen in *. apply drop_ge. lia. Qed.

Lemma zdrop_zdrop {A} a b (l : list A) :
  0 <= a -> 0 <= b -> zdrop a (zdrop b l) = zdrop (b + a) l.
Proof. intros Ha Hb. unfold zdrop. rewrite drop_drop. f_equal. lia. Qed.

Lemma ztake_zdrop_comm {A} a b (l : list A) :
  0 <= a -> 0 <= b -> ztake a (zdrop b l) = zdrop b (ztake (b + a) l).
Proof. intros Ha Hb. unfold zdrop, ztake. rewrite take_drop_commute. f_equal. f_equal. lia. Qed.

Lemma ztake_ztake {A} a b (l : list A) : ztake a (ztake b l) = ztake (Z.min a b) l.
Proof. unfold ztake. rewrite take_take. f_equal. lia. Qed.

Lemma zlookup_nat {A} (l : list A) n : 0 <= n -> zlookup l n = l !! Z.to_nat n.
Proof. intros H. unfold zlookup. ifz; [lia|reflexivity]. Qed.

Lemma zlookup_lt {A} (l : list A) n : 0 <= n < blen l -> is_Some (zlookup l n).
Proof.
  intros H. rewrite zlookup_nat by lia. apply lookup_lt_is_Some. unfold blen in H. lia.
Qed.

Lemma zdrop_cons_lookup {A} n (l : list A) a r : zdrop n l = a :: r -> 0 <= n -> zlookup l n = Some a.
Proof.
  intros H Hn. rewrite zlookup_nat by lia. unfold zdrop in H.
  rewrite <- (Nat.add_0_r (Z.to_nat n)), <- lookup_drop, H. reflexivity.
Qed.

(** * Outcomes

    What a call can do: return a value, return a negative error code, or have
    undefined behaviour (an out-of-bounds access, an over-wide shift). *)

Inductive outcome (A : Type) : Type :=
| Ok (a : A)
| Err (code : Z)
| UB.
Arguments Ok {A} a.
Arguments Err {A} code.
Arguments UB {A}.

Definition obind {A B} (m : outcome A) (k : A -> outcome B) : outcome B :=
  match m with
  | Ok a => k a
  | Err c => Err c
  | UB => UB
  end.

Declare Scope outcome_scope.
Delimit Scope outcome_scope with outcome.
Notation "'let!' x ':=' m 'in' k" := (obind m (fun x => k))
  (at level 10, x pattern, m at level 100, k at level 200) : outcome_scope.

(** The sum over a list with one element replaced. *)
Lemma sum_insert {A} (f : A -> nat) (l : list A) i x y :
  l !! i = Some x -> (sum_list_with f (<[i := y]> l) + f x = sum_list_with f l + f y)%nat.
Proof.
  revert i. induction l as [|z l IH]; intros [|i] Hi; try done.
  - injection Hi as ->. cbn. lia.
  - change (<[S i := y]> (z :: l)) with (z :: <[i := y]> l). specialize (IH i Hi). cbn [sum_list_with]. lia.
Qed.

Lemma sum_lookup {A} (f : A -> nat) (l : list A) i x : l !! i = Some x -> (f x <= sum_list_with f l)%nat.
Proof. revert i. induction l as [|z l IH]; intros [|i] Hi; try done; cbn; [injection Hi as ->; lia|]. specialize (IH i Hi). lia. Qed.

(** * Runs of a transition system given by a partial step function *)

Section Runs.
Context {L S : Type} (step : L -> S -> option S).

Definition run_steps (ls : list L) (s : S) : option S := foldl (fun o l => s ← o; step l s) (Some s) ls.

Lemma run_steps_cons l ls s : run_steps (l :: ls) s = s' ← step l s; run_steps ls s'.
Proof. unfold run_steps. cbn. destruct (step l s) as [s'|]; [done|]. cbn. by induction ls. Qed.

Lemma run_steps_app ls1 ls2 s : run_steps (ls1 ++ ls2) s = s' ← run_steps ls1 s; run_steps ls2 s'.
Proof.
  revert s. induction ls1 as [|l ls1 IH]; intros s; [done|]. rewrite <- app_comm_cons, !run_steps_cons.
  destruct (step l s); [apply IH|done].
Qed.

(** Rule induction: what every step keeps, every run keeps. *)
Lemma run_steps_keeps (P : S -> Prop) ls :
  (forall l s s', l ∈ ls -> P s -> step l s = Some s' -> P s') -> forall s s', P s -> run_steps ls s = Some s' -> P s'.
Proof.
  induction ls as [|l ls IH]; intros Hstep s s' Hs; [by intros [= <-]|]. rewrite run_steps_cons.
  destruct (step l s) as [s1|] eqn:E; [|done]. apply IH.
  - intros l' s2 s3 Hin. apply Hstep. by right.
  - apply (Hstep l s); [by left|done..].
Qed.

(** What the steps of a run cost, each in the state it starts from. *)
Fixpoint run_cost (cost : L -> S -> nat) (ls : list L) (s : S) : nat :=
  match ls with
  | [] => 0
  | l :: r => cost l s + match step l s with Some s' => run_cost cost r s' | None => 0 end
  end.

(** A weight that every step lowers, but for what it costs, bounds a run. *)
Lemma run_steps_bounded (P : S -> Prop) (weight : S -> nat) (cost : L -> S -> nat) (ls : list L) :
  (forall l s s', l ∈ ls -> P s -> step l s = Some s' -> P s' /\ (1 + weight s' <= weight s + cost l s)%nat) ->
  forall s s', P s -> run_steps ls s = Some s' -> P s' /\ (length ls + weight s' <= weight s + run_cost cost ls s)%nat.
Proof.
  induction ls as [|l ls IH]; intros Hstep s s' Hs; [intros [= <-]; split; [done|cbn; lia]|].
  rewrite run_steps_cons. cbn [run_cost length]. destruct (step l s) as [s1|] eqn:E; [|done]. intros Hr.
  destruct (Hstep l s s1) as [Hs1 Hle]; [by left|done..|].
  destruct (IH ltac:(intros l' s2 s3 Hin; apply Hstep; by right) s1 s' Hs1 Hr) as [Hs' Hlen].
  split; [done|]. lia.
Qed.

(** The case of no cost. *)
Lemma run_steps_lower (P : S -> Prop) (weight : S -> nat) (ls : list L) :
  (forall l s s', l ∈ ls -> P s -> step l s = Some s' -> P s' /\ (1 + weight s' <= weight s)%nat) ->
  forall s s', P s -> run_steps ls s = Some s' -> P s' /\ (length ls + weight s' <= weight s)%nat.
Proof.
  intros Hstep s s' Hs Hr.
  assert (H0 : forall l s, run_cost (fun _ _ => 0%nat) l s = 0%nat).
  { induction l as [|a l IH]; intros s0; [done|]. cbn. destruct (step a s0); [apply IH|done]. }
  destruct (run_steps_bounded P weight (fun _ _ => 0%nat) ls) with (s := s) (s' := s') as [Hs' Hle]; [|done..|].
  - intros l s1 s2 Hin Hs1 Hst. destruct (Hstep l s1 s2 Hin Hs1 Hst). split; [done|lia].
  - rewrite H0 in Hle. split; [done|lia].
Qed.
End Runs.
