(* ===== verification/StdMap.v ===== *)
(** [std::map]: an association list kept in strictly increasing key order, the
    order in which the source iterates it ([for (const auto& pair : headers)]).
    Keys are compared as [std::less] does: byte strings lexicographically by
    unsigned byte, integers numerically. *)

From S2P Require Import Prelude.
Open Scope Z_scope.

(** The order of the keys of a [std::map], and the laws the container relies on. *)
Class KeyOrder (K : Type) := {
  kcmp : K -> K -> comparison;
  kcmp_eq a b : kcmp a b = Eq -> a = b;
  kcmp_opp a b : kcmp b a = CompOpp (kcmp a b);
  kcmp_trans a b c : kcmp a b = Lt -> kcmp b c = Lt -> kcmp a c = Lt;
}.

(** [std::string::compare]. *)
Fixpoint bytes_cmp (l k : bytes) : comparison :=
  match l, k with
  | [], [] => Eq
  | [], _ :: _ => Lt
  | _ :: _, [] => Gt
  | a :: l', b :: k' =>
      match Z.compare (b2z a) (b2z b) with
      | Eq => bytes_cmp l' k'
      | c => c
      end
  end.

Lemma bytes_cmp_eq l k : bytes_cmp l k = Eq -> l = k.
Proof.
  revert k. induction l as [|a l IH]; intros [|b k]; cbn; try discriminate; [done|].
  destruct (Z.compare_spec (b2z a) (b2z b)) as [E| |]; try discriminate.
  intros H. apply b2z_inj in E. f_equal; [exact E|]. apply IH, H.
Qed.

Lemma bytes_cmp_opp l k : bytes_cmp k l = CompOpp (bytes_cmp l k).
Proof.
  revert k. induction l as [|a l IH]; intros [|b k]; cbn; try reflexivity.
  rewrite (Z.compare_antisym (b2z a)). destruct (Z.compare (b2z a) (b2z b)); cbn; auto.
Qed.

Lemma bytes_cmp_trans l k m :
  bytes_cmp l k = Lt -> bytes_cmp k m = Lt -> bytes_cmp l m = Lt.
Proof.
  revert k m. induction l as [|a l IH]; intros [|b k] [|c m]; cbn; try discriminate; try done.
  destruct (Z.compare_spec (b2z a) (b2z b)), (Z.compare_spec (b2z b) (b2z c)),
    (Z.compare_spec (b2z a) (b2z c)); try discriminate; try lia; try done; eauto.
Qed.

(** Dictionary order: a proper prefix comes first, else the smaller byte at the
    first difference. *)
Definition dictionary_before (l k : bytes) : Prop :=
  exists p, (exists y s, l = p /\ k = p ++ y :: s) \/
            (exists x y r s, l = p ++ x :: r /\ k = p ++ y :: s /\ b2z x < b2z y).

Lemma dictionary_cons a l k : dictionary_before l k -> dictionary_before (a :: l) (a :: k).
Proof.
  intros [p [(y & s & -> & ->)|(x & y & r & s & -> & -> & Hxy)]]; exists (a :: p); [left; by exists y, s|].
  right. by exists x, y, r, s.
Qed.

Lemma bytes_cmp_lt l k : bytes_cmp l k = Lt <-> dictionary_before l k.
Proof.
  split.
  - revert k. induction l as [|a l IH]; intros [|b k]; cbn; try done.
    { intros _. exists []. left. by exists b, k. }
    destruct (Z.compare_spec (b2z a) (b2z b)) as [E|E|]; [| |done].
    + apply b2z_inj in E as ->. intros H. by apply dictionary_cons, IH.
    + intros _. exists []. right. by exists a, b, l, k.
  - intros [p [(y & s & -> & ->)|(x & y & r & s & -> & -> & Hxy)]]; induction p as [|a p IH]; cbn; try done;
      rewrite ?Z.compare_refl; try done. by rewrite (proj2 (Z.compare_lt_iff _ _) Hxy).
Qed.

#[export] Instance bytes_order : KeyOrder bytes := {
  kcmp := bytes_cmp;
  kcmp_eq := bytes_cmp_eq;
  kcmp_opp := bytes_cmp_opp;
  kcmp_trans := bytes_cmp_trans;
}.

Lemma Z_cmp_opp (a b : Z) : Z.compare b a = CompOpp (Z.compare a b).
Proof. apply Z.compare_antisym. Qed.

Lemma Z_cmp_trans (a b c : Z) : Z.compare a b = Lt -> Z.compare b c = Lt -> Z.compare a c = Lt.
Proof. rewrite !Z.compare_lt_iff. lia. Qed.

#[export] Instance Z_order : KeyOrder Z := {
  kcmp := Z.compare;
  kcmp_eq := Z.compare_eq;
  kcmp_opp := Z_cmp_opp;
  kcmp_trans := Z_cmp_trans;
}.

Section StdMap.
  Context {K V : Type} `{KeyOrder K}.
  Implicit Types (m : list (K * V)) (k : K) (v : V).

  (** [m.find(k)]. *)
Fixpoint mfind (k : K) (m : list (K * V)) : option V :=
    match m with
    | [] => None
    | (k', v) :: r => match kcmp k k' with Eq => Some v | _ => mfind k r end
    end.

  (** [m[k] = v]. *)
Fixpoint mset (k : K) (v : V) (m : list (K * V)) : list (K * V) :=
    match m with
    | [] => [(k, v)]
    | (k', v') :: r =>
        match kcmp k k' with
        | Lt => (k, v) :: (k', v') :: r
        | Eq => (k, v) :: r
        | Gt => (k', v') :: mset k v r
        end
    end.

  (** Keys strictly increasing. *)
Fixpoint mwf (m : list (K * V)) : Prop :=
    match m with
    | [] => True
    | (k, _) :: r => Forall (fun p => kcmp k p.1 = Lt) r /\ mwf r
    end.

Lemma kcmp_refl k : kcmp k k = Eq.
  Proof. pose proof (kcmp_opp k k) as E. destruct (kcmp k k); cbn in E; congruence. Qed.

Lemma kcmp_gt_lt k k' : kcmp k k' = Gt -> kcmp k' k = Lt.
  Proof. intros E. rewrite kcmp_opp, E. reflexivity. Qed.

Lemma mfind_mset_eq k v m : mfind k (mset k v m) = Some v.
  Proof.
    induction m as [|[k' v'] m IH]; cbn; [by rewrite kcmp_refl|].
    destruct (kcmp k k') eqn:E; cbn; rewrite ?kcmp_refl, ?E; auto.
  Qed.

Lemma mfind_mset_ne k k' v m : k <> k' -> mfind k (mset k' v m) = mfind k m.
  Proof.
    intros Hne. assert (Hc : kcmp k k' <> Eq) by (intros E; apply Hne, kcmp_eq, E).
    induction m as [|[k2 v2] m IH]; cbn.
    - destruct (kcmp k k'); [congruence|done|done].
    - destruct (kcmp k' k2) eqn:E; cbn.
      + apply kcmp_eq in E. subst k2. destruct (kcmp k k'); congruence.
      + destruct (kcmp k k') eqn:E2; [congruence| |]; reflexivity.
      + destruct (kcmp k k2); auto.
  Qed.

Lemma mset_Forall (P : K * V -> Prop) k v m : P (k, v) -> Forall P m -> Forall P (mset k v m).
  Proof.
    intros Hp. induction 1 as [|[k' v'] m Hx Hm IH]; cbn; [by constructor|].
    destruct (kcmp k k'); repeat constructor; auto.
  Qed.

Lemma mwf_mset k v m : mwf m -> mwf (mset k v m).
  Proof.
    induction m as [|[k' v'] m IH]; cbn; [repeat constructor|].
    intros [Hf Hw]. destruct (kcmp k k') eqn:E; cbn.
    - apply kcmp_eq in E. subst k'. auto.
    - split; [constructor; [exact E|] | auto].
      eapply Forall_impl; [exact Hf|]. intros p Hp. eapply kcmp_trans; eauto.
    - split; [apply mset_Forall; [by apply kcmp_gt_lt|exact Hf] | auto].
  Qed.

  (** Assigning to a key above all others appends it. *)
Lemma mset_last k v m :
    Forall (fun p => kcmp p.1 k = Lt) m -> mset k v m = m ++ [(k, v)].
  Proof.
    induction 1 as [|[k' v'] m Hx Hm IH]; cbn in *; [done|].
    rewrite kcmp_opp, Hx. cbn. by rewrite IH.
  Qed.

  (** Rebuilding a map from its own iteration gives the map back. *)
Lemma foldl_mset_sorted m acc :
    mwf m -> Forall (fun p => Forall (fun q => kcmp p.1 q.1 = Lt) m) acc ->
    foldl (fun a p => mset p.1 p.2 a) acc m = acc ++ m.
  Proof.
    revert acc. induction m as [|[k v] m IH]; intros acc Hw Ha; cbn.
    - by rewrite app_nil_r.
    - destruct Hw as [Hf Hw]. rewrite mset_last.
      + rewrite IH; [by rewrite <- app_assoc|exact Hw|].
        apply Forall_app. split; [|by constructor].
        eapply Forall_impl; [exact Ha|]. intros p Hp. by inversion Hp.
      + eapply Forall_impl; [exact Ha|]. intros p Hp. by inversion Hp.
  Qed.

Lemma mfind_Some_In k v m : mfind k m = Some v -> In (k, v) m.
  Proof.
    induction m as [|[k' v'] m IH]; cbn; [done|].
    destruct (kcmp k k') eqn:E; [|by auto..].
    intros [= ->]. apply kcmp_eq in E. subst. by left.
  Qed.

Lemma In_mfind k v m : mwf m -> In (k, v) m -> mfind k m = Some v.
  Proof.
    induction m as [|[k' v'] m IH]; cbn; [done|].
    intros [Hf Hw] [[= -> ->]|Hin]; [by rewrite kcmp_refl|].
    rewrite List.Forall_forall in Hf. specialize (Hf _ Hin). cbn in Hf.
    rewrite kcmp_opp, Hf. cbn. auto.
  Qed.
End StdMap.
#[export] Hint Resolve mwf_mset : sim.
