(* ===== verification/ByteBuffer.v ===== *)
(** [utils::Buffer] (utils/include/utils/buffer.hpp, utils/source/buffer.cpp):
    a growable byte buffer with a read and a write index.

    Every [size_t] expression is reduced modulo 2^64 where the source may wrap.
    An operation that copies memory returns [None] when the copy leaves the
    allocation (undefined behaviour of [memcpy]); [new]/[resize] are assumed to
    get their memory (no [bad_alloc]). *)

From S2P Require Import Prelude.

Module Buffer.

Definition DEFAULT_INITIAL_CAPACITY : Z := 8192.
Definition MIN_CAPACITY : Z := 1024.
Definition MAX_CAPACITY : Z := 64 * 1024 * 1024.
Definition GROWTH_THRESHOLD_DOUBLE : Z := 64 * 1024.
Definition GROWTH_THRESHOLD_15X : Z := 1024 * 1024.
Definition GROWTH_LINEAR_INCREMENT : Z := 256 * 1024.

Record t := mk { data_ : bytes; read_idx_ : Z; write_idx_ : Z }.

(** [Buffer::Buffer(size_t)]. *)
Definition create (initial_capacity : Z) : t :=
  let cap := Z.min (Z.max initial_capacity MIN_CAPACITY) MAX_CAPACITY in
  mk (vresize cap []) 0 0.

(** Move construction: the new object and what is left of [other]. *)
Definition move_from (other : t) : t * t :=
  (mk (data_ other) (read_idx_ other) (write_idx_ other), mk [] 0 0).

Definition readable_bytes (b : t) : Z := u64 (write_idx_ b - read_idx_ b).
Definition writable_bytes (b : t) : Z := u64 (blen (data_ b) - write_idx_ b).
Definition capacity (b : t) : Z := blen (data_ b).

Definition commit (b : t) (len : Z) : t :=
  mk (data_ b) (read_idx_ b) (u64 (write_idx_ b + Z.min len (writable_bytes b))).

Definition skip (b : t) (len : Z) : t :=
  mk (data_ b) (u64 (read_idx_ b + Z.min len (readable_bytes b))) (write_idx_ b).

Definition unskip (b : t) (len : Z) : t :=
  if len <=? read_idx_ b then mk (data_ b) (read_idx_ b - len) (write_idx_ b)
  else mk (data_ b) 0 (write_idx_ b).

(** [std::memcpy]/[std::memmove] into the vector at [off]; [None] past its end. *)
Definition memcpy_at (data : bytes) (off : Z) (src : bytes) : option bytes :=
  if (0 <=? off) && (off + blen src <=? blen data)
  then Some (ztake off data ++ src ++ zdrop (off + blen src) data)
  else None.

(** The [len] bytes found at [off] of the vector. *)
Definition slice (data : bytes) (off len : Z) : bytes := ztake len (zdrop off data).

Definition compact (b : t) : t :=
  if read_idx_ b =? 0 then b
  else
    let data_len := u64 (write_idx_ b - read_idx_ b) in
    let moved := slice (data_ b) (read_idx_ b) data_len in
    mk (if 0 <? data_len then moved ++ zdrop (blen moved) (data_ b) else data_ b)
       0 data_len.

Definition calculate_growth (b : t) (required : Z) : Z :=
  let current := blen (data_ b) in
  let new_capacity :=
    if current <? GROWTH_THRESHOLD_DOUBLE then current * 2
    else if current <? GROWTH_THRESHOLD_15X then current + current / 2
    else current + GROWTH_LINEAR_INCREMENT in
  Z.min (Z.max new_capacity required) MAX_CAPACITY.

Definition resize (b : t) (new_capacity : Z) : t * bool :=
  if MAX_CAPACITY <? new_capacity then (b, false)
  else (mk (vresize new_capacity (data_ b)) (read_idx_ b) (write_idx_ b), true).

Definition ensure_writable (b : t) (len : Z) : t * bool :=
  if len <=? writable_bytes b then (b, true)
  else
    let b1 := if 0 <? read_idx_ b then compact b else b in
    if (0 <? read_idx_ b) && (len <=? writable_bytes b1) then (b1, true)
    else
      let required := u64 (write_idx_ b1 + len) in
      resize b1 (calculate_growth b1 required).

(** [write(const uint8_t* data, size_t len)]: [data] is [None] for a null
    pointer, otherwise the [len] bytes it points to; [Some (b, n)] is the state
    and the returned count. *)
Definition write (b : t) (data : option bytes) : option (t * Z) :=
  match data with
  | None => Some (b, 0)
  | Some d =>
      if blen d =? 0 then Some (b, 0)
      else
        let '(b1, ok) := ensure_writable b (blen d) in
        if negb ok then Some (b1, 0)
        else
          data' ← memcpy_at (data_ b1) (write_idx_ b1) d;
          Some (commit (mk data' (read_idx_ b1) (write_idx_ b1)) (blen d), blen d)
  end.

Definition write_uint8 (b : t) (value : Z) : option (t * Z) := write b (Some [z2b value]).

Definition write_uint16_be (b : t) (value : Z) : option (t * Z) :=
  write b (Some [z2b (Z.land (Z.shiftr value 8) 255); z2b (Z.land value 255)]).

Definition write_uint32_be (b : t) (value : Z) : option (t * Z) :=
  write b (Some [z2b (Z.land (Z.shiftr value 24) 255);
                 z2b (Z.land (Z.shiftr value 16) 255);
                 z2b (Z.land (Z.shiftr value 8) 255);
                 z2b (Z.land value 255)]).

Definition write_uint64_be (b : t) (value : Z) : option (t * Z) :=
  write b (Some [z2b (Z.land (Z.shiftr value 56) 255);
                 z2b (Z.land (Z.shiftr value 48) 255);
                 z2b (Z.land (Z.shiftr value 40) 255);
                 z2b (Z.land (Z.shiftr value 32) 255);
                 z2b (Z.land (Z.shiftr value 24) 255);
                 z2b (Z.land (Z.shiftr value 16) 255);
                 z2b (Z.land (Z.shiftr value 8) 255);
                 z2b (Z.land value 255)]).

(** [reserve(len)]: the offset of the returned pointer, [None] for [nullptr]. *)
Definition reserve (b : t) (len : Z) : t * option Z :=
  let '(b1, ok) := ensure_writable b len in
  if negb ok then (b1, None) else (b1, Some (write_idx_ b1)).

(** [read]: the state and the bytes copied out; their number is the result. *)
Definition read (b : t) (len : Z) : t * bytes :=
  let to_read := Z.min len (readable_bytes b) in
  (skip b to_read, slice (data_ b) (read_idx_ b) to_read).

(** [read_to_string(out, len)] for a non-null [out]: [len = 0] reads all. *)
Definition read_to_string (b : t) (len : Z) : t * bytes :=
  let to_read := if len =? 0 then readable_bytes b else Z.min len (readable_bytes b) in
  if to_read =? 0 then (b, []) else read b to_read.

Definition peek (b : t) (len : Z) : bytes :=
  slice (data_ b) (read_idx_ b) (Z.min len (readable_bytes b)).

(** The local array of a scalar read: zero-initialised, then overwritten. *)
Definition read_array (b : t) (n : nat) : t * bytes :=
  let '(b1, out) := read b (Z.of_nat n) in
  (b1, out ++ replicate (n - length out) x00).

Definition read_uint8 (b : t) : t * Z :=
  let '(b1, buf) := read_array b 1 in
  (b1, match buf with a0 :: _ => b2z a0 | _ => 0 end).

Definition read_uint16_be (b : t) : t * Z :=
  let '(b1, buf) := read_array b 2 in
  (b1, match buf with
       | a0 :: a1 :: _ => Z.lor (Z.shiftl (b2z a0) 8) (b2z a1)
       | _ => 0
       end).

Definition read_uint32_be (b : t) : t * Z :=
  let '(b1, buf) := read_array b 4 in
  (b1, match buf with
       | a0 :: a1 :: a2 :: a3 :: _ =>
           Z.lor (Z.lor (Z.lor (Z.shiftl (b2z a0) 24) (Z.shiftl (b2z a1) 16))
                        (Z.shiftl (b2z a2) 8)) (b2z a3)
       | _ => 0
       end).

Definition read_uint64_be (b : t) : t * Z :=
  let '(b1, buf) := read_array b 8 in
  (b1, match buf with
       | a0 :: a1 :: a2 :: a3 :: a4 :: a5 :: a6 :: a7 :: _ =>
           Z.lor (Z.lor (Z.lor (Z.lor (Z.lor (Z.lor (Z.lor
             (Z.shiftl (b2z a0) 56) (Z.shiftl (b2z a1) 48)) (Z.shiftl (b2z a2) 40))
             (Z.shiftl (b2z a3) 32)) (Z.shiftl (b2z a4) 24)) (Z.shiftl (b2z a5) 16))
             (Z.shiftl (b2z a6) 8)) (b2z a7)
       | _ => 0
       end).

(** The variants that report success: state, value, [success]. *)
Definition read_checked (n : Z) (rd : t -> t * Z) (b : t) : t * Z * bool :=
  if readable_bytes b <? n then (b, 0, false)
  else let '(b1, v) := rd b in (b1, v, true).

Definition read_uint8_safe : t -> t * Z * bool := read_checked 1 read_uint8.
Definition read_uint16_be_safe : t -> t * Z * bool := read_checked 2 read_uint16_be.
Definition read_uint32_be_safe : t -> t * Z * bool := read_checked 4 read_uint32_be.
Definition read_uint64_be_safe : t -> t * Z * bool := read_checked 8 read_uint64_be.

(** [peek_uint8(offset, success)]; the outer [option] is an out-of-bounds
    [data_[i]]. *)
Definition peek_uint8_safe (b : t) (offset : Z) : option (Z * bool) :=
  if readable_bytes b <=? offset then Some (0, false)
  else c ← zlookup (data_ b) (read_idx_ b + offset); Some (b2z c, true).

Definition peek_uint8 (b : t) (offset : Z) : option Z :=
  if readable_bytes b <=? offset then Some 0
  else c ← zlookup (data_ b) (read_idx_ b + offset); Some (b2z c).

Definition reserve_capacity (b : t) (new_capacity : Z) : t * bool :=
  if new_capacity <=? capacity b then (b, true)
  else if MAX_CAPACITY <? new_capacity then (b, false)
  else resize b new_capacity.

Definition clear (b : t) : t := mk (data_ b) 0 0.

Definition reset (b : t) : t := mk (vresize DEFAULT_INITIAL_CAPACITY (data_ b)) 0 0.

Definition shrink_to_fit (b : t) : t :=
  if readable_bytes b =? 0 then reset b
  else
    let b1 := compact b in
    if write_idx_ b1 <? blen (data_ b1)
    then mk (vresize (write_idx_ b1) (data_ b1)) (read_idx_ b1) (write_idx_ b1)
    else b1.

(** * Well-formedness and contents *)

(** Indices ordered and inside an allocation of at most [MAX_CAPACITY]. *)
Definition wf (b : t) : Prop :=
  0 <= read_idx_ b <= write_idx_ b /\ write_idx_ b <= blen (data_ b) <= MAX_CAPACITY.

(** The abstract value: the readable bytes, oldest first. *)
Definition content (b : t) : bytes :=
  slice (data_ b) (read_idx_ b) (write_idx_ b - read_idx_ b).

Ltac consts :=
  unfold MAX_CAPACITY, MIN_CAPACITY, DEFAULT_INITIAL_CAPACITY, GROWTH_THRESHOLD_DOUBLE,
    GROWTH_THRESHOLD_15X, GROWTH_LINEAR_INCREMENT in *.
Ltac blen_pos :=
  repeat match goal with
  | |- context [blen ?l] =>
      lazymatch goal with H : 0 <= blen l |- _ => fail | _ => pose proof (blen_nonneg l) end
  | _ : context [blen ?l] |- _ =>
      lazymatch goal with H : 0 <= blen l |- _ => fail | _ => pose proof (blen_nonneg l) end
  end.
Ltac bcrush :=
  autorewrite with blen in *; blen_pos; consts; unfold u64, wrap in *; try lia.

Lemma u64_small z : 0 <= z < 2 ^ 64 -> u64 z = z.
Proof. apply Z.mod_small. Qed.

Lemma readable_wf b : wf b -> readable_bytes b = write_idx_ b - read_idx_ b.
Proof. intros [? ?]. apply u64_small. consts. lia. Qed.

Lemma writable_wf b : wf b -> writable_bytes b = blen (data_ b) - write_idx_ b.
Proof. intros [? ?]. apply u64_small. consts. lia. Qed.

Lemma blen_slice data off len :
  0 <= off -> 0 <= len -> off + len <= blen data -> blen (slice data off len) = len.
Proof. intros. unfold slice. bcrush. Qed.

Lemma blen_content b : wf b -> blen (content b) = write_idx_ b - read_idx_ b.
Proof. intros [? ?]. apply blen_slice; lia. Qed.

Lemma readable_content b : wf b -> readable_bytes b = blen (content b).
Proof. intros Hw. rewrite blen_content, readable_wf by done. reflexivity. Qed.

Lemma blen_memcpy data off src data' :
  memcpy_at data off src = Some data' -> blen data' = blen data.
Proof.
  unfold memcpy_at. destruct (_ && _)%bool eqn:E; [|done]. zb. intros [= <-]. bcrush.
Qed.

Lemma create_wf n : wf (create n).
Proof. split; cbn; [lia|]. rewrite blen_vresize; bcrush. Qed.

Lemma commit_wf b n : wf b -> 0 <= n -> wf (commit b n).
Proof.
  intros Hw Hn. unfold commit, wf. cbn. rewrite writable_wf by done. destruct Hw.
  rewrite u64_small; bcrush.
Qed.

Lemma skip_wf b n : wf b -> 0 <= n -> wf (skip b n).
Proof.
  intros Hw Hn. unfold skip, wf. cbn. rewrite readable_wf by done. destruct Hw.
  rewrite u64_small; bcrush.
Qed.

Lemma unskip_wf b n : wf b -> 0 <= n -> wf (unskip b n).
Proof. intros [? ?] Hn. unfold unskip. ifz; split; cbn; lia. Qed.

Lemma compact_wf b : wf b -> wf (compact b).
Proof.
  intros Hw. unfold compact. ifz; [done|].
  destruct Hw. rewrite u64_small by bcrush. unfold wf; cbn. ifz; [|bcrush].
  unfold slice. bcrush.
Qed.

Lemma compact_indices b : wf b ->
  read_idx_ (compact b) = 0 /\ write_idx_ (compact b) = write_idx_ b - read_idx_ b /\
  blen (data_ (compact b)) = blen (data_ b).
Proof.
  intros Hw. unfold compact. ifz; cbn; [lia|].
  destruct Hw. rewrite u64_small by bcrush. repeat split. ifz; [|done].
  unfold slice. bcrush.
Qed.

Lemma compact_content b : wf b -> content (compact b) = content b.
Proof.
  intros Hw. unfold compact. ifz; [done|].
  pose proof (blen_content b Hw) as Hl. unfold content in *. destruct Hw.
  rewrite u64_small by bcrush. cbn [data_ read_idx_ write_idx_].
  rewrite Z.sub_0_r. ifz.
  - unfold slice at 1. rewrite (zdrop_0 _ 0) by lia.
    rewrite <- Hl at 1. apply ztake_app_all.
  - replace (write_idx_ b - read_idx_ b) with 0 by lia. unfold slice. by rewrite !ztake_0.
Qed.

Lemma calculate_growth_le b n : calculate_growth b n <= MAX_CAPACITY.
Proof. unfold calculate_growth. lia. Qed.

Lemma calculate_growth_ge b n :
  wf b -> n <= MAX_CAPACITY -> n <= calculate_growth b n /\ blen (data_ b) <= calculate_growth b n.
Proof.
  intros [? ?] ?. unfold calculate_growth.
  destruct (_ <? _); [|destruct (_ <? _)]; blen_pos;
    pose proof (Z.div_pos (blen (data_ b)) 2 ltac:(lia)); consts; lia.
Qed.

Lemma calculate_growth_grows b n : wf b -> blen (data_ b) <= calculate_growth b n.
Proof.
  intros [? ?]. unfold calculate_growth.
  destruct (_ <? _); [|destruct (_ <? _)]; blen_pos;
    pose proof (Z.div_pos (blen (data_ b)) 2 ltac:(lia)); consts; lia.
Qed.

Lemma slice_vresize data n off len :
  0 <= off -> 0 <= len -> off + len <= blen data -> blen data <= n ->
  slice (vresize n data) off len = slice data off len.
Proof.
  intros. unfold slice, vresize. rewrite (ztake_ge data n) by lia.
  rewrite zdrop_app_le by lia. apply ztake_app_le. bcrush.
Qed.

Lemma resize_grow b n : wf b -> blen (data_ b) <= n <= MAX_CAPACITY ->
  exists b', resize b n = (b', true) /\ wf b' /\ content b' = content b /\
    read_idx_ b' = read_idx_ b /\ write_idx_ b' = write_idx_ b /\ blen (data_ b') = n.
Proof.
  intros [? ?] ?. unfold resize. ifz; [lia|].
  eexists. split; [reflexivity|]. unfold wf, content; cbn.
  rewrite blen_vresize by (blen_pos; lia).
  repeat split; try lia. apply slice_vresize; lia.
Qed.

(** What [ensure_writable] does to a well-formed buffer: it always answers
    [true], keeps the contents, and leaves room for [len] bytes as long as the
    total stays within [MAX_CAPACITY]; past that it leaves the maximal
    allocation and still answers [true]. *)
Lemma ensure_writable_spec b len :
  wf b -> 0 <= len < 2 ^ 63 ->
  exists b', ensure_writable b len = (b', true) /\ wf b' /\ content b' = content b /\
    (blen (content b) + len <= MAX_CAPACITY -> len <= writable_bytes b') /\
    (MAX_CAPACITY < blen (content b) + len -> writable_bytes b' < len).
Proof.
  intros Hw Hlen. unfold ensure_writable.
  assert (Hgen : forall b1, wf b1 -> content b1 = content b ->
    (len <= writable_bytes b1 -> blen (content b) + len <= MAX_CAPACITY)).
  { intros b1 Hw1 <-. rewrite writable_wf, blen_content by done. destruct Hw1. lia. }
  destruct (len <=? writable_bytes b) eqn:E; zb.
  { exists b. pose proof (Hgen b Hw eq_refl E). repeat split; try done; try apply Hw; lia. }
  set (b1 := if 0 <? read_idx_ b then compact b else b).
  assert (Hb1 : wf b1 /\ content b1 = content b /\ read_idx_ b1 = 0).
  { unfold b1. ifz; [|destruct Hw; repeat split; lia].
    split; [by apply compact_wf|]. split; [by apply compact_content|].
    by destruct (compact_indices b Hw). }
  destruct Hb1 as (Hw1 & Hc1 & Hr1).
  destruct (_ && _)%bool eqn:E2.
  { zb. exists b1. pose proof (Hgen b1 Hw1 Hc1 ltac:(lia)). repeat split; try done; try apply Hw1; lia. }
  pose proof Hw1 as [Hi1 Hi2].
  rewrite u64_small by (consts; lia).
  destruct (resize_grow b1 (calculate_growth b1 (write_idx_ b1 + len)) Hw1) as
    (b' & -> & Hw' & Hc' & Hr' & Hwi' & Hd').
  { split; [by apply calculate_growth_grows|apply calculate_growth_le]. }
  exists b'. split; [done|]. split; [done|]. split; [congruence|].
  rewrite <- Hc1, blen_content, writable_wf, Hwi', Hd', Hr1 by done.
  split; intros.
  - pose proof (calculate_growth_ge b1 (write_idx_ b1 + len) Hw1 ltac:(lia)). lia.
  - pose proof (calculate_growth_le b1 (write_idx_ b1 + len)). lia.
Qed.

(** * Functional behaviour of the operations *)

Lemma slice_split data off a c :
  0 <= off -> 0 <= a -> 0 <= c ->
  slice data off (a + c) = slice data off a ++ slice data (off + a) c.
Proof.
  intros. unfold slice. rewrite <- (ztake_zdrop a (zdrop off data)) at 1.
  rewrite zdrop_zdrop by lia.
  destruct (Z.le_gt_cases a (blen (zdrop off data))).
  - rewrite ztake_app_ge by bcrush. f_equal. f_equal.
    rewrite blen_ztake. lia.
  - rewrite (ztake_ge (zdrop off data)) by lia.
    rewrite (zdrop_ge data (off + a)) by bcrush.
    rewrite app_nil_r. unfold ztake at 2. rewrite take_nil, app_nil_r.
    apply ztake_ge. lia.
Qed.

Lemma memcpy_at_some data off src :
  0 <= off -> off + blen src <= blen data ->
  memcpy_at data off src = Some (ztake off data ++ src ++ zdrop (off + blen src) data).
Proof. intros. unfold memcpy_at. ifz; [done|]. apply andb_false_iff in E. destruct E; zb; lia. Qed.

Lemma memcpy_slice data off src r :
  0 <= r <= off -> off + blen src <= blen data ->
  slice (ztake off data ++ src ++ zdrop (off + blen src) data) r (off - r + blen src)
  = slice data r (off - r) ++ src.
Proof.
  intros Hr Ho. blen_pos. rewrite slice_split by lia. unfold slice.
  rewrite zdrop_app_le by bcrush. f_equal.
  - rewrite ztake_app_le by bcrush.
    rewrite !ztake_zdrop_comm, ztake_ztake by lia. do 2 f_equal. lia.
  - rewrite zdrop_app_ge by bcrush.
    replace (r + (off - r) - blen (ztake off data)) with 0 by bcrush.
    rewrite zdrop_0 by lia. apply ztake_app_all.
Qed.

(** Appending within the limit: the bytes arrive behind the readable ones. *)
Lemma write_spec b d :
  wf b -> blen (content b) + blen d <= MAX_CAPACITY ->
  exists b', write b (Some d) = Some (b', blen d) /\ wf b' /\ content b' = content b ++ d.
Proof.
  intros Hw Hmax. unfold write. blen_pos. ifz.
  { exists b. rewrite (blen_0_nil d E), app_nil_r. auto. }
  destruct (ensure_writable_spec b (blen d) Hw) as (b1 & -> & Hw1 & Hc1 & Hroom & _); [bcrush|].
  specialize (Hroom Hmax). rewrite writable_wf in Hroom by done. cbn [negb].
  pose proof Hw1 as [Hi1 Hi2].
  rewrite memcpy_at_some by lia. cbn [mbind option_bind].
  eexists. split; [reflexivity|].
  set (b2 := mk _ _ _).
  assert (Hlen : blen (data_ b2) = blen (data_ b1)) by (unfold b2; cbn; bcrush).
  assert (Hw2 : wf b2) by (unfold wf; rewrite Hlen; cbn; lia).
  split; [apply commit_wf; [done|lia]|].
  unfold commit, content. cbn [data_ read_idx_ write_idx_].
  rewrite writable_wf, Hlen by done. cbn [write_idx_ b2 read_idx_].
  rewrite Z.min_l by lia. rewrite u64_small by (consts; lia).
  replace (write_idx_ b1 + blen d - read_idx_ b1)
    with (write_idx_ b1 - read_idx_ b1 + blen d) by lia.
  unfold b2; cbn [data_]. rewrite memcpy_slice by lia.
  unfold content in Hc1. by rewrite <- Hc1.
Qed.

(** What was read joins what was pending. *)
Lemma receive_ok b d :
  wf b -> blen (content b ++ d) <= MAX_CAPACITY ->
  exists b', (if 0 <? blen d then fst <$> write b (Some d) else Some b) = Some b' /\ wf b' /\
    content b' = content b ++ d.
Proof.
  intros Hw Hmax. rewrite blen_app in Hmax. ifz.
  - destruct (write_spec b d Hw Hmax) as (b' & -> & Hw' & Hc). by exists b'.
  - exists b. pose proof (blen_nonneg d). rewrite (blen_0_nil d), app_nil_r by lia. done.
Qed.

(** Appending past the limit is not refused: [calculate_growth] clamps the
    request to [MAX_CAPACITY], [resize] succeeds, and the copy runs past the
    allocation. *)
Lemma write_overflow b d :
  wf b -> MAX_CAPACITY < blen (content b) + blen d -> blen d < 2 ^ 63 ->
  write b (Some d) = None.
Proof.
  intros Hw Hmax Hd. unfold write.
  assert (0 < blen d).
  { rewrite blen_content in Hmax by done. destruct Hw. lia. }
  ifz; [lia|].
  destruct (ensure_writable_spec b (blen d) Hw) as (b1 & -> & Hw1 & _ & _ & Hno); [lia|].
  specialize (Hno Hmax). rewrite writable_wf in Hno by done. cbn [negb].
  unfold memcpy_at. replace (_ && _)%bool with false; [done|].
  symmetry. apply andb_false_iff. right. apply Z.leb_gt. lia.
Qed.

Lemma skip_content b n : wf b -> 0 <= n -> content (skip b n) = zdrop n (content b).
Proof.
  intros Hw Hn. pose proof (blen_content b Hw) as Hl. unfold skip. rewrite readable_wf by done.
  pose proof Hw as [? ?]. unfold content in *. cbn. rewrite u64_small by (consts; lia).
  set (k := Z.min n (write_idx_ b - read_idx_ b)).
  assert (Hs : slice (data_ b) (read_idx_ b) (write_idx_ b - read_idx_ b) =
    slice (data_ b) (read_idx_ b) k ++ slice (data_ b) (read_idx_ b + k) (write_idx_ b - (read_idx_ b + k)))
    by (rewrite <- slice_split by lia; f_equal; lia).
  rewrite Hs.
  destruct (Z.le_gt_cases n (write_idx_ b - read_idx_ b)).
  - replace n with (blen (slice (data_ b) (read_idx_ b) k)) at 1; [by rewrite zdrop_app_all|].
    rewrite blen_slice; lia.
  - rewrite zdrop_ge.
    + replace (write_idx_ b - (read_idx_ b + k)) with 0 by lia. unfold slice. by rewrite ztake_0.
    + rewrite blen_app, !blen_slice; lia.
Qed.

Lemma read_spec b n : wf b -> 0 <= n ->
  exists b', read b n = (b', ztake n (content b)) /\ wf b' /\ content b' = zdrop n (content b).
Proof.
  intros Hw Hn. unfold read. rewrite readable_wf by done.
  pose proof Hw as [? ?]. eexists. split; [f_equal|].
  - unfold content, slice. rewrite ztake_ztake. reflexivity.
  - split; [apply skip_wf; [done|lia]|]. rewrite skip_content by (done || lia).
    pose proof (blen_content b Hw). destruct (Z.le_gt_cases n (write_idx_ b - read_idx_ b)).
    + by rewrite Z.min_l by lia.
    + rewrite Z.min_r by lia. rewrite !zdrop_ge; [done|lia|lia].
Qed.

Lemma clear_content b : content (clear b) = [].
Proof. unfold content, clear, slice. cbn. by apply ztake_0. Qed.

Lemma clear_wf b : wf b -> wf (clear b).
Proof. intros [? ?]. split; cbn; lia. Qed.

Lemma reset_wf b : wf (reset b).
Proof. split; cbn; [lia|]. rewrite blen_vresize; consts; lia. Qed.

Lemma shrink_to_fit_wf b : wf b -> wf (shrink_to_fit b).
Proof.
  intros Hw. unfold shrink_to_fit. ifz; [apply reset_wf|].
  pose proof (compact_wf b Hw) as [? ?]. ifz; [|done].
  split; cbn; [lia|]. rewrite blen_vresize; lia.
Qed.

Lemma shrink_to_fit_content b : wf b -> content (shrink_to_fit b) = content b.
Proof.
  intros Hw. unfold shrink_to_fit. ifz.
  - rewrite readable_content in E by done. apply blen_0_nil in E. rewrite E.
    unfold reset, content, slice. cbn. by apply ztake_0.
  - rewrite <- (compact_content b Hw). ifz; [|done].
    pose proof (compact_wf b Hw) as [? ?]. destruct (compact_indices b Hw) as (Hr & _).
    unfold content. cbn. unfold vresize. rewrite Hr.
    replace (Z.to_nat _ - _)%nat with 0%nat by (unfold blen in *; lia).
    cbn [replicate]. rewrite app_nil_r. unfold slice.
    rewrite !(zdrop_0 _ 0) by lia. rewrite ztake_ztake. f_equal. lia.
Qed.

Lemma reserve_capacity_spec b n : wf b -> 0 <= n ->
  wf (fst (reserve_capacity b n)) /\ content (fst (reserve_capacity b n)) = content b /\
  (snd (reserve_capacity b n) = true <-> n <= MAX_CAPACITY).
Proof.
  intros Hw Hn. pose proof Hw as [? ?]. unfold reserve_capacity, capacity. ifz; cbn.
  { repeat split; try done; lia. }
  ifz; cbn; [repeat split; try done; lia|].
  destruct (resize_grow b n Hw) as (b' & -> & ? & ? & _); [lia|]. cbn.
  split; [done|]. split; [done|]. split; [intros _; lia|done].
Qed.

Lemma unskip_content b n : wf b -> 0 <= n <= read_idx_ b ->
  content (unskip b n) = slice (data_ b) (read_idx_ b - n) n ++ content b.
Proof.
  intros [? ?] ?. unfold unskip. ifz; [|lia]. unfold content; cbn.
  replace (write_idx_ b - (read_idx_ b - n)) with (n + (write_idx_ b - read_idx_ b)) by lia.
  rewrite slice_split by lia. do 2 f_equal. lia.
Qed.

(** * Big-endian scalars *)

Lemma byte_of_shift v n : z2b (Z.land (Z.shiftr v n) 255) = z2b (Z.shiftr v n).
Proof. rewrite land_255. apply z2b_mod. Qed.

(** Reference encoding: the [n] low-order bytes, most significant first. *)
Fixpoint be_encode (n : nat) (v : Z) : bytes :=
  match n with
  | O => []
  | S n' => z2b (Z.shiftr v (8 * Z.of_nat n')) :: be_encode n' v
  end.

(** Reference decoding. *)
Fixpoint be_decode (acc : Z) (l : bytes) : Z :=
  match l with
  | [] => acc
  | b :: l' => be_decode (acc * 256 + b2z b) l'
  end.

Lemma blen_be_encode n v : blen (be_encode n v) = Z.of_nat n.
Proof. induction n; cbn [be_encode]; [done|]. rewrite blen_cons, IHn. lia. Qed.

Lemma be_decode_encode n v acc :
  0 <= v -> be_decode acc (be_encode n v) = acc * 2 ^ (8 * Z.of_nat n) + v mod 2 ^ (8 * Z.of_nat n).
Proof.
  intros Hv. revert acc. induction n as [|n IH]; intros acc; cbn [be_encode be_decode].
  - rewrite Z.mod_1_r. cbn. lia.
  - rewrite IH, b2z_z2b, Z.shiftr_div_pow2 by lia.
    replace (8 * Z.of_nat (S n)) with (8 * Z.of_nat n + 8) by lia.
    rewrite Z.pow_add_r by lia. change (2 ^ 8) with 256.
    rewrite (Z.rem_mul_r v (2 ^ (8 * Z.of_nat n)) 256) by lia. lia.
Qed.

(** The [|] of shifted bytes is the reference decoding. *)
Lemma be2_or a0 a1 : Z.lor (Z.shiftl (b2z a0) 8) (b2z a1) = be_decode 0 [a0; a1].
Proof.
  pose proof (b2z_range a0); pose proof (b2z_range a1). cbn [be_decode].
  rewrite lor_shiftl_add by lia. lia.
Qed.

(** Fold the source's left-nested [|] chain into nested additions. *)
Ltac or_chain :=
  repeat match goal with |- context [b2z ?a] =>
    lazymatch goal with H : 0 <= b2z a < 256 |- _ => fail | _ => pose proof (b2z_range a) end end;
  rewrite <- ?Z.lor_assoc;
  repeat match goal with |- context [Z.lor (Z.shiftl ?a ?n) ?x] =>
    lazymatch x with context [Z.lor] => fail | _ => rewrite (lor_shiftl_add a x n) by lia end end;
  lia.

Lemma be4_or a0 a1 a2 a3 :
  Z.lor (Z.lor (Z.lor (Z.shiftl (b2z a0) 24) (Z.shiftl (b2z a1) 16))
               (Z.shiftl (b2z a2) 8)) (b2z a3) = be_decode 0 [a0; a1; a2; a3].
Proof. cbn [be_decode]. or_chain. Qed.

Lemma be8_or a0 a1 a2 a3 a4 a5 a6 a7 :
  Z.lor (Z.lor (Z.lor (Z.lor (Z.lor (Z.lor (Z.lor
             (Z.shiftl (b2z a0) 56) (Z.shiftl (b2z a1) 48)) (Z.shiftl (b2z a2) 40))
             (Z.shiftl (b2z a3) 32)) (Z.shiftl (b2z a4) 24)) (Z.shiftl (b2z a5) 16))
             (Z.shiftl (b2z a6) 8)) (b2z a7)
  = be_decode 0 [a0; a1; a2; a3; a4; a5; a6; a7].
Proof. cbn [be_decode]. or_chain. Qed.

Lemma write_uint16_be_ref b v : write_uint16_be b v = write b (Some (be_encode 2 v)).
Proof.
  unfold write_uint16_be. cbn [be_encode]. rewrite byte_of_shift, land_255, z2b_mod.
  reflexivity.
Qed.

Lemma write_uint32_be_ref b v : write_uint32_be b v = write b (Some (be_encode 4 v)).
Proof.
  unfold write_uint32_be. cbn [be_encode]. rewrite !byte_of_shift, land_255, z2b_mod.
  reflexivity.
Qed.

Lemma write_uint64_be_ref b v : write_uint64_be b v = write b (Some (be_encode 8 v)).
Proof.
  unfold write_uint64_be. cbn [be_encode]. rewrite !byte_of_shift, land_255, z2b_mod.
  reflexivity.
Qed.

(** A scalar read of [n] bytes that are all there decodes them. *)
Lemma read_array_spec b n l k :
  wf b -> content b = l ++ k -> length l = n ->
  exists b', read_array b n = (b', l) /\ wf b' /\ content b' = k.
Proof.
  intros Hw Hc Hl. unfold read_array.
  destruct (read_spec b (Z.of_nat n) Hw) as (b' & -> & Hw' & Hc'); [lia|].
  replace (Z.of_nat n) with (blen l) in * by (unfold blen; lia).
  rewrite Hc, ztake_app_all in *. rewrite zdrop_app_all in Hc'.
  exists b'. replace (n - length l)%nat with 0%nat by lia. cbn. by rewrite app_nil_r.
Qed.

(** * Sequences of operations and the abstract byte queue *)

(** The public operations, with the arguments a caller chooses. *)
Inductive op :=
| OWrite (d : bytes) | OReserve (n : Z) | OCommit (n : Z) | ORead (n : Z) | OPeek (n : Z) | OSkip (n : Z)
| OUnskip (n : Z) | OReserveCapacity (n : Z) | OShrink | OClear | OCompact | OReset.

(** Arguments are [size_t] values a caller can form ([2^63] bounds any object size). *)
Definition op_ok (o : op) : Prop :=
  match o with
  | OWrite d => blen d < 2 ^ 63
  | OReserve n | OCommit n | ORead n | OPeek n | OSkip n | OUnskip n | OReserveCapacity n => 0 <= n < 2 ^ 63
  | _ => True
  end.

(** What the caller gets: the count [write] returns, the bytes [read] and [peek]
    copy out; nothing else is looked at. *)
Inductive result := Wrote (n : Z) | Got (d : bytes) | Done.

Definition run_op (b : t) (o : op) : option (t * result) :=
  match o with
  | OWrite d => '(b', n) ← write b (Some d); Some (b', Wrote n)
  | OReserve n => Some (fst (reserve b n), Done)
  | OCommit n => Some (commit b n, Done)
  | ORead n => let '(b', d) := read b n in Some (b', Got d)
  | OPeek n => Some (b, Got (peek b n))
  | OSkip n => Some (skip b n, Done)
  | OUnskip n => Some (unskip b n, Done)
  | OReserveCapacity n => Some (fst (reserve_capacity b n), Done)
  | OShrink => Some (shrink_to_fit b, Done)
  | OClear => Some (clear b, Done)
  | OCompact => Some (compact b, Done)
  | OReset => Some (reset b, Done)
  end.

Fixpoint run_ops (b : t) (os : list op) : option (t * list result) :=
  match os with
  | [] => Some (b, [])
  | o :: os' => '(b1, r) ← run_op b o; '(b2, rs) ← run_ops b1 os'; Some (b2, r :: rs)
  end.

Lemma peek_spec b n : wf b -> peek b n = ztake n (content b).
Proof. intros Hw. unfold peek. rewrite readable_wf by done. unfold content, slice. by rewrite ztake_ztake. Qed.

Lemma reserve_spec b n : wf b -> 0 <= n < 2 ^ 63 ->
  exists b', reserve b n = (b', Some (write_idx_ b')) /\ wf b' /\ content b' = content b.
Proof.
  intros Hw Hn. unfold reserve.
  destruct (ensure_writable_spec b n Hw Hn) as (b' & -> & Hw' & Hc' & _). eauto.
Qed.

Lemma run_op_wf b o b' r : wf b -> op_ok o -> run_op b o = Some (b', r) -> wf b'.
Proof.
  intros Hw Ho. destruct o; cbn [run_op op_ok] in *.
  - destruct (Z.le_gt_cases (blen (content b) + blen d) MAX_CAPACITY).
    + destruct (write_spec b d Hw) as (b1 & -> & Hw1 & _); [done|]. cbn. congruence.
    + rewrite write_overflow by done. discriminate.
  - destruct (reserve_spec b n Hw Ho) as (b1 & -> & ? & _). cbn. by intros [= <-].
  - intros [= <- _]. apply commit_wf; [done|lia].
  - destruct (read_spec b n Hw) as (b1 & -> & ? & _); [lia|]. cbn. by intros [= <-].
  - by intros [= <- _].
  - intros [= <- _]. apply skip_wf; [done|lia].
  - intros [= <- _]. apply unskip_wf; [done|lia].
  - intros [= <- _]. apply reserve_capacity_spec; [done|lia].
  - intros [= <- _]. by apply shrink_to_fit_wf.
  - intros [= <- _]. by apply clear_wf.
  - intros [= <- _]. by apply compact_wf.
  - intros [= <- _]. by apply reset_wf.
Qed.

(** The abstract machine: a byte queue. [OCommit] and [OUnskip] expose raw
    memory and have no counterpart. *)
Definition spec_op (q : bytes) (o : op) : option (bytes * result) :=
  match o with
  | OWrite d => if blen q + blen d <=? MAX_CAPACITY then Some (q ++ d, Wrote (blen d)) else None
  | ORead n => Some (zdrop n q, Got (ztake n q))
  | OPeek n => Some (q, Got (ztake n q))
  | OSkip n => Some (zdrop n q, Done)
  | OReserve _ | OReserveCapacity _ | OShrink | OCompact => Some (q, Done)
  | OClear | OReset => Some ([], Done)
  | OCommit _ | OUnskip _ => None
  end.

Fixpoint spec_ops (q : bytes) (os : list op) : option (bytes * list result) :=
  match os with
  | [] => Some (q, [])
  | o :: os' => '(q1, r) ← spec_op q o; '(q2, rs) ← spec_ops q1 os'; Some (q2, r :: rs)
  end.

Lemma run_op_refines b o q' r :
  wf b -> op_ok o -> spec_op (content b) o = Some (q', r) ->
  exists b', run_op b o = Some (b', r) /\ wf b' /\ content b' = q'.
Proof.
  intros Hw Ho Hs.
  enough (exists b', run_op b o = Some (b', r) /\ content b' = q') as (b' & Hr & Hc).
  { exists b'. split; [done|]. split; [by eapply run_op_wf|done]. }
  destruct o; cbn [run_op spec_op op_ok] in *; try discriminate; try injection Hs as <- <-.
  - ifz_in Hs; [|done]. injection Hs as <- <-.
    destruct (write_spec b d Hw E) as (b1 & -> & _ & ?). eexists. by split.
  - destruct (reserve_spec b n Hw Ho) as (b1 & -> & _ & ?). eexists. by split.
  - destruct (read_spec b n Hw) as (b1 & -> & _ & ?); [lia|]. eexists. by split.
  - exists b. by rewrite peek_spec.
  - eexists. split; [reflexivity|]. apply skip_content; [done|lia].
  - eexists. split; [reflexivity|]. apply reserve_capacity_spec; [done|lia].
  - eexists. split; [reflexivity|]. by apply shrink_to_fit_content.
  - eexists. split; [reflexivity|]. apply clear_content.
  - eexists. split; [reflexivity|]. by apply compact_content.
  - eexists. split; [reflexivity|]. unfold reset, content, slice. cbn. by apply ztake_0.
Qed.

Lemma run_ops_refines b os q' rs :
  wf b -> Forall op_ok os -> spec_ops (content b) os = Some (q', rs) ->
  exists b', run_ops b os = Some (b', rs) /\ wf b' /\ content b' = q'.
Proof.
  intros Hw Hos. revert b rs Hw. induction Hos as [|o os Ho Hos IH]; intros b rs Hw; cbn.
  - intros [= <- <-]. eauto.
  - intros Hs. apply bind_Some in Hs as ([q1 r1] & H1 & H2). apply bind_Some in H2 as ([q2 rs2] & H2 & [= -> <-]).
    destruct (run_op_refines b o q1 r1 Hw Ho H1) as (b1 & -> & Hw1 & <-). cbn.
    destruct (IH b1 rs2 Hw1 H2) as (b2 & -> & Hw2 & Hc2). by exists b2.
Qed.

(** * Properties *)

(** Whatever sequence of public operations runs on a freshly constructed
    buffer, the indices stay ordered and inside an allocation of at most
    [MAX_CAPACITY] bytes. *)
Theorem buffer_ops_wf n os b rs :
  Forall op_ok os -> run_ops (create n) os = Some (b, rs) -> wf b.
Proof.
  intros Hos. generalize (create_wf n). generalize (create n). intros b0. revert rs.
  induction Hos as [|o os Ho Hos IH] in b0 |- *; cbn; intros rs Hw Hr; [congruence|].
  apply bind_Some in Hr as ([b1 r1] & H1 & H2). apply bind_Some in H2 as ([b2 rs2] & H2 & [= -> _]).
  eapply IH; [|exact H2]. by eapply run_op_wf.
Qed.

Definition wf_ops : list op :=
  [OWrite (str "GET / HTTP/1.1"); ORead 4; OUnskip 2; OCompact; OCommit 3; OShrink].

Lemma buffer_ops_wf_witness :
  exists b rs, run_ops (create 0) wf_ops = Some (b, rs) /\ wf b.
Proof.
  do 2 eexists. split; [vm_compute; reflexivity|].
  eapply (buffer_ops_wf 0 wf_ops); [|vm_compute; reflexivity].
  repeat (constructor; [cbn; unfold blen; cbn; try lia|]); constructor.
Defined.

(** C7. Every run of operations that the abstract byte queue allows is
    carried out by the buffer with the queue's results, and leaves exactly the
    queue's contents: whatever compactions and growths happen inside, [write]
    takes all its bytes, [read] hands out the oldest bytes, as many as asked for
    and present, and removes them, and [peek] hands out the same without removing
    them. The queue refuses what goes past [MAX_CAPACITY], and the two operations
    that expose raw memory ([commit], [unskip]). *)
Theorem buffer_refines_queue n os q rs :
  Forall op_ok os -> spec_ops [] os = Some (q, rs) ->
  exists b, run_ops (create n) os = Some (b, rs) /\ wf b /\ content b = q.
Proof.
  intros Hos Hs. apply (run_ops_refines (create n) os q rs (create_wf n) Hos).
  replace (content (create n)) with (@nil byte); [done|].
  unfold content, slice. cbn. symmetry. by apply ztake_0.
Qed.

Definition queue_ops : list op :=
  [OWrite (str "hello"); OSkip 2; OCompact; OWrite (str "world"); OShrink; ORead 4; OPeek 100; OReserve 5000; ORead 9].

Lemma buffer_refines_queue_witness :
  let rs := [Wrote 5; Done; Done; Wrote 5; Done; Got (str "llow"); Got (str "orld"); Done; Got (str "orld")] in
  exists b, run_ops (create 1024) queue_ops = Some (b, rs) /\ wf b /\ content b = [].
Proof.
  apply (buffer_refines_queue 1024 queue_ops); [|vm_compute; reflexivity].
  repeat (constructor; [cbn; unfold blen; cbn; try lia|]); constructor.
Defined.

(** [write] documents that it returns 0 past [MAX_CAPACITY]; the
    code instead clamps the new capacity, reports success from
    [ensure_writable] and copies past the end of the vector. *)
Theorem buffer_write_past_max b d :
  wf b -> MAX_CAPACITY < blen (content b) + blen d -> blen d < 2 ^ 63 ->
  snd (ensure_writable b (blen d)) = true /\ write b (Some d) = None.
Proof.
  intros Hw Hmax Hd. split; [|by apply write_overflow].
  blen_pos. destruct (ensure_writable_spec b (blen d) Hw) as (b1 & -> & _); [lia|]. done.
Qed.

Definition full_buffer : t :=
  mk (replicate (Z.to_nat MAX_CAPACITY) x00) 0 MAX_CAPACITY.

Lemma buffer_write_past_max_witness :
  snd (ensure_writable full_buffer (blen [x00])) = true /\ write full_buffer (Some [x00]) = None.
Proof.
  assert (Hl : blen (data_ full_buffer) = MAX_CAPACITY).
  { unfold full_buffer, data_. rewrite blen_replicate. apply Z2Nat.id. unfold MAX_CAPACITY. lia. }
  assert (Hw : wf full_buffer).
  { unfold wf. rewrite Hl. unfold full_buffer, MAX_CAPACITY; cbn [read_idx_ write_idx_]. lia. }
  apply (buffer_write_past_max full_buffer [x00] Hw).
  - rewrite (blen_content _ Hw). change (blen [x00]) with 1.
    unfold full_buffer, MAX_CAPACITY; cbn [read_idx_ write_idx_]. lia.
  - reflexivity.
Defined.

(** A 16, 32 or 64-bit value written in network order and read back is
    the same value, whatever was buffered before it is consumed first and
    whatever follows stays. *)
Theorem buffer_be_roundtrip b v :
  wf b -> content b = [] ->
  (is_u16 v -> exists b1 b2, write_uint16_be b v = Some (b1, 2) /\
     read_uint16_be_safe b1 = (b2, v, true) /\ content b2 = []) /\
  (is_u32 v -> exists b1 b2, write_uint32_be b v = Some (b1, 4) /\
     read_uint32_be_safe b1 = (b2, v, true) /\ content b2 = []) /\
  (is_u64 v -> exists b1 b2, write_uint64_be b v = Some (b1, 8) /\
     read_uint64_be_safe b1 = (b2, v, true) /\ content b2 = []).
Proof.
  intros Hw Hc.
  assert (Hgen : forall n, (n <= 8)%nat -> exists b1 b2,
    write b (Some (be_encode n v)) = Some (b1, Z.of_nat n) /\ wf b1 /\
    readable_bytes b1 = Z.of_nat n /\ read_array b1 n = (b2, be_encode n v) /\ content b2 = []).
  { intros n Hn. destruct (write_spec b (be_encode n v) Hw) as (b1 & Hb1 & Hw1 & Hc1).
    { rewrite Hc, blen_be_encode, blen_nil. consts. lia. }
    rewrite blen_be_encode in Hb1. rewrite Hc in Hc1. cbn in Hc1.
    pose proof (blen_be_encode n v) as Hl.
    destruct (read_array_spec b1 n (be_encode n v) [] Hw1) as (b2 & ? & ? & ?).
    { by rewrite app_nil_r. } { unfold blen in Hl. lia. }
    exists b1, b2. rewrite readable_content, Hc1 by done. auto. }
  split; [|split]; intros Hv; unfold is_u16, is_u32, is_u64 in Hv;
  [destruct (Hgen 2%nat ltac:(lia)) as (b1 & b2 & Hx & _ & Hr & Ha & Hz)
  |destruct (Hgen 4%nat ltac:(lia)) as (b1 & b2 & Hx & _ & Hr & Ha & Hz)
  |destruct (Hgen 8%nat ltac:(lia)) as (b1 & b2 & Hx & _ & Hr & Ha & Hz)];
  exists b1, b2;
  rewrite ?write_uint16_be_ref, ?write_uint32_be_ref, ?write_uint64_be_ref; (split; [exact Hx|]);
  (split; [|exact Hz]);
  unfold read_uint16_be_safe, read_uint32_be_safe, read_uint64_be_safe, read_checked;
  rewrite Hr; cbn [Z.ltb Z.compare Z.of_nat Pos.of_succ_nat Pos.succ Pos.compare Pos.compare_cont];
  unfold read_uint16_be, read_uint32_be, read_uint64_be; rewrite Ha; cbn [be_encode];
  rewrite ?be2_or, ?be4_or, ?be8_or; do 2 f_equal.
  - etransitivity; [apply (be_decode_encode 2 v 0); lia|].
    change (8 * Z.of_nat 2) with 16. rewrite Z.mod_small; lia.
  - etransitivity; [apply (be_decode_encode 4 v 0); lia|].
    change (8 * Z.of_nat 4) with 32. rewrite Z.mod_small; lia.
  - etransitivity; [apply (be_decode_encode 8 v 0); lia|].
    change (8 * Z.of_nat 8) with 64. rewrite Z.mod_small; lia.
Qed.

Lemma buffer_be_roundtrip_witness :
  exists b1 b2, write_uint32_be (create 0) 3735928559 = Some (b1, 4) /\
    read_uint32_be_safe b1 = (b2, 3735928559, true) /\ content b2 = [].
Proof.
  apply (buffer_be_roundtrip (create 0) 3735928559); [apply create_wf|vm_compute; reflexivity|].
  unfold is_u32. lia.
Defined.

End Buffer.
