(* ===== verification/CString.v ===== *)
(** The C and C++ library functions on strings that the program calls:
    [strcasecmp], [strtoull], [std::to_string], [std::string::find]. They are
    the language's library, modelled by their documented behaviour; nothing
    here is code of the repository. *)

From S2P Require Import Prelude.

(** The characters [c_str()] shows to a C function: up to the first NUL. *)
Fixpoint c_str (s : bytes) : bytes :=
  match s with
  | [] => []
  | b :: r => if b2z b =? 0 then [] else b :: c_str r
  end.

(** [tolower] in the C locale. *)
Definition lower (b : byte) : byte :=
  if (65 <=? b2z b) && (b2z b <=? 90) then z2b (b2z b + 32) else b.

(** [strcasecmp(a, b) == 0]. *)
Definition strcasecmp_eq (a b : bytes) : bool :=
  bool_decide (map lower (c_str a) = map lower (c_str b)).

(** [s.find(pat) != npos]. *)
Fixpoint contains (pat s : bytes) : bool :=
  bool_decide (take (length pat) s = pat) ||
  match s with
  | [] => false
  | _ :: r => contains pat r
  end.

(** [isspace] and [isdigit] in the C locale. *)
Definition is_space (b : byte) : bool :=
  (b2z b =? 32) || ((9 <=? b2z b) && (b2z b <=? 13)).
Definition is_digit (b : byte) : bool := (48 <=? b2z b) && (b2z b <=? 57).

Fixpoint skip_spaces (s : bytes) : bytes :=
  match s with
  | b :: r => if is_space b then skip_spaces r else s
  | [] => []
  end.

(** Value of the longest run of digits, with what follows it. *)
Fixpoint digits (acc : Z) (s : bytes) : Z * bytes :=
  match s with
  | b :: r => if is_digit b then digits (acc * 10 + (b2z b - 48)) r else (acc, s)
  | [] => (acc, [])
  end.

Record strtoull_result := {
  st_value : Z;          (* the returned value *)
  st_rest : bytes;       (* what [*endptr] points to *)
  st_converted : bool;   (* [endptr != nptr] *)
  st_erange : bool;      (* [errno == ERANGE] *)
}.

Definition ULLONG_MAX : Z := 2 ^ 64 - 1.

(** [strtoull(s, &endptr, 10)]: optional spaces, optional sign, digits; a
    negative number is negated in the unsigned type; overflow saturates. *)
Definition strtoull (s0 : bytes) : strtoull_result :=
  let s := c_str s0 in
  let s1 := skip_spaces s in
  let '(neg, s2) :=
    match s1 with
    | b :: r => if b2z b =? 45 then (true, r) else if b2z b =? 43 then (false, r) else (false, s1)
    | [] => (false, [])
    end in
  match s2 with
  | b :: _ =>
      if is_digit b then
        let '(v, rest) := digits 0 s2 in
        if ULLONG_MAX <? v
        then {| st_value := ULLONG_MAX; st_rest := rest; st_converted := true; st_erange := true |}
        else {| st_value := if neg then u64 (- v) else v;
                st_rest := rest; st_converted := true; st_erange := false |}
      else {| st_value := 0; st_rest := s; st_converted := false; st_erange := false |}
  | [] => {| st_value := 0; st_rest := s; st_converted := false; st_erange := false |}
  end.

(** Decimal digits of a non-negative number, most significant first. *)
Fixpoint dec_digits (fuel : nat) (n : Z) (acc : bytes) : bytes :=
  match fuel with
  | O => acc
  | S f =>
      let acc' := z2b (48 + n mod 10) :: acc in
      if n <? 10 then acc' else dec_digits f (n / 10) acc'
  end.

(** [std::to_string] of an integer; [1 + log2 n] digits are always enough. *)
Definition to_string (n : Z) : bytes :=
  if n <? 0 then z2b 45 :: dec_digits (S (Z.to_nat (Z.log2 (- n)))) (- n) []
  else dec_digits (S (Z.to_nat (Z.log2 n))) n [].

(** * Lemmas *)

Lemma b2z_digit d : 0 <= d < 10 -> b2z (z2b (48 + d)) = 48 + d.
Proof. intros. apply b2z_z2b_small. lia. Qed.

Lemma digits_cons d acc r :
  0 <= d < 10 -> digits acc (z2b (48 + d) :: r) = digits (acc * 10 + d) r.
Proof.
  intros Hd. cbn [digits]. unfold is_digit. rewrite b2z_digit by lia.
  replace ((48 <=? 48 + d) && (48 + d <=? 57))%bool with true.
  - f_equal. lia.
  - symmetry. apply andb_true_iff. split; apply Z.leb_le; lia.
Qed.

Lemma log2_div10 n : 10 <= n -> Z.log2 (n / 10) < Z.log2 n.
Proof.
  intros Hn. assert (0 < n / 10) by (apply Z.div_str_pos; lia).
  apply Z.log2_lt_pow2; [lia|].
  apply (Z.le_lt_trans _ (n / 8)).
  - apply Z.div_le_compat_l; lia.
  - destruct (Z.log2_spec n) as [_ H2]; [lia|].
    pose proof (Z.log2_le_mono 8 n ltac:(lia)) as Hl. change (Z.log2 8) with 3 in Hl.
    apply Z.div_lt_upper_bound; [lia|].
    replace (Z.succ (Z.log2 n)) with (1 + Z.log2 n) in H2 by lia.
    rewrite Z.pow_add_r in H2 by lia. lia.
Qed.

Lemma digits_dec fuel n acc r a :
  0 <= n -> Z.log2 n < Z.of_nat fuel ->
  exists k, 0 <= k /\ digits a (dec_digits fuel n acc ++ r) = digits (a * 10 ^ k + n) (acc ++ r).
Proof.
  revert n acc. induction fuel as [|f IH]; intros n acc Hn Hl.
  { pose proof (Z.log2_nonneg n). lia. }
  cbn [dec_digits]. pose proof (Z.mod_pos_bound n 10 ltac:(lia)).
  destruct (n <? 10) eqn:E; zb.
  - exists 1. split; [lia|]. rewrite Z.mod_small by lia. cbn [app]. rewrite digits_cons by lia.
    reflexivity.
  - destruct (IH (n / 10) (z2b (48 + n mod 10) :: acc)) as (k & Hk & ->).
    + apply Z.div_pos; lia.
    + pose proof (log2_div10 n E). lia.
    + exists (k + 1). split; [lia|]. cbn [app]. rewrite digits_cons by lia. f_equal. rewrite Z.pow_add_r by lia.
      pose proof (Z.div_mod n 10 ltac:(lia)). lia.
Qed.

Lemma dec_digits_app fuel n acc : dec_digits fuel n acc = dec_digits fuel n [] ++ acc.
Proof.
  revert n acc. induction fuel as [|f IH]; intros n acc; cbn [dec_digits]; [done|].
  ifz; [done|]. rewrite IH, (IH _ [_]). by rewrite <- app_assoc.
Qed.

Lemma dec_digits_all fuel n :
  0 <= n -> Forall (fun b => is_digit b = true) (dec_digits fuel n []).
Proof.
  revert n. induction fuel as [|f IH]; intros n Hn; cbn [dec_digits]; [constructor|].
  pose proof (Z.mod_pos_bound n 10 ltac:(lia)).
  assert (Hd : is_digit (z2b (48 + n mod 10)) = true).
  { unfold is_digit. rewrite b2z_digit by lia. apply andb_true_iff. split; apply Z.leb_le; lia. }
  ifz; [by repeat constructor|]. rewrite dec_digits_app. apply Forall_app. split.
  - apply IH. apply Z.div_pos; lia.
  - by repeat constructor.
Qed.

Lemma dec_digits_nonempty fuel n : dec_digits (S fuel) n [] <> [].
Proof.
  cbn [dec_digits]. ifz; [done|]. rewrite dec_digits_app. intros H.
  apply app_eq_nil in H as [_ H]. discriminate.
Qed.

Lemma digit_props b : is_digit b = true ->
  b2z b <> 0 /\ is_space b = false /\ b2z b <> 45 /\ b2z b <> 43 /\ b2z b <> 10 /\ b2z b <> 13.
Proof.
  unfold is_digit, is_space. intros H. zb. repeat split; lia.
Qed.

Lemma to_string_digits n : 0 <= n -> Forall (fun b => is_digit b = true) (to_string n).
Proof. intros Hn. unfold to_string. ifz; [lia|]. by apply dec_digits_all. Qed.

Lemma c_str_digits s : Forall (fun b => is_digit b = true) s -> c_str s = s.
Proof.
  induction 1 as [|b r Hb Hr IH]; cbn; [done|]. destruct (digit_props b Hb) as (Hz & _).
  apply Z.eqb_neq in Hz. by rewrite Hz, IH.
Qed.

(** Parsing back what [std::to_string] prints. *)
Lemma strtoull_to_string n :
  0 <= n < 2 ^ 64 ->
  strtoull (to_string n) =
    {| st_value := n; st_rest := []; st_converted := true; st_erange := false |}.
Proof.
  intros Hn. pose proof (to_string_digits n ltac:(lia)) as Hd.
  unfold strtoull. rewrite c_str_digits by done.
  assert (Hv : digits 0 (to_string n) = (n, [])).
  { unfold to_string. ifz; [lia|].
    destruct (digits_dec (S (Z.to_nat (Z.log2 n))) n [] [] 0) as (k & _ & He); [lia| |].
    - pose proof (Z.log2_nonneg n). lia.
    - rewrite app_nil_r in He. rewrite He. cbn [app digits]. reflexivity. }
  assert (Hne : to_string n <> []).
  { unfold to_string. ifz; [lia|]. apply dec_digits_nonempty. }
  destruct (to_string n) as [|b r] eqn:E; [done|].
  inversion Hd as [|? ? Hb _]; subst. destruct (digit_props b Hb) as (_ & Hs & H45 & H43 & _).
  apply Z.eqb_neq in H45, H43. cbn [skip_spaces]. rewrite Hs, H45, H43, Hb, Hv.
  ifz; [unfold ULLONG_MAX in *; lia|done].
Qed.

Lemma strcasecmp_eq_refl a : strcasecmp_eq a a = true.
Proof. unfold strcasecmp_eq. by apply bool_decide_eq_true. Qed.

Lemma digits_nonneg s acc : 0 <= acc -> 0 <= (digits acc s).1.
Proof.
  revert acc. induction s as [|b s IH]; intros acc Ha; cbn [digits]; [done|].
  destruct (is_digit b) eqn:E; [|done]. unfold is_digit in E. zb. apply IH. lia.
Qed.

Lemma strtoull_u64 s : is_u64 (st_value (strtoull s)).
Proof.
  unfold strtoull, is_u64. destruct (match skip_spaces (c_str s) with [] => _ | _ :: _ => _ end) as [neg s2].
  destruct s2 as [|b s2]; [cbn; lia|]. destruct (is_digit b); [|cbn; lia].
  pose proof (digits_nonneg (b :: s2) 0 ltac:(lia)) as Hd.
  destruct (digits 0 (b :: s2)) as [v rest]. cbn [fst] in Hd.
  destruct (ULLONG_MAX <? v) eqn:E; zb; cbn [st_value]; [unfold ULLONG_MAX; lia|].
  unfold ULLONG_MAX in E. destruct neg; [|lia]. unfold u64, wrap. apply Z.mod_pos_bound. lia.
Qed.

Lemma blen_dec_digits fuel n acc : blen (dec_digits fuel n acc) <= Z.of_nat fuel + blen acc.
Proof.
  revert n acc. induction fuel as [|f IH]; intros n acc; cbn [dec_digits]; [lia|].
  ifz; [rewrite blen_cons; lia|]. specialize (IH (n / 10) (z2b (48 + n mod 10) :: acc)).
  rewrite blen_cons in IH. lia.
Qed.

Lemma blen_to_string n : 0 <= n < 2 ^ 64 -> blen (to_string n) <= 64.
Proof.
  intros Hn. unfold to_string. ifz; [lia|].
  pose proof (blen_dec_digits (S (Z.to_nat (Z.log2 n))) n []) as Hd. rewrite blen_nil in Hd.
  pose proof (Z.log2_nonneg n).
  assert (Z.log2 n < 64).
  { destruct (Z.eq_dec n 0) as [->|]; [by vm_compute|]. apply Z.log2_lt_pow2; lia. }
  lia.
Qed.
