(* ===== verification/Hpack.v ===== *)
(** HPACK header compression (protocol/include/protocol/hpack.hpp,
    protocol/source/hpack.cpp): the static table, the prefix integers, the
    string literals, [HpackEncoder::encode] and [HpackDecoder::decode].

    A pointer pair [(data, end)] is the list of the bytes between them. A shift
    of a non-negative [int] that is too wide or whose result does not fit in 32
    bits is undefined in C++17 and gives [UB]. *)

From S2P Require Import Prelude StdMap.
Open Scope outcome_scope.

Abbreviation headers := (list (bytes * bytes)).

Definition PROTOCOL_OK : Z := 0.
Definition PROTOCOL_ERROR_EAGAIN : Z := -11.
Definition PROTOCOL_ERROR_INVALID : Z := -1.
Definition PROTOCOL_ERROR_TOO_LONG : Z := -2.
Definition PROTOCOL_ERROR_TOO_MANY : Z := -3.
Definition PROTOCOL_ERROR_BUFFER : Z := -4.
Definition PROTOCOL_ERROR_VERSION : Z := -5.
Definition PROTOCOL_ERROR_TLS : Z := -10.

Module Hpack.

Definition static_table : list (bytes * bytes) :=
  [(str ":authority", str "");
   (str ":method", str "GET");
   (str ":method", str "POST");
   (str ":path", str "/");
   (str ":path", str "/index.html");
   (str ":scheme", str "http");
   (str ":scheme", str "https");
   (str ":status", str "200");
   (str ":status", str "204");
   (str ":status", str "206");
   (str ":status", str "304");
   (str ":status", str "400");
   (str ":status", str "404");
   (str ":status", str "500");
   (str "accept-charset", str "");
   (str "accept-encoding", str "gzip, deflate");
   (str "accept-language", str "");
   (str "accept-ranges", str "");
   (str "accept", str "");
   (str "access-control-allow-origin", str "");
   (str "age", str "");
   (str "allow", str "");
   (str "authorization", str "");
   (str "cache-control", str "");
   (str "content-disposition", str "");
   (str "content-encoding", str "");
   (str "content-language", str "");
   (str "content-length", str "");
   (str "content-location", str "");
   (str "content-range", str "");
   (str "content-type", str "");
   (str "cookie", str "");
   (str "date", str "");
   (str "etag", str "");
   (str "expect", str "");
   (str "expires", str "");
   (str "from", str "");
   (str "host", str "");
   (str "if-match", str "");
   (str "if-modified-since", str "");
   (str "if-none-match", str "");
   (str "if-range", str "");
   (str "if-unmodified-since", str "");
   (str "last-modified", str "");
   (str "link", str "");
   (str "location", str "");
   (str "max-forwards", str "");
   (str "proxy-authenticate", str "");
   (str "proxy-authorization", str "");
   (str "range", str "");
   (str "referer", str "");
   (str "refresh", str "");
   (str "retry-after", str "");
   (str "server", str "");
   (str "set-cookie", str "");
   (str "strict-transport-security", str "");
   (str "transfer-encoding", str "");
   (str "user-agent", str "");
   (str "vary", str "");
   (str "via", str "");
   (str "www-authenticate", str "")].

Definition static_table_size : Z := blen static_table.

(** [uint8_t mask = (1 << prefix_bits) - 1]. *)
Definition prefix_mask (prefix_bits : Z) : Z := u8 (Z.shiftl 1 prefix_bits - 1).

(** The continuation loop of [encode_int]: [while (value >= 128)]. A [uint32_t]
    has at most five 7-bit groups, so fuel 5 runs it to the end. *)
Fixpoint encode_rest (fuel : nat) (value : Z) : bytes :=
  match fuel with
  | O => []
  | S f =>
      if 128 <=? value
      then z2b (Z.lor (Z.land value 127) 128) :: encode_rest f (Z.shiftr value 7)
      else [z2b value]
  end.

Definition encode_int (value prefix prefix_bits : Z) : bytes :=
  let mask := prefix_mask prefix_bits in
  if value <? mask
  then [z2b (Z.lor (Z.land prefix (Z.lnot mask)) (u8 value))]
  else z2b (Z.lor prefix mask) :: encode_rest 5 (u32 (value - mask)).

Definition encode_string (s : bytes) : bytes := encode_int (u32 (blen s)) 0 7 ++ s.

(** Linear scans of the static table; indices start at 1, -1 is "not found". *)
Fixpoint find_static_from (i : Z) (tab : list (bytes * bytes)) (name value : bytes) : Z :=
  match tab with
  | [] => -1
  | (n, v) :: r =>
      if bool_decide (name = n) && bool_decide (value = v) then i + 1
      else find_static_from (i + 1) r name value
  end.
Definition find_static_index : bytes -> bytes -> Z := find_static_from 0 static_table.

Fixpoint find_static_name_from (i : Z) (tab : list (bytes * bytes)) (name : bytes) : Z :=
  match tab with
  | [] => -1
  | (n, _) :: r =>
      if bool_decide (name = n) then i + 1 else find_static_name_from (i + 1) r name
  end.
Definition find_static_name_index : bytes -> Z := find_static_name_from 0 static_table.

(** The continuation loop of [decode_int]; structural on the remaining bytes. *)
Fixpoint decode_rest (shift value : Z) (data : bytes) : outcome (Z * bytes) :=
  match data with
  | [] => Err PROTOCOL_ERROR_INVALID
  | b :: data' =>
      let low := Z.land (b2z b) 127 in
      if (32 <=? shift) || (2 ^ 32 <=? Z.shiftl low shift) then UB
      else
        let value' := u32 (value + Z.shiftl low shift) in
        if Z.land (b2z b) 128 =? 0 then Ok (value', data')
        else decode_rest (shift + 7) value' data'
  end.

Definition decode_int (data : bytes) (prefix_bits : Z) : outcome (Z * bytes) :=
  match data with
  | [] => Err PROTOCOL_ERROR_INVALID
  | b :: data' =>
      let mask := prefix_mask prefix_bits in
      let value := Z.land (b2z b) mask in
      if value <? mask then Ok (value, data') else decode_rest 0 value data'
  end.

Definition decode_string (data : bytes) : outcome (bytes * bytes) :=
  let! (len, data1) := decode_int data 7 in
  if blen data1 <? len then Err PROTOCOL_ERROR_INVALID
  else Ok (ztake len data1, zdrop len data1).

(** [HpackEncoder] and [HpackDecoder] carry the same single field. *)
Record codec := { max_dynamic_table_size_ : Z }.
Definition codec_new : codec := {| max_dynamic_table_size_ := 4096 |}.
Definition set_max_dynamic_table_size (c : codec) (size : Z) : codec :=
  {| max_dynamic_table_size_ := size |}.

(** One iteration of the loop of [HpackEncoder::encode]. *)
Definition encode_header (h : bytes * bytes) : bytes :=
  let '(name, value) := h in
  let idx := find_static_index name value in
  if 0 <? idx then encode_int (u32 idx) 128 7
  else
    let idx := find_static_name_index name in
    if 0 <? idx then encode_int (u32 idx) 64 6 ++ encode_string value
    else z2b 64 :: encode_string name ++ encode_string value.

Fixpoint encode (hs : headers) : bytes :=
  match hs with
  | [] => []
  | h :: r => encode_header h ++ encode r
  end.

(** [static_table[i - 1].name] under the guard the source writes; an index past
    the table leaves [name] empty. *)
Definition literal_name (name_idx : Z) (ptr : bytes) : outcome (bytes * bytes) :=
  if name_idx =? 0 then decode_string ptr
  else if name_idx <=? static_table_size then
    match zlookup static_table (name_idx - 1) with
    | Some (n, _) => Ok (n, ptr)
    | None => UB
    end
  else Ok ([], ptr).

(** Both literal branches: name, value, and the assignment when there is a name. *)
Definition decode_literal (name_idx : Z) (ptr : bytes) (hs : headers) : outcome (headers * bytes) :=
  let! (name, ptr1) := literal_name name_idx ptr in
  let! (value, ptr2) := decode_string ptr1 in
  Ok (match name with [] => hs | _ => mset name value hs end, ptr2).

(** One iteration of the loop of [HpackDecoder::decode] on a non-empty input. *)
Definition decode_step (c : codec) (hs : headers) (first_byte : Z) (ptr : bytes)
    : outcome (codec * headers * bytes) :=
  if negb (Z.land first_byte 128 =? 0) then
    let! (index, rest) := decode_int ptr 7 in
    if (0 <? index) && (index <=? static_table_size) then
      match zlookup static_table (index - 1) with
      | Some (n, v) => Ok (c, mset n v hs, rest)
      | None => UB
      end
    else Ok (c, hs, rest)
  else if Z.land first_byte 192 =? 64 then
    let! (hs', rest) := decode_literal (Z.land first_byte 63) (tail ptr) hs in
    Ok (c, hs', rest)
  else if Z.land first_byte 224 =? 32 then
    let! (size, rest) := decode_int ptr 5 in
    Ok (set_max_dynamic_table_size c size, hs, rest)
  else
    let! (hs', rest) := decode_literal (Z.land first_byte 15) (tail ptr) hs in
    Ok (c, hs', rest).

(** The result of [decode]: the decoder keeps its state and [headers] keeps what
    was decoded even when an error code is returned. Running out of fuel is the
    code 1, which the source never returns; it is ruled out below. *)
Fixpoint decode_loop (fuel : nat) (c : codec) (hs : headers) (ptr : bytes)
    : outcome (codec * headers * Z) :=
  match ptr with
  | [] => Ok (c, hs, PROTOCOL_OK)
  | b :: _ =>
      match fuel with
      | O => Ok (c, hs, 1)
      | S f =>
          match decode_step c hs (b2z b) ptr with
          | Ok (c', hs', rest) => decode_loop f c' hs' rest
          | Err code => Ok (c, hs, code)
          | UB => UB
          end
      end
  end.

(** [HpackDecoder::decode]: every iteration consumes at least one byte, so the
    length of the input is enough fuel. *)
Definition decode (c : codec) (data : bytes) : outcome (codec * headers * Z) :=
  decode_loop (length data) c [] data.

(** [hpack_encode] / [hpack_decode] on temporary codecs. *)
Definition hpack_encode (hs : headers) : bytes * Z := (encode hs, PROTOCOL_OK).
Definition hpack_decode (data : bytes) : outcome (headers * Z) :=
  let! (_, hs, ret) := decode codec_new data in Ok (hs, ret).

(** Worked examples. *)
Example encode_get : hpack_encode [(str ":method", str "GET")] = ([x82], PROTOCOL_OK).
Proof. vm_compute. reflexivity. Qed.

Example decode_custom :
  hpack_decode (encode [(str ":path", str "/x"); (str "k", str "v")])
  = Ok ([(str ":path", str "/x"); (str "k", str "v")], 0).
Proof. vm_compute. reflexivity. Qed.

(** * Prefix integers *)

Lemma byte_high_bit b : (Z.land (b2z b) 128 =? 0) = (b2z b <? 128).
Proof. destruct b; reflexivity. Qed.

Lemma lor_128 x : 0 <= x < 128 -> Z.lor x 128 = x + 128.
Proof.
  intros Hx. rewrite Z.lor_comm. change 128 with (Z.shiftl 1 7) at 1.
  rewrite lor_shiftl_add by lia. lia.
Qed.

Lemma decode_encode_rest f shift acc v tl :
  (0 < f)%nat -> 0 <= v < 128 ^ Z.of_nat f -> 0 <= shift < 32 -> 0 <= acc -> acc + v * 2 ^ shift < 2 ^ 32 ->
  decode_rest shift acc (encode_rest f v ++ tl) = Ok (acc + v * 2 ^ shift, tl).
Proof.
  revert shift acc v. induction f as [|f IH]; intros shift acc v Hf Hv Hs Ha Hm; [lia|].
  pose proof (Z.pow_pos_nonneg 2 shift ltac:(lia) ltac:(lia)) as Hp.
  assert (Hstep : forall low, 0 <= low <= v ->
    (32 <=? shift) || (2 ^ 32 <=? Z.shiftl low shift) = false /\
    u32 (acc + Z.shiftl low shift) = acc + low * 2 ^ shift).
  { intros low Hl. rewrite Z.shiftl_mul_pow2 by lia.
    assert (low * 2 ^ shift <= v * 2 ^ shift) by nia.
    split; [lia|]. apply Z.mod_small. nia. }
  cbn [encode_rest]. ifz; cbn [app decode_rest]; rewrite land_127, byte_high_bit.
  - rewrite land_127, b2z_z2b. pose proof (Z.mod_pos_bound v 128 ltac:(lia)).
    rewrite lor_128, (Z.mod_small (_ + 128)) by lia.
    replace ((v mod 128 + 128) mod 128) with (v mod 128)
      by (rewrite Zplus_mod, Z.mod_same, Z.add_0_r, !Z.mod_mod by lia; done).
    destruct (Hstep (v mod 128)) as [-> ->].
    { split; [lia|]. apply Z.mod_le; lia. }
    ifz; [lia|]. rewrite Z.shiftr_div_pow2 by lia. change (2 ^ 7) with 128.
    pose proof (Z.div_mod v 128 ltac:(lia)) as Hd.
    assert (Hdp : 1 <= v / 128) by (apply Z.div_le_lower_bound; lia).
    rewrite Nat2Z.inj_succ, Z.pow_succ_r in Hv by lia.
    assert (Hpow : 2 ^ (shift + 7) = 128 * 2 ^ shift) by (rewrite Z.pow_add_r by lia; lia).
    assert (shift + 7 < 32).
    { apply (Z.pow_lt_mono_r_iff 2); [lia|lia|]. rewrite Hpow. nia. }
    assert (acc + v mod 128 * 2 ^ shift + v / 128 * 2 ^ (shift + 7) = acc + v * 2 ^ shift)
      by (rewrite Hpow; nia).
    assert (0 < f)%nat by (destruct f; [cbn in Hv; lia|lia]).
    rewrite IH; [by f_equal; f_equal|done|split; [lia|apply Z.div_lt_upper_bound; lia]|lia|nia|lia].
  - rewrite b2z_z2b_small, Z.mod_small by lia. destruct (Hstep v ltac:(lia)) as [-> ->].
    ifz; [done|lia].
Qed.

Lemma prefix_mask_ones n : 1 <= n <= 8 -> prefix_mask n = Z.ones n.
Proof.
  intros Hn. unfold prefix_mask, u8, wrap, Z.ones. rewrite Z.mod_small; [lia|].
  rewrite Z.shiftl_1_l. pose proof (Z.pow_le_mono_r 2 n 8 ltac:(lia) ltac:(lia)).
  pose proof (Z.pow_pos_nonneg 2 n ltac:(lia) ltac:(lia)). lia.
Qed.

Lemma land_byte_mask z n : 1 <= n <= 8 -> Z.land (b2z (z2b z)) (Z.ones n) = Z.land z (Z.ones n).
Proof.
  intros Hn. rewrite b2z_z2b, <- land_255, <- Z.land_assoc. f_equal.
  assert (n = 1 \/ n = 2 \/ n = 3 \/ n = 4 \/ n = 5 \/ n = 6 \/ n = 7 \/ n = 8) as Hc by lia.
  by decompose [or] Hc; subst.
Qed.

(**  *)
Lemma decode_encode_int v prefix n tl :
  is_u32 v -> 1 <= n <= 8 ->
  decode_int (encode_int v prefix n ++ tl) n = Ok (v, tl).
Proof.
  intros Hv Hn. unfold encode_int. rewrite prefix_mask_ones by done.
  assert (Hones : Z.ones n = 2 ^ n - 1) by (rewrite Z.ones_equiv; lia).
  pose proof (Z.pow_pos_nonneg 2 n ltac:(lia) ltac:(lia)).
  pose proof (Z.pow_le_mono_r 2 n 8 ltac:(lia) ltac:(lia)). unfold is_u32 in Hv.
  ifz; cbn [app decode_int]; rewrite prefix_mask_ones, land_byte_mask by done.
  - rewrite Z.land_lor_distr_l, <- Z.land_assoc, (Z.land_comm (Z.lnot _)), Z.land_lnot_diag,
      Z.land_0_r, Z.lor_0_l, Z.land_ones by lia.
    unfold u8, wrap. rewrite (Z.mod_small v (2 ^ 8)), (Z.mod_small v (2 ^ n)) by lia.
    ifz; [done|lia].
  - rewrite Z.land_lor_distr_l, Z.land_diag.
    replace (Z.lor (Z.land prefix (Z.ones n)) (Z.ones n)) with (Z.ones n).
    2: { symmetry. apply Z.bits_inj'. intros i Hi. rewrite Z.lor_spec, Z.land_spec.
         destruct (Z.testbit prefix i), (Z.testbit (Z.ones n) i); done. }
    rewrite Z.ltb_irrefl. unfold u32, wrap. rewrite Z.mod_small by lia.
    rewrite Hones. assert (H128 : 128 ^ Z.of_nat 5 = 34359738368) by reflexivity.
    rewrite decode_encode_rest; rewrite ?Z.pow_0_r, ?H128; [do 2 f_equal; lia|lia..].
Qed.

Lemma decode_encode_string s tl :
  blen s < 2 ^ 32 -> decode_string (encode_string s ++ tl) = Ok (s, tl).
Proof.
  intros Hs. pose proof (blen_nonneg s). unfold decode_string, encode_string.
  rewrite <- app_assoc. unfold u32, wrap. rewrite Z.mod_small by lia.
  rewrite decode_encode_int by (unfold is_u32; lia). cbn [obind].
  ifz; [blia|]. rewrite ztake_app_all, zdrop_app_all. done.
Qed.

(** * The static table *)

Lemma find_static_from_spec i tab name value :
  0 <= i -> 0 < find_static_from i tab name value ->
  i < find_static_from i tab name value <= i + blen tab /\
  zlookup tab (find_static_from i tab name value - 1 - i) = Some (name, value).
Proof.
  revert i. induction tab as [|[n v] tab IH]; intros i Hi; cbn [find_static_from]; [lia|].
  rewrite blen_cons. pose proof (blen_nonneg tab).
  destruct (bool_decide (name = n) && bool_decide (value = v)) eqn:E.
  - zb. apply bool_decide_eq_true in H0, H1. subst. intros _. split; [lia|].
    replace (i + 1 - 1 - i) with 0 by lia. done.
  - intros H1. destruct (IH (i + 1) ltac:(lia) H1) as [Hb Hl]. split; [lia|].
    rewrite zlookup_nat in Hl |- * by lia.
    replace (Z.to_nat _) with (S (Z.to_nat (find_static_from (i + 1) tab name value - 1 - (i + 1)))) by lia.
    exact Hl.
Qed.

Lemma find_static_name_from_spec i tab name :
  0 <= i -> 0 < find_static_name_from i tab name ->
  i < find_static_name_from i tab name <= i + blen tab /\
  exists v, zlookup tab (find_static_name_from i tab name - 1 - i) = Some (name, v).
Proof.
  revert i. induction tab as [|[n v] tab IH]; intros i Hi; cbn [find_static_name_from]; [lia|].
  rewrite blen_cons. pose proof (blen_nonneg tab).
  destruct (bool_decide (name = n)) eqn:E.
  - apply bool_decide_eq_true in E. subst. intros _. split; [lia|].
    replace (i + 1 - 1 - i) with 0 by lia. by exists v.
  - intros H1. destruct (IH (i + 1) ltac:(lia) H1) as [Hb [v' Hl]]. split; [lia|].
    exists v'. rewrite zlookup_nat in Hl |- * by lia.
    replace (Z.to_nat _) with (S (Z.to_nat (find_static_name_from (i + 1) tab name - 1 - (i + 1)))) by lia.
    exact Hl.
Qed.

(** Every table index encodes to one byte that the decoder classifies back. *)
Definition index_byte_ok (i : Z) : bool :=
  match encode_int (u32 i) 128 7, encode_int (u32 i) 64 6 with
  | [a], [b] =>
      negb (Z.land (b2z a) 128 =? 0) &&
      (Z.land (b2z b) 128 =? 0) && (Z.land (b2z b) 192 =? 64) && (Z.land (b2z b) 63 =? i)
  | _, _ => false
  end.

Lemma index_byte_ok_all i : 1 <= i <= static_table_size -> index_byte_ok i = true.
Proof.
  intros Hi. assert (Hall : forallb (fun n => index_byte_ok (Z.of_nat n)) (List.seq 1 61) = true)
    by (vm_compute; reflexivity).
  rewrite forallb_forall in Hall. specialize (Hall (Z.to_nat i)).
  rewrite Z2Nat.id in Hall by lia. apply Hall, in_seq.
  change static_table_size with 61 in Hi. lia.
Qed.

(** * Decoding what the encoder wrote *)

Definition header_ok (h : bytes * bytes) : Prop :=
  h.1 <> [] /\ blen h.1 < 2 ^ 32 /\ blen h.2 < 2 ^ 32.

Lemma decode_encode_header c hs n v tl :
  header_ok (n, v) ->
  exists b r, encode_header (n, v) = b :: r /\
    decode_step c hs (b2z b) (encode_header (n, v) ++ tl) = Ok (c, mset n v hs, tl).
Proof.
  intros (Hn & Hnl & Hvl). cbn [fst snd] in *. unfold encode_header. cbv zeta.
  destruct (0 <? find_static_index n v) eqn:E1; zb; [|destruct (0 <? find_static_name_index n) eqn:E2; zb].
  - destruct (find_static_from_spec 0 static_table n v) as [Hb Hl]; [lia|done|].
    fold (find_static_index n v) in *. fold static_table_size in Hb. set (i := find_static_index n v) in *.
    pose proof (index_byte_ok_all i ltac:(lia)) as Hok. unfold index_byte_ok in Hok.
    assert (Hu : u32 i = i) by (apply Z.mod_small; change static_table_size with 61 in Hb; lia).
    destruct (encode_int (u32 i) 128 7) as [|a [|]] eqn:Ea; try discriminate.
    destruct (encode_int (u32 i) 64 6) as [|b [|]]; try discriminate.
    exists a, []. split; [done|]. zb. unfold decode_step.
    apply Z.eqb_neq in H. rewrite H. cbn [negb]. rewrite <- Ea, Hu.
    rewrite decode_encode_int by (unfold is_u32; change static_table_size with 61 in Hb; lia).
    cbn [obind]. replace (_ && _)%bool with true by lia. rewrite Z.sub_0_r in Hl. by rewrite Hl.
  - destruct (find_static_name_from_spec 0 static_table n) as [Hb [v' Hl]]; [lia|done|].
    fold (find_static_name_index n) in *. fold static_table_size in Hb. set (i := find_static_name_index n) in *.
    pose proof (index_byte_ok_all i ltac:(lia)) as Hok. unfold index_byte_ok in Hok.
    destruct (encode_int (u32 i) 128 7) as [|a [|]] eqn:Ea; try discriminate.
    destruct (encode_int (u32 i) 64 6) as [|b [|]]; try discriminate. zb.
    exists b, (encode_string v). split; [done|]. cbn [app]. unfold decode_step.
    rewrite (proj2 (Z.eqb_eq _ _) H1), (proj2 (Z.eqb_eq _ _) H2), H0. cbn [negb tail].
    unfold decode_literal, literal_name. ifz; [lia|]. ifz; [|lia].
    rewrite Z.sub_0_r in Hl. rewrite Hl. cbn [obind]. rewrite (decode_encode_string v tl) by done.
    cbn [obind]. by destruct n.
  - exists (z2b 64), (encode_string n ++ encode_string v). split; [done|].
    cbn [app]. unfold decode_step. cbn [tail].
    change (b2z (z2b 64)) with 64. change (Z.land 64 128) with 0.
    change (Z.land 64 192) with 64. change (Z.land 64 63) with 0. cbn [Z.eqb Pos.eqb negb].
    unfold decode_literal, literal_name. cbn [Z.eqb].
    rewrite <- app_assoc, decode_encode_string by done. cbn [obind].
    rewrite decode_encode_string by done. cbn [obind]. by destruct n.
Qed.

Lemma decode_loop_encode hs : forall fuel c acc,
  Forall header_ok hs -> (length (encode hs) <= fuel)%nat ->
  decode_loop fuel c acc (encode hs)
  = Ok (c, foldl (fun a p => mset p.1 p.2 a) acc hs, PROTOCOL_OK).
Proof.
  induction hs as [|[n v] hs IH]; intros fuel c acc Hok Hf; [by destruct fuel|].
  inversion Hok as [|? ? Hh Hok']; subst. cbn [encode foldl] in *.
  destruct (decode_encode_header c acc n v (encode hs) Hh) as (b & r & He & Hd).
  rewrite He in *. cbn [app] in *. destruct fuel as [|fuel]; [cbn in Hf; lia|].
  cbn [decode_loop]. rewrite Hd. apply IH; [done|].
  cbn [length] in Hf. rewrite length_app in Hf. lia.
Qed.

(** * Totality of the decoder *)

Lemma decode_rest_shorter sh v data v' rest :
  decode_rest sh v data = Ok (v', rest) -> (length rest < length data)%nat.
Proof.
  revert sh v. induction data as [|b data IH]; intros sh v; cbn [decode_rest length]; [done|].
  ifz; [done|]. ifz; [intros ?; simplify_eq; lia|]. intros Hd. apply IH in Hd. lia.
Qed.

Lemma decode_int_shorter data n v rest :
  decode_int data n = Ok (v, rest) -> (length rest < length data)%nat.
Proof.
  destruct data as [|b data]; cbn [decode_int length]; [done|].
  ifz; [intros ?; simplify_eq; lia|]. intros H. apply decode_rest_shorter in H. lia.
Qed.

Lemma obind_Ok {A B} (m : outcome A) (k : A -> outcome B) b :
  obind m k = Ok b -> exists a, m = Ok a /\ k a = Ok b.
Proof. destruct m; cbn; [eauto|done|done]. Qed.

Lemma obind_Err {A B} (m : outcome A) (k : A -> outcome B) e :
  obind m k = Err e -> m = Err e \/ exists a, m = Ok a /\ k a = Err e.
Proof. destruct m; cbn; [eauto|intros [= ->]; auto|done]. Qed.

Lemma decode_string_shorter data s rest :
  decode_string data = Ok (s, rest) -> (length rest < length data)%nat.
Proof.
  unfold decode_string. intros H. apply obind_Ok in H as ([len d1] & H1 & H2).
  apply decode_int_shorter in H1. ifz_in H2; [done|]. injection H2 as _ <-.
  unfold zdrop. rewrite length_drop. lia.
Qed.

Lemma decode_literal_shorter i ptr hs hs' rest :
  decode_literal i ptr hs = Ok (hs', rest) -> (length rest < length ptr)%nat.
Proof.
  unfold decode_literal. intros H. apply obind_Ok in H as ([n p1] & H1 & H).
  apply obind_Ok in H as ([v p2] & H2 & H3). simplify_eq. apply decode_string_shorter in H2.
  enough (length p1 <= length ptr)%nat by lia. unfold literal_name in H1.
  ifz_in H1; [apply decode_string_shorter in H1; lia|].
  ifz_in H1; [|injection H1 as _ <-; lia].
  destruct (zlookup _ _) as [[? ?]|]; [injection H1 as _ <-; lia|done].
Qed.

Lemma decode_step_shorter c hs b ptr c' hs' rest :
  decode_step c hs (b2z b) (b :: ptr) = Ok (c', hs', rest) -> (length rest <= length ptr)%nat.
Proof.
  unfold decode_step. cbn [tail]. ifz; [|ifz; [|ifz]];
    intros H; apply obind_Ok in H as ([x r] & H1 & H2).
  - apply decode_int_shorter in H1. cbn in H1. ifz_in H2; [|injection H2 as _ _ <-; lia].
    destruct (zlookup _ _) as [[? ?]|]; [injection H2 as _ _ <-; lia|done].
  - apply decode_literal_shorter in H1. injection H2 as _ _ <-. lia.
  - apply decode_int_shorter in H1. cbn in H1. injection H2 as _ _ <-. lia.
  - apply decode_literal_shorter in H1. injection H2 as _ _ <-. lia.
Qed.

(** * Properties *)

(** C23. Decoding what [hpack_encode] wrote gives back exactly the
    header map, whichever of the three representations each header takes. *)
Theorem hpack_roundtrip hs :
  mwf hs -> Forall header_ok hs ->
  hpack_decode (fst (hpack_encode hs)) = Ok (hs, PROTOCOL_OK).
Proof.
  intros Hw Hok. unfold hpack_decode, hpack_encode, decode. cbn [fst].
  rewrite decode_loop_encode by done. cbn [obind].
  rewrite foldl_mset_sorted by (done || constructor). done.
Qed.

Definition sample_headers : headers :=
  [(str ":status", str "200"); (str "content-type", str "text/plain"); (str "x-debug", str "1")].

Lemma hpack_roundtrip_witness :
  mwf sample_headers /\
  hpack_decode (fst (hpack_encode sample_headers)) = Ok (sample_headers, PROTOCOL_OK).
Proof.
  assert (Hw : mwf sample_headers) by (cbn; repeat (constructor || split)).
  split; [exact Hw|]. apply (hpack_roundtrip sample_headers Hw).
  repeat constructor; cbn; try discriminate; vm_compute; reflexivity.
Defined.

(** A prefix integer of any prefix width decodes to the value that was
    encoded, and the decoder stops exactly at its last byte. *)
Theorem hpack_int_roundtrip v prefix n tl :
  is_u32 v -> 1 <= n <= 8 -> decode_int (encode_int v prefix n ++ tl) n = Ok (v, tl).
Proof. apply decode_encode_int. Qed.

Lemma hpack_int_roundtrip_witness :
  decode_int (encode_int 4294967295 64 6 ++ [x2a]) 6 = Ok (4294967295, [x2a]).
Proof. apply (hpack_int_roundtrip 4294967295 64 6 [x2a]); [unfold is_u32|]; lia. Defined.

Lemma decode_int_err data n e : decode_int data n = Err e -> e = PROTOCOL_ERROR_INVALID.
Proof.
  destruct data as [|b data]; cbn [decode_int]; [congruence|]. ifz; [done|].
  generalize 0 as sh, (Z.land (b2z b) (prefix_mask n)) as v.
  induction data as [|a data IH]; intros sh v; cbn [decode_rest]; [congruence|].
  ifz; [done|]. ifz; [done|]. apply IH.
Qed.

Lemma decode_string_err data e : decode_string data = Err e -> e = PROTOCOL_ERROR_INVALID.
Proof.
  unfold decode_string. intros H. apply obind_Err in H as [H|([len d] & _ & H)].
  - by eapply decode_int_err.
  - ifz_in H; congruence.
Qed.

Lemma decode_literal_err i ptr hs e :
  decode_literal i ptr hs = Err e -> e = PROTOCOL_ERROR_INVALID.
Proof.
  unfold decode_literal. intros H. apply obind_Err in H as [H|([n p1] & _ & H)].
  - unfold literal_name in H. ifz_in H; [by eapply decode_string_err|]. ifz_in H; [|done].
    by destruct (zlookup _ _) as [[? ?]|].
  - apply obind_Err in H as [H|([v p2] & _ & H)]; [by eapply decode_string_err|done].
Qed.

Lemma decode_step_err c hs b ptr e :
  decode_step c hs b ptr = Err e -> e = PROTOCOL_ERROR_INVALID.
Proof.
  unfold decode_step. ifz; [|ifz; [|ifz]]; intros H; apply obind_Err in H as [H|([x r] & _ & H)];
    try done; try (by eapply decode_int_err); try (by eapply decode_literal_err).
  ifz_in H; [|done]. by destruct (zlookup _ _) as [[? ?]|].
Qed.

(** On every input the decoder terminates within one iteration per
    byte and answers [PROTOCOL_OK] or [PROTOCOL_ERROR_INVALID], unless an
    over-long prefix integer makes it shift by 32 bits or more. *)
Theorem hpack_decode_total data :
  hpack_decode data = UB \/
  exists hs ret, hpack_decode data = Ok (hs, ret) /\
    (ret = PROTOCOL_OK \/ ret = PROTOCOL_ERROR_INVALID).
Proof.
  unfold hpack_decode, decode. assert (Hf : (length data <= length data)%nat) by lia.
  revert Hf. generalize (length data) at 2 3 4 as fuel. generalize codec_new as c, (@nil (bytes * bytes)) as hs.
  intros c hs fuel. revert c hs data. induction fuel as [|fuel IH]; intros c hs data Hf.
  - destruct data; [|cbn in Hf; lia]. cbn. right. eauto.
  - destruct data as [|b data]; cbn [decode_loop]; [cbn; right; eauto|].
    destruct (decode_step c hs (b2z b) (b :: data)) as [[[c' hs'] rest]|e|] eqn:E.
    + apply IH. apply decode_step_shorter in E. cbn in Hf. lia.
    + apply decode_step_err in E. subst. cbn. right. eauto.
    + by left.
Qed.

(** The decoder's state does not matter for what is undefined. *)
Lemma decode_step_codec c c' hs b ptr :
  match decode_step c hs b ptr, decode_step c' hs b ptr with
  | Ok (_, hs1, r1), Ok (_, hs2, r2) => hs1 = hs2 /\ r1 = r2
  | Err e1, Err e2 => e1 = e2
  | UB, UB => True
  | _, _ => False
  end.
Proof.
  unfold decode_step.
  destruct (negb _).
  { destruct (decode_int ptr 7) as [[i r]|e|]; cbn; [|done..].
    destruct (_ && _)%bool; [by destruct (zlookup _ _) as [[??]|]|done]. }
  destruct (_ =? 64); [by destruct (decode_literal _ _ _) as [[??]|e|]|].
  destruct (_ =? 32); [by destruct (decode_int ptr 5) as [[??]|e|]|].
  by destruct (decode_literal _ _ _) as [[??]|e|].
Qed.

Lemma decode_ub_codec c c' data : decode c data = UB -> decode c' data = UB.
Proof.
  unfold decode. generalize (length data) as fuel. intros fuel. generalize (@nil (bytes * bytes)) as hs.
  revert c c' data. induction fuel as [|fuel IH]; intros c c' [|b data] hs; cbn [decode_loop]; try done.
  pose proof (decode_step_codec c c' hs (b2z b) (b :: data)) as Hc.
  destruct (decode_step c _ _ _) as [[[c1 h1] r1]|e1|], (decode_step c' _ _ _) as [[[c2 h2] r2]|e2|]; try done.
  destruct Hc as [<- <-]. apply IH.
Qed.

Lemma hpack_decode_ub c data : decode c data = UB -> hpack_decode data = UB.
Proof. intros H. unfold hpack_decode. by rewrite (decode_ub_codec c codec_new data H). Qed.

Lemma decode_rest_overlong bs : forall sh v b tl,
  Forall (fun b => 128 <= b2z b) bs -> 32 <= sh + 7 * blen bs ->
  decode_rest sh v (bs ++ b :: tl) = UB.
Proof.
  induction bs as [|a bs IH]; intros sh v b tl Hb Hs; cbn [app decode_rest].
  - rewrite (@blen_nil byte) in Hs. ifz; [done|lia].
  - inversion Hb; subst. rewrite blen_cons in Hs. ifz; [done|].
    rewrite byte_high_bit. ifz; [lia|]. apply IH; [done|lia].
Qed.

(** The continuation loop of [decode_int] has no bound on [shift]: five
    continuation bytes followed by any byte make it shift by 35 bits, which is
    undefined behaviour, whatever the peer put in them. *)
Theorem hpack_overlong_integer_ub bs b tl :
  Forall (fun b => 128 <= b2z b) bs -> 5 <= blen bs ->
  decode_int (xff :: bs ++ b :: tl) 7 = UB.
Proof. intros Hb Hl. apply decode_rest_overlong; [done|lia]. Qed.

Lemma hpack_overlong_integer_ub_witness :
  decode_int (xff :: [x80; x80; x80; x80; x80] ++ [x00]) 7 = UB.
Proof.
  apply hpack_overlong_integer_ub; [|unfold blen; cbn; lia].
  repeat constructor; unfold b2z; cbn; lia.
Defined.

(** A literal field without indexing whose static name index is 16
    or more is written by every RFC 7541 encoder as a 4-bit prefix integer; the
    decoder takes the four bits as the index and never recovers the field. *)
Theorem hpack_literal_high_index_lost :
  Forall (fun i => hpack_decode (encode_int i 0 4 ++ encode_string (str "a"))
                   <> Ok ([((default ([], []) (zlookup static_table (i - 1))).1, str "a")], PROTOCOL_OK))
         (map Z.of_nat (List.seq 15 47)).
Proof.
  repeat (constructor; [vm_compute; discriminate|]). constructor.
Qed.

End Hpack.
