(* ===== verification/Stats.v ===== *)
(** [utils::StatisticsManager] (utils/include/utils/statistics.hpp,
    utils/source/statistics.cpp). Each member function is one atomic transition
    of the record of counters; counters wrap at their C++ width. *)

From stdpp Require Import sorting.
From S2P Require Import Prelude.

Module Statistics.

Definition MAX_LATENCIES : Z := 100000.

Record t := mk {
  total_connections_ : Z;
  current_connections_ : Z;
  total_requests_ : Z;
  total_bytes_received_ : Z;
  total_bytes_sent_ : Z;
  requests_last_second_ : Z;
  requests_current_second_ : Z;
  requests_per_second_ : Z;
  latencies_ : list Z;
  avg_latency_ms_ : Z;
  p50_latency_ms_ : Z;
  p95_latency_ms_ : Z;
  p99_latency_ms_ : Z;
}.

Definition init : t := mk 0 0 0 0 0 0 0 0 [] 0 0 0 0.

(** The counters but for the latency fields. *)
Definition with_counters (s : t) (tc cc tr br bs rl rc rps : Z) : t :=
  mk tc cc tr br bs rl rc rps (latencies_ s) (avg_latency_ms_ s) (p50_latency_ms_ s)
     (p95_latency_ms_ s) (p99_latency_ms_ s).

Definition with_latencies (s : t) (l : list Z) (avg p50 p95 p99 : Z) : t :=
  mk (total_connections_ s) (current_connections_ s) (total_requests_ s)
     (total_bytes_received_ s) (total_bytes_sent_ s) (requests_last_second_ s)
     (requests_current_second_ s) (requests_per_second_ s) l avg p50 p95 p99.

Definition record_connection (s : t) : t :=
  with_counters s (u64 (total_connections_ s + 1)) (u32 (current_connections_ s + 1))
    (total_requests_ s) (total_bytes_received_ s) (total_bytes_sent_ s)
    (requests_last_second_ s) (requests_current_second_ s) (requests_per_second_ s).

(** The compare-exchange loop decrements unless the counter is 0. *)
Definition record_connection_close (s : t) : t :=
  let current := current_connections_ s in
  with_counters s (total_connections_ s) (if 0 <? current then current - 1 else current)
    (total_requests_ s) (total_bytes_received_ s) (total_bytes_sent_ s)
    (requests_last_second_ s) (requests_current_second_ s) (requests_per_second_ s).

Definition record_request (s : t) : t :=
  with_counters s (total_connections_ s) (current_connections_ s) (u64 (total_requests_ s + 1))
    (total_bytes_received_ s) (total_bytes_sent_ s) (requests_last_second_ s)
    (u64 (requests_current_second_ s + 1)) (requests_per_second_ s).

(** The sliding window of [record_latency]: a full vector first drops its older
    half. *)
Definition push_latency (l : list Z) (latency_ms : Z) : list Z :=
  let l1 := if MAX_LATENCIES <=? blen l
            then ztake (MAX_LATENCIES / 2) (zdrop (MAX_LATENCIES / 2) l)
            else l in
  l1 ++ [latency_ms].

Definition record_latency (s : t) (latency_ms : Z) : t :=
  with_latencies s (push_latency (latencies_ s) latency_ms) (avg_latency_ms_ s)
    (p50_latency_ms_ s) (p95_latency_ms_ s) (p99_latency_ms_ s).

Definition record_bytes_received (s : t) (n : Z) : t :=
  with_counters s (total_connections_ s) (current_connections_ s) (total_requests_ s)
    (u64 (total_bytes_received_ s + n)) (total_bytes_sent_ s) (requests_last_second_ s)
    (requests_current_second_ s) (requests_per_second_ s).

Definition record_bytes_sent (s : t) (n : Z) : t :=
  with_counters s (total_connections_ s) (current_connections_ s) (total_requests_ s)
    (total_bytes_received_ s) (u64 (total_bytes_sent_ s + n)) (requests_last_second_ s)
    (requests_current_second_ s) (requests_per_second_ s).

(** The output structure [Statistics]. *)
Record report := {
  total_connections : Z;
  total_requests : Z;
  requests_per_second : Z;
  avg_response_latency_ms : Z;
  p50_response_latency_ms : Z;
  p95_response_latency_ms : Z;
  p99_response_latency_ms : Z;
  total_bytes_received : Z;
  total_bytes_sent : Z;
}.

(** [get_statistics] on a non-null pointer. *)
Definition get_statistics (s : t) : report := {|
  total_connections := total_connections_ s;
  total_requests := total_requests_ s;
  requests_per_second := requests_per_second_ s;
  avg_response_latency_ms := avg_latency_ms_ s;
  p50_response_latency_ms := p50_latency_ms_ s;
  p95_response_latency_ms := p95_latency_ms_ s;
  p99_response_latency_ms := p99_latency_ms_ s;
  total_bytes_received := total_bytes_received_ s;
  total_bytes_sent := total_bytes_sent_ s;
|}.

(** [sorted[(n - 1) * P / 100]]. *)
Definition percentile (sorted : list Z) (p : Z) : Z :=
  default 0 (zlookup sorted ((blen sorted - 1) * p / 100)).

Definition sum (l : list Z) : Z := foldr Z.add 0 l.

Definition calculate_percentiles (s : t) : t :=
  let l := latencies_ s in
  if blen l =? 0 then with_latencies s l 0 0 0 0
  else
    let sorted := merge_sort Z.le l in
    with_latencies s l (u32 (u64 (sum sorted) / blen sorted))
      (percentile sorted 50) (percentile sorted 95) (percentile sorted 99).

Definition update (s : t) : t :=
  let current := requests_current_second_ s in
  calculate_percentiles
    (with_counters s (total_connections_ s) (current_connections_ s) (total_requests_ s)
      (total_bytes_received_ s) (total_bytes_sent_ s) current 0 current).

Definition reset (s : t) : t := init.

(** * Lemmas *)

Lemma sort_sorted l : StronglySorted Z.le (merge_sort Z.le l).
Proof.
  apply StronglySorted_merge_sort; [intros ???; lia|intros ??; lia].
Qed.

Lemma sort_perm l : merge_sort Z.le l ≡ₚ l.
Proof. apply merge_sort_Permutation. Qed.

Lemma sort_blen l : blen (merge_sort Z.le l) = blen l.
Proof. unfold blen. by rewrite sort_perm. Qed.

Lemma sorted_lookup_le (l : list Z) (i j : nat) x y :
  StronglySorted Z.le l -> (i <= j)%nat -> l !! i = Some x -> l !! j = Some y -> x <= y.
Proof.
  intros Hs. revert i j. induction Hs as [|a l Hs IH Hall]; intros i j Hij Hx Hy; [done|].
  destruct i as [|i], j as [|j]; cbn in *; [by simplify_eq/=; lia| |lia|eapply IH; [|done|done]; lia].
  simplify_eq/=. rewrite Forall_lookup in Hall. by eapply Hall.
Qed.

Lemma percentile_index (l : list Z) p :
  0 < blen l -> 0 <= p <= 100 -> 0 <= (blen l - 1) * p / 100 < blen l.
Proof.
  intros Hl Hp. split; [apply Z.div_pos; nia|].
  apply Z.div_lt_upper_bound; [lia|]. nia.
Qed.

Lemma percentile_lookup (l : list Z) p :
  0 < blen l -> 0 <= p <= 100 ->
  l !! Z.to_nat ((blen l - 1) * p / 100) = Some (percentile l p).
Proof.
  intros Hl Hp. pose proof (percentile_index l p Hl Hp) as Hi. unfold percentile.
  destruct (zlookup_lt l _ Hi) as [x Hx]. rewrite Hx. rewrite zlookup_nat in Hx by lia. done.
Qed.

Lemma percentile_mono l p q :
  StronglySorted Z.le l -> 0 < blen l -> 0 <= p <= q -> q <= 100 -> percentile l p <= percentile l q.
Proof.
  intros Hs Hl Hpq Hq. eapply sorted_lookup_le; [done| |apply percentile_lookup; lia..].
  apply Z2Nat.inj_le; try (apply Z.div_pos; nia). apply Z.div_le_mono; nia.
Qed.

(** Number of elements at most [x]. *)
Definition count_le (x : Z) (l : list Z) : nat := length (filter (fun y => y <= x) l).
Definition count_ge (x : Z) (l : list Z) : nat := length (filter (fun y => x <= y) l).

Lemma count_le_sorted (l : list Z) (i : nat) x :
  StronglySorted Z.le l -> l !! i = Some x -> (i < count_le x l)%nat.
Proof.
  intros Hs. revert i. induction Hs as [|a l Hs IH Hall]; intros i Hx; [done|].
  assert (a <= x).
  { destruct i; cbn in Hx; [simplify_eq; lia|]. rewrite Forall_lookup in Hall. eauto. }
  unfold count_le in *. rewrite filter_cons_True by done. cbn [length].
  destruct i as [|i]; [lia|]. specialize (IH i Hx). lia.
Qed.

Lemma filter_Forall_id (P : Z -> Prop) `{forall x, Decision (P x)} l :
  Forall P l -> filter P l = l.
Proof. induction 1 as [|x l Hx Hl IH]; [done|]. by rewrite filter_cons_True, IH. Qed.

Lemma count_ge_sorted (l : list Z) (i : nat) x :
  StronglySorted Z.le l -> l !! i = Some x -> (length l - i <= count_ge x l)%nat.
Proof.
  intros Hs. revert i. induction Hs as [|a l Hs IH Hall]; intros i Hx; [done|].
  unfold count_ge in *. destruct i as [|i]; cbn in Hx.
  - simplify_eq. rewrite filter_Forall_id; [cbn; lia|]. constructor; [lia|].
    eapply Forall_impl; [exact Hall|]. cbn. lia.
  - specialize (IH i Hx). cbn [length]. rewrite filter_cons. case_decide; cbn [length]; lia.
Qed.

Lemma count_perm (P : Z -> Prop) `{forall x, Decision (P x)} l k :
  l ≡ₚ k -> length (filter P l) = length (filter P k).
Proof. intros Hp. by rewrite Hp. Qed.

Lemma sum_bounds l lo hi : Forall (fun x => lo <= x <= hi) l -> lo * blen l <= sum l <= hi * blen l.
Proof.
  induction 1 as [|x l Hx Hl IH]; [unfold blen; cbn; lia|]. rewrite blen_cons. cbn [sum foldr]. fold (sum l). lia.
Qed.

(** * Properties *)

(** After [update] on a non-empty window, each reported percentile
    is a recorded latency whose rank is the documented one (more than
    [(n-1)*P/100] samples are at most it, and at least [n - (n-1)*P/100] are at
    least it), the three are ordered, and the average lies within the samples'
    range. *)
Theorem update_percentiles s p get lo hi :
  latencies_ s <> [] -> blen (latencies_ s) <= MAX_LATENCIES ->
  Forall (fun x => lo <= x <= hi) (latencies_ s) -> 0 <= lo -> hi < 2 ^ 32 ->
  In (p, get) [(50, p50_latency_ms_); (95, p95_latency_ms_); (99, p99_latency_ms_)] ->
  let s' := update s in
  let n := blen (latencies_ s) in
  let idx := (n - 1) * p / 100 in
  In (get s') (latencies_ s) /\
  idx < Z.of_nat (count_le (get s') (latencies_ s)) /\
  n - idx <= Z.of_nat (count_ge (get s') (latencies_ s)) /\
  p50_latency_ms_ s' <= p95_latency_ms_ s' <= p99_latency_ms_ s' /\
  lo <= avg_latency_ms_ s' <= hi.
Proof.
  intros Hne Hmax Hb Hlo Hhi Hin. cbv zeta. set (l := latencies_ s) in *.
  assert (Hn : 0 < blen l) by (pose proof (blen_nonneg l); destruct l; [done|rewrite blen_cons in *; blia]).
  assert (Hs' : update s = with_latencies (update s) l (u32 (u64 (sum (merge_sort Z.le l)) / blen l))
    (percentile (merge_sort Z.le l) 50) (percentile (merge_sort Z.le l) 95)
    (percentile (merge_sort Z.le l) 99)).
  { unfold update, calculate_percentiles. cbn [latencies_ with_counters]. fold l.
    ifz; [lia|]. rewrite sort_blen. reflexivity. }
  rewrite Hs'. cbn [with_latencies p50_latency_ms_ p95_latency_ms_ p99_latency_ms_ avg_latency_ms_].
  pose proof (sort_sorted l) as Hso. pose proof (sort_perm l) as Hp.
  assert (Hsl : 0 < blen (merge_sort Z.le l)) by (rewrite sort_blen; done).
  assert (Hget : get (update s) = percentile (merge_sort Z.le l) p /\ 0 <= p <= 100).
  { rewrite Hs'. destruct Hin as [[= <- <-]|[[= <- <-]|[[= <- <-]|[]]]]; (split; [done|lia]). }
  destruct Hget as [Hget Hp100]. rewrite <- Hs', Hget.
  pose proof (percentile_lookup _ p Hsl Hp100) as Hlk. rewrite sort_blen in Hlk.
  pose proof (percentile_index l p Hn Hp100) as Hidx.
  split; [|split; [|split; [|split; [split|]]]].
  - apply list_elem_of_lookup_2 in Hlk. apply list_elem_of_In.
    revert Hlk. generalize (percentile (merge_sort Z.le l) p). intros x. by rewrite Hp.
  - apply count_le_sorted in Hlk; [|done]. unfold count_le in *.
    rewrite (count_perm _ _ _ Hp) in Hlk. lia.
  - apply count_ge_sorted in Hlk; [|done]. unfold count_ge in *.
    rewrite (count_perm _ _ _ Hp) in Hlk.
    pose proof (sort_blen l) as Hsb. unfold blen in *. lia.
  - apply percentile_mono; (done || lia).
  - apply percentile_mono; (done || lia).
  - assert (Hbs : Forall (fun x => lo <= x <= hi) (merge_sort Z.le l)) by (by rewrite Hp).
    apply sum_bounds in Hbs. rewrite sort_blen in Hbs. unfold u64, u32, wrap, MAX_LATENCIES in *.
    rewrite (Z.mod_small (sum _)) by nia.
    assert (lo <= sum (merge_sort Z.le l) / blen l <= hi).
    { split; [apply Z.div_le_lower_bound; lia|]. apply Z.div_le_upper_bound; lia. }
    rewrite Z.mod_small; lia.
Qed.

Definition sample : t := foldl record_latency init [30; 10; 20; 40; 50].

Lemma update_percentiles_witness :
  let s' := update sample in
  In (p95_latency_ms_ s') [30; 10; 20; 40; 50] /\ 4 * 95 / 100 < Z.of_nat (count_le (p95_latency_ms_ s') [30; 10; 20; 40; 50]) /\
  5 - 4 * 95 / 100 <= Z.of_nat (count_ge (p95_latency_ms_ s') [30; 10; 20; 40; 50]) /\
  p50_latency_ms_ s' <= p95_latency_ms_ s' <= p99_latency_ms_ s' /\ 10 <= avg_latency_ms_ s' <= 50.
Proof.
  apply (update_percentiles sample 95 p95_latency_ms_ 10 50).
  - discriminate.
  - vm_compute. discriminate.
  - repeat constructor; vm_compute; discriminate.
  - lia.
  - lia.
  - cbn. auto.
Defined.

Lemma push_latency_suffix xs l x :
  (exists old, xs = old ++ l) -> MAX_LATENCIES / 2 <= blen l \/ l = xs -> blen l <= MAX_LATENCIES ->
  (exists old, xs ++ [x] = old ++ push_latency l x) /\
  (MAX_LATENCIES / 2 <= blen (push_latency l x) \/ push_latency l x = xs ++ [x]) /\
  blen (push_latency l x) <= MAX_LATENCIES.
Proof.
  intros [old ->] Hl Hm. unfold push_latency, MAX_LATENCIES in *.
  change (100000 / 2) with 50000 in *. ifz.
  - assert (Ht : ztake 50000 (zdrop 50000 l) = zdrop 50000 l) by (apply ztake_ge; blia).
    rewrite Ht. split; [|split; [left; blia|blia]].
    exists (old ++ ztake 50000 l). rewrite <- !app_assoc. f_equal.
    by rewrite app_assoc, ztake_zdrop.
  - split; [exists old; by rewrite app_assoc|]. split; [|blia].
    destruct Hl as [Hl|Hl]; [left; blia|right; by rewrite <- Hl].
Qed.

(** However many latencies are recorded, the window never exceeds
    [MAX_LATENCIES], it always is the most recent ones in order, and it never
    holds fewer than half of the maximum once that many were recorded. *)
Theorem latency_window s xs :
  latencies_ s = [] ->
  let l := latencies_ (foldl record_latency s xs) in
  (exists old, xs = old ++ l) /\ (MAX_LATENCIES / 2 <= blen l \/ l = xs) /\ blen l <= MAX_LATENCIES.
Proof.
  intros Hs. cbv zeta.
  induction xs as [|x xs IH] using rev_ind.
  - cbn [foldl]. rewrite Hs. split; [by exists []|]. split; [by right|].
    rewrite blen_nil. unfold MAX_LATENCIES. lia.
  - rewrite foldl_app. cbn [foldl record_latency with_latencies latencies_].
    destruct IH as (H1 & H2 & H3). by apply push_latency_suffix.
Qed.

Lemma latency_window_witness :
  latencies_ init = [] /\
  (exists old, [7; 8; 9] = old ++ latencies_ (foldl record_latency init [7; 8; 9])) /\
  (MAX_LATENCIES / 2 <= blen (latencies_ (foldl record_latency init [7; 8; 9])) \/
   latencies_ (foldl record_latency init [7; 8; 9]) = [7; 8; 9]) /\
  blen (latencies_ (foldl record_latency init [7; 8; 9])) <= MAX_LATENCIES.
Proof. split; [reflexivity|]. apply (latency_window init [7; 8; 9]). reflexivity. Defined.

End Statistics.
