(* ===== verification/StatsThreads.v ===== *)
(** [utils::StatisticsManager] used by several threads
    (utils/source/statistics.cpp): every step is one atomic access to a counter,
    or one critical section of [latencies_mutex_]. The accesses are relaxed;
    the steps are interleaved in one order, but nothing below relates values that
    one thread reads from two counters. *)

From S2P Require Import Prelude Stats.

Module StatsThreads.
Import Statistics.

(** The calls of the member functions. *)
Inductive call :=
| RecordConnection | RecordConnectionClose | RecordRequest | RecordLatency (latency_ms : Z)
| RecordBytesReceived (bytes : Z) | RecordBytesSent (bytes : Z)
| GetStatistics | Update | Reset.

(** Where a call is. [CloseTest]: at the condition of the loop, with [current] in
    its local variable; [Reading i r]: before the [i]-th read of
    [get_statistics]; [Resetting i]: before the [i]-th store of [reset]. *)
Inductive pc :=
| ConnTotal | ConnCurrent
| CloseLoad | CloseTest (current : Z)
| ReqTotal | ReqCurrent
| PushLatency (latency_ms : Z)
| Received (bytes : Z) | Sent (bytes : Z)
| Reading (i : nat) (r : report)
| UpdExchange | UpdRps (current : Z) | UpdLast (current : Z) | UpdPercentiles
| Resetting (i : nat)
| Returned
| Reported (r : report).

Definition no_report : report := get_statistics init.
Definition entry (c : call) : pc :=
  match c with
  | RecordConnection => ConnTotal
  | RecordConnectionClose => CloseLoad
  | RecordRequest => ReqTotal
  | RecordLatency ms => PushLatency ms
  | RecordBytesReceived n => Received n
  | RecordBytesSent n => Sent n
  | GetStatistics => Reading 0 no_report
  | Update => UpdExchange
  | Reset => Resetting 0
  end.

(** The accesses to one counter. *)
Definition add_total_connections (n : Z) (s : Statistics.t) :=
  with_counters s (u64 (total_connections_ s + n)) (current_connections_ s) (total_requests_ s) (total_bytes_received_ s)
    (total_bytes_sent_ s) (requests_last_second_ s) (requests_current_second_ s) (requests_per_second_ s).
Definition put_current_connections (n : Z) (s : Statistics.t) :=
  with_counters s (total_connections_ s) n (total_requests_ s) (total_bytes_received_ s)
    (total_bytes_sent_ s) (requests_last_second_ s) (requests_current_second_ s) (requests_per_second_ s).
Definition add_total_requests (n : Z) (s : Statistics.t) :=
  with_counters s (total_connections_ s) (current_connections_ s) (u64 (total_requests_ s + n)) (total_bytes_received_ s)
    (total_bytes_sent_ s) (requests_last_second_ s) (requests_current_second_ s) (requests_per_second_ s).
Definition put_requests_current (n : Z) (s : Statistics.t) :=
  with_counters s (total_connections_ s) (current_connections_ s) (total_requests_ s) (total_bytes_received_ s)
    (total_bytes_sent_ s) (requests_last_second_ s) n (requests_per_second_ s).
Definition put_requests_per_second (n : Z) (s : Statistics.t) :=
  with_counters s (total_connections_ s) (current_connections_ s) (total_requests_ s) (total_bytes_received_ s)
    (total_bytes_sent_ s) (requests_last_second_ s) (requests_current_second_ s) n.
Definition put_requests_last (n : Z) (s : Statistics.t) :=
  with_counters s (total_connections_ s) (current_connections_ s) (total_requests_ s) (total_bytes_received_ s)
    (total_bytes_sent_ s) n (requests_current_second_ s) (requests_per_second_ s).

(** One round of the compare-exchange loop, with [current] as last read. The weak
    exchange may fail for no reason ([spurious]). *)
Definition close_round (spurious : bool) (current : Z) (s : Statistics.t) : Statistics.t * pc :=
  if negb (0 <? current) then (s, Returned)
  else if negb spurious && (current_connections_ s =? current)
  then (put_current_connections (current - 1) s, Returned)
  else (s, CloseTest (current_connections_ s)).

(** The reads of [get_statistics]; the last one copies the latencies under the
    lock. *)
Definition read_step (i : nat) (s : Statistics.t) (r : report) : report * option nat :=
  let f tc tr rps br bs := Build_report tc tr rps (avg_response_latency_ms r) (p50_response_latency_ms r)
    (p95_response_latency_ms r) (p99_response_latency_ms r) br bs in
  match i with
  | O => (f (total_connections_ s) (total_requests r) (requests_per_second r) (total_bytes_received r) (total_bytes_sent r), Some 1%nat)
  | 1%nat => (f (total_connections r) (total_requests_ s) (requests_per_second r) (total_bytes_received r) (total_bytes_sent r), Some 2%nat)
  | 2%nat => (f (total_connections r) (total_requests r) (requests_per_second_ s) (total_bytes_received r) (total_bytes_sent r), Some 3%nat)
  | 3%nat => (f (total_connections r) (total_requests r) (requests_per_second r) (total_bytes_received_ s) (total_bytes_sent r), Some 4%nat)
  | 4%nat => (f (total_connections r) (total_requests r) (requests_per_second r) (total_bytes_received r) (total_bytes_sent_ s), Some 5%nat)
  | _ => (Build_report (total_connections r) (total_requests r) (requests_per_second r) (avg_latency_ms_ s)
            (p50_latency_ms_ s) (p95_latency_ms_ s) (p99_latency_ms_ s) (total_bytes_received r) (total_bytes_sent r), None)
  end.

(** The stores of [reset]; the last step clears the latencies under the lock. *)
Definition reset_step (i : nat) (s : Statistics.t) : Statistics.t * option nat :=
  let put tc cc tr br bs rl rc rps := with_counters s tc cc tr br bs rl rc rps in
  let '(mk tc cc tr br bs rl rc rps _ _ _ _ _) := s in
  match i with
  | O => (put 0 cc tr br bs rl rc rps, Some 1%nat)
  | 1%nat => (put tc 0 tr br bs rl rc rps, Some 2%nat)
  | 2%nat => (put tc cc 0 br bs rl rc rps, Some 3%nat)
  | 3%nat => (put tc cc tr 0 bs rl rc rps, Some 4%nat)
  | 4%nat => (put tc cc tr br 0 rl rc rps, Some 5%nat)
  | 5%nat => (put tc cc tr br bs 0 rc rps, Some 6%nat)
  | 6%nat => (put tc cc tr br bs rl 0 rps, Some 7%nat)
  | 7%nat => (put tc cc tr br bs rl rc 0, Some 8%nat)
  | _ => (with_latencies s [] 0 0 0 0, None)
  end.

(** A thread's next step. *)
Definition advance (spurious : bool) (p : pc) (s : Statistics.t) : Statistics.t * pc :=
  match p with
  | ConnTotal => (add_total_connections 1 s, ConnCurrent)
  | ConnCurrent => (put_current_connections (u32 (current_connections_ s + 1)) s, Returned)
  | CloseLoad => (s, CloseTest (current_connections_ s))
  | CloseTest current => close_round spurious current s
  | ReqTotal => (add_total_requests 1 s, ReqCurrent)
  | ReqCurrent => (put_requests_current (u64 (requests_current_second_ s + 1)) s, Returned)
  | PushLatency ms => (record_latency s ms, Returned)
  | Received n => (record_bytes_received s n, Returned)
  | Sent n => (record_bytes_sent s n, Returned)
  | Reading i r =>
      match read_step i s r with (r, Some i) => (s, Reading i r) | (r, None) => (s, Reported r) end
  | UpdExchange => (put_requests_current 0 s, UpdRps (requests_current_second_ s))
  | UpdRps v => (put_requests_per_second v s, UpdLast v)
  | UpdLast v => (put_requests_last v s, UpdPercentiles)
  | UpdPercentiles => (calculate_percentiles s, Returned)
  | Resetting i =>
      match reset_step i s with (s, Some i) => (s, Resetting i) | (s, None) => (s, Returned) end
  | Returned | Reported _ => (s, p)
  end.

(** The manager and every call so far, [threads] at its point; [begun] and
    [rates] record what happened: the calls, and the values the calls of
    [update] have taken out of [requests_current_second_]. *)
Record t := mk { stats : Statistics.t; threads : list pc; begun : list call; rates : list Z }.
Definition start : t := mk init [] [] [].

Inductive label := Call (c : call) | Run (i : nat) (spurious : bool).

Definition step (l : label) (s : t) : option t :=
  match l with
  | Call c => Some (mk (stats s) (threads s ++ [entry c]) (begun s ++ [c]) (rates s))
  | Run i spurious =>
      p ← threads s !! i;
      let '(st, q) := advance spurious p (stats s) in
      Some (mk st (<[i := q]> (threads s)) (begun s)
              (match p with UpdExchange => rates s ++ [requests_current_second_ (stats s)] | _ => rates s end))
  end.

(** * What the calls amount to *)

Definition opens (c : call) : nat := match c with RecordConnection => 1 | _ => 0 end.
Definition closes (c : call) : nat := match c with RecordConnectionClose => 1 | _ => 0 end.
Definition requests (c : call) : nat := match c with RecordRequest => 1 | _ => 0 end.
Definition received (c : call) : nat := match c with RecordBytesReceived n => Z.to_nat n | _ => 0 end.
Definition sent (c : call) : nat := match c with RecordBytesSent n => Z.to_nat n | _ => 0 end.

(** What the calls under way have still to do. *)
Definition to_total (p : pc) : nat := match p with ConnTotal => 1 | _ => 0 end.
Definition to_open (p : pc) : nat := match p with ConnTotal | ConnCurrent => 1 | _ => 0 end.
Definition to_close (p : pc) : nat := match p with CloseLoad | CloseTest _ => 1 | _ => 0 end.
Definition to_request (p : pc) : nat := match p with ReqTotal => 1 | _ => 0 end.
Definition to_rate (p : pc) : nat := match p with ReqTotal | ReqCurrent => 1 | _ => 0 end.
Definition to_receive (p : pc) : nat := match p with Received n => Z.to_nat n | _ => 0 end.
Definition to_send (p : pc) : nat := match p with Sent n => Z.to_nat n | _ => 0 end.

Definition made (f : call -> nat) (s : t) : Z := Z.of_nat (sum_list_with f (begun s)).
Definition pending (f : pc -> nat) (s : t) : Z := Z.of_nat (sum_list_with f (threads s)).

(** The calls the program is to make: a connection is closed after it was
    recorded and once, nothing is reset, and no total reaches its width. *)
Definition fits (b : list call) : bool :=
  (Z.of_nat (sum_list_with opens b) <? 2 ^ 32) && (Z.of_nat (sum_list_with requests b) <? 2 ^ 64) &&
  (Z.of_nat (sum_list_with received b) <? 2 ^ 64) && (Z.of_nat (sum_list_with sent b) <? 2 ^ 64).
Definition allowed (l : label) (s : t) : bool :=
  match l with
  | Run _ _ => true
  | Call c =>
      fits (begun s ++ [c]) &&
      match c with
      | RecordConnectionClose => made closes s <? made opens s - pending to_open s
      | RecordBytesReceived n | RecordBytesSent n => 0 <=? n
      | Reset => false
      | _ => true
      end
  end.

Definition client_step (l : label) (s : t) : option t := if allowed l s then step l s else None.
Definition exec : list label -> t -> option t := run_steps client_step.

(** * The counters agree with the calls *)

Definition pc_ok (p : pc) : Prop :=
  match p with CloseTest v => 0 < v | Received n | Sent n => 0 <= n | Resetting _ => False | _ => True end.

Record inv (s : t) : Prop := {
  i_total : total_connections_ (stats s) + pending to_total s = made opens s;
  i_current : current_connections_ (stats s) + pending to_open s + made closes s = made opens s + pending to_close s;
  i_requests : total_requests_ (stats s) + pending to_request s = made requests s;
  i_rates : requests_current_second_ (stats s) + sum (rates s) + pending to_rate s = made requests s;
  i_received : total_bytes_received_ (stats s) + pending to_receive s = made received s;
  i_sent : total_bytes_sent_ (stats s) + pending to_send s = made sent s;
  i_close : made closes s + pending to_open s <= made opens s;
  i_closing : pending to_close s <= made closes s;
  i_pos : 0 <= total_connections_ (stats s) /\ 0 <= total_requests_ (stats s) /\ 0 <= requests_current_second_ (stats s) /\
    0 <= total_bytes_received_ (stats s) /\ 0 <= total_bytes_sent_ (stats s) /\ 0 <= sum (rates s);
  i_fits : fits (begun s) = true;
  i_pcs : Forall pc_ok (threads s);
}.

Lemma pending_call f c s b r st : pending f (mk st (threads s ++ [entry c]) b r) = pending f s + Z.of_nat (f (entry c)).
Proof. unfold pending. cbn. rewrite sum_list_with_app. cbn. lia. Qed.

Lemma made_call f c s st ts r : made f (mk st ts (begun s ++ [c]) r) = made f s + Z.of_nat (f c).
Proof. unfold made. cbn. rewrite sum_list_with_app. cbn. lia. Qed.

Lemma pending_run f i p q s b r st : threads s !! i = Some p ->
  pending f (mk st (<[i := q]> (threads s)) b r) = pending f s - Z.of_nat (f p) + Z.of_nat (f q) /\ Z.of_nat (f p) <= pending f s.
Proof.
  intros Hi. unfold pending. cbn. pose proof (sum_insert f (threads s) i p q Hi).
  pose proof (sum_lookup f (threads s) i p Hi). lia.
Qed.

Lemma sum_snoc l x : sum (l ++ [x]) = sum l + x.
Proof. unfold sum. induction l as [|y l IH]; cbn in *; lia. Qed.

Lemma fits_bounds s : fits (begun s) = true ->
  made opens s < 2 ^ 32 /\ made requests s < 2 ^ 64 /\ made received s < 2 ^ 64 /\ made sent s < 2 ^ 64.
Proof. unfold fits, made. rewrite !andb_true_iff, !Z.ltb_lt. tauto. Qed.

Lemma call_inv c s : inv s -> allowed (Call c) s = true ->
  inv (mk (stats s) (threads s ++ [entry c]) (begun s ++ [c]) (rates s)).
Proof.
  intros [] Ha. cbn [allowed] in Ha. rewrite andb_true_iff in Ha. destruct Ha as [Hf Ha].
  split; rewrite ?pending_call, ?made_call; cbn [stats rates begun threads]; try done;
    try (destruct c; cbn; zb; try done; lia).
  apply Forall_app. split; [done|]. constructor; [|constructor]. destruct c; cbn; zb; done.
Qed.

(** What [update] takes out of the current second. *)
Definition taken (p : pc) (st : Statistics.t) : Z := match p with UpdExchange => requests_current_second_ st | _ => 0 end.

(** A step moves what a call has still to do into its counter. *)
Lemma advance_counts spurious p st0 st q :
  advance spurious p st0 = (st, q) -> pc_ok p ->
  0 <= total_connections_ st0 -> total_connections_ st0 + Z.of_nat (to_total p) < 2 ^ 64 ->
  0 <= current_connections_ st0 -> current_connections_ st0 + Z.of_nat (to_open p) < 2 ^ 32 ->
  Z.of_nat (to_close p) <= current_connections_ st0 ->
  0 <= total_requests_ st0 -> total_requests_ st0 + Z.of_nat (to_request p) < 2 ^ 64 ->
  0 <= requests_current_second_ st0 -> requests_current_second_ st0 + Z.of_nat (to_rate p) < 2 ^ 64 ->
  0 <= total_bytes_received_ st0 -> total_bytes_received_ st0 + Z.of_nat (to_receive p) < 2 ^ 64 ->
  0 <= total_bytes_sent_ st0 -> total_bytes_sent_ st0 + Z.of_nat (to_send p) < 2 ^ 64 ->
  let moved (get : Statistics.t -> Z) (f : pc -> nat) := get st + Z.of_nat (f q) = get st0 + Z.of_nat (f p) in
  (moved total_connections_ to_total /\
   current_connections_ st + Z.of_nat (to_open q) + Z.of_nat (to_close p) = current_connections_ st0 + Z.of_nat (to_open p) + Z.of_nat (to_close q) /\
   moved total_requests_ to_request /\
   requests_current_second_ st + taken p st0 + Z.of_nat (to_rate q) = requests_current_second_ st0 + Z.of_nat (to_rate p) /\
   moved total_bytes_received_ to_receive /\ moved total_bytes_sent_ to_send) /\
  (to_open q <= to_open p)%nat /\ (to_close q <= to_close p)%nat /\ pc_ok q /\
  0 <= total_connections_ st /\ 0 <= total_requests_ st /\ 0 <= requests_current_second_ st /\
  0 <= total_bytes_received_ st /\ 0 <= total_bytes_sent_ st.
Proof.
  cbv zeta. intros Ea Hp. destruct p; cbn [advance to_total to_open to_close to_request to_rate to_receive to_send pc_ok] in *.
  4: unfold close_round in Ea; destruct (negb (0 <? current)) eqn:E0; zb; [lia|];
     destruct (negb spurious && (current_connections_ st0 =? current)) eqn:Ec; zb.
  11: destruct (read_step i st0 r) as [r' [i'|]].
  17: done.
  16: unfold calculate_percentiles in Ea; destruct (blen (latencies_ st0) =? 0).
  all: injection Ea as <- <-; intros; cbn; unfold u64, u32, wrap; rewrite ?Z.mod_small by lia; try (repeat split; lia).
Qed.

Lemma access_inv i spurious s s' : inv s -> step (Run i spurious) s = Some s' -> inv s'.
Proof.
  intros [] Hs. destruct (fits_bounds s i_fits0) as (Ho & Hr & Hrec & Hsent). cbn [step] in Hs.
  destruct (threads s !! i) as [p|] eqn:Hi; [|done]. cbn [mbind option_bind] in Hs.
  pose proof (Forall_lookup_1 _ _ _ _ i_pcs0 Hi) as Hp.
  destruct (advance spurious p (stats s)) as [st q] eqn:Ea. injection Hs as <-.
  pose proof (fun f b r => pending_run f i p q s b r st Hi) as Hpend.
  assert (Hle : forall f, Z.of_nat (f p) <= pending f s) by (intros f; apply (Hpend f [] [])).
  pose proof (Hle to_total); pose proof (Hle to_open); pose proof (Hle to_close); pose proof (Hle to_request);
    pose proof (Hle to_rate); pose proof (Hle to_receive); pose proof (Hle to_send).
  assert (Hopen : (to_total p <= to_open p)%nat) by (destruct p; cbn; lia).
  destruct (advance_counts spurious p (stats s) st q Ea Hp) as ((? & ? & ? & ? & ? & ?) & ? & ? & Hq & Hpos); try lia.
  assert (Hrates : sum (match p with UpdExchange => rates s ++ [requests_current_second_ (stats s)] | _ => rates s end)
    = sum (rates s) + taken p (stats s)) by (destruct p; cbn [taken]; rewrite ?sum_snoc; lia).
  assert (Htaken : 0 <= taken p (stats s)) by (destruct p; cbn; lia).
  split; cbn [stats rates begun threads]; rewrite ?(fun f b r => proj1 (Hpend f b r)), ?Hrates; try done;
    try (unfold made in *; cbn [begun] in *; lia).
  by apply Forall_insert.
Qed.

Lemma client_step_inv l s s' : inv s -> client_step l s = Some s' -> inv s'.
Proof.
  unfold client_step. destruct (allowed l s) eqn:Ha; [|done]. destruct l as [c|i spurious]; [|apply access_inv].
  intros Hi [= <-]. by apply call_inv.
Qed.

Lemma counters_start_inv : inv start.
Proof. by split. Qed.

(** C16. The counters under concurrent use. Whatever calls are made from whatever
    threads, their accesses interleaved in any way and the weak exchange failing
    at will, as long as each connection is closed once and after it was recorded,
    nothing is reset and no total reaches the width of its counter: no update is
    lost. Every total is the number (or the sum) of the calls made, less what the
    calls under way have not added yet; the current connections are those
    recorded and not closed, never below zero, and no close gives up because it
    reads zero; every request is in exactly one second. *)
Theorem counters_exact ls s :
  exec ls start = Some s ->
  total_connections_ (stats s) = made opens s - pending to_total s /\
  current_connections_ (stats s) = (made opens s - pending to_open s) - (made closes s - pending to_close s) /\
  0 <= current_connections_ (stats s) /\
  (forall i current, threads s !! i = Some (CloseTest current) -> 0 < current) /\
  total_requests_ (stats s) = made requests s - pending to_request s /\
  sum (rates s) + requests_current_second_ (stats s) = made requests s - pending to_rate s /\
  total_bytes_received_ (stats s) = made received s - pending to_receive s /\
  total_bytes_sent_ (stats s) = made sent s - pending to_send s.
Proof.
  intros Hs. destruct (run_steps_keeps client_step inv ls (fun l s1 s2 _ => client_step_inv l s1 s2) start s counters_start_inv Hs) as [].
  assert (0 <= pending to_close s) by (unfold pending; lia).
  split_and!; try lia. intros i current Hi. exact (Forall_lookup_1 _ _ _ _ i_pcs0 Hi).
Qed.

(** Two connections opened at once; one is closed by a thread that has to retry
    because the other connection comes in between and because an exchange fails;
    two requests, one on either side of an [update]. *)
Definition demo : list label :=
  [Call RecordConnection; Call RecordConnection; Run 0 false; Run 1 false; Run 0 false; Call RecordConnectionClose;
   Run 2 false; Run 1 false; Call RecordRequest; Call Update; Run 2 false; Run 3 false; Run 3 false; Run 4 false; Call RecordRequest;
   Run 2 true; Run 5 false; Run 2 false; Run 4 false; Run 5 false; Run 4 false].

Lemma counters_exact_witness :
  let s := default start (exec demo start) in
  total_connections_ (stats s) = made opens s - pending to_total s /\
  current_connections_ (stats s) = (made opens s - pending to_open s) - (made closes s - pending to_close s) /\
  0 <= current_connections_ (stats s) /\
  (forall i current, threads s !! i = Some (CloseTest current) -> 0 < current) /\
  total_requests_ (stats s) = made requests s - pending to_request s /\
  sum (rates s) + requests_current_second_ (stats s) = made requests s - pending to_rate s /\
  total_bytes_received_ (stats s) = made received s - pending to_receive s /\
  total_bytes_sent_ (stats s) = made sent s - pending to_send s.
Proof. cbv zeta. apply (counters_exact demo). vm_compute. reflexivity. Defined.

Example demo_counts : (fun s => (total_connections_ (stats s), current_connections_ (stats s), rates s, requests_current_second_ (stats s), threads s)) <$> exec demo start
  = Some (2, 1, [1], 1, [Returned; Returned; Returned; Returned; UpdPercentiles; Returned]).
Proof. reflexivity. Qed.

(** Run alone, from any point and any values of the counters, a call returns
    within ten steps: the compare-exchange loop retries only because others
    succeed or the exchange fails for no reason. *)
Fixpoint alone (n : nat) (p : pc) (st : Statistics.t) : Statistics.t * pc :=
  match n with O => (st, p) | S n => let '(st, p) := advance false p st in alone n p st end.
Definition returned (p : pc) : bool := match p with Returned | Reported _ => true | _ => false end.

Lemma runs_alone p st : returned (alone 10 p st).2 = true.
Proof.
  destruct p; try done.
  - cbn. unfold close_round. destruct (0 <? current_connections_ st); cbn; [by rewrite Z.eqb_refl|done].
  - cbn. unfold close_round. ifz; [done|]. destruct (current_connections_ st =? current); [done|]. cbn. unfold close_round.
    destruct (0 <? current_connections_ st); cbn; [by rewrite Z.eqb_refl|done].
  - by do 6 (destruct i as [|i]; [done|]).
  - destruct st. by do 9 (destruct i as [|i]; [done|]).
Qed.

(** Without the discipline: a close that was never opened, or that a [reset]
    overtakes, is dropped, and the connection it was meant for stays counted. *)
Example close_first_is_dropped :
  (fun s => (current_connections_ (stats s), threads s)) <$>
    run_steps step [Call RecordConnectionClose; Run 0 false; Run 0 false; Call RecordConnection; Run 1 false; Run 1 false] start
  = Some (1, [Returned; Returned]).
Proof. reflexivity. Qed.

End StatsThreads.
