(* ===== verification/EventQ.v ===== *)
(** The event queue and the event loop of the message centre
    (msg_center/include/msg_center/event.hpp, event_queue.hpp, event_loop.hpp and
    msg_center/source/event_queue.cpp, event_loop.cpp).

    Every [EventQueue] method holds [mutex_] from its first to its last access,
    so it is one atomic transition. [H] is the type of the handlers
    ([std::function<void()>]), opaque to the queue. *)

From stdpp Require Import sorting.
From S2P Require Import Prelude.

Inductive EventType :=
| SHUTDOWN | ERROR | ACCEPT | READ | WRITE | CALLBACK_DONE | TIMEOUT | STATISTICS
| OTHER_TYPE (n : nat).   (* the value [8 + n], outside the enumerators *)

#[export] Instance EventType_eq_dec : EqDecision EventType.
Proof. solve_decision. Defined.

(** [static_cast<size_t>(event.type)]: smaller is more urgent. *)
Definition type_value (t : EventType) : Z :=
  match t with
  | SHUTDOWN => 0 | ERROR => 1 | ACCEPT => 2 | READ => 3 | WRITE => 4
  | CALLBACK_DONE => 5 | TIMEOUT => 6 | STATISTICS => 7
  | OTHER_TYPE n => 8 + Z.of_nat n
  end.

Definition kEventPriorityCount : Z := type_value STATISTICS + 1.

Record Event (H : Type) := mkEvent {
  type : EventType;
  conn_id : Z;
  fd : Z;
  user_data : Z;
  handler : option H;
}.
Arguments mkEvent {H}.
Arguments type {H}.
Arguments conn_id {H}.
Arguments fd {H}.
Arguments user_data {H}.
Arguments handler {H}.

Definition make_shutdown_event {H} : Event H := mkEvent SHUTDOWN 0 (-1) 0 None.
Definition make_callback_done_event {H} : Event H := mkEvent CALLBACK_DONE 0 (-1) 0 None.

Module EventQueue.
Section EventQueue.
Context {H : Type}.

Record t := mk {
  priority_queues_ : list (list (Event H));
  max_size_ : Z;
  size_ : Z;
  queue_closed_ : bool;
}.

Definition create (max_size : Z) : t :=
  mk (replicate (Z.to_nat kEventPriorityCount) []) max_size 0 false.

Definition push (q : t) (e : Event H) : t * bool :=
  if queue_closed_ q then (q, false)
  else if max_size_ q <=? size_ q then (q, false)
  else
    let priority := type_value (type e) in
    if (priority <? 0) || (kEventPriorityCount <=? priority) then (q, false)
    else (mk (alter (fun l => l ++ [e]) (Z.to_nat priority) (priority_queues_ q))
             (max_size_ q) (u64 (size_ q + 1)) (queue_closed_ q), true).

(** Index of the first non-empty queue, -1 when all are empty. *)
Fixpoint first_nonempty (i : Z) (qs : list (list (Event H))) : Z :=
  match qs with
  | [] => -1
  | [] :: r => first_nonempty (i + 1) r
  | (_ :: _) :: _ => i
  end.
Definition get_highest_priority_queue (q : t) : Z := first_nonempty 0 (priority_queues_ q).

(** The dequeue shared by [pop], [try_pop] and [pop_all]. *)
Definition try_pop (q : t) : t * option (Event H) :=
  let idx := get_highest_priority_queue q in
  if idx <? 0 then (q, None)
  else
    match zlookup (priority_queues_ q) idx with
    | Some (e :: r) =>
        (mk (<[Z.to_nat idx := r]> (priority_queues_ q)) (max_size_ q)
            (u64 (size_ q - 1)) (queue_closed_ q), Some e)
    | _ => (q, None)
    end.

(** One evaluation of the loop body of the blocking [pop]. *)
Inductive pop_result := Popped (e : Event H) | Blocked.
Definition pop (q : t) : t * pop_result :=
  match try_pop q with
  | (q', Some e) => (q', Popped e)
  | (q', None) => if queue_closed_ q then (q', Popped make_shutdown_event) else (q', Blocked)
  end.

Fixpoint pop_all (max_count : nat) (q : t) : t * list (Event H) :=
  match max_count with
  | O => (q, [])
  | S n =>
      match try_pop q with
      | (q', Some e) => let '(q2, es) := pop_all n q' in (q2, e :: es)
      | (q', None) => (q', [])
      end
  end.

Definition empty (q : t) : bool := size_ q =? 0.
Definition size (q : t) : Z := size_ q.
Definition is_closed (q : t) : bool := queue_closed_ q.
Definition wake_up (q : t) : t := mk (priority_queues_ q) (max_size_ q) (size_ q) true.
Definition close (q : t) : t := wake_up q.

(** * Abstract specification: the pending events in arrival order *)

Definition prio (e : Event H) : Z := type_value (type e).

Definition of_prio (i : nat) (l : list (Event H)) : list (Event H) :=
  filter (fun e => prio e = Z.of_nat i) l.

(** The detailed queue [q] holds exactly the pending events [l]. *)
Record represents (q : t) (l : list (Event H)) : Prop := {
  rep_len : length (priority_queues_ q) = 8%nat;
  rep_queue i : (i < 8)%nat -> priority_queues_ q !! i = Some (of_prio i l);
  rep_size : size_ q = blen l;
  rep_valid : Forall (fun e => 0 <= prio e < 8) l;
  rep_max : blen l <= max_size_ q < 2 ^ 64;
}.

(** [e] is the oldest of the most urgent events of [l]; [l'] is [l] without it. *)
Definition takes_next (l : list (Event H)) (e : Event H) (l' : list (Event H)) : Prop :=
  exists l1 l2, l = l1 ++ e :: l2 /\ l' = l1 ++ l2 /\
    Forall (fun x => prio e < prio x) l1 /\ Forall (fun x => prio e <= prio x) l2.

Lemma create_represents n : 0 <= n < 2 ^ 64 -> represents (create n) [].
Proof.
  intros Hn. split; cbn; try done; try lia.
  intros i Hi. do 8 (destruct i as [|i]; [done|]). lia.
Qed.

Lemma of_prio_app i l k : of_prio i (l ++ k) = of_prio i l ++ of_prio i k.
Proof. apply filter_app. Qed.

Lemma push_represents q l e :
  represents q l -> queue_closed_ q = false -> blen l < max_size_ q -> 0 <= prio e < 8 ->
  exists q', push q e = (q', true) /\ represents q' (l ++ [e]) /\
    max_size_ q' = max_size_ q /\ queue_closed_ q' = false.
Proof.
  intros [Hl Hq Hs Hv Hm] Hc Hroom Hp. unfold push. rewrite Hc, Hs.
  ifz; [lia|]. unfold kEventPriorityCount, type_value at 2. fold (prio e).
  replace (_ || _) with false by lia. eexists. split; [reflexivity|].
  split; [|by split]. split; cbn.
  - by rewrite length_alter.
  - intros i Hi. rewrite of_prio_app. unfold of_prio at 2.
    rewrite filter_cons, filter_nil.
    destruct (decide (i = Z.to_nat (prio e))) as [->|Hne].
    + rewrite list_lookup_alter_eq, Hq by lia. cbn. by rewrite decide_True by lia.
    + rewrite list_lookup_alter_ne, Hq by done. rewrite decide_False by lia. by rewrite app_nil_r.
  - rewrite blen_app. unfold u64, wrap. rewrite Z.mod_small; blia.
  - apply Forall_app. split; [done|by constructor].
  - blia.
Qed.

Lemma push_rejects q e :
  snd (push q e) = false -> fst (push q e) = q.
Proof. unfold push. repeat (ifz; [done|]). cbn. done. Qed.

Lemma first_nonempty_spec qs i :
  0 <= i ->
  (first_nonempty i qs = -1 /\ Forall (fun x => x = []) qs) \/
  (exists k e r, first_nonempty i qs = i + Z.of_nat k /\ qs !! k = Some (e :: r) /\
     forall j, (j < k)%nat -> qs !! j = Some []).
Proof.
  revert i. induction qs as [|x qs IH]; intros i Hi; cbn [first_nonempty].
  - left. split; [done|constructor].
  - destruct x as [|e r].
    + destruct (IH (i + 1)) as [[-> Hf]|(k & e & r & -> & Hk & Hj)]; [lia| |].
      * left. split; [done|by constructor].
      * right. exists (S k), e, r. split; [lia|]. split; [done|].
        intros [|j] Hlt; [done|]. apply Hj. lia.
    + right. exists 0%nat, e, r. split; [lia|]. split; [done|]. lia.
Qed.

Lemma of_prio_nil_Forall i l : of_prio i l = [] -> Forall (fun e => prio e <> Z.of_nat i) l.
Proof.
  unfold of_prio. intros Hf. apply Forall_forall. intros x Hx Hp.
  assert (Hin : x ∈ filter (fun e => prio e = Z.of_nat i) l) by (by apply list_elem_of_filter).
  rewrite Hf in Hin. by apply elem_of_nil in Hin.
Qed.

Lemma of_prio_none i l : Forall (fun e => prio e <> Z.of_nat i) l -> of_prio i l = [].
Proof.
  induction 1 as [|x l Hx Hl IH]; [done|]. unfold of_prio. by rewrite filter_cons_False.
Qed.

(** The first event of a priority class splits the list. *)
Lemma of_prio_cons_split i l e r :
  of_prio i l = e :: r ->
  exists l1 l2, l = l1 ++ e :: l2 /\ prio e = Z.of_nat i /\
    Forall (fun x => prio x <> Z.of_nat i) l1 /\ of_prio i l2 = r.
Proof.
  induction l as [|x l IH]; [done|]. unfold of_prio. rewrite filter_cons. case_decide as Hx.
  - intros Heq. simplify_eq. exists [], l. repeat split; [done|constructor].
  - intros Heq. destruct (IH Heq) as (l1 & l2 & -> & He & Hf & Hr).
    exists (x :: l1), l2. repeat split; [done|by constructor|done].
Qed.

Lemma try_pop_None q l : represents q l -> try_pop q = (q, None) <-> l = [].
Proof.
  intros [Hl Hq Hs Hv Hm]. unfold try_pop, get_highest_priority_queue.
  destruct (first_nonempty_spec (priority_queues_ q) 0) as [[-> Hf]|(k & e & r & -> & Hk & Hj)]; [lia| |].
  - cbn. split; [intros _|done]. destruct l as [|e l]; [done|].
    inversion Hv as [|? ? Hp _]; subst. exfalso.
    specialize (Hq (Z.to_nat (prio e)) ltac:(lia)). eapply Forall_lookup_1 in Hf; [|exact Hq].
    unfold of_prio in Hf. rewrite filter_cons_True in Hf by lia. done.
  - assert (Hlt : (k < 8)%nat) by (apply lookup_lt_Some in Hk; lia).
    ifz; [lia|]. rewrite zlookup_nat by lia.
    replace (Z.to_nat (0 + Z.of_nat k)) with k by lia. rewrite Hk.
    split; [done|]. intros ->. rewrite (Hq k Hlt) in Hk. done.
Qed.

Lemma try_pop_represents q l :
  represents q l -> l <> [] ->
  exists q' e l', try_pop q = (q', Some e) /\ takes_next l e l' /\ represents q' l' /\
    max_size_ q' = max_size_ q /\ queue_closed_ q' = queue_closed_ q.
Proof.
  intros Hrep Hne. pose proof Hrep as [Hl Hq Hs Hv Hm].
  destruct (first_nonempty_spec (priority_queues_ q) 0) as [[Hi Hf]|(k & e & r & Hi & Hk & Hj)]; [lia| |].
  { exfalso. apply Hne. apply (try_pop_None q l Hrep). unfold try_pop, get_highest_priority_queue. by rewrite Hi. }
  assert (Hlt : (k < 8)%nat) by (apply lookup_lt_Some in Hk; lia).
  assert (Hof : of_prio k l = e :: r) by (rewrite (Hq k Hlt) in Hk; congruence).
  destruct (of_prio_cons_split k l e r Hof) as (l1 & l2 & -> & He & Hf & Hr).
  assert (Hmin : Forall (fun x => Z.of_nat k <= prio x) (l1 ++ e :: l2)).
  { rewrite Forall_forall in *. intros x Hx. specialize (Hv x Hx).
    destruct (Z.le_gt_cases (Z.of_nat k) (prio x)); [done|].
    specialize (Hj (Z.to_nat (prio x)) ltac:(lia)). rewrite Hq in Hj by lia. injection Hj as Hj.
    apply of_prio_nil_Forall in Hj. rewrite Forall_forall in Hj. specialize (Hj x Hx). lia. }
  unfold try_pop, get_highest_priority_queue. rewrite Hi. ifz; [lia|].
  rewrite zlookup_nat by lia. replace (Z.to_nat (0 + Z.of_nat k)) with k by lia. rewrite Hk.
  eexists _, e, (l1 ++ l2). split; [reflexivity|]. rewrite Forall_app in Hmin.
  destruct Hmin as [Hm1 Hm2]. inversion Hm2 as [|? ? _ Hm3]; subst.
  split; [|split; [|by split]].
  { exists l1, l2. rewrite He. repeat split; [|done]. rewrite Forall_forall in *.
    intros x Hx. specialize (Hm1 x Hx). specialize (Hf x Hx). lia. }
  rewrite blen_app, blen_cons in *. split; cbn.
  - by rewrite length_insert.
  - intros i Hilt. destruct (decide (i = k)) as [->|Hik].
    + rewrite list_lookup_insert_eq by lia. f_equal. rewrite of_prio_app.
      by rewrite (of_prio_none k l1).
    + rewrite list_lookup_insert_ne by done. rewrite Hq by done. f_equal.
      rewrite !of_prio_app. f_equal. unfold of_prio at 1. rewrite filter_cons_False; [done|]. lia.
  - rewrite Hs. unfold u64, wrap. rewrite Z.mod_small; blia.
  - rewrite Forall_app in *. destruct Hv as [? Hv]. by inversion Hv.
  - rewrite blen_app. lia.
Qed.

(** Reference order: the events of the most urgent type first, each type in
    arrival order. *)
Definition by_priority (l : list (Event H)) : list (Event H) := concat (map (fun i => of_prio i l) (seq 0 8)).

Lemma of_prio_permutation (n : nat) l :
  Forall (fun e => 0 <= prio e < Z.of_nat n) l -> concat (map (fun i => of_prio i l) (seq 0 n)) ≡ₚ l.
Proof.
  revert l. induction n as [|n IH]; intros l Hl.
  - destruct Hl; [done|lia].
  - rewrite seq_S, map_app, concat_app. cbn. rewrite app_nil_r.
    set (small := filter (fun e => prio e <> Z.of_nat n) l).
    assert (Hs : map (fun i => of_prio i l) (seq 0 n) = map (fun i => of_prio i small) (seq 0 n)).
    { apply map_ext_in. intros i Hi. apply in_seq in Hi. unfold of_prio, small.
      rewrite list_filter_filter. apply list_filter_iff. intros e. lia. }
    rewrite Hs, IH.
    + unfold small, of_prio. clear. induction l as [|x l IH]; [done|]. rewrite !filter_cons.
      repeat case_decide; try lia; [by cbn; rewrite IH|by rewrite <- Permutation_middle, IH].
    + unfold small. apply Forall_forall. intros x [Hx Hin]%list_elem_of_filter. rewrite Forall_forall in Hl.
      specialize (Hl x Hin). lia.
Qed.

Lemma of_prio_sorted l n i :
  StronglySorted (fun x y => prio x <= prio y) (concat (map (fun i => of_prio i l) (seq i n))).
Proof.
  revert i. induction n as [|n IH]; intros i; cbn [seq map concat]; [constructor|].
  apply StronglySorted_app_2; [| |apply IH].
  - intros x y [Hx _]%list_elem_of_filter Hy. apply list_elem_of_In, in_concat in Hy as (b & Hb & Hy).
    apply in_map_iff in Hb as (j & <- & Hj). apply in_seq in Hj.
    apply list_elem_of_In, list_elem_of_filter in Hy as [Hy _]. lia.
  - clear IH. unfold of_prio. induction l as [|x l IHl]; [constructor|]. rewrite filter_cons. case_decide as Hx; [|done].
    constructor; [done|]. apply Forall_forall. intros y [Hy _]%list_elem_of_filter. lia.
Qed.

Lemma by_priority_sorted l : StronglySorted (fun x y => prio x <= prio y) (by_priority l).
Proof. apply of_prio_sorted. Qed.

Lemma takes_next_valid q l e l' : represents q l -> takes_next l e l' -> 0 <= prio e < 8.
Proof.
  intros Hr (l1 & l2 & -> & _). pose proof (rep_valid _ _ Hr) as Hv. rewrite Forall_app, Forall_cons in Hv. tauto.
Qed.

Lemma by_priority_takes_next l e l' :
  0 <= prio e < 8 -> takes_next l e l' -> by_priority l = e :: by_priority l'.
Proof.
  intros He (l1 & l2 & -> & -> & H1 & H2). unfold by_priority. set (k := Z.to_nat (prio e)).
  rewrite Forall_forall in H1, H2.
  replace (seq 0 8) with (seq 0 k ++ k :: seq (S k) (7 - k)).
  2:{ replace (seq 0 8) with (seq 0 (k + S (7 - k))) by (f_equal; lia). by rewrite seq_app. }
  rewrite !map_app, !concat_app. cbn [map concat].
  assert (Hlow : forall x, (forall y, y ∈ x -> y ∈ l1 ++ e :: l2) -> concat (map (fun i => of_prio i x) (seq 0 k)) = []).
  { intros x Hx. apply concat_nil_Forall, Forall_map, Forall_forall. intros i Hi. apply elem_of_seq in Hi.
    apply of_prio_none, Forall_forall. intros y Hy%Hx. apply elem_of_app in Hy as [Hy|Hy].
    - specialize (H1 y Hy). lia.
    - apply elem_of_cons in Hy as [->|Hy]; [lia|]. specialize (H2 y Hy). lia. }
  rewrite (Hlow (l1 ++ e :: l2)) by done. rewrite (Hlow (l1 ++ l2)) by set_solver. cbn [app].
  rewrite !of_prio_app. rewrite (of_prio_none k l1) by (apply Forall_forall; intros y Hy; specialize (H1 y Hy); lia).
  unfold of_prio at 1. rewrite filter_cons_True by lia. cbn [app]. do 3 f_equal.
  apply map_ext_in. intros i Hi. apply in_seq in Hi. rewrite !of_prio_app. f_equal.
  unfold of_prio at 1. rewrite filter_cons_False; [done|lia].
Qed.

(** The operations threads perform on the queue, and what they return. *)
Inductive op := Push (e : Event H) | TryPop | Close.
Inductive result := RPush (accepted : bool) | RPop (o : option (Event H)) | RClose.

Definition run_op (q : t) (o : op) : t * result :=
  match o with
  | Push e => let '(q', b) := push q e in (q', RPush b)
  | TryPop => let '(q', e) := try_pop q in (q', RPop e)
  | Close => (close q, RClose)
  end.

Fixpoint run_ops (q : t) (os : list op) : t * list result :=
  match os with
  | [] => (q, [])
  | o :: r =>
      let '(q', x) := run_op q o in
      let '(q2, xs) := run_ops q' r in (q2, x :: xs)
  end.

(** The specification: a bounded bag of pending events with arrival order. *)
Record spec := { pending : list (Event H); closed : bool; cap : Z }.

Inductive spec_step : spec -> op -> result -> spec -> Prop :=
| s_push s e :
    closed s = false -> blen (pending s) < cap s -> 0 <= prio e < 8 ->
    spec_step s (Push e) (RPush true)
      {| pending := pending s ++ [e]; closed := closed s; cap := cap s |}
| s_push_refused s e :
    closed s = true \/ cap s <= blen (pending s) \/ ~ (0 <= prio e < 8) ->
    spec_step s (Push e) (RPush false) s
| s_pop s e l' :
    takes_next (pending s) e l' ->
    spec_step s TryPop (RPop (Some e)) {| pending := l'; closed := closed s; cap := cap s |}
| s_pop_empty s :
    pending s = [] -> spec_step s TryPop (RPop None) s
| s_close s :
    spec_step s Close RClose {| pending := pending s; closed := true; cap := cap s |}.

Inductive spec_steps : spec -> list op -> list result -> spec -> Prop :=
| ss_nil s : spec_steps s [] [] s
| ss_cons s o x s' os xs s2 :
    spec_step s o x s' -> spec_steps s' os xs s2 -> spec_steps s (o :: os) (x :: xs) s2.

(** The simulation relation. *)
Definition implements (q : t) (s : spec) : Prop :=
  represents q (pending s) /\ queue_closed_ q = closed s /\ max_size_ q = cap s.

Lemma run_op_simulates q s o :
  implements q s ->
  exists s', spec_step s o (snd (run_op q o)) s' /\ implements (fst (run_op q o)) s'.
Proof.
  intros (Hr & Hc & Hm). destruct o as [e| |]; cbn.
  - destruct (decide (closed s = false /\ blen (pending s) < cap s /\ 0 <= prio e < 8)) as [(H1 & H2 & H3)|Hno].
    + destruct (push_represents q (pending s) e Hr) as (q' & -> & Hr' & Hm' & Hc'); [congruence|lia|done|].
      eexists. split; [by apply s_push|]. split; [done|]. cbn. split; congruence.
    + assert (Hp : push q e = (q, false)).
      { unfold push. rewrite Hc, Hm, (rep_size _ _ Hr). fold (prio e). unfold kEventPriorityCount.
        destruct (closed s) eqn:Ec; [done|]. ifz; [done|]. cbn [type_value]. ifz; [done|].
        exfalso. apply Hno. split; [done|]. split; lia. }
      rewrite Hp. exists s. split; [|by split]. apply s_push_refused.
      destruct (closed s); [by left|right].
      destruct (Z.le_gt_cases (cap s) (blen (pending s))); [by left|right]. intros Hp3. by apply Hno.
  - destruct (decide (pending s = [])) as [He|He].
    + rewrite (proj2 (try_pop_None q _ Hr) He). exists s. split; [by apply s_pop_empty|by split].
    + destruct (try_pop_represents q _ Hr He) as (q' & e & l' & -> & Ht & Hr' & Hm' & Hc').
      eexists. split; [by apply s_pop|]. split; [done|]. cbn. split; congruence.
  - eexists. split; [apply s_close|]. split; [|done]. destruct Hr. by split.
Qed.

End EventQueue.
Arguments t H : clear implicits.
Arguments spec H : clear implicits.
Arguments op H : clear implicits.

(** C26. Equivalence with sorting. [pop_all] takes the first [n] events of
    the reference order, which is a permutation of the pending events, sorted
    by urgency; it leaves the rest of that order for the next call, and stops
    short of [n] only when the queue is empty. *)
Theorem pop_all_sorts {H} n (q : t H) l :
  represents q l ->
  by_priority l ≡ₚ l /\ StronglySorted (fun x y => prio x <= prio y) (by_priority l) /\
  exists q' l', pop_all n q = (q', take n (by_priority l)) /\
    represents q' l' /\ by_priority l' = drop n (by_priority l) /\
    max_size_ q' = max_size_ q /\ queue_closed_ q' = queue_closed_ q.
Proof.
  intros Hr. split; [apply of_prio_permutation, (rep_valid _ _ Hr)|].
  split; [apply by_priority_sorted|].
  revert q l Hr. induction n as [|n IH]; intros q l Hr; [by exists q, l|]. cbn [pop_all].
  destruct (decide (l = [])) as [->|Hl].
  - rewrite (proj2 (try_pop_None q _ Hr) eq_refl). by exists q, [].
  - destruct (try_pop_represents q l Hr Hl) as (q1 & e & l1 & -> & Ht & Hr1 & Hm & Hc).
    destruct (IH q1 l1 Hr1) as (q2 & l2 & -> & Hr2 & Hd & Hm2 & Hc2).
    rewrite (by_priority_takes_next l e l1) by (exact Ht || exact (takes_next_valid q l e l1 Hr Ht)).
    exists q2, l2. split; [done|]. split; [done|]. split; [done|]. split; congruence.
Qed.

Lemma pop_all_sorts_witness :
  let ev t := @mkEvent nat t 0 0 0 None in
  let q := fst (push (fst (push (fst (push (create 4) (ev WRITE))) (ev READ))) (ev ACCEPT)) in
  represents q [ev WRITE; ev READ; ev ACCEPT] /\
  snd (pop_all 2 q) = [ev ACCEPT; ev READ].
Proof.
  intros ev q.
  assert (Hr : represents q [ev WRITE; ev READ; ev ACCEPT]).
  { split; [reflexivity| |reflexivity|repeat constructor; by vm_compute|by vm_compute].
    intros i Hi. do 8 (destruct i as [|i]; [reflexivity|]). lia. }
  split; [exact Hr|].
  destruct (pop_all_sorts 2 q _ Hr) as (_ & _ & q' & l' & E & _). rewrite E. reflexivity.
Defined.

(** C24. Whatever pushes, pops and closes the threads interleave, the queue
    behaves as a bounded bag: a push is accepted exactly when the queue is open,
    not full and the type is a known one; a pop returns the oldest event of the
    most urgent type pending, and nothing only when nothing is pending. *)
Theorem event_queue_refines {H} n (os : list (op H)) q xs :
  0 <= n < 2 ^ 64 -> run_ops (create n) os = (q, xs) ->
  exists s, spec_steps {| pending := []; closed := false; cap := n |} os xs s /\
    represents q (pending s) /\ size q = blen (pending s).
Proof.
  intros Hn Hrun.
  assert (Hi : implements (@create H n) {| pending := []; closed := false; cap := n |}).
  { split; [by apply create_represents|by split]. }
  revert Hi Hrun. generalize (@create H n), {| pending := @nil (Event H); closed := false; cap := n |}.
  intros q0 s0. revert q0 s0 xs. induction os as [|o os IH]; intros q0 s0 xs Hi; cbn.
  - intros ?; simplify_eq. exists s0. split; [constructor|].
    destruct Hi as [Hr _]. split; [done|]. apply (rep_size _ _ Hr).
  - destruct (run_op_simulates q0 s0 o Hi) as (s1 & Hs & Hi1).
    destruct (run_op q0 o) as [q1 x]. cbn in Hs, Hi1.
    destruct (run_ops q1 os) as [q2 xs'] eqn:E. intros ?; simplify_eq.
    destruct (IH q1 s1 xs' Hi1 E) as (s2 & Hss & Hr & Hz). exists s2.
    split; [by econstructor|by split].
Qed.

Definition sample_ops : list (op nat) :=
  [Push (mkEvent READ 1 5 0 (Some 1%nat)); Push (mkEvent WRITE 1 5 0 (Some 2%nat));
   Push (mkEvent ERROR 1 5 0 None); TryPop; Push (mkEvent READ 2 6 0 None); TryPop; Close;
   Push make_shutdown_event; TryPop].

Lemma event_queue_refines_witness :
  snd (run_ops (create 10000) sample_ops) =
    [RPush true; RPush true; RPush true; RPop (Some (mkEvent ERROR 1 5 0 None)); RPush true;
     RPop (Some (mkEvent READ 1 5 0 (Some 1%nat))); RClose; RPush false;
     RPop (Some (mkEvent READ 2 6 0 None))] /\
  exists s, spec_steps {| pending := []; closed := false; cap := 10000 |} sample_ops
      (snd (run_ops (create 10000) sample_ops)) s /\
    represents (fst (run_ops (create 10000) sample_ops)) (pending s) /\
    size (fst (run_ops (create 10000) sample_ops)) = blen (pending s).
Proof.
  split; [vm_compute; reflexivity|].
  apply (event_queue_refines 10000 sample_ops); [lia|]. by destruct (run_ops _ _).
Defined.

End EventQueue.

(** * The event loop *)

Module EventLoop.
Section EventLoop.
Context {H : Type}.
(** The events a handler posts to the queue while it runs. *)
Variable posts : H -> list (Event H).

Record t := mk {
  event_queue_ : EventQueue.t H;
  running_ : bool;
  started_ : bool;
  executed : list H;   (* handlers run so far, oldest first *)
}.

Definition create (q : EventQueue.t H) : t := mk q false false [].

Definition post_event (s : t) (e : Event H) : t :=
  mk (fst (EventQueue.push (event_queue_ s) e)) (running_ s) (started_ s) (executed s).

Definition run_handler (s : t) (h : H) : t :=
  let s1 := mk (event_queue_ s) (running_ s) (started_ s) (executed s ++ [h]) in
  foldl post_event s1 (posts h).

Definition stop (s : t) : t :=
  mk (fst (EventQueue.push (event_queue_ s) make_shutdown_event)) false (started_ s) (executed s).

(** What precedes the loop of [run]. *)
Definition enter (s : t) : t := mk (event_queue_ s) true true (executed s).
Definition leave (s : t) : t := mk (event_queue_ s) false (started_ s) (executed s).

(** One iteration: [inl] to continue, [inr] when the loop is left. An empty
    queue only sleeps. *)
Definition iter (s : t) : t + t :=
  if running_ s then
    match EventQueue.try_pop (event_queue_ s) with
    | (q', Some e) =>
        let s' := mk q' (running_ s) (started_ s) (executed s) in
        if decide (type e <> SHUTDOWN)
        then inl (match handler e with Some h => run_handler s' h | None => s' end)
        else inr (leave s')
    | (_, None) => inl s
    end
  else inr (leave s).

(** [n] iterations of [run]. *)
Fixpoint loop (n : nat) (s : t) : t + t :=
  match n with
  | O => inl s
  | S n' => match iter s with inl s' => loop n' s' | inr s' => inr s' end
  end.
Definition run (n : nat) (s : t) : t + t := loop n (enter s).

(** The handlers of a list of events, in order. *)
Definition handlers (l : list (Event H)) : list H := omap handler l.

(** The order in which a bag of events is drained. *)
Inductive drains : list (Event H) -> list (Event H) -> Prop :=
| d_nil : drains [] []
| d_cons l e l' o : EventQueue.takes_next l e l' -> drains l' o -> drains l (e :: o).

Lemma takes_next_In (l : list (Event H)) e l' x :
  EventQueue.takes_next l e l' -> x ∈ l <-> x = e \/ x ∈ l'.
Proof. intros (l1 & l2 & -> & -> & _ & _). rewrite !elem_of_app, elem_of_cons. tauto. Qed.

Lemma takes_next_length (l : list (Event H)) e l' :
  EventQueue.takes_next l e l' -> length l = S (length l').
Proof. intros (l1 & l2 & -> & -> & _ & _). rewrite !length_app. cbn. lia. Qed.

End EventLoop.
Arguments t H : clear implicits.

(** With handlers that post nothing and no SHUTDOWN pending, the loop
    runs the handler of every pending event, most urgent type first and oldest
    first within a type, in as many iterations as there are events, and then
    waits with an empty queue. *)
Theorem event_loop_drains {H} (posts : H -> list (Event H)) s l :
  (forall h, posts h = []) -> EventQueue.represents (event_queue_ s) l ->
  Forall (fun e => type e <> SHUTDOWN) l ->
  exists o s', drains l o /\ run posts (length l) s = inl s' /\
    executed s' = executed s ++ handlers o /\ EventQueue.represents (event_queue_ s') [].
Proof.
  intros Hposts Hr Hns. unfold run.
  assert (Hr' : EventQueue.represents (event_queue_ (enter s)) l) by done.
  change (executed s) with (executed (enter s)). assert (Hrun : running_ (enter s) = true) by done.
  remember (length l) as n eqn:Hn. clear Hr. revert l Hr' Hns Hn Hrun. generalize (enter s) as s0.
  clear s. induction n as [|n IH]; intros s l Hr Hns Hn Hrun.
  - symmetry in Hn. apply nil_length_inv in Hn. subst. exists [], s. cbn. rewrite app_nil_r.
    repeat split; [constructor|apply Hr..].
  - assert (Hne : l <> []) by (intros ->; done).
    destruct (EventQueue.try_pop_represents _ _ Hr Hne) as (q' & e & l' & Hp & Ht & Hr1 & _ & _).
    assert (He : type e <> SHUTDOWN).
    { rewrite Forall_forall in Hns. apply Hns. by apply (takes_next_In _ _ _ _ Ht); left. }
    set (s1 := mk q' true (started_ s)
      (executed s ++ match handler e with Some h => [h] | None => [] end)).
    assert (Hstep : iter posts s = inl s1).
    { unfold iter. rewrite Hrun, Hp, decide_True by done. unfold s1. f_equal.
      destruct (handler e) as [h|]; [|by rewrite app_nil_r].
      unfold run_handler. rewrite Hposts. done. }
    cbn [loop]. rewrite Hstep.
    destruct (IH s1 l' Hr1) as (o & s' & Hd & Hl & Hx & Hr2); [|apply takes_next_length in Ht; lia|done|].
    { rewrite Forall_forall in *. intros x Hx. apply Hns, (takes_next_In _ _ _ _ Ht). by right. }
    exists (e :: o), s'. split; [by econstructor|]. split; [done|]. split; [|done].
    rewrite Hx. cbn. rewrite <- app_assoc. f_equal. unfold handlers. cbn. by destruct (handler e).
Qed.

Definition loop_queue : EventQueue.t nat :=
  fst (EventQueue.run_ops (EventQueue.create 10000)
    [EventQueue.Push (mkEvent READ 1 5 0 (Some 1%nat));
     EventQueue.Push (mkEvent ACCEPT 0 3 0 (Some 2%nat))]).

Lemma event_loop_drains_witness :
  exists o s', drains [mkEvent READ 1 5 0 (Some 1%nat); mkEvent ACCEPT 0 3 0 (Some 2%nat)] o /\
    run (fun _ => []) 2 (create loop_queue) = inl s' /\
    executed s' = [] ++ handlers o /\ EventQueue.represents (event_queue_ s') [].
Proof.
  apply (event_loop_drains (fun _ : nat => []) (create loop_queue)
    [mkEvent READ 1 5 0 (Some 1%nat); mkEvent ACCEPT 0 3 0 (Some 2%nat)]).
  - reflexivity.
  - split; [reflexivity| |reflexivity| |].
    + intros i Hi. do 8 (destruct i as [|i]; [vm_compute; reflexivity|]). lia.
    + repeat constructor; cbn; lia.
    + vm_compute. split; [discriminate|reflexivity].
  - repeat constructor; discriminate.
Defined.

(** A pending SHUTDOWN event is served before anything else: the
    next iteration leaves the loop without running any handler, even if [stop]
    was called before [run] re-set [running_]. *)
Theorem event_loop_shutdown {H} (posts : H -> list (Event H)) s l e :
  EventQueue.represents (event_queue_ s) l -> e ∈ l -> type e = SHUTDOWN ->
  exists s', run posts 1 s = inr s' /\ executed s' = executed s /\ running_ s' = false.
Proof.
  intros Hr He Ht.
  assert (Hne : l <> []) by (intros ->; by apply elem_of_nil in He).
  destruct (EventQueue.try_pop_represents _ _ Hr Hne) as (q' & e1 & l' & Hp & Hn & Hr1 & _ & _).
  assert (H1 : type e1 = SHUTDOWN).
  { destruct Hn as (l1 & l2 & -> & -> & Hlt & Hle).
    pose proof (EventQueue.rep_valid _ _ Hr) as Hv. rewrite !Forall_app, Forall_cons in Hv.
    rewrite Forall_forall in *. destruct Hv as (Hv1 & Hv & _).
    assert (H0 : EventQueue.prio e = 0) by (unfold EventQueue.prio; by rewrite Ht).
    assert (H01 : EventQueue.prio e1 = 0).
    { apply elem_of_app in He as [He|He]; [specialize (Hlt e He); lia|].
      apply elem_of_cons in He as [->|He]; [done|]. specialize (Hle e He); lia. }
    unfold EventQueue.prio in H01. by destruct (type e1); cbn in H01; try lia. }
  unfold run. cbn [loop]. unfold iter. cbn [enter running_ event_queue_].
  rewrite Hp. rewrite decide_False by (intros Hx; by apply Hx).
  eexists. split; [reflexivity|]. done.
Qed.

Lemma event_loop_shutdown_witness :
  exists s', run (fun _ => []) 1 (stop (create loop_queue)) = inr s' /\ executed s' = [] /\
    running_ s' = false.
Proof.
  apply (event_loop_shutdown (fun _ : nat => []) (stop (create loop_queue))
    [mkEvent READ 1 5 0 (Some 1%nat); mkEvent ACCEPT 0 3 0 (Some 2%nat); make_shutdown_event]
    make_shutdown_event).
  - split; [reflexivity| |reflexivity| |].
    + intros i Hi. do 8 (destruct i as [|i]; [vm_compute; reflexivity|]). lia.
    + repeat constructor; cbn; lia.
    + vm_compute. split; [discriminate|reflexivity].
  - set_solver.
  - reflexivity.
Defined.

End EventLoop.
