(* ===== verification/EventPop.v ===== *)
(** The blocking [EventQueue::pop] with its condition variable
    (msg_center/source/event_queue.cpp), called from any number of threads while
    others push, take without waiting, and close the queue.

    A step is one critical section of [mutex_], or the [notify_all] that
    [wake_up] does after its own. [not_empty_.wait] leaves the critical section
    and enters the set of sleepers in one step; a woken thread needs the mutex
    again before it looks at the queue, and may wake without being notified. *)

From S2P Require Import Prelude EventQ.

Module EventPop.
Section EventPop.
Context {H : Type}.

(** A call of [pop]: about to take the mutex, in [wait], or returned. *)
Inductive pop_pc := Awake | Asleep | Took (e : Event H).
(** A call of [wake_up] or [close]. *)
Inductive close_pc := ToClose | ToNotify | HasClosed.

(** [accepted] and [taken] record the events that [push] accepted and that a
    caller of [pop], [try_pop] or [pop_all] got. *)
Record t := mk {
  queue : EventQueue.t H;
  pops : list pop_pc;
  closes : list close_pc;
  accepted : list (Event H);
  taken : list (Event H);
}.
Definition start (max_size : Z) : t := mk (EventQueue.create max_size) [] [] [] [].

Definition asleep (c : pop_pc) : nat := match c with Asleep => 1 | _ => 0 end.
Definition awake (c : pop_pc) : nat := match c with Awake => 1 | _ => 0 end.
Definition notifying (k : close_pc) : nat := match k with ToNotify => 1 | _ => 0 end.

(** [notify_one] wakes the sleeper [w], any one, if there is one. *)
Definition notify_one (w : nat) (cs : list pop_pc) : option (list pop_pc) :=
  if (sum_list_with asleep cs =? 0)%nat then Some cs
  else match cs !! w with Some Asleep => Some (<[w := Awake]> cs) | _ => None end.
Definition notify_all (cs : list pop_pc) : list pop_pc :=
  map (fun c => match c with Asleep => Awake | _ => c end) cs.

Inductive label :=
| CallPop | Loop (i : nat) | Spurious (i : nat)
| Push (e : Event H) (w : nat) | TryPop | PopAll (max_count : nat)
| CallClose | CloseStep (i : nat).

Definition step (l : label) (s : t) : option t :=
  let '(mk q cs ks acc tk) := s in
  match l with
  | CallPop => Some (mk q (cs ++ [Awake]) ks acc tk)
  | Loop i =>
      match cs !! i with
      | Some Awake =>
          let tk' := tk ++ option_list (EventQueue.try_pop q).2 in
          match EventQueue.pop q with
          | (q', EventQueue.Popped e) => Some (mk q' (<[i := Took e]> cs) ks acc tk')
          | (q', EventQueue.Blocked) => Some (mk q' (<[i := Asleep]> cs) ks acc tk')
          end
      | _ => None
      end
  | Spurious i => match cs !! i with Some Asleep => Some (mk q (<[i := Awake]> cs) ks acc tk) | _ => None end
  | Push e w =>
      let '(q', ok) := EventQueue.push q e in
      if ok then cs' ← notify_one w cs; Some (mk q' cs' ks (acc ++ [e]) tk) else Some s
  | TryPop => let '(q', o) := EventQueue.try_pop q in Some (mk q' cs ks acc (tk ++ option_list o))
  | PopAll n => let '(q', es) := EventQueue.pop_all n q in Some (mk q' cs ks acc (tk ++ es))
  | CallClose => Some (mk q cs (ks ++ [ToClose]) acc tk)
  | CloseStep i =>
      match ks !! i with
      | Some ToClose => Some (mk (EventQueue.wake_up q) cs (<[i := ToNotify]> ks) acc tk)
      | Some ToNotify => Some (mk q (notify_all cs) (<[i := HasClosed]> ks) acc tk)
      | _ => None
      end
  end.
Definition exec : list label -> t -> option t := run_steps step.

(** * The invariant *)

(** [pop] returns an event that was taken from the queue, or the shutdown event of
    a closed queue. *)
Definition took_ok (tk : list (Event H)) (closed : bool) (c : pop_pc) : Prop :=
  match c with Took e => e ∈ tk \/ e = make_shutdown_event /\ closed = true | _ => True end.

Lemma took_ok_mono tk es closed cs : Forall (took_ok tk closed) cs -> Forall (took_ok (tk ++ es) closed) cs.
Proof. intros Hc. eapply Forall_impl; [exact Hc|]. intros [| |e]; cbn; [done..|]. rewrite elem_of_app. tauto. Qed.

(** With the pending events [l]: while anyone sleeps, there are as many threads
    awake as events; on a closed queue, someone is about to notify the sleepers. *)
Record inv (l : list (Event H)) (s : t) : Prop := {
  i_queue : EventQueue.represents (queue s) l;
  i_events : accepted s ≡ₚ taken s ++ l;
  i_awake : (0 < sum_list_with asleep (pops s) -> length l <= sum_list_with awake (pops s))%nat;
  i_closed : EventQueue.queue_closed_ (queue s) = true -> (0 < sum_list_with asleep (pops s) -> 0 < sum_list_with notifying (closes s))%nat;
  i_took : Forall (took_ok (taken s) (EventQueue.queue_closed_ (queue s))) (pops s);
}.

Lemma takes_next_perm (l l' : list (Event H)) e : EventQueue.takes_next l e l' -> l ≡ₚ e :: l'.
Proof. intros (l1 & l2 & -> & -> & _). by rewrite Permutation_middle. Qed.

(** [try_pop] in terms of the pending events. *)
Lemma try_pop_cases (q : EventQueue.t H) l : EventQueue.represents q l ->
  exists q' o l', EventQueue.try_pop q = (q', o) /\ EventQueue.represents q' l' /\ l ≡ₚ option_list o ++ l' /\
    EventQueue.queue_closed_ q' = EventQueue.queue_closed_ q /\ (o = None -> l = []).
Proof.
  intros Hr. destruct (decide (l = [])) as [->|Hne].
  - exists q, None, []. split; [by apply (EventQueue.try_pop_None q [])|done].
  - destruct (EventQueue.try_pop_represents q l Hr Hne) as (q' & e & l' & E & Ht & Hr' & _ & Hc).
    exists q', (Some e), l'. split; [done|]. split; [done|]. split; [by apply takes_next_perm|done].
Qed.

Lemma pop_all_cases n (q : EventQueue.t H) l : EventQueue.represents q l ->
  exists q' es l', EventQueue.pop_all n q = (q', es) /\ EventQueue.represents q' l' /\ l ≡ₚ es ++ l' /\
    EventQueue.queue_closed_ q' = EventQueue.queue_closed_ q.
Proof.
  revert q l. induction n as [|n IH]; intros q l Hr; [by exists q, [], l|]. cbn [EventQueue.pop_all].
  destruct (try_pop_cases q l Hr) as (q1 & o & l1 & -> & Hr1 & Hp & Hc & _). destruct o as [e|]; [|by exists q1, [], l1].
  destruct (IH q1 l1 Hr1) as (q2 & es & l2 & -> & Hr2 & Hp2 & Hc2). exists q2, (e :: es), l2.
  split; [done|]. split; [done|]. split; [|congruence]. cbn in *. by rewrite Hp, Hp2.
Qed.

(** What a step does to one caller. *)
Lemma sum_moves {A} (f : A -> nat) l i x y : l !! i = Some x ->
  (sum_list_with f (<[i := y]> l) + f x = sum_list_with f l + f y /\ f x <= sum_list_with f l)%nat.
Proof.
  intros Hi. split; [by apply sum_insert|by apply sum_lookup with i].
Qed.

Lemma notify_one_wakes w cs cs' : notify_one w cs = Some cs' ->
  (sum_list_with asleep cs' <= sum_list_with asleep cs /\
   (0 < sum_list_with asleep cs -> sum_list_with awake cs' = S (sum_list_with awake cs)))%nat /\
  (forall P, P Awake -> Forall P cs -> Forall P cs').
Proof.
  unfold notify_one. destruct (Nat.eqb_spec (sum_list_with asleep cs) 0) as [E|E]; [intros [= <-]; split; [lia|done]|].
  destruct (cs !! w) as [[| |e]|] eqn:Ew; try done. intros [= <-].
  destruct (sum_moves asleep cs w Asleep Awake Ew) as [Ha _], (sum_moves awake cs w Asleep Awake Ew) as [Hb _].
  cbn [asleep awake] in *. split; [lia|]. intros P HP Hc. by apply Forall_insert.
Qed.

Lemma notify_all_wakes cs :
  sum_list_with asleep (notify_all cs) = 0%nat /\ (forall P, P Awake -> Forall P cs -> Forall P (notify_all cs)).
Proof.
  unfold notify_all. split; [by induction cs as [|[| |e] cs IH]|].
  intros P HP Hc. apply Forall_map. eapply Forall_impl; [exact Hc|]. by intros [| |e].
Qed.

Lemma pop_start_inv n : 0 <= n < 2 ^ 64 -> inv [] (start n).
Proof. intros Hn. split; cbn; [by apply EventQueue.create_represents|done|lia|done|constructor]. Qed.

Lemma pop_loop_inv i l s s' : inv l s -> step (Loop i) s = Some s' -> exists l', inv l' s'.
Proof.
  destruct s as [q cs ks acc tk]. intros [Hq He Ha Hc Ht] Hs. cbn in *.
  destruct (cs !! i) as [[| |x]|] eqn:Ei; try done. unfold EventQueue.pop in Hs.
  destruct (try_pop_cases q l Hq) as (q1 & o & l1 & E & Hq1 & Hp & Hc1 & Hn). rewrite E in Hs. cbn [snd] in Hs.
  assert (Hev : acc ≡ₚ (tk ++ option_list o) ++ l1) by (by rewrite He, Hp, <- app_assoc).
  apply Permutation_length in Hp. rewrite length_app in Hp. apply (took_ok_mono tk (option_list o)) in Ht.
  assert (Hmoves : forall y, (sum_list_with asleep (<[i := y]> cs) = sum_list_with asleep cs + asleep y /\
    sum_list_with awake (<[i := y]> cs) + 1 = sum_list_with awake cs + awake y)%nat).
  { intros y. destruct (sum_moves asleep cs i Awake y Ei), (sum_moves awake cs i Awake y Ei). cbn [asleep awake] in *. lia. }
  assert (Hz : o = None -> length l1 = 0%nat) by (intros Ho; rewrite (Hn Ho) in Hp; cbn in Hp; lia).
  exists l1. destruct o as [e|]; [|destruct (EventQueue.queue_closed_ q) eqn:Eq]; injection Hs as <-; cbn in Hp; try specialize (Hz eq_refl);
    (split; cbn; [done|done|..]); rewrite ?Hc1, ?Eq; try match goal with |- context [sum_list_with asleep (<[i := ?y]> cs)] => pose proof (Hmoves y) end; try apply Forall_insert;
    cbn [asleep awake took_ok] in *; try done; try lia; try (intros Hcl; specialize (Hc Hcl); lia).
  - rewrite elem_of_app. left. right. by left.
  - by right.
Qed.

Lemma push_inv e w l s s' : inv l s -> step (Push e w) s = Some s' -> exists l', inv l' s'.
Proof.
  destruct s as [q cs ks acc tk]. intros [Hq He Ha Hc Ht] Hs. cbn in *. destruct (EventQueue.push q e) as [q' ok] eqn:E.
  destruct ok; [|injection Hs as <-; by exists l].
  destruct (notify_one w cs) as [cs'|] eqn:Ew; [|done]. injection Hs as <-.
  destruct (notify_one_wakes w cs cs' Ew) as ((Hsl & Haw) & HF).
  assert (Hpush : EventQueue.represents q' (l ++ [e]) /\ EventQueue.queue_closed_ q' = EventQueue.queue_closed_ q).
  { unfold EventQueue.push in E. destruct (EventQueue.queue_closed_ q) eqn:Eq; [done|].
    destruct (EventQueue.max_size_ q <=? EventQueue.size_ q) eqn:Em; zb; [done|].
    destruct ((_ <? 0) || _)%bool eqn:Et in E; zb; [done|]. rewrite (EventQueue.rep_size q l Hq) in Em.
    destruct (EventQueue.push_represents q l e Hq Eq) as (q2 & E2 & Hr & _ & Hcl); [lia|unfold EventQueue.prio, kEventPriorityCount in *; cbn in *; lia|].
    assert (q2 = q') as <-; [|by rewrite Hcl].
    unfold EventQueue.push in E2. rewrite Eq in E2. rewrite <- (EventQueue.rep_size q l Hq) in Em.
    replace (EventQueue.max_size_ q <=? EventQueue.size_ q) with false in E2 by lia.
    destruct ((_ <? 0) || _)%bool eqn:Et2 in E2; zb; [done|]. congruence. }
  destruct Hpush as [Hq' Hcl]. exists (l ++ [e]). split; cbn; rewrite ?Hcl; [done|by rewrite He, app_assoc| | |].
  - rewrite length_app. cbn. lia.
  - intros Hclosed. specialize (Hc Hclosed). lia.
  - by apply HF.
Qed.

Lemma step_inv lb l s s' : inv l s -> step lb s = Some s' -> exists l', inv l' s'.
Proof.
  intros Hi Hs. destruct lb as [|i|i|e w| |n| |i]; [|by apply pop_loop_inv with i l s| |by apply push_inv with e w l s|..];
    destruct s as [q cs ks acc tk]; destruct Hi as [Hq He Ha Hc Ht]; cbn in *.
  - injection Hs as <-. exists l. split; cbn; rewrite ?sum_list_with_app; cbn; try done; try lia.
    + intros Hcl. specialize (Hc Hcl). lia.
    + apply Forall_app. by repeat constructor.
  - destruct (cs !! i) as [[| |x]|] eqn:Ei; try done. injection Hs as <-. exists l.
    destruct (sum_moves asleep cs i Asleep Awake Ei), (sum_moves awake cs i Asleep Awake Ei). cbn [asleep awake] in *.
    split; cbn; try done; try lia; [intros Hcl; specialize (Hc Hcl); lia|by apply Forall_insert].
  - destruct (try_pop_cases q l Hq) as (q1 & o & l1 & E & Hq1 & Hp & Hc1 & _). rewrite E in Hs. injection Hs as <-.
    exists l1. split; cbn; rewrite ?Hc1; try done; [by rewrite He, Hp, <- app_assoc| |by apply took_ok_mono].
    apply Permutation_length in Hp. rewrite length_app in Hp. lia.
  - destruct (pop_all_cases n q l Hq) as (q1 & es & l1 & E & Hq1 & Hp & Hc1). rewrite E in Hs. injection Hs as <-.
    exists l1. split; cbn; rewrite ?Hc1; try done; [by rewrite He, Hp, <- app_assoc| |by apply took_ok_mono].
    apply Permutation_length in Hp. rewrite length_app in Hp. lia.
  - injection Hs as <-. exists l. split; cbn; rewrite ?sum_list_with_app; cbn; try done. intros Hcl. specialize (Hc Hcl). lia.
  - destruct (ks !! i) as [[| |]|] eqn:Ei; try done; injection Hs as <-; exists l.
    + destruct (sum_moves notifying ks i ToClose ToNotify Ei). cbn [notifying] in *.
      split; cbn; [by destruct Hq; split|done|done|lia|]. eapply Forall_impl; [exact Ht|]. intros [| |e]; cbn; tauto.
    + destruct (notify_all_wakes cs) as [Hz HF]. split; cbn; rewrite ?Hz; try done; try lia. by apply HF.
Qed.

(** * Nobody sleeps without a reason *)

(** The steps of the calls under way: no new call, no spurious wake-up. *)
Definition internal (lb : label) : bool := match lb with Loop _ | CloseStep _ => true | _ => false end.

(** What the calls under way may still do. A notification can wake all. *)
Definition close_weight (n : nat) (k : close_pc) : nat := match k with ToClose => 2 + n | ToNotify => 1 + n | HasClosed => 0 end.
Definition weight (s : t) : nat := sum_list_with awake (pops s) + sum_list_with (close_weight (length (pops s))) (closes s).

Lemma notify_all_length cs : length (notify_all cs) = length cs /\
  (sum_list_with awake (notify_all cs) <= length cs)%nat.
Proof. unfold notify_all. rewrite length_map. split; [done|]. induction cs as [|[| |e] cs IH]; cbn; lia. Qed.

Lemma internal_lowers lb s s' : internal lb = true -> step lb s = Some s' -> (1 + weight s' <= weight s)%nat.
Proof.
  destruct s as [q cs ks acc tk]. unfold weight. destruct lb as [|i| | | | | |i]; try done; intros _ Hs; cbn in Hs.
  - destruct (cs !! i) as [[| |x]|] eqn:Ei; try done. pose proof (fun y => sum_moves awake cs i Awake y Ei) as Hm. cbn [awake] in Hm.
    destruct (EventQueue.pop q) as [q' [e|]]; injection Hs as <-; cbn; rewrite length_insert.
    + specialize (Hm (Took e)). cbn [awake] in Hm. lia.
    + specialize (Hm Asleep). cbn [awake] in Hm. lia.
  - destruct (ks !! i) as [[| |]|] eqn:Ei; try done; injection Hs as <-; cbn.
    + destruct (sum_moves (close_weight (length cs)) ks i ToClose ToNotify Ei). cbn [close_weight] in *. lia.
    + destruct (notify_all_length cs) as [-> ?]. destruct (sum_moves (close_weight (length cs)) ks i ToNotify HasClosed Ei).
      cbn [close_weight] in *. lia.
Qed.

(** A caller that waits is counted; so is a close that has not notified. *)
Lemma stuck_reasons l s : inv l s -> (forall lb, internal lb = true -> step lb s = None) ->
  forall c, c ∈ pops s -> (exists e, c = Took e) \/ c = Asleep /\ l = [] /\ EventQueue.queue_closed_ (queue s) = false.
Proof.
  destruct s as [q cs ks acc tk]. intros [Hq _ Ha Hc _] Hst c Hin. cbn in *.
  assert (Hna : sum_list_with awake cs = 0%nat).
  { assert (Hall : Forall (fun c => c <> Awake) cs).
    { apply Forall_lookup. intros i c' Hi ->. specialize (Hst (Loop i) eq_refl). cbn in Hst. rewrite Hi in Hst. by destruct (EventQueue.pop q) as [? []]. }
    clear - Hall. induction Hall as [|c' cs Hc' _ IH]; [done|]. cbn. destruct c'; cbn; [done|lia|lia]. }
  assert (Hnn : sum_list_with notifying ks = 0%nat).
  { assert (Hall : Forall (fun k => k <> ToNotify) ks).
    { apply Forall_lookup. intros i k Hi ->. specialize (Hst (CloseStep i) eq_refl). cbn in Hst. by rewrite Hi in Hst. }
    clear - Hall. induction Hall as [|k ks Hk _ IH]; [done|]. cbn. destruct k; cbn; [lia|done|lia]. }
  apply list_elem_of_lookup in Hin as [i Hi]. destruct c as [| |e]; [|right|by left; exists e].
  - specialize (Hst (Loop i) eq_refl). cbn in Hst. rewrite Hi in Hst. by destruct (EventQueue.pop q) as [? []].
  - assert (0 < sum_list_with asleep cs)%nat by (apply (sum_lookup asleep) in Hi; cbn in Hi; lia).
    split; [done|]. split; [apply nil_length_inv; lia|]. apply not_true_iff_false. intros Hcl. specialize (Hc Hcl). lia.
Qed.
End EventPop.
Arguments t H : clear implicits.
Arguments label H : clear implicits.
Arguments pop_pc H : clear implicits.

(** C25. The blocking [pop] with any number of callers, against any pushes, other
    takers, closes and spurious wake-ups. Every accepted event is given to
    exactly one caller or is still pending; [pop] returns such an event, or the
    shutdown event of a closed queue. The calls under way come to rest after a
    bounded number of steps, and when they have, the only ones still asleep wait
    on an empty queue that is not closed: no notification is lost, although
    [push] notifies one thread and [wake_up] notifies after it has left the
    mutex. *)
Theorem pop_wakes_up {H} n (ls : list (label H)) (s : t H) :
  0 <= n < 2 ^ 64 -> exec ls (start n) = Some s ->
  exists l, EventQueue.represents (queue s) l /\ accepted s ≡ₚ taken s ++ l /\
    (forall e, Took e ∈ pops s -> e ∈ accepted s \/ e = make_shutdown_event /\ EventQueue.queue_closed_ (queue s) = true) /\
    (forall ls' s', Forall (fun lb => internal lb = true) ls' -> exec ls' s = Some s' -> (length ls' <= weight s)%nat) /\
    ((forall lb, internal lb = true -> step lb s = None) ->
     forall c, c ∈ pops s -> (exists e, c = Took e) \/ c = Asleep /\ l = [] /\ EventQueue.queue_closed_ (queue s) = false).
Proof.
  intros Hn Hs.
  assert (Hi : exists l, inv l s).
  { apply (run_steps_keeps step (fun s => exists l, inv l s) ls) with (start n); [|by exists []; apply pop_start_inv|exact Hs].
    intros lb s1 s2 _ (l & Hi) Hst. by apply step_inv with lb l s1. }
  destruct Hi as (l & Hi). exists l. pose proof Hi as [Hq He _ _ Ht]. split; [done|]. split; [done|]. split; [|split].
  - intros e Hin. apply (proj1 (Forall_forall _ _) Ht) in Hin as [Hin|Hin]; [|by right]. left. rewrite He, elem_of_app. by left.
  - intros ls' s' Hint Hs'. destruct (run_steps_lower step (fun _ => True) weight ls') with s s' as [_ Hlen]; [|done|exact Hs'|lia].
    intros lb s1 s2 Hin _ Hst. split; [done|]. apply internal_lowers with lb; [|done]. by apply (proj1 (Forall_forall _ _) Hint).
  - by apply stuck_reasons.
Qed.

(** Three callers of [pop]; an event for the one that is notified, which another
    one takes first; the others are released by [close]. *)
Definition demo : list (label nat) :=
  let ev := mkEvent READ 1 5 0 (Some 7%nat) in
  [CallPop; CallPop; Loop 0; Loop 1; Push ev 1; CallPop; Loop 2; Loop 1; Spurious 0; CallClose; CloseStep 0; Loop 0; CloseStep 0; Loop 1].

Lemma pop_wakes_up_witness :
  let s := default (start 4) (exec demo (start 4)) in
  pops s = [Took make_shutdown_event; Took make_shutdown_event; Took (mkEvent READ 1 5 0 (Some 7%nat))] /\
  exists l, EventQueue.represents (queue s) l /\ accepted s ≡ₚ taken s ++ l /\
    (forall e, Took e ∈ pops s -> e ∈ accepted s \/ e = make_shutdown_event /\ EventQueue.queue_closed_ (queue s) = true) /\
    (forall ls' s', Forall (fun lb => internal lb = true) ls' -> exec ls' s = Some s' -> (length ls' <= weight s)%nat) /\
    ((forall lb, internal lb = true -> step lb s = None) ->
     forall c, c ∈ pops s -> (exists e, c = Took e) \/ c = Asleep /\ l = [] /\ EventQueue.queue_closed_ (queue s) = false).
Proof.
  cbv zeta. split; [vm_compute; reflexivity|]. apply (pop_wakes_up 4 demo); [lia|]. vm_compute. reflexivity.
Defined.

End EventPop.
