(* ===== verification/Workers.v ===== *)
(** The worker pool of the message centre (msg_center/include/msg_center/worker_pool.hpp,
    msg_center/source/worker_pool.cpp), as an interleaving of its atomic actions.

    A state records the task queue, the two atomic flags and where each worker
    thread is; [accepted], [taken] and [executed] are histories that no action
    reads. Every critical section of [mutex_] and every store to an atomic flag
    is one action, so a run is any interleaving of posting threads, the stopping
    thread and the workers. *)

From S2P Require Import Prelude.

Module WorkerPool.
Section WorkerPool.
Context {T : Type}.

Inductive worker := Waiting | Executing (task : T) | Exited.

Record t := mk {
  task_queue_ : list T;
  running_ : bool;
  queue_closed_ : bool;
  post_callback_done_ : bool;
  workers_ : list worker;
  callback_done_events : nat;   (* CALLBACK_DONE events handed to the event loop *)
  accepted : list T;            (* tasks [post_task] queued, oldest first *)
  taken : list T;               (* tasks dequeued by workers, oldest first *)
  executed : list T;            (* tasks that finished *)
  at_stop : option (list T);    (* [accepted] when [running_] was last cleared *)
}.

(** [WorkerPool::WorkerPool]; threads are created by [start]. *)
Definition create : t := mk [] false false false [] 0 [] [] [] None.

Definition start (num_workers : nat) (s : t) : t :=
  if running_ s then s
  else mk (task_queue_ s) true false (post_callback_done_ s) (replicate num_workers Waiting)
          (callback_done_events s) (accepted s) (taken s) (executed s) None.

Definition post_task (task : T) (s : t) : t :=
  if queue_closed_ s then s
  else mk (task_queue_ s ++ [task]) (running_ s) (queue_closed_ s) (post_callback_done_ s)
          (workers_ s) (callback_done_events s) (accepted s ++ [task]) (taken s) (executed s)
          (at_stop s).

Definition set_post_callback_done (enable : bool) (s : t) : t :=
  mk (task_queue_ s) (running_ s) (queue_closed_ s) enable (workers_ s)
     (callback_done_events s) (accepted s) (taken s) (executed s) (at_stop s).

(** The two stores of [stop], in program order. *)
Definition stop_running (s : t) : t :=
  mk (task_queue_ s) false (queue_closed_ s) (post_callback_done_ s) (workers_ s)
     (callback_done_events s) (accepted s) (taken s) (executed s) (Some (accepted s)).

Definition stop_close (s : t) : t :=
  mk (task_queue_ s) (running_ s) true (post_callback_done_ s) (workers_ s)
     (callback_done_events s) (accepted s) (taken s) (executed s) (at_stop s).

(** [stop] returns once every worker was joined; the vector is cleared. *)
Definition all_exited (s : t) : Prop := Forall (fun w => w = Exited) (workers_ s).
Definition stop_join (s : t) : t :=
  mk (task_queue_ s) (running_ s) (queue_closed_ s) (post_callback_done_ s) []
     (callback_done_events s) (accepted s) (taken s) (executed s) (at_stop s).

Definition set_worker (i : nat) (w : worker) (s : t) : t :=
  mk (task_queue_ s) (running_ s) (queue_closed_ s) (post_callback_done_ s)
     (<[i := w]> (workers_ s)) (callback_done_events s) (accepted s) (taken s) (executed s)
     (at_stop s).

(** The wait predicate of [worker_thread]. *)
Definition wait_pred (s : t) : bool :=
  negb (bool_decide (task_queue_ s = [])) || (queue_closed_ s && negb (running_ s))
  || negb (running_ s).

(** The critical section of [worker_thread] once the predicate holds: take the
    front task if there is one, else leave when the pool is stopped. *)
Definition worker_critical (i : nat) (s : t) : t :=
  match task_queue_ s with
  | task :: rest =>
      mk rest (running_ s) (queue_closed_ s) (post_callback_done_ s)
         (<[i := Executing task]> (workers_ s)) (callback_done_events s) (accepted s)
         (taken s ++ [task]) (executed s) (at_stop s)
  | [] => if negb (running_ s) then set_worker i Exited s else s
  end.

(** The task has run (or thrown, which is caught); then the optional
    CALLBACK_DONE event ([event_loop_] is the pointer's nullness). *)
Definition worker_finish (event_loop_ : bool) (i : nat) (task : T) (s : t) : t :=
  mk (task_queue_ s) (running_ s) (queue_closed_ s) (post_callback_done_ s)
     (<[i := Waiting]> (workers_ s))
     (if post_callback_done_ s && event_loop_ then S (callback_done_events s)
      else callback_done_events s)
     (accepted s) (taken s) (executed s ++ [task]) (at_stop s).

Inductive step (num_workers : nat) (event_loop_ : bool) : t -> t -> Prop :=
| st_start s : workers_ s = [] -> step num_workers event_loop_ s (start num_workers s)
| st_post task s : step num_workers event_loop_ s (post_task task s)
| st_enable b s : step num_workers event_loop_ s (set_post_callback_done b s)
| st_stop_running s : running_ s = true -> step num_workers event_loop_ s (stop_running s)
| st_stop_close s : running_ s = false -> step num_workers event_loop_ s (stop_close s)
| st_stop_join s : running_ s = false -> queue_closed_ s = true -> all_exited s ->
    step num_workers event_loop_ s (stop_join s)
| st_critical i s : workers_ s !! i = Some Waiting -> wait_pred s = true ->
    step num_workers event_loop_ s (worker_critical i s)
| st_finish i task s : workers_ s !! i = Some (Executing task) ->
    step num_workers event_loop_ s (worker_finish event_loop_ i task s).

Inductive reachable (num_workers : nat) (event_loop_ : bool) : t -> Prop :=
| r_init : reachable num_workers event_loop_ create
| r_step s s' : reachable num_workers event_loop_ s -> step num_workers event_loop_ s s' ->
    reachable num_workers event_loop_ s'.

(** * Invariant *)

Definition task_of (w : worker) : option T :=
  match w with Executing x => Some x | _ => None end.
Definition in_progress (s : t) : list T := omap task_of (workers_ s).

Record inv (s : t) : Prop := {
  inv_fifo : accepted s = taken s ++ task_queue_ s;
  inv_once : taken s ≡ₚ executed s ++ in_progress s;
  inv_stop : match at_stop s with
             | Some old => old `prefix_of` accepted s /\ running_ s = false
             | None => running_ s = false -> workers_ s = []
             end;
  inv_exit i : workers_ s !! i = Some Exited ->
    match at_stop s with Some old => old `prefix_of` taken s | None => False end;
}.

Lemma in_progress_take (ws : list worker) (i : nat) x :
  ws !! i = Some Waiting -> omap task_of (<[i := Executing x]> ws) ≡ₚ x :: omap task_of ws.
Proof.
  revert i. induction ws as [|w ws IH]; intros [|i] Hi; cbn in Hi; [done|done| |].
  - by simplify_eq.
  - cbn. specialize (IH i Hi). destruct (task_of w); [|done]. rewrite IH. by apply perm_swap.
Qed.

Lemma in_progress_finish (ws : list worker) (i : nat) x :
  ws !! i = Some (Executing x) -> omap task_of ws ≡ₚ x :: omap task_of (<[i := Waiting]> ws).
Proof.
  revert i. induction ws as [|w ws IH]; intros [|i] Hi; cbn in Hi; [done|done| |].
  - by simplify_eq.
  - cbn. specialize (IH i Hi). destruct (task_of w); [|done]. rewrite IH. by apply perm_swap.
Qed.

Lemma in_progress_exit (ws : list worker) (i : nat) :
  ws !! i = Some Waiting -> omap task_of (<[i := Exited]> ws) = omap task_of ws.
Proof.
  revert i. induction ws as [|w ws IH]; intros [|i] Hi; cbn in Hi; [done|done| |].
  - by simplify_eq.
  - cbn. destruct (task_of w); [f_equal|]; exact (IH i Hi).
Qed.

Lemma all_exited_progress (ws : list worker) : Forall (fun w => w = Exited) ws -> omap task_of ws = [].
Proof. induction 1 as [|w ws -> _ IH]; [done|]. exact IH. Qed.

Lemma insert_lookup_cases (ws : list worker) (i j : nat) w x :
  <[i := w]> ws !! j = Some x -> x = w \/ ws !! j = Some x.
Proof.
  intros Hl. destruct (decide (i = j)) as [->|Hne].
  - apply list_lookup_insert_Some in Hl as [(_ & -> & _)|(_ & ?)]; auto.
  - rewrite list_lookup_insert_ne in Hl by done. auto.
Qed.

Lemma critical_inv i s :
  workers_ s !! i = Some Waiting -> inv s -> inv (worker_critical i s).
Proof.
  intros Hw Hi. pose proof Hi as [Hf Ho Hs He]. unfold worker_critical. destruct (task_queue_ s) as [|x q] eqn:Hq.
  - destruct (running_ s) eqn:Hr; cbn [negb]; [exact Hi|]. split; cbn; rewrite ?Hq, ?Hr; try done.
    + unfold in_progress. cbn. by rewrite in_progress_exit.
    + destruct (at_stop s); [done|]. intros _. rewrite Hs in Hw by done. done.
    + intros j Hj. destruct (at_stop s) as [old|].
      * rewrite app_nil_r in Hf. rewrite <- Hf. apply Hs.
      * rewrite Hs in Hw by done. done.
  - split; cbn.
    + by rewrite Hf, <- app_assoc.
    + unfold in_progress. cbn. rewrite in_progress_take by done.
      rewrite Ho, <- !Permutation_middle, app_nil_r. done.
    + destruct (at_stop s); [done|]. intros Hr. rewrite Hs in Hw by done. done.
    + intros j Hj. apply insert_lookup_cases in Hj as [?|Hj]; [done|].
      specialize (He j Hj). destruct (at_stop s); [by apply prefix_app_r|done].
Qed.

Lemma step_pool_inv n el s s' : step n el s s' -> inv s -> inv s'.
Proof.
  intros Hst Hi. destruct Hst as [s Hnil|task s|b s|s Hr|s Hr|s Hr Hc Hx|i s Hw Hp|i task s Hw].
  - unfold start. destruct (running_ s) eqn:Hr; [done|]. destruct Hi as [Hf Ho Hs He].
    split; cbn; try done.
    + rewrite Ho. unfold in_progress. cbn. rewrite Hnil. f_equiv. cbn.
      induction n; cbn; [done|]. exact IHn.
    + intros i Hi. apply lookup_replicate in Hi as [? _]. done.
  - unfold post_task. destruct (queue_closed_ s); [done|]. destruct Hi as [Hf Ho Hs He].
    split; cbn; try done; [by rewrite Hf, <- app_assoc|].
    destruct (at_stop s); [|done]. destruct Hs. split; [by apply prefix_app_r|done].
  - destruct Hi. by split.
  - destruct Hi as [Hf Ho Hs He]. split; cbn; try done.
    intros i Hi. specialize (He i Hi). destruct (at_stop s); [|done]. destruct Hs; congruence.
  - destruct Hi. by split.
  - destruct Hi as [Hf Ho Hs He]. split; cbn; try done.
    + rewrite Ho. unfold in_progress. by rewrite all_exited_progress.
    + by destruct (at_stop s).
  - by apply critical_inv.
  - destruct Hi as [Hf Ho Hs He]. split; cbn; try done.
    + rewrite Ho. unfold in_progress at 1. rewrite (in_progress_finish _ i task) by done.
      unfold in_progress. cbn. by rewrite <- app_assoc.
    + destruct (at_stop s); [done|]. intros Hr. rewrite Hs in Hw by done. done.
    + intros j Hj. apply insert_lookup_cases in Hj as [?|Hj]; [done|]. by apply (He j).
Qed.

Lemma create_pool_inv : inv create.
Proof. split; done. Qed.

Lemma reachable_inv n el s : reachable n el s -> inv s.
Proof. induction 1; [apply create_pool_inv|by eapply step_pool_inv]. Qed.

End WorkerPool.
Arguments t T : clear implicits.
Arguments worker T : clear implicits.

(** * Properties *)

(** C15. In every interleaving, tasks are dequeued in the order they were
    accepted, and the dequeued tasks are exactly those finished plus those a
    worker is running: none is lost and none runs twice. *)
Theorem tasks_exactly_once {T} n el (s : t T) :
  reachable n el s ->
  accepted s = taken s ++ task_queue_ s /\ taken s ≡ₚ executed s ++ in_progress s.
Proof. intros Hr. by destruct (reachable_inv n el s Hr). Qed.

Definition demo_run : t nat :=
  worker_finish true 1 7%nat
    (worker_critical 0 (worker_critical 1 (post_task 9%nat (post_task 8%nat (post_task 7%nat
      (set_post_callback_done true (start 2 create))))))).

Lemma demo_run_reachable : reachable 2 true demo_run.
Proof.
  unfold demo_run.
  eapply r_step; [|apply st_finish; reflexivity].
  eapply r_step; [|apply st_critical; reflexivity].
  eapply r_step; [|apply st_critical; reflexivity].
  do 3 (eapply r_step; [|apply st_post]).
  eapply r_step; [|apply st_enable]. eapply r_step; [constructor|]. by apply st_start.
Qed.

Lemma tasks_exactly_once_witness :
  accepted demo_run = [7; 8]%nat ++ [9]%nat /\ taken demo_run ≡ₚ [7]%nat ++ [8]%nat.
Proof. exact (tasks_exactly_once 2 true demo_run demo_run_reachable). Defined.

(** C17. Once a worker has left its loop, [running_] has been cleared and every
    task accepted before that ([old]) has been dequeued, ahead of the tasks
    accepted later ([late] are those of them that were dequeued too); when all
    workers have left, every task dequeued, and so every one of [old], has
    finished. *)
Theorem workers_drain {T} n el (s : t T) i :
  reachable n el s -> workers_ s !! i = Some Exited ->
  exists old late, at_stop s = Some old /\ running_ s = false /\ old `prefix_of` accepted s /\
    taken s = old ++ late /\ (all_exited s -> executed s ≡ₚ old ++ late).
Proof.
  intros Hr Hi. destruct (reachable_inv n el s Hr) as [Hf Ho Hs He].
  specialize (He i Hi). destruct (at_stop s) as [old|]; [|done]. destruct Hs as [Hp Hrn].
  destruct He as [late Hl]. exists old, late. split_and!; [done..|]. intros Hx.
  rewrite <- Hl, Ho. unfold in_progress. by rewrite all_exited_progress, app_nil_r.
Qed.

Definition drained : t nat :=
  worker_critical 0 (stop_close (worker_finish true 0 7%nat (worker_critical 0
    (stop_running (post_task 7%nat (start 1 create)))))).

Lemma drained_reachable : reachable 1 true drained.
Proof.
  unfold drained.
  eapply r_step; [|apply st_critical; reflexivity].
  eapply r_step; [|apply st_stop_close; reflexivity].
  eapply r_step; [|apply st_finish; reflexivity].
  eapply r_step; [|apply st_critical; reflexivity].
  eapply r_step; [|apply st_stop_running; reflexivity].
  eapply r_step; [|apply st_post]. eapply r_step; [constructor|]. by apply st_start.
Qed.

Lemma workers_drain_witness :
  exists old late, at_stop drained = Some old /\ running_ drained = false /\ old `prefix_of` accepted drained /\
    taken drained = old ++ late /\ (all_exited drained -> executed drained ≡ₚ old ++ late).
Proof. exact (workers_drain 1 true drained 0 drained_reachable eq_refl). Defined.

(** [stop] clears [running_] before it closes the queue: a task posted
    in between is accepted although the workers may already be gone, and stays
    queued after [stop] has joined them. *)
Theorem task_posted_during_stop_is_lost {T} (x : T) :
  exists s, reachable 1 true s /\ workers_ s = [] /\ running_ s = false /\
    queue_closed_ s = true /\ accepted s = [x] /\ executed s = [].
Proof.
  exists (stop_join (stop_close (post_task x (worker_critical 0 (stop_running (start 1 create)))))).
  split; [|done].
  eapply r_step; [|apply st_stop_join; [done|done|repeat constructor]].
  eapply r_step; [|apply st_stop_close; reflexivity].
  eapply r_step; [|apply st_post].
  eapply r_step; [|apply st_critical; reflexivity].
  eapply r_step; [|apply st_stop_running; reflexivity].
  eapply r_step; [constructor|]. by apply st_start.
Qed.

End WorkerPool.
