(* ===== verification/MsgCentre.v ===== *)
(** The I/O threads and the facade of the message centre
    (msg_center/include/msg_center/io_thread.hpp, msg_center.hpp and
    msg_center/source/io_thread.cpp, msg_center.cpp).

    [kqueue]/[kevent] and the sockets belong to the operating system: what a
    [kevent] call returned is an argument ([kev]) of the dispatch. *)

From S2P Require Import Prelude EventQ Workers.

(** [std::find] then [erase] on a vector of descriptors. *)
Fixpoint erase_first (fd : Z) (l : list Z) : list Z :=
  match l with
  | [] => []
  | x :: r => if x =? fd then r else x :: erase_first fd r
  end.

(** [std::find] then [push_back] when absent. *)
Definition push_unique (fd : Z) (l : list Z) : list Z :=
  if bool_decide (fd ∈ l) then l else l ++ [fd].

Lemma elem_of_erase_first x fd l : NoDup l -> x ∈ erase_first fd l <-> x ∈ l /\ x <> fd.
Proof.
  induction 1 as [|y l Hy Hn IH]; cbn; [set_solver|]. ifz; [subst; set_solver|].
  rewrite !elem_of_cons, IH. naive_solver.
Qed.

Lemma NoDup_erase_first fd l : NoDup l -> NoDup (erase_first fd l).
Proof.
  induction 1 as [|y l Hy Hn IH]; cbn; [constructor|]. ifz; [done|].
  constructor; [|done]. rewrite elem_of_erase_first by done. tauto.
Qed.

Lemma elem_of_push_unique x fd l : x ∈ push_unique fd l <-> x = fd \/ x ∈ l.
Proof. unfold push_unique. case_bool_decide; set_solver. Qed.

Lemma NoDup_push_unique fd l : NoDup l -> NoDup (push_unique fd l).
Proof.
  unfold push_unique. intros Hn. case_bool_decide; [done|].
  apply NoDup_app. split; [done|]. split; [set_solver|apply NoDup_singleton].
Qed.

Module IoThread.

Record t := mk {
  running_ : bool;
  wakeup_read_fd_ : Z;
  fd_to_conn_id_ : gmap Z Z;
  listen_fd_to_port_ : gmap Z Z;
  listen_fds_ : list Z;
  conn_fds_ : list Z;
}.

Definition create : t := mk false (-1) ∅ ∅ [] [].

Definition set_running (r : bool) (s : t) : t :=
  mk r (wakeup_read_fd_ s) (fd_to_conn_id_ s) (listen_fd_to_port_ s) (listen_fds_ s) (conn_fds_ s).
Definition start (s : t) : t := if running_ s then s else set_running true s.
Definition stop (s : t) : t := if negb (running_ s) then s else set_running false s.

Definition add_listen_fd (fd port : Z) (s : t) : t :=
  mk (running_ s) (wakeup_read_fd_ s) (fd_to_conn_id_ s) (<[fd := port]> (listen_fd_to_port_ s))
     (push_unique fd (listen_fds_ s)) (conn_fds_ s).

Definition add_conn_fd (fd conn_id : Z) (s : t) : t :=
  mk (running_ s) (wakeup_read_fd_ s) (<[fd := conn_id]> (fd_to_conn_id_ s)) (listen_fd_to_port_ s)
     (listen_fds_ s) (push_unique fd (conn_fds_ s)).

Definition remove_fd (fd : Z) (s : t) : t :=
  let s1 :=
    match listen_fd_to_port_ s !! fd with
    | Some _ => mk (running_ s) (wakeup_read_fd_ s) (fd_to_conn_id_ s)
                   (delete fd (listen_fd_to_port_ s)) (erase_first fd (listen_fds_ s)) (conn_fds_ s)
    | None => s
    end in
  match fd_to_conn_id_ s1 !! fd with
  | Some _ => mk (running_ s1) (wakeup_read_fd_ s1) (delete fd (fd_to_conn_id_ s1))
                 (listen_fd_to_port_ s1) (listen_fds_ s1) (erase_first fd (conn_fds_ s1))
  | None => s1
  end.

(** What the loop registers with the kernel each round: listening descriptors
    for reading, connections for reading and writing. *)
Inductive filter_kind := EVFILT_READ | EVFILT_WRITE | EVFILT_OTHER.
Definition registrations (s : t) : list (Z * filter_kind) :=
  map (fun fd => (fd, EVFILT_READ)) (listen_fds_ s) ++
  flat_map (fun fd => [(fd, EVFILT_READ); (fd, EVFILT_WRITE)]) (conn_fds_ s).

(** A triggered kernel event. *)
Record kev := mkKev { ident : Z; kfilter : filter_kind; ev_error : bool; ev_eof : bool }.

Section Dispatch.
Context {H : Type}.

(** The body of the [for] loop over the triggered events: the event it pushes,
    if any. An [Event] built there has no handler and no user data. *)
Definition dispatch (s : t) (k : kev) : option (Event H) :=
  if ident k =? wakeup_read_fd_ s then None
  else if ev_error k then None
  else if ev_eof k then
    match fd_to_conn_id_ s !! ident k with
    | Some id => Some (mkEvent ERROR id (ident k) 0 None)
    | None => None
    end
  else
    match kfilter k with
    | EVFILT_READ =>
        match listen_fd_to_port_ s !! ident k with
        | Some _ => Some (mkEvent ACCEPT 0 (ident k) 0 None)
        | None =>
            match fd_to_conn_id_ s !! ident k with
            | Some id => Some (mkEvent READ id (ident k) 0 None)
            | None => None
            end
        end
    | EVFILT_WRITE =>
        match fd_to_conn_id_ s !! ident k with
        | Some id => Some (mkEvent WRITE id (ident k) 0 None)
        | None => None
        end
    | EVFILT_OTHER => None
    end.

(** One batch returned by [kevent], pushed to the shared queue. *)
Definition poll (s : t) (ks : list kev) (q : EventQueue.t H) : EventQueue.t H :=
  foldl (fun q k => match dispatch s k with
                    | Some e => fst (EventQueue.push q e)
                    | None => q
                    end) q ks.
End Dispatch.

(** Vectors and maps agree. *)
Definition wf (s : t) : Prop :=
  NoDup (listen_fds_ s) /\ NoDup (conn_fds_ s) /\
  (forall fd, fd ∈ listen_fds_ s <-> is_Some (listen_fd_to_port_ s !! fd)) /\
  (forall fd, fd ∈ conn_fds_ s <-> is_Some (fd_to_conn_id_ s !! fd)).

Lemma lookup_insert_is_Some_Z (m : gmap Z Z) i x j :
  is_Some (<[i := x]> m !! j) <-> j = i \/ is_Some (m !! j).
Proof. rewrite lookup_insert_is_Some. destruct (decide (i = j)); naive_solver. Qed.

Lemma lookup_delete_is_Some_Z (m : gmap Z Z) i j :
  is_Some (delete i m !! j) <-> is_Some (m !! j) /\ j <> i.
Proof. rewrite lookup_delete_is_Some. naive_solver. Qed.

Lemma add_listen_fd_wf fd port s : wf s -> wf (add_listen_fd fd port s).
Proof.
  intros (H1 & H2 & H3 & H4). split; [by apply NoDup_push_unique|]. split; [done|].
  split; [|done]. intros x. cbn. by rewrite elem_of_push_unique, lookup_insert_is_Some_Z, H3.
Qed.

Lemma add_conn_fd_wf fd id s : wf s -> wf (add_conn_fd fd id s).
Proof.
  intros (H1 & H2 & H3 & H4). split; [done|]. split; [by apply NoDup_push_unique|].
  split; [done|]. intros x. cbn. by rewrite elem_of_push_unique, lookup_insert_is_Some_Z, H4.
Qed.

Lemma remove_fd_wf fd s : wf s -> wf (remove_fd fd s).
Proof.
  intros (H1 & H2 & H3 & H4). unfold remove_fd.
  destruct (listen_fd_to_port_ s !! fd) eqn:E1; cbn;
    destruct (fd_to_conn_id_ s !! fd) eqn:E2; (split; [|split; [|split]]); cbn;
    auto using NoDup_erase_first;
    intros x; by rewrite elem_of_erase_first, lookup_delete_is_Some_Z, ?H3, ?H4.
Qed.

Lemma remove_fd_gone fd s :
  listen_fd_to_port_ (remove_fd fd s) !! fd = None /\ fd_to_conn_id_ (remove_fd fd s) !! fd = None.
Proof.
  unfold remove_fd. destruct (listen_fd_to_port_ s !! fd) eqn:E1; cbn;
    destruct (fd_to_conn_id_ s !! fd) eqn:E2; cbn; rewrite ?lookup_delete_eq; auto.
Qed.

Inductive op := AddListen (fd port : Z) | AddConn (fd id : Z) | Remove (fd : Z) | Start | Stop.
Definition run_op (s : t) (o : op) : t :=
  match o with
  | AddListen fd port => add_listen_fd fd port s
  | AddConn fd id => add_conn_fd fd id s
  | Remove fd => remove_fd fd s
  | Start => start s
  | Stop => stop s
  end.

Lemma run_io_op_wf s o : wf s -> wf (run_op s o).
Proof.
  intros Hw. destruct o; cbn;
    [by apply add_listen_fd_wf|by apply add_conn_fd_wf|by apply remove_fd_wf| |].
  - unfold start. by destruct (running_ s).
  - unfold stop. by destruct (running_ s).
Qed.

(** After any calls from any threads the vectors the poll loop walks and
    the maps the dispatch reads describe the same descriptors, each once; and a
    kernel event on a descriptor that was just removed pushes nothing. *)
Theorem io_thread_tables_agree os fd k {H} :
  let s := foldl run_op create os in
  wf s /\ (ident k = fd -> @dispatch H (remove_fd fd s) k = None).
Proof.
  cbv zeta. split.
  - assert (Hw : wf create) by (split; [constructor|split; [constructor|]]; split; intros x; cbn;
      rewrite lookup_empty; split; [set_solver|intros [? ?]; done|set_solver|intros [? ?]; done]).
    revert Hw. generalize create. induction os as [|o os IH]; intros s Hw; cbn; [done|].
    by apply IH, run_io_op_wf.
  - intros <-. set (s := foldl run_op create os).
    destruct (remove_fd_gone (ident k) s) as [H1 H2]. unfold dispatch. rewrite H1, H2.
    repeat ifz; try done. by destruct (kfilter k).
Qed.

Lemma io_thread_tables_agree_witness :
  let s := foldl run_op create [AddListen 3 8443; AddConn 7 1; Start] in
  wf s /\ (7 = 7 -> @dispatch nat (remove_fd 7 s) (mkKev 7 EVFILT_READ false false) = None).
Proof. exact (io_thread_tables_agree [AddListen 3 8443; AddConn 7 1; Start] 7 (mkKev 7 EVFILT_READ false false)). Defined.

End IoThread.

(** Events the I/O threads push carry no handler. *)
Lemma dispatch_no_handler {H} s k (e : Event H) : IoThread.dispatch s k = Some e -> handler e = None.
Proof.
  unfold IoThread.dispatch. intros Hd.
  repeat first [progress simplify_eq | ifz_in Hd | case_match]; reflexivity.
Qed.

Lemma push_pending {H} (q : EventQueue.t H) l e :
  EventQueue.represents q l -> Forall (fun x => handler x = None) l -> handler e = None ->
  exists l', EventQueue.represents (fst (EventQueue.push q e)) l' /\
    Forall (fun x => handler x = None) l'.
Proof.
  intros Hr Hl He. destruct (snd (EventQueue.push q e)) eqn:E.
  - assert (Hacc : EventQueue.queue_closed_ q = false /\ blen l < EventQueue.max_size_ q /\
      0 <= EventQueue.prio e < 8).
    { unfold EventQueue.push in E. destruct (EventQueue.queue_closed_ q); [done|].
      ifz_in E; [done|]. rewrite (EventQueue.rep_size _ _ Hr) in *.
      destruct ((type_value (type e) <? 0) || (kEventPriorityCount <=? type_value (type e)))%bool eqn:E2;
        [done|]. zb. unfold EventQueue.prio, kEventPriorityCount in *. cbn in *. lia. }
    destruct Hacc as (Hc & Hroom & Hp).
    destruct (EventQueue.push_represents q l e Hr Hc Hroom Hp) as (q' & -> & Hr' & _ & _).
    exists (l ++ [e]). split; [done|]. apply Forall_app. auto.
  - rewrite EventQueue.push_rejects by done. by exists l.
Qed.

Lemma poll_pending {H} s ks (q : EventQueue.t H) l :
  EventQueue.represents q l -> Forall (fun x => handler x = None) l ->
  exists l', EventQueue.represents (IoThread.poll s ks q) l' /\
    Forall (fun x => handler x = None) l'.
Proof.
  unfold IoThread.poll. revert q l. induction ks as [|k ks IH]; intros q l Hr Hl; cbn; [by exists l|].
  destruct (IoThread.dispatch s k) as [e|] eqn:Hd; [|by apply (IH q l)].
  destruct (push_pending q l e Hr Hl (dispatch_no_handler _ _ _ Hd)) as (l1 & Hr1 & Hl1).
  by apply (IH _ l1).
Qed.

Lemma loop_no_handler {H} (posts : H -> list (Event H)) n s l :
  EventQueue.represents (EventLoop.event_queue_ s) l -> Forall (fun x => handler x = None) l ->
  match EventLoop.loop posts n s with
  | inl s' | inr s' => EventLoop.executed s' = EventLoop.executed s
  end.
Proof.
  revert s l. induction n as [|n IH]; intros s l Hr Hl; cbn [EventLoop.loop]; [done|].
  unfold EventLoop.iter. destruct (EventLoop.running_ s); [|done].
  destruct (decide (l = [])) as [->|Hne].
  - destruct (proj2 (EventQueue.try_pop_None _ _ Hr) eq_refl).
    assert (Hp := proj2 (EventQueue.try_pop_None _ _ Hr) eq_refl). rewrite Hp. by apply (IH _ []).
  - destruct (EventQueue.try_pop_represents _ _ Hr Hne) as (q' & e & l' & -> & Ht & Hr' & _ & _).
    destruct (decide (type e <> SHUTDOWN)); [|done].
    assert (He : handler e = None /\ Forall (fun x => handler x = None) l').
    { destruct Ht as (l1 & l2 & -> & -> & _ & _). rewrite Forall_app, Forall_cons in Hl.
      rewrite Forall_app. tauto. }
    destruct He as [-> Hl']. by apply (IH (EventLoop.mk q' _ _ _) l').
Qed.

(** Whatever the kernel reports, the events an I/O thread queues make
    the event loop run nothing: no [Event] built by the dispatch carries a
    handler, so accepting, reading and writing never reach the server's code. *)
Theorem io_events_run_no_handler {H} (posts : H -> list (Event H)) s ks max n :
  0 <= max < 2 ^ 64 ->
  match EventLoop.run posts n (EventLoop.create (IoThread.poll s ks (EventQueue.create max))) with
  | inl s' | inr s' => EventLoop.executed s' = []
  end.
Proof.
  intros Hm. destruct (poll_pending s ks (EventQueue.create (H := H) max) [])
    as (l & Hr & Hl); [by apply EventQueue.create_represents|constructor|].
  exact (loop_no_handler posts n (EventLoop.enter (EventLoop.create _)) l Hr Hl).
Qed.

Lemma io_events_run_no_handler_witness :
  match EventLoop.run (fun _ : nat => []) 4 (EventLoop.create
    (IoThread.poll (IoThread.add_listen_fd 3 8443 IoThread.create)
       [IoThread.mkKev 3 IoThread.EVFILT_READ false false] (EventQueue.create 10000))) with
  | inl s' | inr s' => EventLoop.executed s' = []
  end.
Proof. apply io_events_run_no_handler. lia. Defined.

(** * The facade *)

Module MsgCenter.

Inductive MsgCenterError :=
| SUCCESS | ALREADY_RUNNING | THREAD_CREATE_FAILED | INVALID_PARAMETER | NOT_FOUND.
Definition code (e : MsgCenterError) : Z :=
  match e with
  | SUCCESS => 0 | ALREADY_RUNNING => -1 | THREAD_CREATE_FAILED => -2
  | INVALID_PARAMETER => -3 | NOT_FOUND => -4
  end.
(** The argument is the underlying integer: any other value is the default. *)
Definition msg_center_error_to_string (error : Z) : bytes :=
  if error =? code SUCCESS then str "SUCCESS"
  else if error =? code ALREADY_RUNNING then str "ALREADY_RUNNING"
  else if error =? code THREAD_CREATE_FAILED then str "THREAD_CREATE_FAILED"
  else if error =? code INVALID_PARAMETER then str "INVALID_PARAMETER"
  else if error =? code NOT_FOUND then str "NOT_FOUND"
  else str "UNKNOWN_ERROR".

Section MsgCenter.
Context {H T : Type}.

Record t := mk {
  event_loop_ : option (EventLoop.t H);   (* it owns the queue [event_queue_] *)
  worker_pool_ : option (@WorkerPool.t T);
  io_threads_ : list IoThread.t;
  event_loop_thread_ : bool;              (* joinable *)
  running_ : bool;
  listen_fds_ : list Z;
  io_thread_count_ : nat;
  worker_thread_count_ : nat;
}.

Definition create (io workers : nat) : t := mk None None [] false false [] io workers.

(** [stop]: the worker pool, the loop and the I/O threads are stopped and
    joined, then released. *)
Definition stop (s : t) : t :=
  if negb (running_ s) then s
  else mk None None [] false false (listen_fds_ s) (io_thread_count_ s) (worker_thread_count_ s).

(** What the system does during [start]: everything works; the loop thread does
    not report within a second; or creating a thread throws, with [k] workers,
    all workers and [k] I/O threads, or everything but the loop thread started. *)
Inductive env := Fine | Timeout | ThrowWorker (k : nat) | ThrowIo (k : nat) | ThrowLoop.

Definition default_max_size : Z := 10000.

(** The body of the [try] block, without the handler: the state and whether it
    completed. [None] when a joinable [std::thread] is overwritten, which calls
    [std::terminate]. *)
Definition start_body (e : env) (s : t) : option (t * bool) :=
  let loop := EventLoop.create (EventQueue.create default_max_size) in
  let ios := io_threads_ s ++ replicate (io_thread_count_ s) IoThread.create in
  let pool n := WorkerPool.start n WorkerPool.create in
  let st l p i j := mk (Some l) (Some p) i j (running_ s) (listen_fds_ s)
                      (io_thread_count_ s) (worker_thread_count_ s) in
  match e with
  | ThrowWorker k => Some (st loop (pool k) ios (event_loop_thread_ s), false)
  | ThrowIo k =>
      Some (st loop (pool (worker_thread_count_ s))
               (map IoThread.start (take (S k) ios) ++ drop (S k) ios) (event_loop_thread_ s), false)
  | ThrowLoop =>
      Some (st loop (pool (worker_thread_count_ s)) (map IoThread.start ios)
               (event_loop_thread_ s), false)
  | Timeout | Fine =>
      if event_loop_thread_ s then None
      else
        match e with
        | Timeout => Some (st loop (pool (worker_thread_count_ s)) (map IoThread.start ios) true, false)
        | _ => Some (mk (Some (EventLoop.enter loop))
                       (Some (WorkerPool.set_post_callback_done true (pool (worker_thread_count_ s))))
                       (map IoThread.start ios) true true (listen_fds_ s)
                       (io_thread_count_ s) (worker_thread_count_ s), true)
        end
  end.

Definition start (e : env) (s : t) : option (t * MsgCenterError) :=
  if running_ s then Some (s, ALREADY_RUNNING)
  else if (io_thread_count_ s =? 0)%nat || (worker_thread_count_ s =? 0)%nat
  then Some (s, INVALID_PARAMETER)
  else
    match start_body e s with
    | Some (s', true) => Some (s', SUCCESS)
    | Some (s', false) => Some (stop s', THREAD_CREATE_FAILED)
    | None => None
    end.

Definition set_loop (l : option (EventLoop.t H)) (s : t) : t :=
  mk l (worker_pool_ s) (io_threads_ s) (event_loop_thread_ s) (running_ s) (listen_fds_ s)
     (io_thread_count_ s) (worker_thread_count_ s).

Definition post_event (e : Event H) (s : t) : t :=
  if negb (running_ s) then s
  else match event_loop_ s with
       | Some l => set_loop (Some (EventLoop.post_event l e)) s
       | None => s
       end.

Definition post_callback_task (task : T) (s : t) : t :=
  match worker_pool_ s with
  | Some p => mk (event_loop_ s) (Some (WorkerPool.post_task task p)) (io_threads_ s)
                 (event_loop_thread_ s) (running_ s) (listen_fds_ s)
                 (io_thread_count_ s) (worker_thread_count_ s)
  | None => s
  end.

Definition set_io (ios : list IoThread.t) (fds : list Z) (s : t) : t :=
  mk (event_loop_ s) (worker_pool_ s) ios (event_loop_thread_ s) (running_ s) fds
     (io_thread_count_ s) (worker_thread_count_ s).

Definition add_listen_fd (fd port : Z) (s : t) : t * MsgCenterError :=
  if fd <? 0 then (s, INVALID_PARAMETER)
  else (set_io (map (IoThread.add_listen_fd fd port) (io_threads_ s))
               (push_unique fd (listen_fds_ s)) s, SUCCESS).

Definition remove_listen_fd (fd : Z) (s : t) : t * MsgCenterError :=
  (set_io (map (IoThread.remove_fd fd) (io_threads_ s)) (erase_first fd (listen_fds_ s)) s,
   if bool_decide (fd ∈ listen_fds_ s) then SUCCESS else NOT_FOUND).

(** * Invariant *)

Record inv (s : t) : Prop := {
  inv_nodup : NoDup (listen_fds_ s);
  inv_io : Forall (fun i => IoThread.wf i /\ IoThread.running_ i = true /\
             (forall fd, fd ∈ IoThread.listen_fds_ i -> fd ∈ listen_fds_ s)) (io_threads_ s);
  inv_up : running_ s = true ->
    is_Some (event_loop_ s) /\ is_Some (worker_pool_ s) /\
    length (io_threads_ s) = io_thread_count_ s /\ event_loop_thread_ s = true;
  inv_down : running_ s = false ->
    event_loop_ s = None /\ worker_pool_ s = None /\ io_threads_ s = [] /\
    event_loop_thread_ s = false;
}.

Inductive op :=
| Start | Stop | Post (e : Event H) | Task (task : T) | Add (fd port : Z) | Remove (fd : Z).
(** No thread creation fails: [start] is never undefined. *)
Definition run_op (s : t) (o : op) : option t :=
  match o with
  | Start => fst <$> start Fine s
  | Stop => Some (stop s)
  | Post e => Some (post_event e s)
  | Task x => Some (post_callback_task x s)
  | Add fd port => Some (fst (add_listen_fd fd port s))
  | Remove fd => Some (fst (remove_listen_fd fd s))
  end.
Definition run_ops (s : t) (os : list op) : option t :=
  foldl (fun s o => s ← s; run_op s o) (Some s) os.

Lemma create_centre_inv io n : inv (create io n).
Proof. split; cbn; [constructor|constructor|done|done]. Qed.

Lemma fresh_io_started n :
  Forall (fun i => IoThread.wf i /\ IoThread.running_ i = true /\ IoThread.listen_fds_ i = [])
    (map IoThread.start (replicate n IoThread.create)).
Proof.
  apply Forall_map, Forall_replicate. split; [|done].
  split; [constructor|split; [constructor|]].
  split; intros x; cbn; rewrite lookup_empty; split;
    first [by intros ?%elem_of_nil | by intros [? ?]].
Qed.

(** A successful start leaves I/O threads that watch nothing, whatever was
    registered before. *)
Lemma start_fine s :
  inv s -> exists s' r, start Fine s = Some (s', r) /\ inv s' /\ listen_fds_ s' = listen_fds_ s /\
    (r = SUCCESS -> running_ s' = true /\
       Forall (fun i => IoThread.listen_fds_ i = []) (io_threads_ s')).
Proof.
  intros Hi. pose proof Hi as [Hn Hio Hup Hdown]. unfold start. destruct (running_ s) eqn:Hr.
  { exists s, ALREADY_RUNNING. done. }
  destruct (Hdown eq_refl) as (Hl & Hp & Hios & Hj).
  ifz; [by exists s, INVALID_PARAMETER|]. unfold start_body. rewrite Hj, Hios.
  pose proof (fresh_io_started (io_thread_count_ s)) as Hf.
  eexists _, SUCCESS. split; [reflexivity|]. split; [|split; [done|]].
  - split; cbn; [done| |intros _|done].
    + eapply Forall_impl; [exact Hf|]. cbn. intros i (Hw & Hrun & He). rewrite He.
      split; [done|]. split; [done|]. by intros fd ?%elem_of_nil.
    + rewrite length_map, length_replicate. repeat split; eauto.
  - intros _. split; [done|]. cbn. eapply Forall_impl; [exact Hf|]. by intros i (_ & _ & ?).
Qed.

Lemma add_listen_fd_inv fd port s : inv s -> inv (fst (add_listen_fd fd port s)).
Proof.
  intros [Hn Hio Hup Hdown]. unfold add_listen_fd. ifz; [done|]. split; cbn.
  - by apply NoDup_push_unique.
  - apply Forall_map. eapply Forall_impl; [exact Hio|]. cbn. intros i (Hw & Hr & Hs).
    split; [by apply IoThread.add_listen_fd_wf|]. split; [done|]. cbn. intros x.
    rewrite !elem_of_push_unique. naive_solver.
  - rewrite length_map. done.
  - intros Hr. destruct (Hdown Hr) as (? & ? & -> & ?). done.
Qed.

Lemma remove_fd_listen fd i :
  IoThread.listen_fds_ (IoThread.remove_fd fd i) =
    match IoThread.listen_fd_to_port_ i !! fd with
    | Some _ => erase_first fd (IoThread.listen_fds_ i) | None => IoThread.listen_fds_ i end /\
  IoThread.running_ (IoThread.remove_fd fd i) = IoThread.running_ i.
Proof. unfold IoThread.remove_fd. repeat (case_match; cbn in *); done. Qed.

Lemma remove_listen_fd_inv fd s : inv s -> inv (fst (remove_listen_fd fd s)).
Proof.
  intros [Hn Hio Hup Hdown]. unfold remove_listen_fd. split; cbn.
  - by apply NoDup_erase_first.
  - apply Forall_map. eapply Forall_impl; [exact Hio|]. cbn. intros i (Hw & Hr & Hs).
    destruct (remove_fd_listen fd i) as [Hl ->].
    split; [by apply IoThread.remove_fd_wf|]. split; [done|]. rewrite Hl. intros x.
    rewrite elem_of_erase_first by done. destruct Hw as (Hnd & _ & Hm & _).
    destruct (IoThread.listen_fd_to_port_ i !! fd) eqn:E.
    + rewrite elem_of_erase_first by done. naive_solver.
    + intros Hx. split; [by apply Hs|]. intros ->. apply Hm in Hx. rewrite E in Hx. by destruct Hx.
  - rewrite length_map. done.
  - intros Hr. destruct (Hdown Hr) as (? & ? & -> & ?). done.
Qed.

Lemma run_centre_op_inv s o : inv s -> exists s', run_op s o = Some s' /\ inv s'.
Proof.
  intros Hi. destruct o as [| |e|x|fd port|fd]; cbn [run_op].
  - destruct (start_fine s Hi) as (s' & r & -> & Hi' & _). by exists s'.
  - eexists. split; [reflexivity|]. unfold stop. destruct (running_ s) eqn:Hr; cbn; [|done].
    destruct Hi as [Hn _ _ _]. split; cbn; [done|constructor|done|done].
  - eexists. split; [reflexivity|]. unfold post_event. destruct (running_ s) eqn:Hr; cbn; [|done].
    destruct (event_loop_ s) as [l|] eqn:El; [|done]. destruct Hi as [Hn Hio Hup Hdown].
    split; cbn; [done|done| |congruence]. intros _. destruct (Hup Hr) as (_ & ?). eauto.
  - eexists. split; [reflexivity|]. unfold post_callback_task.
    destruct (worker_pool_ s) as [p|] eqn:Ep; [|done]. destruct Hi as [Hn Hio Hup Hdown].
    split; cbn; [done|done| |].
    + intros Hr. destruct (Hup Hr) as (? & _ & ?). eauto.
    + intros Hr. destruct (Hdown Hr) as (_ & ? & _). congruence.
  - eexists. split; [reflexivity|]. by apply add_listen_fd_inv.
  - eexists. split; [reflexivity|]. by apply remove_listen_fd_inv.
Qed.

End MsgCenter.
Arguments t : clear implicits.
Arguments op : clear implicits.

(** C36. When every thread can be created, no sequence of calls reaches
    undefined behaviour, and afterwards: a running centre has its loop, its pool
    and exactly the configured number of running I/O threads, a stopped one has
    released them all; each I/O thread's tables agree and it watches only
    registered descriptors, each registered once. *)
Theorem msg_center_lifecycle {H T} io workers (os : list (op H T)) :
  exists s, run_ops (create io workers) os = Some s /\ inv s.
Proof.
  unfold run_ops. generalize (create_centre_inv (H := H) (T := T) io workers).
  generalize (create (H := H) (T := T) io workers). induction os as [|o os IH]; intros s Hi; cbn.
  - by exists s.
  - destruct (run_centre_op_inv s o Hi) as (s' & E & Hi'). cbn. rewrite E. by apply IH.
Qed.

(** Descriptors registered with a running centre are watched by every
    I/O thread; those registered before [start] (or before a restart) stay in
    [listen_fds_] but no I/O thread ever watches them. *)
Theorem listen_fd_watched_only_while_running {H T} (s : t H T) fd port :
  inv s -> 0 <= fd -> io_thread_count_ s <> 0%nat -> worker_thread_count_ s <> 0%nat ->
  let s1 := fst (add_listen_fd fd port s) in
  fd ∈ listen_fds_ s1 /\
  (if running_ s
   then io_threads_ s1 <> [] /\ Forall (fun i => fd ∈ IoThread.listen_fds_ i) (io_threads_ s1)
   else exists s2, start Fine s1 = Some (s2, SUCCESS) /\ fd ∈ listen_fds_ s2 /\
          Forall (fun i => fd ∉ IoThread.listen_fds_ i) (io_threads_ s2)).
Proof.
  intros Hi Hfd Hio Hw. cbv zeta. pose proof (add_listen_fd_inv fd port s Hi) as Hi1.
  assert (Hin : fd ∈ listen_fds_ (fst (add_listen_fd fd port s))).
  { unfold add_listen_fd. ifz; [lia|]. cbn. apply elem_of_push_unique. by left. }
  split; [done|]. destruct (running_ s) eqn:Hr.
  - unfold add_listen_fd. ifz; [lia|]. cbn. destruct (inv_up s Hi Hr) as (_ & _ & Hlen & _).
    split; [intros E0%(f_equal length); rewrite length_map in E0; cbn in E0; lia|].
    apply Forall_map. apply Forall_forall. intros i _. cbn. apply elem_of_push_unique. by left.
  - destruct (start_fine _ Hi1) as (s2 & r & E & _ & Hl & Hs).
    assert (r = SUCCESS) as ->.
    { revert E. unfold start, add_listen_fd. ifz; [lia|]. cbn. rewrite Hr.
      ifz; [apply orb_true_iff in E0 as [?%Nat.eqb_eq|?%Nat.eqb_eq]; lia|].
      unfold start_body. cbn. destruct (inv_down s Hi Hr) as (_ & _ & _ & ->). by intros [= _ <-]. }
    exists s2. split; [done|]. split; [by rewrite Hl|]. destruct (Hs eq_refl) as [_ Hf].
    eapply Forall_impl; [exact Hf|]. cbn. intros i ->. by intros ?%elem_of_nil.
Qed.

Lemma listen_fd_watched_only_while_running_witness :
  let s := @create nat nat 2 2 in
  let s1 := fst (add_listen_fd 5 8443 s) in
  5 ∈ listen_fds_ s1 /\
  exists s2, start Fine s1 = Some (s2, SUCCESS) /\ 5 ∈ listen_fds_ s2 /\
    Forall (fun i => 5 ∉ IoThread.listen_fds_ i) (io_threads_ s2).
Proof.
  apply (listen_fd_watched_only_while_running (@create nat nat 2 2) 5 8443);
    [apply create_centre_inv|lia|discriminate|discriminate].
Defined.

(** When [start] fails after creating threads (the loop thread
    does not report in time), its clean-up call [stop] returns at once because
    [running_] is still false: the threads keep running, and the next [start]
    overwrites a joinable [std::thread], which terminates the process. *)
Theorem failed_start_leaks_threads {H T} io workers :
  io <> 0%nat -> workers <> 0%nat ->
  exists s, start Timeout (@create H T io workers) = Some (s, THREAD_CREATE_FAILED) /\
    length (io_threads_ s) = io /\ Forall (fun i => IoThread.running_ i = true) (io_threads_ s) /\
    stop s = s /\ start Fine s = None.
Proof.
  intros Hio Hw. unfold start. cbn [running_ create io_thread_count_ worker_thread_count_].
  destruct ((io =? 0)%nat || (workers =? 0)%nat)%bool eqn:E;
    [apply orb_true_iff in E as [?%Nat.eqb_eq|?%Nat.eqb_eq]; lia|]. cbn.
  eexists. split; [reflexivity|]. cbn. rewrite E. repeat split.
  - by rewrite length_map, length_replicate.
  - eapply Forall_impl; [apply fresh_io_started|]. by intros i (_ & ? & _).
Qed.

Lemma failed_start_leaks_threads_witness :
  exists s, start Timeout (@create nat nat 2 3) = Some (s, THREAD_CREATE_FAILED) /\
    length (io_threads_ s) = 2%nat /\ Forall (fun i => IoThread.running_ i = true) (io_threads_ s) /\
    stop s = s /\ start Fine s = None.
Proof. apply (failed_start_leaks_threads 2 3); discriminate. Defined.

End MsgCenter.
