(* ===== verification/IoLoop.v ===== *)
(** The thread function of an I/O thread ([IoThread::io_thread_func],
    [event_loop_mac], [event_loop_linux], [event_loop_windows], [wake_up],
    [start] and [stop] of msg_center/source/io_thread.cpp) as an interleaving.

    Three parties move: the loop thread; the owner, which calls [start] and
    [stop]; and at most one other caller, the holder of [fd_mutex_], inside
    [add_listen_fd], [add_conn_fd] or [remove_fd]. A step is a system call, a
    critical section of [fd_mutex_], or an access to [running_] or
    [wakeup_fd_]. What a system call returns is the argument of the step. The
    kernel's part of the state is the pipe, the interest list of the kqueue and
    the histories of the descriptors opened and closed. Adding a descriptor to
    the kqueue is taken to succeed, but for the first call, whose result the
    code tests. The sleeps take no step. *)

From S2P Require Import Prelude EventQ MsgCentre.
Import IoThread.

Module IoLoop.

Inductive platform := Apple | Linux | Windows | OtherPlatform.

(** Where the loop thread is; [NoThread]: [thread_] is not joinable. *)
Inductive pc :=
| NoThread | CallKqueue | CallPipe | CallFcntl | AddWakeup | Polling | LoopTest | RegisterAll
| Waiting | Handling (ks : list kev) | Draining (ks : list kev) | CleaningUp | Finished.

#[export] Instance filter_kind_eq_dec : EqDecision filter_kind.
Proof. solve_decision. Defined.
#[export] Instance kev_eq_dec : EqDecision kev.
Proof. solve_decision. Defined.
#[export] Instance pc_eq_dec : EqDecision pc.
Proof. solve_decision. Defined.

(** Where the caller of [stop] is: before the load of [wakeup_fd_], before the
    write, before the join. *)
Inductive owner := OwnerIdle | OwnerWake | OwnerWrite (fd : Z) | OwnerJoin.
Inductive holder := Free | HolderWake | HolderWrite (fd : Z).

Record kernel := mkKernel {
  nonblocking_read : bool;
  nonblocking_write : bool;
  pipe_bytes : nat;
  registered : list (Z * filter_kind);
  opened : list Z;   (* what [kqueue] and [pipe] returned, oldest first *)
  closed : list Z;   (* the arguments of [close], oldest first *)
  stray : list Z;    (* descriptors written to when they no longer were the pipe's *)
}.

Section Loop.
Context {H : Type}.
Variable plat : platform.
(** How many bytes the pipe holds. *)
Variable capacity : nat.

Record t := mk {
  tables : IoThread.t;
  kq_fd_ : Z;
  wakeup_fd_ : Z;
  event_queue_ : option (EventQueue.t H);
  pc_ : pc;
  owner_ : owner;
  holder_ : holder;
  kernel_ : kernel;
}.

Definition create (q : option (EventQueue.t H)) : t :=
  mk IoThread.create (-1) (-1) q NoThread OwnerIdle Free (mkKernel true true 0 [] [] [] []).

Definition set_pc (p : pc) (s : t) : t :=
  mk (tables s) (kq_fd_ s) (wakeup_fd_ s) (event_queue_ s) p (owner_ s) (holder_ s) (kernel_ s).
Definition set_tables (x : IoThread.t) (s : t) : t :=
  mk x (kq_fd_ s) (wakeup_fd_ s) (event_queue_ s) (pc_ s) (owner_ s) (holder_ s) (kernel_ s).
Definition set_owner (o : owner) (s : t) : t :=
  mk (tables s) (kq_fd_ s) (wakeup_fd_ s) (event_queue_ s) (pc_ s) o (holder_ s) (kernel_ s).
Definition set_holder (h : holder) (s : t) : t :=
  mk (tables s) (kq_fd_ s) (wakeup_fd_ s) (event_queue_ s) (pc_ s) (owner_ s) h (kernel_ s).
Definition set_kernel (k : kernel) (s : t) : t :=
  mk (tables s) (kq_fd_ s) (wakeup_fd_ s) (event_queue_ s) (pc_ s) (owner_ s) (holder_ s) k.
Definition set_queue (q : option (EventQueue.t H)) (s : t) : t :=
  mk (tables s) (kq_fd_ s) (wakeup_fd_ s) q (pc_ s) (owner_ s) (holder_ s) (kernel_ s).
Definition set_fds (kq r w : Z) (s : t) : t :=
  mk (IoThread.mk (IoThread.running_ (tables s)) r (fd_to_conn_id_ (tables s)) (listen_fd_to_port_ (tables s))
        (listen_fds_ (tables s)) (conn_fds_ (tables s)))
     kq w (event_queue_ s) (pc_ s) (owner_ s) (holder_ s) (kernel_ s).

Definition read_fd (s : t) : Z := wakeup_read_fd_ (tables s).
Definition running (s : t) : bool := IoThread.running_ (tables s).

Definition set_pipe (n : nat) (k : kernel) : kernel :=
  mkKernel (nonblocking_read k) (nonblocking_write k) n (registered k) (opened k) (closed k) (stray k).
Definition set_registered (l : list (Z * filter_kind)) (k : kernel) : kernel :=
  mkKernel (nonblocking_read k) (nonblocking_write k) (pipe_bytes k) l (opened k) (closed k) (stray k).
Definition set_nonblocking (r w : bool) (k : kernel) : kernel :=
  mkKernel r w (pipe_bytes k) (registered k) (opened k) (closed k) (stray k).
Definition open_fds (fds : list Z) (k : kernel) : kernel :=
  mkKernel (nonblocking_read k) (nonblocking_write k) (pipe_bytes k) (registered k) (opened k ++ fds) (closed k) (stray k).
Definition close_fds (fds : list Z) (k : kernel) : kernel :=
  mkKernel (nonblocking_read k) (nonblocking_write k) (pipe_bytes k) (registered k) (opened k) (closed k ++ fds) (stray k).

(** * The loop thread *)

(** What the system returned. *)
Inductive answer :=
| OsFd (fd : Z)                        (* kqueue: -1 on failure *)
| OsPipe (ends : option (Z * Z))       (* pipe: the read and the write end *)
| OsFcntl (read write : bool)          (* the two calls of SetNonBlocking *)
| OsAdded (ok : bool)                  (* kevent adding the pipe *)
| OsEvents (ks : option (list kev))    (* kevent waiting: [None] is -1 *)
| OsNone.

Definition kMaxEvents : nat := 64.
Definition wakeup_buffer : nat := 32.

(** The descriptors the thread holds. *)
Definition held (s : t) : list Z := List.filter (fun fd => negb (fd =? -1)) [read_fd s; wakeup_fd_ s; kq_fd_ s].

Definition thread_start : pc := match plat with Apple => CallKqueue | _ => Polling end.

(** The cases of the loop body that lock [fd_mutex_]. *)
Definition needs_mutex (k : kev) : bool :=
  ev_eof k || match kfilter k with EVFILT_READ | EVFILT_WRITE => true | EVFILT_OTHER => false end.
Definition mutex_free (s : t) : bool := match holder_ s with Free => true | _ => false end.

Definition push_event (k : kev) (s : t) : t :=
  match dispatch (tables s) k, event_queue_ s with
  | Some e, Some q => set_queue (Some (fst (EventQueue.push q e))) s
  | _, _ => s
  end.

Definition loop_step (a : answer) (s : t) : option t :=
  match pc_ s, a with
  | CallKqueue, OsFd fd =>
      if fd =? -1 then Some (set_pc Polling s)
      else if fd <? 0 then None
      else Some (set_pc CallPipe (set_fds fd (read_fd s) (wakeup_fd_ s) (set_kernel (open_fds [fd] (kernel_ s)) s)))
  | CallPipe, OsPipe None =>
      Some (set_pc Polling (set_fds (-1) (read_fd s) (wakeup_fd_ s) (set_kernel (close_fds [kq_fd_ s] (kernel_ s)) s)))
  | CallPipe, OsPipe (Some (r, w)) =>
      if (r <? 0) || (w <? 0) then None
      else Some (set_pc CallFcntl (set_fds (kq_fd_ s) r w
                  (set_kernel (set_pipe 0 (open_fds [r; w] (kernel_ s))) s)))
  | CallFcntl, OsFcntl r w => Some (set_pc AddWakeup (set_kernel (set_nonblocking r w (kernel_ s)) s))
  | AddWakeup, OsAdded false =>
      Some (set_pc Polling (set_fds (-1) (-1) (-1)
             (set_kernel (close_fds [read_fd s; wakeup_fd_ s; kq_fd_ s] (kernel_ s)) s)))
  | AddWakeup, OsAdded true =>
      Some (set_pc LoopTest (set_kernel (set_registered [(read_fd s, EVFILT_READ)] (kernel_ s)) s))
  | Polling, OsNone => Some (if running s then s else set_pc Finished s)
  | LoopTest, OsNone => Some (set_pc (if running s then RegisterAll else CleaningUp) s)
  | RegisterAll, OsNone =>
      if mutex_free s
      then Some (set_pc Waiting (set_kernel (set_registered (registered (kernel_ s) ++ registrations (tables s)) (kernel_ s)) s))
      else None
  | Waiting, OsEvents None => Some (set_pc LoopTest s)
  | Waiting, OsEvents (Some ks) =>
      if (length ks <=? kMaxEvents)%nat then Some (set_pc (if bool_decide (ks = []) then LoopTest else Handling ks) s)
      else None
  | Handling [], OsNone => Some (set_pc LoopTest s)
  | Handling (k :: ks), OsNone =>
      if ident k =? read_fd s then Some (set_pc (Draining ks) s)
      else if ev_error k then Some (set_pc (Handling ks) s)
      else if needs_mutex k && negb (mutex_free s) then None
      else Some (set_pc (Handling ks) (push_event k s))
  | Draining ks, OsNone =>
      match pipe_bytes (kernel_ s) with
      | O => if nonblocking_read (kernel_ s) then Some (set_pc (Handling ks) s) else None
      | n => Some (set_kernel (set_pipe (n - wakeup_buffer)%nat (kernel_ s)) s)
      end
  | CleaningUp, OsNone =>
      Some (set_pc Finished (set_fds (-1) (-1) (-1) (set_kernel (close_fds (held s) (kernel_ s)) s)))
  | _, _ => None
  end.

(** * The callers *)

(** [wake_up], its load and its write; [None]: the write blocks. *)
Definition wake_load (s : t) : option Z := if wakeup_fd_ s =? -1 then None else Some (wakeup_fd_ s).
Definition wake_write (fd : Z) (s : t) : option kernel :=
  let k := kernel_ s in
  if negb (fd =? wakeup_fd_ s)
  then Some (mkKernel (nonblocking_read k) (nonblocking_write k) (pipe_bytes k) (registered k) (opened k) (closed k)
               (stray k ++ [fd]))
  else if (pipe_bytes k <? capacity)%nat then Some (set_pipe (S (pipe_bytes k)) k)
  else if nonblocking_write k then Some k
  else None.

Definition start_call (s : t) : option t :=
  match owner_ s with
  | OwnerIdle =>
      if running s then Some s
      else
        match pc_ s with
        | NoThread => Some (set_pc thread_start (set_tables (set_running true (tables s)) s))
        | _ => None   (* assigning to a joinable std::thread *)
        end
  | _ => None
  end.
Definition stop_call (s : t) : option t :=
  match owner_ s with
  | OwnerIdle =>
      if negb (running s) then Some s
      else Some (set_owner OwnerWake (set_tables (set_running false (tables s)) s))
  | _ => None
  end.
Definition owner_step (s : t) : option t :=
  match owner_ s with
  | OwnerIdle => None
  | OwnerWake => Some (set_owner (match wake_load s with Some fd => OwnerWrite fd | None => OwnerJoin end) s)
  | OwnerWrite fd => k ← wake_write fd s; Some (set_owner OwnerJoin (set_kernel k s))
  | OwnerJoin =>
      match pc_ s with
      | NoThread => Some (set_owner OwnerIdle s)
      | Finished => Some (set_owner OwnerIdle (set_pc NoThread s))
      | _ => None
      end
  end.

(** A method that changes the tables, with the mutex locked; then its [wake_up]. *)
Definition locked (f : IoThread.t -> IoThread.t) (s : t) : option t :=
  if mutex_free s then Some (set_holder HolderWake (set_tables (f (tables s)) s)) else None.
Definition holder_step (s : t) : option t :=
  match holder_ s with
  | Free => None
  | HolderWake => Some (set_holder (match wake_load s with Some fd => HolderWrite fd | None => Free end) s)
  | HolderWrite fd => k ← wake_write fd s; Some (set_holder Free (set_kernel k s))
  end.

(** Some thread closes a descriptor that is not in the tables: the kernel
    forgets it. *)
Definition fd_closed (fd : Z) (s : t) : option t :=
  if bool_decide (fd ∈ listen_fds_ (tables s)) || bool_decide (fd ∈ conn_fds_ (tables s)) || (fd =? read_fd s)
  then None
  else Some (set_kernel (set_registered (List.filter (fun r => negb (r.1 =? fd)) (registered (kernel_ s))) (kernel_ s)) s).

Inductive label :=
| Loop (a : answer) | StartCall | StopCall | OwnerStep
| AddListen (fd port : Z) | AddConn (fd id : Z) | Remove (fd : Z) | HolderStep | FdClosed (fd : Z).

Definition step (l : label) (s : t) : option t :=
  match l with
  | Loop a => loop_step a s
  | StartCall => start_call s
  | StopCall => stop_call s
  | OwnerStep => owner_step s
  | AddListen fd port => locked (add_listen_fd fd port) s
  | AddConn fd id => locked (add_conn_fd fd id) s
  | Remove fd => locked (remove_fd fd) s
  | HolderStep => holder_step s
  | FdClosed fd => fd_closed fd s
  end.
Definition run : list label -> t -> option t := run_steps step.
Definition reachable (s : t) : Prop := exists q ls, run ls (create q) = Some s.

(** The labels of the threads that are already under way: the loop thread with
    system calls that behave, the caller of [stop], the holder of the mutex. *)
Definition winding (l : label) : bool :=
  match l with
  | Loop (OsFcntl r w) => r && w
  | Loop _ | OwnerStep | HolderStep => true
  | _ => false
  end.

(** How many of those steps are left once [running_] is false. *)
Definition pc_rank (p : pc) : nat :=
  match p with
  | NoThread | Finished => 0
  | Polling | CleaningUp => 1
  | LoopTest => 2
  | Handling ks => 3 + 2 * length ks
  | Draining ks => 4 + 2 * length ks
  | Waiting => 4 + 2 * kMaxEvents
  | RegisterAll => 5 + 2 * kMaxEvents
  | AddWakeup => 6 + 2 * kMaxEvents
  | CallFcntl => 7 + 2 * kMaxEvents
  | CallPipe => 8 + 2 * kMaxEvents
  | CallKqueue => 9 + 2 * kMaxEvents
  end.
Definition owner_rank (o : owner) : nat := match o with OwnerIdle => 0 | OwnerJoin => 1 | OwnerWrite _ => 3 | OwnerWake => 4 end.
Definition holder_rank (h : holder) : nat := match h with Free => 0 | HolderWrite _ => 2 | HolderWake => 3 end.
Definition steps_left (s : t) : nat :=
  pc_rank (pc_ s) + owner_rank (owner_ s) + holder_rank (holder_ s) + pipe_bytes (kernel_ s).

Lemma loop_run_cons l ls s : run (l :: ls) s = s' ← step l s; run ls s'.
Proof. apply run_steps_cons. Qed.
Lemma loop_run_app ls1 ls2 s : run (ls1 ++ ls2) s = s' ← run ls1 s; run ls2 s'.
Proof. apply run_steps_app. Qed.

(** * Invariant *)

(** Which descriptors are open at each point of the loop thread. *)
Definition fds_ok (s : t) : Prop :=
  match pc_ s with
  | NoThread | CallKqueue | Polling | Finished => kq_fd_ s = -1 /\ read_fd s = -1 /\ wakeup_fd_ s = -1
  | CallPipe => 0 <= kq_fd_ s /\ read_fd s = -1 /\ wakeup_fd_ s = -1
  | _ => 0 <= kq_fd_ s /\ 0 <= read_fd s /\ 0 <= wakeup_fd_ s
  end.

(** The points after the registration of the pipe. *)
Definition in_loop (p : pc) : bool :=
  match p with
  | LoopTest | RegisterAll | Waiting | Handling _ | Draining _ | CleaningUp => true
  | _ => false
  end.

(** While the thread waits, the kernel knows every descriptor of the tables, or
    something is going to wake it. *)
Definition wake_pending (s : t) : Prop :=
  (0 < pipe_bytes (kernel_ s))%nat \/ holder_ s = HolderWake \/ holder_ s = HolderWrite (wakeup_fd_ s).
Definition all_registered (s : t) : Prop := Forall (fun r => r ∈ registered (kernel_ s)) (registrations (tables s)).

Record inv (s : t) : Prop := {
  inv_fds : fds_ok s;
  inv_balance : opened (kernel_ s) ≡ₚ closed (kernel_ s) ++ held s;
  inv_running : running s = true -> owner_ s = OwnerIdle /\ pc_ s <> NoThread /\ pc_ s <> Finished /\ pc_ s <> CleaningUp;
  inv_idle : running s = false -> owner_ s = OwnerIdle -> pc_ s = NoThread;
  inv_stopping : owner_ s <> OwnerIdle -> pc_ s <> NoThread;
  inv_pipe : in_loop (pc_ s) = true -> (read_fd s, EVFILT_READ) ∈ registered (kernel_ s);
  inv_wait : pc_ s = Waiting -> all_registered s \/ wake_pending s;
}.

Lemma create_loop_inv q : inv (create q).
Proof. by split. Qed.

Lemma filter_closed_in (fd : Z) r (l : list (Z * filter_kind)) :
  r.1 <> fd -> r ∈ l -> r ∈ List.filter (fun r => negb (r.1 =? fd)) l.
Proof.
  intros Hne Hin. apply list_elem_of_In, filter_In. split; [by apply list_elem_of_In|].
  destruct (r.1 =? fd) eqn:E; [zb; done|done].
Qed.

Lemma registrations_fd r (x : IoThread.t) : r ∈ registrations x -> r.1 ∈ listen_fds_ x \/ r.1 ∈ conn_fds_ x.
Proof.
  unfold registrations. rewrite elem_of_app. intros [Hr|Hr].
  - apply list_elem_of_fmap in Hr as (fd & -> & Hr). by left.
  - apply list_elem_of_In, in_flat_map in Hr as (fd & Hfd & Hr). right. apply list_elem_of_In in Hfd.
    destruct Hr as [<-|[<-|[]]]; done.
Qed.

(** The fields a change of the tables or of the queue leaves alone. *)
Lemma push_event_fields k s :
  exists q, push_event k s = set_queue q s.
Proof.
  unfold push_event. destruct (dispatch (tables s) k), (event_queue_ s) as [q|] eqn:E; try by eexists.
  - exists (event_queue_ s). by destruct s.
  - exists (event_queue_ s). by destruct s.
  - exists (event_queue_ s). by destruct s.
Qed.
(** What a step of the loop thread has to establish. *)
Lemma loop_move s s' :
  inv s -> pc_ s <> NoThread -> owner_ s' = owner_ s -> running s' = running s -> pc_ s' <> NoThread ->
  (pc_ s' = Finished \/ pc_ s' = CleaningUp -> running s = false) -> fds_ok s' ->
  opened (kernel_ s') ≡ₚ closed (kernel_ s') ++ held s' ->
  (in_loop (pc_ s') = true -> (read_fd s', EVFILT_READ) ∈ registered (kernel_ s')) ->
  (pc_ s' = Waiting -> all_registered s') -> inv s'.
Proof.
  intros [_ _ Hr Hi Hs _ _] Hn Ho Hrun Hn' Hfin Hok Hb Hin Hw. split; rewrite ?Ho, ?Hrun; try done.
  - intros Ht. destruct (Hr Ht) as (? & _). split_and!; try done; intros E; rewrite Hfin in Ht; tauto || done.
  - intros Ht Hidle. by destruct Hn; apply Hi.
  - auto.
Qed.

Lemma set_pc_inv p s :
  inv s -> pc_ s <> NoThread -> p <> NoThread -> (p = Finished \/ p = CleaningUp -> running s = false) ->
  fds_ok (set_pc p s) -> (in_loop p = true -> in_loop (pc_ s) = true) -> p <> Waiting -> inv (set_pc p s).
Proof.
  intros Hinv Hn Hn' Hfin Hok Hin Hwait. pose proof Hinv as [Hf Hb Hr Hi Hs Hp Hw].
  by apply (loop_move s); auto.
Qed.

Lemma set_queue_inv q s : inv s -> inv (set_queue q s).
Proof. intros [Hf Hb Hr Hi Hs Hp Hw]. by split. Qed.

Lemma held_open s : 0 <= kq_fd_ s -> 0 <= read_fd s -> 0 <= wakeup_fd_ s -> held s = [read_fd s; wakeup_fd_ s; kq_fd_ s].
Proof.
  intros H1 H2 H3. unfold held. cbn.
  replace (read_fd s =? -1) with false by lia. replace (wakeup_fd_ s =? -1) with false by lia.
  by replace (kq_fd_ s =? -1) with false by lia.
Qed.

(** Close the side conditions that only look at the point of the loop. *)
Ltac step_done := solve [done | by intros [?|?]].

(** The steps that set up the kqueue and the pipe. *)
Lemma setup_inv a s s' :
  inv s -> pc_ s ∈ [CallKqueue; CallPipe; CallFcntl; AddWakeup; Polling] -> loop_step a s = Some s' -> inv s'.
Proof.
  intros Hinv Hpc. pose proof Hinv as [Hf Hb _ _ _ _ _]. rewrite !elem_of_cons, elem_of_nil in Hpc.
  unfold loop_step, fds_ok in *. destruct Hpc as [E|[E|[E|[E|[E|[]]]]]]; rewrite E in *; destruct a; try done;
    destruct Hf as (H1 & H2 & H3).
  - repeat ifz; [|done|]; intros [= <-].
    + apply set_pc_inv; unfold fds_ok; rewrite ?E; step_done.
    + apply (loop_move s); cbn; rewrite ?E; try step_done.
      rewrite Hb. unfold held. cbn. rewrite H1, H2, H3. cbn.
      replace (fd =? -1) with false by lia. cbn. by rewrite app_nil_r.
  - destruct ends as [[r w]|]; [ifz; [done|]|]; intros [= <-].
    + apply (loop_move s); cbn; rewrite ?E; try step_done.
      rewrite Hb. unfold held. cbn. rewrite H2, H3. cbn.
      replace (r =? -1) with false by lia. replace (w =? -1) with false by lia.
      replace (kq_fd_ s =? -1) with false by lia. cbn.
      rewrite <- app_assoc. apply Permutation_app_head, (Permutation_cons_append [r; w]).
    + apply (loop_move s); cbn; rewrite ?E; try step_done.
      rewrite Hb. unfold held. cbn. rewrite H2, H3. cbn.
      replace (kq_fd_ s =? -1) with false by lia. cbn. by rewrite app_nil_r.
  - intros [= <-]. apply (loop_move s); cbn; rewrite ?E; step_done.
  - destruct ok; intros [= <-].
    + apply (loop_move s); cbn; rewrite ?E; try step_done. intros _. by constructor.
    + apply (loop_move s); cbn; rewrite ?E; try step_done.
      rewrite Hb, (held_open s) by done. by rewrite app_nil_r.
  - intros [= <-]. ifz; [done|]. apply set_pc_inv; unfold fds_ok; rewrite ?E; step_done.
Qed.

Lemma loop_step_inv a s s' : inv s -> loop_step a s = Some s' -> inv s'.
Proof.
  intros Hinv Hstep. pose proof Hinv as [Hf Hb _ _ _ Hp _].
  destruct (pc_ s) eqn:E; try (apply (setup_inv a s); [done|rewrite E; solve [repeat first [left|right]]|done]);
    revert Hstep; unfold loop_step, fds_ok in *; rewrite E in *; destruct a; try done; try (by destruct ks).
  - intros [= <-]. destruct (running s) eqn:Er; apply set_pc_inv; unfold fds_ok; rewrite ?E; step_done.
  - ifz; [|done]. intros [= <-]. apply (loop_move s); cbn; rewrite ?E; try step_done.
    + intros _. apply elem_of_app. left. by apply Hp.
    + intros _. apply Forall_forall. intros r Hr. apply elem_of_app. by right.
  - destruct ks as [ks|]; [ifz; [|done]|]; intros [= <-]; [case_bool_decide|];
      apply set_pc_inv; unfold fds_ok; rewrite ?E; step_done.
  - destruct ks as [|k ks]; [|repeat ifz]; intros [= <-];
      try (apply set_pc_inv; unfold fds_ok; rewrite ?E; step_done).
    destruct (push_event_fields k s) as (q & ->).
    apply set_pc_inv; unfold fds_ok; cbn; rewrite ?E; try step_done. by apply set_queue_inv.
  - destruct (pipe_bytes (kernel_ s)) as [|n].
    + ifz; [|done]. intros [= <-]. apply set_pc_inv; unfold fds_ok; rewrite ?E; step_done.
    + intros [= <-]. apply (loop_move s); cbn; rewrite ?E; try step_done. by unfold fds_ok; cbn; rewrite E.
  - intros [= <-]. apply (loop_move s); cbn; rewrite ?E; try step_done.
    + intros _. destruct (running s) eqn:Er; [|done]. destruct (inv_running s Hinv Er) as (_ & _ & _ & ?). done.
    + by rewrite Hb, app_nil_r.
Qed.

(** ** The other parties *)

Lemma wake_write_fields fd s k :
  wake_write fd s = Some k ->
  opened k = opened (kernel_ s) /\ closed k = closed (kernel_ s) /\ registered k = registered (kernel_ s) /\
  nonblocking_read k = nonblocking_read (kernel_ s) /\ (pipe_bytes (kernel_ s) <= pipe_bytes k)%nat /\
  ((0 < capacity)%nat -> fd = wakeup_fd_ s -> (0 < pipe_bytes k)%nat).
Proof.
  unfold wake_write. destruct (fd =? wakeup_fd_ s) eqn:E; cbn [negb]; zb.
  - destruct (pipe_bytes (kernel_ s) <? capacity)%nat eqn:Ec; [|ifz; [|done]]; intros [= <-]; cbn; split_and!; try done; try lia.
    intros Hc _. apply Nat.ltb_ge in Ec. lia.
  - by intros [= <-].
Qed.

(** A write of [wake_up] keeps the invariant, whoever makes it. *)
Lemma wake_write_inv fd s k s' :
  (0 < capacity)%nat -> inv s -> wake_write fd s = Some k ->
  kernel_ s' = k -> pc_ s' = pc_ s -> owner_ s' = OwnerJoin /\ owner_ s <> OwnerIdle /\ holder_ s' = holder_ s \/
    owner_ s' = owner_ s /\ holder_ s = HolderWrite fd ->
  tables s' = tables s -> kq_fd_ s' = kq_fd_ s -> wakeup_fd_ s' = wakeup_fd_ s -> inv s'.
Proof.
  intros Hcap [Hf Hb Hr Hi Hs Hp Hw] Hk <- Epc Hoh Et Ekq Ew.
  destruct (wake_write_fields fd s _ Hk) as (Ho & Hc & Hreg & _ & Hle & Hpos).
  split; unfold fds_ok, held, all_registered, wake_pending, read_fd, running in *; rewrite ?Epc, ?Et, ?Ekq, ?Ew, ?Ho, ?Hc, ?Hreg; try done.
  - intros Ht. destruct (Hr Ht) as (Hidle & ? & ? & ?). destruct Hoh as [(? & Hn & _)|(-> & _)]; done.
  - intros Ht Hidle. destruct Hoh as [(Hj & _)|(Ho' & _)]; [congruence|]. apply Hi; congruence.
  - intros Hidle. apply Hs. destruct Hoh as [(_ & Hn & _)|(Ho' & _)]; congruence.
  - intros Hwait. destruct (Hw Hwait) as [?|[?|Hh]]; [by left|right; left; lia|]. right.
    destruct Hoh as [(_ & _ & ->)|(_ & Hh')]; [by right|].
    left. apply Hpos; [done|]. destruct Hh as [Hh|Hh]; congruence.
Qed.

Lemma step_loop_inv l s s' : (0 < capacity)%nat -> inv s -> step l s = Some s' -> inv s'.
Proof.
  intros Hcap Hinv. pose proof Hinv as [Hf Hb Hr Hi Hs Hp Hw].
  assert (Hlock : forall f, (forall x, IoThread.running_ (f x) = IoThread.running_ x /\
      wakeup_read_fd_ (f x) = wakeup_read_fd_ x) -> locked f s = Some s' -> inv s').
  { intros f Hfx. unfold locked. ifz; [|done]. intros [= <-]. destruct (Hfx (tables s)) as [H1 H2].
    split; unfold fds_ok, held, running, read_fd in *; cbn; rewrite ?H1, ?H2; try done.
    intros _. right. right. by left. }
  destruct l as [a| | | |fd port|fd id|fd| |fd]; cbn [step].
  - by apply loop_step_inv.
  - unfold start_call. destruct (owner_ s) eqn:Eo; try done. destruct (running s) eqn:Er; [by intros [= <-]|].
    rewrite (Hi eq_refl eq_refl). intros [= <-]. pose proof (Hi eq_refl eq_refl) as Epc.
    unfold fds_ok in Hf. rewrite Epc in Hf. destruct Hf as (H1 & H2 & H3).
    unfold thread_start. split; unfold fds_ok, running in *; cbn; rewrite ?Eo; try done;
      destruct plat; cbn; rewrite ?Epc; try done.
  - unfold stop_call. destruct (owner_ s) eqn:Eo; try done. destruct (running s) eqn:Er; [|by intros [= <-]].
    intros [= <-]. destruct (Hr eq_refl) as (_ & Hn & _). by split.
  - unfold owner_step. destruct (owner_ s) eqn:Eo; try done.
    + intros [= <-]. split; cbn; try done; [| |].
      * intros Ht. destruct (Hr Ht) as (Hidle & _). congruence.
      * by destruct (wake_load s).
      * intros _. apply Hs. congruence.
    + destruct (wake_write fd s) as [k|] eqn:Ek; [|done]. intros [= <-].
      apply (wake_write_inv fd s k); try done. left. by rewrite Eo.
    + destruct (pc_ s) eqn:Epc; try done; intros [= <-].
      * by destruct Hs.
      * unfold fds_ok in Hf. rewrite Epc in Hf. split; cbn; try done.
        intros Ht. destruct (Hr Ht) as (_ & _ & ? & _). done.
  - by apply Hlock.
  - by apply Hlock.
  - apply Hlock. intros x. unfold remove_fd. by repeat (case_match; cbn in *).
  - unfold holder_step. destruct (holder_ s) eqn:Eh; try done.
    + intros [= <-]. split; try done. cbn. intros Hwait. destruct (Hw Hwait) as [?|Hpend]; [by left|]. right.
      unfold fds_ok in Hf. rewrite Hwait in Hf. unfold wake_load.
      replace (wakeup_fd_ s =? -1) with false by lia. right. by right.
    + destruct (wake_write fd s) as [k|] eqn:Ek; [|done]. intros [= <-].
      apply (wake_write_inv fd s k); try done. by right.
  - unfold fd_closed. ifz; [done|]. intros [= <-].
    split; try done; cbn.
    + intros Hl. apply filter_closed_in; [|by apply Hp]. by apply not_eq_sym.
    + intros Hwait. destruct (Hw Hwait) as [Ha|?]; [left|by right].
      unfold all_registered in *. rewrite Forall_forall in *. intros r Hr'.
      apply filter_closed_in; [|by apply Ha]. intros <-.
      apply registrations_fd in Hr'. apply bool_decide_eq_false in H0, H2. tauto.
Qed.

Lemma loop_reachable_inv s : (0 < capacity)%nat -> reachable s -> inv s.
Proof.
  intros Hc (q & ls & Hr). revert Hr. apply run_steps_keeps; [|apply create_loop_inv].
  intros l s1 s2 _. by apply step_loop_inv.
Qed.

(** ** Winding down *)

Definition stopping (s : t) : Prop :=
  running s = false /\ nonblocking_read (kernel_ s) = true /\ nonblocking_write (kernel_ s) = true.

Lemma wake_write_stopping fd s :
  nonblocking_write (kernel_ s) = true ->
  exists k, wake_write fd s = Some k /\ (pipe_bytes k <= S (pipe_bytes (kernel_ s)))%nat /\
    nonblocking_read k = nonblocking_read (kernel_ s) /\ nonblocking_write k = true.
Proof.
  intros Hn. unfold wake_write. rewrite Hn. repeat ifz; (eexists; split; [done|]); cbn; rewrite ?Hn; split_and!; lia || done.
Qed.

(** Each step of a thread under way brings the end nearer. *)
Lemma winding_step l s s' :
  stopping s -> winding l = true -> step l s = Some s' -> stopping s' /\ (steps_left s' < steps_left s)%nat.
Proof.
  intros (Hrun & Hnr & Hnw) Hl. destruct l as [a| | | | | | | |]; try done; cbn [step].
  - unfold loop_step. rewrite Hrun.
    destruct (pc_ s) as [| | | | | | | | |[|k ks]|ks| |] eqn:E; destruct a as [fd|[[r w]|]|[] []|[]|[ks'|]|]; try done;
      try (destruct (pipe_bytes (kernel_ s)) eqn:Eb); repeat ifz; try done.
    all: try match goal with |- context [push_event ?k ?s0] => destruct (push_event_fields k s0) as (q & ->) end.
    all: intros [= <-]; unfold stopping, steps_left; cbn; rewrite ?E, ?Eb.
    all: cbn in *; try apply Nat.leb_le in E0; unfold kMaxEvents, wakeup_buffer in *; split; [try by split_and!|]; try lia.
  - unfold owner_step. destruct (owner_ s) as [| |fd|] eqn:Eo; try done.
    + intros [= <-]. unfold stopping, steps_left. cbn. rewrite Eo. destruct (wake_load s); cbn; split; [by split_and!|lia|by split_and!|lia].
    + destruct (wake_write_stopping fd s Hnw) as (k & -> & Hle & Hr & Hw). intros [= <-].
      unfold stopping, steps_left. cbn. rewrite Eo, Hr, Hnr. cbn. split; [by split_and!|lia].
    + destruct (pc_ s) eqn:E; try done; intros [= <-]; unfold stopping, steps_left; cbn; rewrite ?E, Eo; cbn; split; by split_and! || lia.
  - unfold holder_step. destruct (holder_ s) as [| |fd] eqn:Eo; try done.
    + intros [= <-]. unfold stopping, steps_left. cbn. rewrite Eo. destruct (wake_load s); cbn; split; [by split_and!|lia|by split_and!|lia].
    + destruct (wake_write_stopping fd s Hnw) as (k & -> & Hle & Hr & Hw). intros [= <-].
      unfold stopping, steps_left. cbn. rewrite Eo, Hr, Hnr. cbn. split; [by split_and!|lia].
Qed.

Lemma winding_run ls s s' :
  stopping s -> Forall (fun l => winding l = true) ls -> run ls s = Some s' ->
  stopping s' /\ (length ls + steps_left s' <= steps_left s)%nat.
Proof.
  intros Hs Hl Hr. rewrite Forall_forall in Hl.
  apply (run_steps_lower step stopping steps_left ls); [|done..].
  intros l s1 s2 Hin Hs1 Hst. by apply winding_step with l; [|apply Hl|].
Qed.

(** A loop thread that has not finished can move, unless it waits for the mutex. *)
Lemma loop_enabled s :
  nonblocking_read (kernel_ s) = true -> mutex_free s = true -> pc_ s <> NoThread -> pc_ s <> Finished ->
  exists a, winding (Loop a) = true /\ is_Some (loop_step a s).
Proof.
  intros Hn Hm H1 H2. unfold loop_step. rewrite Hn, Hm.
  destruct (pc_ s) as [| | | | | | | | |[|k ks]|ks| |] eqn:E; try done.
  all: try by exists OsNone; repeat case_match; split; eauto.
  - exists (OsFd (-1)). by split; [|eexists].
  - exists (OsPipe None). by split; [|eexists].
  - exists (OsFcntl true true). by split; [|eexists].
  - exists (OsAdded true). by split; [|eexists].
  - exists (OsEvents None). by split; [|eexists].
  - exists OsNone. split; [done|]. rewrite andb_false_r. repeat ifz; eauto.
Qed.

Lemma winding_enabled s :
  stopping s -> pc_ s <> NoThread -> owner_ s = OwnerIdle \/ exists l, winding l = true /\ is_Some (step l s).
Proof.
  intros (Hrun & Hnr & Hnw) Hn. destruct (owner_ s) as [| |fd|] eqn:Eo; [by left|right..].
  - exists OwnerStep. split; [done|]. cbn. unfold owner_step. rewrite Eo. eauto.
  - exists OwnerStep. split; [done|]. cbn. unfold owner_step. rewrite Eo.
    destruct (wake_write_stopping fd s Hnw) as (k & -> & _). eauto.
  - destruct (decide (pc_ s = Finished)) as [E|E].
    { exists OwnerStep. split; [done|]. cbn. unfold owner_step. rewrite Eo, E. eauto. }
    destruct (holder_ s) as [| |fd] eqn:Eh.
    + destruct (loop_enabled s Hnr) as (a & Ha & Hs); try done; [by unfold mutex_free; rewrite Eh|].
      by exists (Loop a).
    + exists HolderStep. split; [done|]. cbn. unfold holder_step. rewrite Eh. eauto.
    + exists HolderStep. split; [done|]. cbn. unfold holder_step. rewrite Eh.
      destruct (wake_write_stopping fd s Hnw) as (k & -> & _). eauto.
Qed.

(** ** A batch of events *)

Lemma loop_once s s' : loop_step OsNone s = Some s' -> run (repeat (Loop OsNone) 1) s = Some s'.
Proof. done. Qed.

Lemma drain_runs ks n : forall s, (pipe_bytes (kernel_ s) <= n)%nat ->
  pc_ s = Draining ks -> nonblocking_read (kernel_ s) = true ->
  exists m s', run (repeat (Loop OsNone) m) s = Some s' /\ pc_ s' = Handling ks /\ tables s' = tables s /\
    event_queue_ s' = event_queue_ s /\ holder_ s' = holder_ s /\ nonblocking_read (kernel_ s') = true.
Proof.
  induction n as [|n IH]; intros s Hn Hpc Hnb; destruct (pipe_bytes (kernel_ s)) as [|b] eqn:Eb; try lia.
  1, 2: exists 1%nat; eexists; split; [apply loop_once; unfold loop_step; by rewrite Hpc, Eb, Hnb|by split_and!].
  destruct (IH (set_kernel (set_pipe (S b - wakeup_buffer) (kernel_ s)) s)) as (m & s' & Hr & Hs); try done.
  { cbn. unfold wakeup_buffer. lia. }
  exists (S m), s'. split; [|done]. cbn [repeat]. rewrite loop_run_cons. cbn [step]. unfold loop_step. by rewrite Hpc, Eb.
Qed.

Lemma handle_one k ks s :
  pc_ s = Handling (k :: ks) -> holder_ s = Free -> nonblocking_read (kernel_ s) = true ->
  exists m s', run (repeat (Loop OsNone) m) s = Some s' /\ pc_ s' = Handling ks /\ tables s' = tables s /\
    event_queue_ s' = option_map (poll (tables s) [k]) (event_queue_ s) /\ holder_ s' = Free /\
    nonblocking_read (kernel_ s') = true.
Proof.
  intros Hpc Hh Hnb. unfold poll. cbn [foldl].
  destruct (ident k =? read_fd s) eqn:Ei; [|destruct (ev_error k) eqn:Ee].
  - assert (dispatch (H := H) (tables s) k = None) as -> by (unfold dispatch; fold (read_fd s); by rewrite Ei).
    destruct (drain_runs ks (pipe_bytes (kernel_ s)) (set_pc (Draining ks) s)) as (m & s' & Hr & H1 & H2 & H3 & H4 & H5);
      try done.
    exists (S m), s'. split; [|rewrite H3, H4; split_and!; try done; cbn; by destruct (event_queue_ s)].
    cbn [repeat]. rewrite loop_run_cons. cbn [step]. unfold loop_step. by rewrite Hpc, Ei.
  - assert (dispatch (H := H) (tables s) k = None) as -> by (unfold dispatch; fold (read_fd s); by rewrite Ei, Ee).
    exists 1%nat. eexists. split; [apply loop_once; unfold loop_step; by rewrite Hpc, Ei, Ee|].
    split_and!; try done. cbn. by destruct (event_queue_ s).
  - exists 1%nat. eexists. split.
    { apply loop_once. unfold loop_step, mutex_free. by rewrite Hpc, Ei, Ee, Hh, andb_false_r. }
    unfold push_event. cbn. destruct (dispatch (tables s) k), (event_queue_ s) eqn:Eq; cbn; by rewrite ?Eq.
Qed.

(** ** What the loop guarantees *)

(** C20. No wake-up is lost: whenever the thread waits in [kevent] with an empty
    pipe, and nobody is inside a method that changes the tables, the kernel
    watches the read end of the pipe and every descriptor of the tables, with
    both filters for a connection. *)
Theorem waiting_registered s :
  (0 < capacity)%nat -> reachable s -> pc_ s = Waiting -> holder_ s = Free -> pipe_bytes (kernel_ s) = 0%nat ->
  (read_fd s, EVFILT_READ) ∈ registered (kernel_ s) /\ registrations (tables s) ⊆ registered (kernel_ s).
Proof.
  intros Hc Hs Hpc Hh Hb. destruct (loop_reachable_inv s Hc Hs) as [_ _ _ _ _ Hp Hw].
  rewrite Hpc in Hp. split; [by apply Hp|].
  destruct (Hw Hpc) as [Ha|[?|[?|?]]]; [|lia|congruence..]. unfold all_registered in Ha. rewrite Forall_forall in Ha. exact Ha.
Qed.

(** C22. The thread closes each descriptor it opened exactly once: at every
    moment those opened are those closed and those it still holds, and it holds
    none when it polls without a kqueue, has finished, or was joined. *)
Theorem descriptors_closed s :
  (0 < capacity)%nat -> reachable s ->
  opened (kernel_ s) ≡ₚ closed (kernel_ s) ++ held s /\
  (pc_ s ∈ [NoThread; Polling; Finished] -> held s = []).
Proof.
  intros Hc Hs. destruct (loop_reachable_inv s Hc Hs) as [Hf Hb _ _ _ _ _]. split; [done|].
  unfold fds_ok in Hf. rewrite !elem_of_cons, elem_of_nil. unfold held. cbn.
  by intros [E|[E|[E|[]]]]; rewrite E in Hf; destruct Hf as (-> & -> & ->).
Qed.

(** C21. [stop] returns: once it has cleared [running_], and with a non-blocking
    pipe, the steps of the loop thread, of [stop] and of a caller under way are
    at most [steps_left], whatever the system calls return; and as long as
    [stop] has not returned one of them is possible. *)
Theorem stop_returns s ls s' :
  (0 < capacity)%nat -> reachable s -> owner_ s <> OwnerIdle -> stopping s ->
  Forall (fun l => winding l = true) ls -> run ls s = Some s' ->
  (length ls <= steps_left s)%nat /\ (owner_ s' = OwnerIdle \/ exists l, winding l = true /\ is_Some (step l s')).
Proof.
  intros Hc (q & ls0 & Hreach) Ho Hs Hl Hr. destruct (winding_run ls s s' Hs Hl Hr) as [Hs' Hlen]. split; [lia|].
  destruct (decide (pc_ s' = NoThread)) as [E|E]; [|by apply winding_enabled].
  left. destruct (loop_reachable_inv s' Hc) as [_ _ _ _ Hst _ _].
  { exists q, (ls0 ++ ls). rewrite loop_run_app, Hreach. exact Hr. }
  destruct (owner_ s'); [done|by destruct (Hst (ltac:(done)))..].
Qed.

(** One turn of the loop is [IoThread.poll]: from the batch [kevent]
    returned, the thread comes back to the test of [running_] having pushed to
    the shared queue the events [poll] pushes, and the pipe's own event drains
    the pipe without an event. *)
Theorem batch_is_poll ks : forall s,
  pc_ s = Handling ks -> holder_ s = Free -> nonblocking_read (kernel_ s) = true ->
  exists m s', run (repeat (Loop OsNone) m) s = Some s' /\ pc_ s' = LoopTest /\ tables s' = tables s /\
    event_queue_ s' = option_map (poll (tables s) ks) (event_queue_ s).
Proof.
  induction ks as [|k ks IH]; intros s Hpc Hh Hnb.
  - exists 1%nat. eexists. split; [apply loop_once; unfold loop_step; by rewrite Hpc|]. split_and!; try done. cbn. by destruct (event_queue_ s).
  - destruct (handle_one k ks s) as (m & s1 & Hr & Hpc1 & Ht1 & Hq1 & Hh1 & Hnb1); try done.
    destruct (IH s1) as (n & s' & Hr' & Hpc' & Ht' & Hq'); try done.
    exists (m + n)%nat, s'. rewrite repeat_app, loop_run_app, Hr. split_and!; try done; [congruence|].
    rewrite Hq', Ht1, Hq1. by destruct (event_queue_ s).
Qed.

(** [SetNonBlocking]'s results are ignored; if the read end of the pipe
    stayed blocking, the first wake-up is the thread's last: it never leaves
    the loop that drains the pipe, whatever anybody does, and [stop], which
    joins it, never returns. *)
Theorem blocking_read_end_hangs ks ls s s' :
  nonblocking_read (kernel_ s) = false -> pc_ s = Draining ks -> run ls s = Some s' ->
  pc_ s' = Draining ks /\ (owner_ s = OwnerJoin -> owner_ s' = OwnerJoin).
Proof.
  intros Hn Hpc Hr.
  cut (nonblocking_read (kernel_ s') = false /\ pc_ s' = Draining ks /\ (owner_ s = OwnerJoin -> owner_ s' = OwnerJoin)); [tauto|].
  revert Hr. apply (run_steps_keeps step (fun x => nonblocking_read (kernel_ x) = false /\ pc_ x = Draining ks /\ (owner_ s = OwnerJoin -> owner_ x = OwnerJoin))); [|done].
  clear Hn Hpc. intros l x x' _ (Hn & Hpc & Ho). destruct l as [a| | | |fd port|fd id|fd| |fd]; cbn [step].
  all: try (unfold locked; ifz; [|done]; intros [= <-]; by split_and!).
  - unfold loop_step. rewrite Hpc. destruct a; try done. destruct (pipe_bytes (kernel_ x)); rewrite ?Hn; [done|].
    intros [= <-]. by split_and!.
  - unfold start_call. rewrite Hpc. repeat case_match; try done. intros [= <-]. split_and!; try done. intros Hj%Ho. congruence.
  - unfold stop_call. case_match eqn:E; try done. ifz; intros [= <-]; split_and!; try done; intros Hj%Ho; congruence.
  - unfold owner_step. rewrite Hpc. case_match eqn:E; try done.
    + intros [= <-]. split_and!; try done. intros Hj%Ho. congruence.
    + destruct (wake_write fd x) as [k|] eqn:Ek; [|done]. destruct (wake_write_fields fd x k Ek) as (_ & _ & _ & Hk & _).
      intros [= <-]. cbn. by rewrite Hk.
  - unfold holder_step. case_match; try done.
    + intros [= <-]. by split_and!.
    + destruct (wake_write fd x) as [k|] eqn:Ek; [|done]. destruct (wake_write_fields fd x k Ek) as (_ & _ & _ & Hk & _).
      intros [= <-]. cbn. by rewrite Hk.
  - unfold fd_closed. ifz; [done|]. intros [= <-]. by split_and!.
Qed.
End Loop.

(** ** Witnesses *)

(** A kqueue loop at its first wait. *)
Definition to_wait : list label :=
  [StartCall; Loop (OsFd 5); Loop (OsPipe (Some (6, 7))); Loop (OsFcntl true true); Loop (OsAdded true); Loop OsNone;
   Loop OsNone].

Definition after (ls : list label) : t (H := unit) := default (create None) (run Apple 16 ls (create None)).

Lemma loop_after_reachable ls : is_Some (run Apple 16 ls (create (H := unit) None)) -> reachable Apple 16 (after ls).
Proof. intros (s & Hs). exists None, ls. unfold after. by rewrite Hs. Qed.

(** A connection is added, its byte wakes the thread, which drains the pipe and
    waits again: it now watches the connection. *)
Definition add_and_wait : list label :=
  to_wait ++ [AddConn 9 1; HolderStep; HolderStep; Loop (OsEvents (Some [mkKev 6 EVFILT_READ false false]));
              Loop OsNone; Loop OsNone; Loop OsNone; Loop OsNone; Loop OsNone; Loop OsNone].

Lemma waiting_registered_witness :
  (6, EVFILT_READ) ∈ registered (kernel_ (after add_and_wait)) /\
  registrations (tables (after add_and_wait)) ⊆ registered (kernel_ (after add_and_wait)) /\
  registrations (tables (after add_and_wait)) = [(9, EVFILT_READ); (9, EVFILT_WRITE)].
Proof.
  assert (reachable Apple 16 (after add_and_wait)) as Hr by (apply loop_after_reachable; vm_compute; eauto).
  destruct (waiting_registered Apple 16 (after add_and_wait) ltac:(lia) Hr) as [H1 H2]; try (vm_compute; reflexivity).
  split; [exact H1|]. split; [exact H2|]. vm_compute. reflexivity.
Defined.

Definition stop_now : list label := [StopCall; OwnerStep; OwnerStep; Loop (OsEvents None); Loop OsNone; Loop OsNone].

Lemma descriptors_closed_witness :
  closed (kernel_ (after (add_and_wait ++ stop_now))) = [6; 7; 5] /\
  held (after (add_and_wait ++ stop_now)) = [].
Proof.
  assert (reachable Apple 16 (after (add_and_wait ++ stop_now))) as Hr by (apply loop_after_reachable; vm_compute; eauto).
  split; [reflexivity|].
  apply (descriptors_closed Apple 16 _ ltac:(lia) Hr). vm_compute. right. right. left.
Defined.

Lemma stop_returns_witness :
  let s := after (add_and_wait ++ [StopCall]) in let s' := after (add_and_wait ++ stop_now ++ [OwnerStep]) in
  run Apple 16 (tl stop_now ++ [OwnerStep]) s = Some s' /\ owner_ s' = OwnerIdle /\ (6 <= steps_left s)%nat.
Proof.
  cbv zeta. assert (reachable Apple 16 (after (add_and_wait ++ [StopCall]))) as Hr by (apply loop_after_reachable; vm_compute; eauto).
  split; [vm_compute; reflexivity|]. split; [vm_compute; reflexivity|].
  refine (proj1 (stop_returns Apple 16 _ (tl stop_now ++ [OwnerStep]) (after (add_and_wait ++ stop_now ++ [OwnerStep])) _ Hr _ _ _ _)).
  - lia.
  - vm_compute. discriminate.
  - unfold stopping. split_and!; vm_compute; reflexivity.
  - repeat constructor.
  - vm_compute. reflexivity.
Defined.

(** The pipe and the connection are ready at once. *)
Definition two_ready : t (H := unit) :=
  set_pc (Handling [mkKev 6 EVFILT_READ false false; mkKev 9 EVFILT_READ false false])
    (set_queue (Some (EventQueue.create 4)) (after add_and_wait)).

Lemma batch_is_poll_witness :
  exists m s', run Apple 16 (repeat (Loop OsNone) m) two_ready = Some s' /\ pc_ s' = LoopTest /\
    event_queue_ s' = Some (fst (EventQueue.push (EventQueue.create 4) (mkEvent READ 1 9 0 None))).
Proof.
  destruct (batch_is_poll Apple 16 _ two_ready eq_refl) as (m & s' & H1 & H2 & _ & H4); [vm_compute; reflexivity..|].
  exists m, s'. split; [exact H1|]. split; [exact H2|]. rewrite H4. vm_compute. reflexivity.
Defined.

(** The pipe's descriptors could not be made non-blocking, [stop] was called. *)
Definition hung : list label :=
  [StartCall; Loop (OsFd 5); Loop (OsPipe (Some (6, 7))); Loop (OsFcntl false true); Loop (OsAdded true); Loop OsNone;
   Loop OsNone; StopCall; OwnerStep; OwnerStep; Loop (OsEvents (Some [mkKev 6 EVFILT_READ false false])); Loop OsNone; Loop OsNone].

Lemma blocking_read_end_hangs_witness :
  run Apple 16 [Loop OsNone] (after (removelast hung)) = Some (after hung) /\ pc_ (after hung) = Draining [] /\
  owner_ (after hung) = OwnerJoin.
Proof.
  assert (run Apple 16 [Loop OsNone] (after (removelast hung)) = Some (after hung)) as Hr by (vm_compute; reflexivity).
  split; [exact Hr|].
  destruct (blocking_read_end_hangs Apple 16 [] [Loop OsNone] (after (removelast hung)) (after hung)) as [H1 H2];
    [vm_compute; reflexivity..|exact Hr|].
  split; [exact H1|]. apply H2. vm_compute. reflexivity.
Defined.

(** [wake_up] reads [wakeup_fd_] and writes to it later, and the loop
    thread closes the pipe without taking [fd_mutex_]: a [stop] that overtakes
    an [add_conn_fd] lets the latter write to a descriptor already closed,
    which the process may have reused. *)
Theorem wake_up_after_close :
  exists ls s, run Apple 16 ls (create (H := unit) None) = Some s /\ closed (kernel_ s) = [6; 7; 5] /\ stray (kernel_ s) = [7].
Proof.
  set (ls := to_wait ++ [AddConn 9 1; HolderStep] ++ stop_now ++ [HolderStep]).
  exists ls, (after ls). split_and!; vm_compute; reflexivity.
Qed.
End IoLoop.
