(* ===== verification/Stopping.v ===== *)
(** [MsgCenter::stop] (msg_center/source/msg_center.cpp) against the threads it
    joins: the workers ([WorkerPool::worker_thread], worker_pool.cpp), the event
    loop thread ([EventLoop::run], event_loop.cpp), the I/O threads and other
    threads of the program that call [post_event] and [post_callback_task].

    A step is one critical section, one access to an atomic flag, or one call of
    a task. Tasks and handlers are the sequences of calls they make into the
    message centre. Unlike in Workers, a worker's wait is in two steps, the
    predicate under [mutex_] and the sleep, because [WorkerPool::stop] changes
    the flags and notifies without [mutex_]. Joining the I/O threads is one
    step: IoLoop shows that it ends. *)

From S2P Require Import Prelude EventQ.

Module Stopping.

(** What a task or a handler does next; [Work] is anything that leaves the
    message centre alone. *)
Inductive action :=
| Work
| PostEvent (ty : EventType) (handler : option (list action))
| PostTask (task : list action).
Definition prog := list action.

Inductive worker := Testing | Tested | Asleep | Executing (p : prog) | Exited.
Inductive loop_pc := LoopTest | LoopPop | LoopRun (p : prog) | LoopExited.
Inductive stop_pc :=
| NotStopping | WantLock | PoolStop | PoolClose | PoolNotify | JoinWorkers | LoopStop | LoopPush | JoinLoop | JoinIo
| Release | Returned.

#[export] Instance stop_pc_eq_dec : EqDecision stop_pc.
Proof. solve_decision. Defined.

Record t := mk {
  running_ : bool;
  post_mutex_ : bool;               (* held by [stop] *)
  alive : bool;                     (* [worker_pool_], [event_loop_], [event_queue_] not reset *)
  io_threads_ : bool;               (* not joined *)
  task_queue_ : list prog;
  pool_running_ : bool;
  queue_closed_ : bool;
  post_callback_done_ : bool;
  workers_ : list worker;
  loop_running_ : bool;
  event_queue_ : EventQueue.t prog;
  loop_ : loop_pc;
  stop_ : stop_pc;
  caller_ : option prog;            (* a [post_callback_task] past its null test *)
  dangling : bool;                  (* a pool was used after its reset *)
}.

(** A message centre that was started with [n] workers. *)
Definition started (n : nat) (max : Z) : t :=
  mk true false true true [] true false true (replicate n Testing) true (EventQueue.create max) LoopTest NotStopping
     None false.

Definition set_workers (ws : list worker) (s : t) : t :=
  mk (running_ s) (post_mutex_ s) (alive s) (io_threads_ s) (task_queue_ s) (pool_running_ s) (queue_closed_ s)
     (post_callback_done_ s) ws (loop_running_ s) (event_queue_ s) (loop_ s) (stop_ s) (caller_ s) (dangling s).
Definition set_worker (i : nat) (w : worker) (s : t) : t := set_workers (<[i := w]> (workers_ s)) s.
Definition set_tasks (q : list prog) (s : t) : t :=
  mk (running_ s) (post_mutex_ s) (alive s) (io_threads_ s) q (pool_running_ s) (queue_closed_ s)
     (post_callback_done_ s) (workers_ s) (loop_running_ s) (event_queue_ s) (loop_ s) (stop_ s) (caller_ s) (dangling s).
Definition set_pool (r c : bool) (s : t) : t :=
  mk (running_ s) (post_mutex_ s) (alive s) (io_threads_ s) (task_queue_ s) r c
     (post_callback_done_ s) (workers_ s) (loop_running_ s) (event_queue_ s) (loop_ s) (stop_ s) (caller_ s) (dangling s).
Definition set_loop (l : loop_pc) (s : t) : t :=
  mk (running_ s) (post_mutex_ s) (alive s) (io_threads_ s) (task_queue_ s) (pool_running_ s) (queue_closed_ s)
     (post_callback_done_ s) (workers_ s) (loop_running_ s) (event_queue_ s) l (stop_ s) (caller_ s) (dangling s).
Definition set_loop_running (b : bool) (s : t) : t :=
  mk (running_ s) (post_mutex_ s) (alive s) (io_threads_ s) (task_queue_ s) (pool_running_ s) (queue_closed_ s)
     (post_callback_done_ s) (workers_ s) b (event_queue_ s) (loop_ s) (stop_ s) (caller_ s) (dangling s).
Definition set_events (q : EventQueue.t prog) (s : t) : t :=
  mk (running_ s) (post_mutex_ s) (alive s) (io_threads_ s) (task_queue_ s) (pool_running_ s) (queue_closed_ s)
     (post_callback_done_ s) (workers_ s) (loop_running_ s) q (loop_ s) (stop_ s) (caller_ s) (dangling s).
Definition set_stop (p : stop_pc) (s : t) : t :=
  mk (running_ s) (post_mutex_ s) (alive s) (io_threads_ s) (task_queue_ s) (pool_running_ s) (queue_closed_ s)
     (post_callback_done_ s) (workers_ s) (loop_running_ s) (event_queue_ s) (loop_ s) p (caller_ s) (dangling s).
Definition set_centre (r m a io : bool) (s : t) : t :=
  mk r m a io (task_queue_ s) (pool_running_ s) (queue_closed_ s)
     (post_callback_done_ s) (workers_ s) (loop_running_ s) (event_queue_ s) (loop_ s) (stop_ s) (caller_ s) (dangling s).
Definition set_caller (c : option prog) (d : bool) (s : t) : t :=
  mk (running_ s) (post_mutex_ s) (alive s) (io_threads_ s) (task_queue_ s) (pool_running_ s) (queue_closed_ s)
     (post_callback_done_ s) (workers_ s) (loop_running_ s) (event_queue_ s) (loop_ s) (stop_ s) c d.

Definition is_tested (w : worker) : bool := match w with Tested => true | _ => false end.
Definition is_asleep (w : worker) : bool := match w with Asleep => true | _ => false end.
Definition is_exited (w : worker) : bool := match w with Exited => true | _ => false end.

(** [WorkerPool::mutex_] is free: no worker is between its predicate and its sleep. *)
Definition mutex_free (s : t) : bool := negb (existsb is_tested (workers_ s)).

(** * Calls into the centre *)

Definition push (e : Event prog) (s : t) : t := set_events (fst (EventQueue.push (event_queue_ s) e)) s.

(** [MsgCenter::post_event]; [None]: blocked on [post_mutex_]. *)
Definition post_event (e : Event prog) (s : t) : option t :=
  if post_mutex_ s then None
  else if negb (running_ s) then Some s
  else if alive s then Some (push e s) else Some s.

(** [notify_one] wakes one sleeper, [k], when there is one. *)
Definition notify_one (k : nat) (s : t) : option t :=
  if existsb is_asleep (workers_ s)
  then match workers_ s !! k with Some Asleep => Some (set_worker k Testing s) | _ => None end
  else Some s.
Definition wake (w : worker) : worker := match w with Asleep => Testing | _ => w end.
Definition notify_all (s : t) : t := set_workers (map wake (workers_ s)) s.

(** [WorkerPool::post_task]. *)
Definition post_task (k : nat) (p : prog) (s : t) : option t :=
  if negb (mutex_free s) then None
  else if queue_closed_ s then Some s
  else notify_one k (set_tasks (task_queue_ s ++ [p]) s).

(** [MsgCenter::post_callback_task] of a thread that [stop] joins. *)
Definition post_callback_task (k : nat) (p : prog) (s : t) : option t :=
  if alive s then post_task k p s else Some (set_caller (caller_ s) true s).

Definition act (k : nat) (a : action) (s : t) : option t :=
  match a with
  | Work => Some s
  | PostEvent ty h => post_event (mkEvent ty 0 (-1) 0 h) s
  | PostTask p => post_callback_task k p s
  end.

(** * The threads *)

(** [worker_thread]. *)
Definition worker_step (i k : nat) (s : t) : option t :=
  match workers_ s !! i with
  | Some Testing =>
      if negb (mutex_free s) then None
      else
        match task_queue_ s with
        | p :: rest => Some (set_worker i (Executing p) (set_tasks rest s))
        | [] => Some (set_worker i (if pool_running_ s then Tested else Exited) s)
        end
  | Some Tested => Some (set_worker i Asleep s)
  | Some (Executing (a :: p)) => s' ← act k a s; Some (set_worker i (Executing p) s')
  | Some (Executing []) =>
      Some (set_worker i Testing (if post_callback_done_ s then push make_callback_done_event s else s))
  | _ => None
  end.

(** A sleeper may wake without a notification. *)
Definition spurious (i : nat) (s : t) : option t :=
  match workers_ s !! i with Some Asleep => Some (set_worker i Testing s) | _ => None end.

(** [EventLoop::run]. *)
Definition loop_step (k : nat) (s : t) : option t :=
  match loop_ s with
  | LoopTest => Some (set_loop (if loop_running_ s then LoopPop else LoopExited) s)
  | LoopPop =>
      match EventQueue.try_pop (event_queue_ s) with
      | (q, None) => Some (set_loop LoopTest s)
      | (q, Some e) =>
          let s' := set_events q s in
          if decide (type e = SHUTDOWN) then Some (set_loop LoopExited (set_loop_running false s'))
          else Some (set_loop (match handler e with Some p => LoopRun p | None => LoopTest end) s')
      end
  | LoopRun [] => Some (set_loop LoopTest s)
  | LoopRun (a :: p) => s' ← act k a s; Some (set_loop (LoopRun p) s')
  | LoopExited => None
  end.

(** [MsgCenter::stop]. *)
Definition stop_call (s : t) : option t :=
  match stop_ s with
  | NotStopping | Returned => Some (if running_ s then set_stop WantLock s else s)
  | _ => None
  end.
Definition stop_step (s : t) : option t :=
  match stop_ s with
  | WantLock => if post_mutex_ s then None else Some (set_stop PoolStop (set_centre false true (alive s) (io_threads_ s) s))
  | PoolStop =>
      Some (if alive s && pool_running_ s then set_stop PoolClose (set_pool false (queue_closed_ s) s)
            else set_stop LoopStop s)
  | PoolClose => Some (set_stop PoolNotify (set_pool (pool_running_ s) true s))
  | PoolNotify => Some (set_stop JoinWorkers (notify_all s))
  | JoinWorkers => if forallb is_exited (workers_ s) then Some (set_stop LoopStop (set_workers [] s)) else None
  | LoopStop => Some (set_stop LoopPush (set_loop_running false s))
  | LoopPush => Some (set_stop JoinLoop (push make_shutdown_event s))
  | JoinLoop => match loop_ s with LoopExited => Some (set_stop JoinIo s) | _ => None end
  | JoinIo => Some (set_stop Release (set_centre (running_ s) true (alive s) false s))
  | Release => Some (set_stop Returned (set_centre (running_ s) false false (io_threads_ s) s))
  | NotStopping | Returned => None
  end.

Inductive label :=
| Worker (i k : nat) | Loop (k : nat) | StopCall | Stop | Spurious (i : nat)
| IoPush (ty : EventType) (conn fd : Z)          (* an I/O thread *)
| CallPostEvent (e : Event prog)                 (* another thread *)
| CallPostTask (p : prog) | CallUse (k : nat).   (* its null test; its use of the pool *)

Definition step (l : label) (s : t) : option t :=
  match l with
  | Worker i k => worker_step i k s
  | Loop k => loop_step k s
  | StopCall => stop_call s
  | Stop => stop_step s
  | Spurious i => spurious i s
  | IoPush ty conn fd => if io_threads_ s then Some (push (mkEvent ty conn fd 0 None) s) else None
  | CallPostEvent e => post_event e s
  | CallPostTask p =>
      match caller_ s with
      | None => Some (if alive s then set_caller (Some p) (dangling s) s else s)
      | Some _ => None
      end
  | CallUse k =>
      match caller_ s with
      | Some p => if alive s then s' ← post_task k p s; Some (set_caller None (dangling s') s')
                  else Some (set_caller None true s)
      | None => None
      end
  end.
Definition run : list label -> t -> option t := run_steps step.
Definition reachable (s : t) : Prop := exists n max ls, 0 <= max < 2 ^ 64 /\ run ls (started n max) = Some s.

(** * What keeps [stop] from returning *)

(** The rest of a task or handler calls [MsgCenter::post_event]. *)
Definition posts (p : prog) : bool := existsb (fun a => match a with PostEvent _ _ => true | _ => false end) p.

Definition worker_blocks (s : t) : Prop := exists i p, workers_ s !! i = Some (Executing p) /\ posts p = true.
Definition task_blocks (s : t) : Prop :=
  (exists p, p ∈ task_queue_ s /\ posts p = true) /\ exists i w, workers_ s !! i = Some w /\ w <> Exited.
Definition loop_blocks (s : t) : Prop := exists p, loop_ s = LoopRun p /\ posts p = true.
(** A worker that tested its predicate, or fell asleep, before the flags changed. *)
Definition sleeper (s : t) : Prop := exists i, workers_ s !! i = Some Tested \/ workers_ s !! i = Some Asleep.

Definition joins_workers (p : stop_pc) : bool :=
  match p with PoolStop | PoolClose | PoolNotify | JoinWorkers => true | _ => false end.
Definition joins_loop (p : stop_pc) : bool :=
  match p with PoolStop | PoolClose | PoolNotify | JoinWorkers | LoopStop | LoopPush | JoinLoop => true | _ => false end.

Definition hangs (s : t) : Prop :=
  joins_workers (stop_ s) = true /\ (worker_blocks s \/ task_blocks s) \/
  joins_loop (stop_ s) = true /\ loop_blocks s \/
  stop_ s = JoinWorkers /\ sleeper s.

(** * The stages of [stop] *)

Definition stage_ok (s : t) : Prop :=
  match stop_ s with
  | NotStopping | WantLock => running_ s = true /\ post_mutex_ s = false /\ alive s = true /\ pool_running_ s = true /\ queue_closed_ s = false
  | PoolStop => running_ s = false /\ post_mutex_ s = true /\ alive s = true /\ pool_running_ s = true /\ queue_closed_ s = false
  | PoolClose => running_ s = false /\ post_mutex_ s = true /\ alive s = true /\ pool_running_ s = false /\ queue_closed_ s = false
  | PoolNotify | JoinWorkers => running_ s = false /\ post_mutex_ s = true /\ alive s = true /\ pool_running_ s = false /\ queue_closed_ s = true
  | LoopStop => running_ s = false /\ post_mutex_ s = true /\ alive s = true /\ pool_running_ s = false /\ queue_closed_ s = true /\ workers_ s = []
  | LoopPush | JoinLoop => running_ s = false /\ post_mutex_ s = true /\ alive s = true /\ pool_running_ s = false /\ queue_closed_ s = true /\
      workers_ s = [] /\ loop_running_ s = false
  | JoinIo | Release => running_ s = false /\ post_mutex_ s = true /\ alive s = true /\ pool_running_ s = false /\ queue_closed_ s = true /\
      workers_ s = [] /\ loop_running_ s = false /\ loop_ s = LoopExited
  | Returned => running_ s = false /\ post_mutex_ s = false /\ alive s = false /\ pool_running_ s = false /\ queue_closed_ s = true /\
      workers_ s = [] /\ loop_running_ s = false /\ loop_ s = LoopExited
  end.

(** What only [stop] changes. *)
Definition control (s : t) : bool * bool * bool * bool * bool * stop_pc :=
  (running_ s, post_mutex_ s, alive s, pool_running_ s, queue_closed_ s, stop_ s).

(** The workers [ws'] are [ws], but for one that was woken. *)
Definition woken (ws ws' : list worker) : Prop :=
  ws' = ws \/ exists k, ws !! k = Some Asleep /\ ws' = <[k := Testing]> ws.

Lemma woken_lookup ws ws' i w :
  woken ws ws' -> ws !! i = Some w -> ws' !! i = Some w \/ w = Asleep /\ ws' !! i = Some Testing.
Proof.
  intros [->|(k & Hk & ->)] Hi; [by left|]. destruct (decide (k = i)) as [->|Hne].
  - right. rewrite list_lookup_insert_eq; [naive_solver|]. by eapply lookup_lt_Some.
  - left. by rewrite list_lookup_insert_ne.
Qed.

Lemma woken_nil ws' : woken [] ws' -> ws' = [].
Proof. by intros [->|(k & ? & ->)]. Qed.

(** What a call of a task, of a handler or of another thread leaves alone. *)
Definition call_frame (s s' : t) : Prop :=
  control s' = control s /\ loop_ s' = loop_ s /\ loop_running_ s' = loop_running_ s /\
  (queue_closed_ s = true -> task_queue_ s' = task_queue_ s /\ workers_ s' = workers_ s) /\
  (exists more, task_queue_ s' = task_queue_ s ++ more) /\ woken (workers_ s) (workers_ s').

Lemma call_frame_refl s : call_frame s s.
Proof. split_and!; try done; [exists []; by rewrite app_nil_r|by left]. Qed.

Lemma push_frame e s : call_frame s (push e s).
Proof. split_and!; try done; [exists []; by rewrite app_nil_r|by left]. Qed.

Lemma post_event_frame e s s' : post_event e s = Some s' -> call_frame s s' /\ post_mutex_ s = false.
Proof.
  unfold post_event. repeat ifz; try done; intros [= <-]; split; (done || apply call_frame_refl || apply push_frame).
Qed.

Lemma post_task_frame k p s s' : post_task k p s = Some s' -> call_frame s s'.
Proof.
  unfold post_task, notify_one. ifz; [done|]. destruct (queue_closed_ s) eqn:Ec; [intros [= <-]; apply call_frame_refl|].
  cbn. ifz; [|intros [= <-]; split_and!; cbn; [done..| |by eexists|by left]; congruence].
  destruct (workers_ s !! k) as [[]|] eqn:Ek; try done. intros [= <-]. split_and!; cbn; [done..|congruence|by eexists|].
  right. by exists k.
Qed.

Lemma act_frame k a s s' :
  act k a s = Some s' -> call_frame s s' /\ (post_mutex_ s = true -> posts [a] = false).
Proof.
  destruct a as [|ty h|p]; cbn.
  - intros [= <-]. split; [apply call_frame_refl|done].
  - intros Hp. apply post_event_frame in Hp as [? Hm]. split; [done|congruence].
  - unfold post_callback_task. ifz; [|intros [= <-]; split; [|done]].
    + intros Hp. split; [by eapply post_task_frame|done].
    + split_and!; try done; [exists []; by rewrite app_nil_r|by left].
Qed.

(** What a step of any thread but [stop]'s leaves alone. *)
Definition step_frame (s s' : t) : Prop :=
  control s' = control s /\ (loop_running_ s = false -> loop_running_ s' = false) /\
  (loop_ s = LoopExited -> loop_ s' = LoopExited) /\ (workers_ s = [] -> workers_ s' = []).

Lemma call_step_frame s s' : call_frame s s' -> step_frame s s'.
Proof.
  intros (Hc & Hl & Hr & _ & _ & Hw). split_and!; try congruence. intros E. rewrite E in Hw. by apply woken_nil.
Qed.

Lemma frame_trans s1 s2 s3 : step_frame s1 s2 -> step_frame s2 s3 -> step_frame s1 s3.
Proof. intros (? & ? & ? & ?) (? & ? & ? & ?). split_and!; [congruence|auto..]. Qed.

(** A step of a thread that is neither joined nor [stop]'s. *)
Definition outside (l : label) : bool :=
  match l with IoPush _ _ _ | CallPostEvent _ | CallPostTask _ | CallUse _ => true | _ => false end.

Lemma outside_frame l s s' : outside l = true -> step l s = Some s' -> call_frame s s'.
Proof.
  destruct l as [| | | | |ty conn fd|e|p|k]; try done; intros _; cbn [step].
  - ifz; [|done]. intros [= <-]. apply push_frame.
  - intros Hp. by apply post_event_frame in Hp as [? _].
  - destruct (caller_ s); [done|]. intros [= <-]. destruct (alive s); apply (call_frame_refl s).
  - destruct (caller_ s) as [p|]; [|done]. destruct (alive s); [|intros [= <-]; apply (call_frame_refl s)].
    destruct (post_task k p s) as [s1|] eqn:Ep; [|done]. intros [= <-]. exact (post_task_frame _ _ _ _ Ep).
Qed.

(** A turn of the loop thread is a call but for the point it moves to and
    [loop_running_], which it may clear. *)
Lemma loop_frame k s s' :
  loop_step k s = Some s' -> exists s1, call_frame s s1 /\ control s' = control s1 /\ workers_ s' = workers_ s1 /\
    task_queue_ s' = task_queue_ s1 /\ (loop_running_ s = false -> loop_running_ s' = false) /\ loop_ s <> LoopExited.
Proof.
  pose proof (call_frame_refl s) as Hs. unfold loop_step. destruct (loop_ s) as [| |[|a p]|] eqn:El; try done.
  - intros [= <-]. by exists s.
  - destruct (EventQueue.try_pop (event_queue_ s)) as [q [e|]]; [case_decide|]; intros [= <-]; by exists s.
  - intros [= <-]. by exists s.
  - destruct (act k a s) as [s1|] eqn:Ea; [|done]. apply act_frame in Ea as [Hf _]. intros [= <-]. exists s1.
    split_and!; try done. destruct Hf as (_ & _ & Hr & _). cbn. congruence.
Qed.

(** A worker's step, but for its own entry and the task it takes. *)
Lemma worker_frame i k s s' :
  worker_step i k s = Some s' -> exists s1 x, call_frame s s1 /\ control s' = control s1 /\
    workers_ s' = <[i := x]> (workers_ s1) /\ loop_ s' = loop_ s1 /\ loop_running_ s' = loop_running_ s1 /\
    is_Some (workers_ s !! i).
Proof.
  pose proof (call_frame_refl s) as Hs. unfold worker_step.
  destruct (workers_ s !! i) as [[| | |[|a p]|]|] eqn:Ei; try done.
  - ifz; [done|]. destruct (task_queue_ s); intros [= <-]; exists s; eexists; split_and!; try apply Hs; done.
  - intros [= <-]. by exists s, Asleep.
  - intros [= <-]. exists s, Testing. by destruct (post_callback_done_ s).
  - destruct (act k a s) as [s1|] eqn:Ea; [|done]. apply act_frame in Ea as [Hf _]. intros [= <-]. by exists s1, (Executing p).
Qed.

Lemma spurious_frame i s s' : spurious i s = Some s' -> workers_ s !! i = Some Asleep /\ s' = set_worker i Testing s.
Proof. unfold spurious. destruct (workers_ s !! i) as [[]|]; try done. by intros [= <-]. Qed.

Lemma label_cases l :
  (l = Stop \/ l = StopCall) \/ outside l = true \/ (exists i k, l = Worker i k) \/ (exists k, l = Loop k) \/ exists i, l = Spurious i.
Proof. destruct l; naive_solver. Qed.

Lemma stop_only l s s' : l <> Stop -> l <> StopCall -> step l s = Some s' -> step_frame s s'.
Proof.
  intros Hn1 Hn2 Hst.
  destruct (label_cases l) as [[|]|[Ho|[(i & k & ->)|[(k & ->)|(i & ->)]]]]; try done; cbn [step] in Hst.
  - by eapply call_step_frame, outside_frame.
  - destruct (worker_frame i k s s' Hst) as (s1 & x & Hf & Hc & Hw & Hl & Hr & w & Hi).
    destruct Hf as (Hc1 & Hl1 & Hr1 & _). split_and!; try congruence. intros E. by rewrite E in Hi.
  - destruct (loop_frame k s s' Hst) as (s1 & Hf & Hc & Hw & _ & Hr & Hne).
    destruct (call_step_frame _ _ Hf) as (Hc1 & _ & _ & Hw1). split_and!; [congruence|done..|]. rewrite Hw. exact Hw1.
  - apply spurious_frame in Hst as [_ ->]. split_and!; try done. cbn. by intros ->.
Qed.

Lemma stage_frame s s' : stage_ok s -> step_frame s s' -> stage_ok s'.
Proof.
  intros Hs (Hc & Hl & He & Hw). unfold control in Hc. injection Hc as H1 H2 H3 H4 H5 H6.
  unfold stage_ok in *. rewrite H6, H1, H2, H3, H4, H5. destruct (stop_ s); naive_solver.
Qed.

Lemma all_exited_forallb ws : forallb is_exited ws = true -> forall i w, ws !! i = Some w -> w = Exited.
Proof.
  intros Hf i w Hi. apply list_elem_of_lookup_2, list_elem_of_In in Hi. rewrite forallb_forall in Hf.
  specialize (Hf w Hi). by destruct w.
Qed.

Lemma stop_label l : (l = Stop \/ l = StopCall) \/ l <> Stop /\ l <> StopCall.
Proof. destruct l; naive_solver. Qed.

Lemma step_stage l s s' : stage_ok s -> step l s = Some s' -> stage_ok s'.
Proof.
  intros Hs Hst. destruct (stop_label l) as [Hl|[Hn1 Hn2]]; [|by eapply stage_frame, stop_only].
  revert Hst. unfold stage_ok in Hs. destruct Hl as [->| ->]; cbn [step]; [unfold stop_step|unfold stop_call];
    destruct (stop_ s) eqn:E; try done; destruct_and!.
  all: try match goal with Ha : alive _ = true, Hp : pool_running_ _ = true |- _ => rewrite Ha, ?Hp end.
  all: repeat match goal with Hx : ?b = _ |- context [if ?b then _ else _] => rewrite Hx end.
  all: cbn [andb negb]; try done.
  all: try (ifz; [|done]); try (case_match; try done).
  all: intros [= <-]; unfold stage_ok; cbn; rewrite ?E; by split_and!.
Qed.

Lemma reachable_stage s : reachable s -> stage_ok s.
Proof.
  intros (n & max & ls & _ & Hr). revert Hr. apply (run_steps_keeps step); [|by split_and!].
  intros l s1 s2 _. apply step_stage.
Qed.

(** ** Hanging *)

(** What a step of a thread leaves of a worker other than its own. *)
Definition kept (l : label) (s : t) (ws' : list worker) (i : nat) (w : worker) : Prop :=
  ws' !! i = Some w \/ w = Asleep /\ ws' !! i = Some Testing /\ (queue_closed_ s = true -> l = Spurious i).

Lemma call_kept l s s1 i w : workers_ s !! i = Some w -> call_frame s s1 -> kept l s (workers_ s1) i w.
Proof.
  intros Hi (_ & _ & _ & Hcl & _ & Hw). unfold kept.
  destruct (queue_closed_ s) eqn:Ec; [destruct (Hcl eq_refl) as [_ ->]; by left|].
  destruct (woken_lookup _ _ _ _ Hw Hi) as [?|[? ?]]; [by left|by right].
Qed.

Lemma own_kept l s s1 j x i w :
  workers_ s !! i = Some w -> j <> i -> call_frame s s1 -> kept l s (<[j := x]> (workers_ s1)) i w.
Proof. intros Hi Hj Hf. unfold kept. rewrite list_lookup_insert_ne by done. by apply call_kept. Qed.

Lemma other_worker l s s' i w :
  l <> Stop -> l <> StopCall -> (forall k, l <> Worker i k) -> step l s = Some s' -> workers_ s !! i = Some w ->
  kept l s (workers_ s') i w.
Proof.
  intros Hn1 Hn2 Hne Hst Hi.
  destruct (label_cases l) as [[|]|[Ho|[(j & k & ->)|[(k & ->)|(j & ->)]]]]; try done; cbn [step] in Hst.
  - by eapply call_kept, outside_frame.
  - destruct (worker_frame j k s s' Hst) as (s1 & x & Hf & _ & -> & _). apply own_kept; [done| |done].
    intros ->. by apply (Hne k).
  - destruct (loop_frame k s s' Hst) as (s1 & Hf & _ & -> & _). by apply call_kept.
  - apply spurious_frame in Hst as [Hj ->]. unfold kept. cbn.
    destruct (decide (j = i)) as [->|Hj']; [|left; by rewrite list_lookup_insert_ne].
    right. rewrite list_lookup_insert_eq by (by eapply lookup_lt_Some). naive_solver.
Qed.

(** What a worker's step makes of it. *)
Lemma own_worker i k s s' w :
  worker_step i k s = Some s' -> workers_ s !! i = Some w ->
  exists w', workers_ s' !! i = Some w' /\
    match w with
    | Testing =>
        (exists p rest, task_queue_ s = p :: rest /\ w' = Executing p /\ task_queue_ s' = rest) \/
        task_queue_ s = [] /\ w' = (if pool_running_ s then Tested else Exited) /\ task_queue_ s' = []
    | Tested => w' = Asleep /\ task_queue_ s' = task_queue_ s
    | Executing [] => w' = Testing /\ task_queue_ s' = task_queue_ s
    | Executing (a :: p) => w' = Executing p /\ (post_mutex_ s = true -> posts [a] = false) /\ exists more, task_queue_ s' = task_queue_ s ++ more
    | Asleep | Exited => False
    end.
Proof.
  intros Hst Hi. unfold worker_step in Hst. rewrite Hi in Hst.
  assert (Hins : forall x (ws : list worker), is_Some (ws !! i) -> <[i := x]> ws !! i = Some x).
  { intros x ws [? Hx]. apply list_lookup_insert_eq. by eapply lookup_lt_Some. }
  destruct w as [| | |[|a p]|]; try done.
  - ifz_in Hst; [done|]. destruct (task_queue_ s) as [|q rest] eqn:Eq; simplify_eq; cbn; eexists; (split; [by apply Hins|]); eauto 8.
  - simplify_eq. eexists. split; [by apply Hins|]. done.
  - simplify_eq. eexists. destruct (post_callback_done_ s); (split; [by apply Hins|]); done.
  - destruct (act k a s) as [s1|] eqn:Ea; [|done]. apply act_frame in Ea as [(_ & _ & _ & _ & Hq & Hw) Hp]. simplify_eq/=.
    eexists. split; [|done]. apply Hins. by destruct (woken_lookup _ _ _ _ Hw Hi) as [?|[? ?]].
Qed.

(** The task queue loses its tasks to workers only. *)
Lemma tasks_kept l s s' :
  l <> Stop -> l <> StopCall -> step l s = Some s' ->
  (exists more, task_queue_ s' = task_queue_ s ++ more) \/
  (exists i k p, l = Worker i k /\ workers_ s !! i = Some Testing /\ task_queue_ s = p :: task_queue_ s').
Proof.
  intros Hn1 Hn2 Hst.
  destruct (label_cases l) as [[|]|[Ho|[(j & k & ->)|[(k & ->)|(j & ->)]]]]; try done; cbn [step] in Hst.
  - left. by destruct (outside_frame l s s' Ho Hst) as (_ & _ & _ & _ & Hq & _).
  - destruct (worker_frame j k s s' Hst) as (_ & _ & _ & _ & _ & _ & _ & w & Ej).
    destruct (own_worker j k s s' w Hst Ej) as (w' & _ & Hw).
    assert (Hsame : task_queue_ s' = task_queue_ s -> exists more, task_queue_ s' = task_queue_ s ++ more)
      by (intros ->; exists []; by rewrite app_nil_r).
    destruct w as [| | |[|a p]|]; try done; try (left; naive_solver).
    destruct Hw as [(p & rest & Hq & _ & Hr)|(Hq & _ & Hr)]; [right; exists j, k, p; by rewrite Hq, Hr|].
    left. apply Hsame. congruence.
  - left. destruct (loop_frame k s s' Hst) as (s1 & (_ & _ & _ & _ & Hq & _) & _ & _ & -> & _). exact Hq.
  - left. apply spurious_frame in Hst as [_ ->]. exists []. by rewrite app_nil_r.
Qed.

Lemma worker_label l i : (exists k, l = Worker i k) \/ forall k, l <> Worker i k.
Proof. destruct l as [j k| | | | | | | |]; try (by right). destruct (decide (j = i)) as [->|]; naive_solver. Qed.

Lemma worker_blocks_kept l s s' :
  l <> Stop -> l <> StopCall -> post_mutex_ s = true -> step l s = Some s' -> worker_blocks s -> worker_blocks s'.
Proof.
  intros Hn1 Hn2 Hm Hst (i & p & Hi & Hp). destruct (worker_label l i) as [[k ->]|Hne].
  - destruct (own_worker i k s s' _ Hst Hi) as (w' & Hw' & Hw). destruct p as [|a p]; [done|].
    destruct Hw as (-> & Ha & _). exists i, p. split; [done|]. specialize (Ha Hm). cbn in *. by destruct a.
  - destruct (other_worker l s s' i _ Hn1 Hn2 Hne Hst Hi) as [?|[? _]]; [|done]. by exists i, p.
Qed.

Lemma live_kept l s s' i w :
  l <> Stop -> l <> StopCall -> step l s = Some s' -> task_queue_ s <> [] -> workers_ s !! i = Some w -> w <> Exited ->
  exists w', workers_ s' !! i = Some w' /\ w' <> Exited.
Proof.
  intros Hn1 Hn2 Hst Hq Hi Hw. destruct (worker_label l i) as [[k ->]|Hne].
  - destruct (own_worker i k s s' _ Hst Hi) as (w' & Hw' & Hc). exists w'. split; [done|].
    destruct w as [| | |[|a p]|]; naive_solver.
  - destruct (other_worker l s s' i _ Hn1 Hn2 Hne Hst Hi) as [?|(_ & ? & _)]; eauto.
Qed.

Lemma task_blocks_kept l s s' :
  l <> Stop -> l <> StopCall -> step l s = Some s' -> task_blocks s -> worker_blocks s' \/ task_blocks s'.
Proof.
  intros Hn1 Hn2 Hst ((p & Hp & Hb) & i & w & Hi & Hw).
  assert (task_queue_ s <> []) as Hne by (intros E; rewrite E in Hp; by apply elem_of_nil in Hp).
  destruct (live_kept l s s' i w Hn1 Hn2 Hst Hne Hi Hw) as (w' & Hi' & Hw').
  destruct (tasks_kept l s s' Hn1 Hn2 Hst) as [[more Hm]|(j & k & q & -> & Hj & Hq)].
  - right. split; [|by exists i, w']. exists p. by rewrite Hm, elem_of_app; auto.
  - rewrite Hq in Hp. apply elem_of_cons in Hp as [->|Hp]; [left|right; split; [by exists p|by exists i, w']].
    destruct (own_worker j k s s' _ Hst Hj) as (w1 & Hw1 & Hc). exists j, q. split; [|done].
    destruct Hc as [(p & rest & Hq' & -> & _)|[Hq' _]]; congruence.
Qed.

Lemma loop_blocks_kept l s s' :
  l <> Stop -> l <> StopCall -> post_mutex_ s = true -> step l s = Some s' -> loop_blocks s -> loop_blocks s'.
Proof.
  intros Hn1 Hn2 Hm Hst (p & Hl & Hp).
  destruct (label_cases l) as [[|]|[Ho|[(j & k & ->)|[(k & ->)|(j & ->)]]]]; try done; cbn [step] in Hst.
  - destruct (outside_frame l s s' Ho Hst) as (_ & Hl' & _). exists p. by rewrite Hl'.
  - destruct (worker_frame j k s s' Hst) as (s1 & x & (_ & Hl1 & _) & _ & _ & Hl' & _). exists p. by rewrite Hl', Hl1.
  - unfold loop_step in Hst. rewrite Hl in Hst. destruct p as [|a p]; [done|].
    destruct (act k a s) as [s1|] eqn:Ea; [|done]. apply act_frame in Ea as [_ Ha]. simplify_eq/=.
    exists p. split; [done|]. specialize (Ha Hm). by destruct a.
  - apply spurious_frame in Hst as [_ ->]. by exists p.
Qed.

Lemma sleeper_kept l s s' :
  l <> Stop -> l <> StopCall -> (forall i, l <> Spurious i) -> queue_closed_ s = true -> step l s = Some s' -> sleeper s -> sleeper s'.
Proof.
  intros Hn1 Hn2 Hsp Hc Hst (i & Hi). exists i.
  assert (exists w, workers_ s !! i = Some w /\ (w = Tested \/ w = Asleep)) as (w & Hw & Hor) by naive_solver.
  destruct (worker_label l i) as [[k ->]|Hne].
  - destruct (own_worker i k s s' w Hst Hw) as (w' & -> & Hcase). destruct Hor as [->| ->]; [|done].
    right. by destruct Hcase as [-> _].
  - destruct (other_worker l s s' i w Hn1 Hn2 Hne Hst Hw) as [->|(_ & _ & Hl)]; [naive_solver|].
    by destruct (Hsp i); apply Hl.
Qed.

(** The steps of [stop] itself. *)
Lemma stop_hangs_step s s' : stage_ok s -> stop_step s = Some s' -> hangs s -> hangs s'.
Proof.
  intros Hok Hst Hh. unfold stage_ok, stop_step in *.
  assert (Hlive : forall i w, workers_ s !! i = Some w -> w <> Exited -> forallb is_exited (workers_ s) = false).
  { intros i w Hi Hw. destruct (forallb is_exited (workers_ s)) eqn:Ef; [|done]. by destruct (all_exited_forallb _ Ef i w). }
  destruct Hh as [[Hj [(i & p & Hi & Hp)|(Hq & i & w & Hi & Hw)]]|[[Hj (p & Hl & Hp)]|[Hj (i & Hi)]]].
  - left. destruct (stop_ s); try done; [| | |by rewrite (Hlive i _ Hi) in Hst].
    + destruct Hok as (_ & _ & Ha & Hr & _). rewrite Ha, Hr in Hst. simplify_eq/=. split; [done|]. left. by exists i, p.
    + simplify_eq/=. split; [done|]. left. by exists i, p.
    + simplify_eq/=. split; [done|]. left. exists i, p. split; [|done]. cbn. by rewrite list_lookup_fmap, Hi.
  - left. destruct (stop_ s); try done; [| | |by rewrite (Hlive i _ Hi) in Hst].
    + destruct Hok as (_ & _ & Ha & Hr & _). rewrite Ha, Hr in Hst. simplify_eq/=. split; [done|]. right. split; [done|]. by exists i, w.
    + simplify_eq/=. split; [done|]. right. split; [done|]. by exists i, w.
    + simplify_eq/=. split; [done|]. right. split; [done|]. exists i, (wake w). cbn. rewrite list_lookup_fmap, Hi. by destruct w.
  - right. left. rewrite Hl in Hst.
    destruct (stop_ s); try done; repeat ifz_in Hst; simplify_eq/=; (split; [done|]); by exists p.
  - rewrite Hj in Hst. destruct Hi as [Hi|Hi]; by rewrite (Hlive i _ Hi) in Hst.
Qed.

Lemma hangs_step l s s' : (forall i, l <> Spurious i) -> stage_ok s -> step l s = Some s' -> hangs s -> hangs s'.
Proof.
  intros Hsp Hok Hst Hh. destruct (stop_label l) as [[-> | ->]|[Hn1 Hn2]].
  - by apply (stop_hangs_step s).
  - cbn in Hst. unfold stop_call in Hst. unfold hangs in Hh.
    destruct (stop_ s) eqn:E; try done; cbn in Hh; naive_solver.
  - pose proof (stop_only l s s' Hn1 Hn2 Hst) as (Hc & _). unfold control in Hc. injection Hc as _ _ _ _ _ Hstop.
    unfold hangs in *. rewrite Hstop. unfold stage_ok in Hok.
    destruct Hh as [[Hj Hb]|[[Hj Hb]|[Hj Hb]]].
    + left. split; [done|]. destruct Hb as [Hb|Hb]; [left|by apply (task_blocks_kept l s)].
      apply (worker_blocks_kept l s s'); try done. destruct (stop_ s); try done; apply Hok.
    + right. left. split; [done|]. apply (loop_blocks_kept l s s'); try done. destruct (stop_ s); try done; apply Hok.
    + right. right. split; [done|]. apply (sleeper_kept l s s'); try done. rewrite Hj in Hok. apply Hok.
Qed.

(** ** Returning *)

Definition event_weight (e : Event prog) : nat := 2 + match handler e with Some p => length p | None => 0 end.
Definition queue_weight (q : EventQueue.t prog) : nat :=
  sum_list_with (sum_list_with event_weight) (EventQueue.priority_queues_ q).
Definition task_weight (p : prog) : nat := 4 + length p.
Definition worker_weight (w : worker) : nat :=
  match w with Executing p => 4 + length p | Testing => 1 | Tested | Asleep | Exited => 0 end.
Definition loop_weight (s : t) : nat :=
  match loop_ s with LoopTest => if loop_running_ s then 2 else 1 | LoopPop => 2 | LoopRun p => 3 + length p | LoopExited => 0 end.
Definition stop_weight (p : stop_pc) : nat :=
  match p with JoinWorkers => 9 | LoopStop => 8 | LoopPush => 7 | JoinLoop => 3 | JoinIo => 2 | Release => 1 | _ => 0 end.
Definition weight (s : t) : nat :=
  stop_weight (stop_ s) + sum_list_with worker_weight (workers_ s) + sum_list_with task_weight (task_queue_ s) +
  queue_weight (event_queue_ s) + loop_weight s.

(** The event loop found nothing to do. *)
Definition idle (s : t) : bool :=
  loop_running_ s &&
  match loop_ s with LoopTest => true | LoopPop => match (EventQueue.try_pop (event_queue_ s)).2 with None => true | _ => false end | _ => false end.
Definition charge (l : label) (s : t) : nat :=
  match l with
  | IoPush _ _ _ => 3
  | CallPostEvent _ | CallPostTask _ | CallUse _ | StopCall => 1
  | Loop _ => if idle s then 1 else 0
  | Worker _ _ | Stop | Spurious _ => 0
  end.

(** No worker sleeps, and no task, queued event or handler calls [post_event]. *)
Definition event_calm (e : Event prog) : Prop := match handler e with Some p => posts p = false | None => True end.
Definition worker_calm (w : worker) : Prop :=
  match w with Executing p => posts p = false | Tested | Asleep => False | _ => True end.
Record calm (s : t) : Prop := {
  calm_tasks : Forall (fun p => posts p = false) (task_queue_ s);
  calm_workers : Forall worker_calm (workers_ s);
  calm_events : Forall (Forall event_calm) (EventQueue.priority_queues_ (event_queue_ s));
  calm_loop : match loop_ s with LoopRun p => posts p = false | _ => True end;
}.

Lemma push_weight q e : (queue_weight (fst (EventQueue.push q e)) <= queue_weight q + event_weight e)%nat.
Proof.
  unfold EventQueue.push, queue_weight. repeat ifz; cbn [fst EventQueue.priority_queues_]; try lia.
  generalize (Z.to_nat (type_value (type e))). induction (EventQueue.priority_queues_ q) as [|l qs IH]; intros [|n]; try (cbn; lia).
  - cbn. rewrite sum_list_with_app. cbn. lia.
  - change (alter (fun x => x ++ [e]) (S n) (l :: qs)) with (l :: alter (fun x => x ++ [e]) n qs).
    specialize (IH n). cbn [sum_list_with]. lia.
Qed.

Lemma push_calm q e :
  event_calm e -> Forall (Forall event_calm) (EventQueue.priority_queues_ q) ->
  Forall (Forall event_calm) (EventQueue.priority_queues_ (fst (EventQueue.push q e))).
Proof.
  intros He Hq. unfold EventQueue.push. repeat ifz; try done. cbn. apply Forall_alter; [done|].
  intros l _ Hl. apply Forall_app. by split; [|constructor].
Qed.

Lemma try_pop_split (q q' : EventQueue.t prog) o :
  EventQueue.try_pop q = (q', o) ->
  match o with
  | None => q' = q
  | Some e => exists i r, EventQueue.priority_queues_ q !! i = Some (e :: r) /\
      EventQueue.priority_queues_ q' = <[i := r]> (EventQueue.priority_queues_ q)
  end.
Proof.
  unfold EventQueue.try_pop. ifz; [by intros [= <- <-]|].
  rewrite zlookup_nat by lia.
  destruct (_ !! _) as [[|e r]|] eqn:El; intros [= <- <-]; try done. by eexists _, r.
Qed.

Lemma try_pop_weight q q' e :
  EventQueue.try_pop q = (q', Some e) -> (queue_weight q' + event_weight e = queue_weight q)%nat.
Proof.
  intros (i & r & Hi & Hq)%try_pop_split. unfold queue_weight. rewrite Hq.
  pose proof (sum_insert (sum_list_with event_weight) _ i _ r Hi) as Hs. cbn [sum_list_with] in Hs. lia.
Qed.

Lemma try_pop_calm q q' o :
  EventQueue.try_pop q = (q', o) -> Forall (Forall event_calm) (EventQueue.priority_queues_ q) ->
  Forall (Forall event_calm) (EventQueue.priority_queues_ q') /\ match o with Some e => event_calm e | None => True end.
Proof.
  intros Hp%try_pop_split Hq. destruct o as [e|]; [|by subst]. destruct Hp as (i & r & Hi & ->).
  pose proof (Forall_lookup_1 _ _ _ _ Hq Hi) as Hr. apply Forall_cons in Hr as [He Hr]. split; [|done].
  by apply Forall_insert.
Qed.

(** From the join of the workers on. *)
Definition joining (p : stop_pc) : bool :=
  match p with JoinWorkers | LoopStop | LoopPush | JoinLoop | JoinIo | Release | Returned => true | _ => false end.
Definition returning (s : t) : Prop := calm s /\ stage_ok s /\ joining (stop_ s) = true.

Lemma returning_closed s : returning s -> queue_closed_ s = true /\ pool_running_ s = false /\ running_ s = false.
Proof. intros (_ & Hok & Hj). unfold stage_ok in Hok. by destruct (stop_ s); try done; destruct_and!. Qed.

(** Tasks and handlers no longer change anything but [dangling]. *)
Lemma act_calm k a s s' :
  queue_closed_ s = true -> posts [a] = false -> act k a s = Some s' -> exists d, s' = set_caller (caller_ s) d s.
Proof.
  intros Hc Ha. destruct a as [|ty h|p]; try done; cbn.
  - intros [= <-]. exists (dangling s). by destruct s.
  - unfold post_callback_task, post_task. rewrite Hc. repeat ifz; try done; intros [= <-]; [|by eexists].
    exists (dangling s). by destruct s.
Qed.

Lemma posts_cons a p : posts (a :: p) = false -> posts [a] = false /\ posts p = false.
Proof. by destruct a. Qed.

Lemma worker_returning i k s s' :
  returning s -> worker_step i k s = Some s' -> calm s' /\ (1 + weight s' <= weight s)%nat.
Proof.
  intros Hret. destruct (returning_closed s Hret) as (Hc & Hp & _). destruct Hret as ([Ht Hw He Hl] & _ & _).
  unfold worker_step. destruct (workers_ s !! i) as [w|] eqn:Ei; [|done].
  pose proof (Forall_lookup_1 _ _ _ _ Hw Ei) as Hcalm.
  pose proof (fun y => sum_insert worker_weight _ i w y Ei) as Hsum.
  destruct w as [| | |[|a p]|]; try done; cbn in Hcalm.
  - ifz; [done|]. rewrite Hp. destruct (task_queue_ s) as [|q rest] eqn:Eq; intros [= <-].
    + split; [split; cbn; rewrite ?Eq; try done; by apply Forall_insert|].
      unfold weight, loop_weight. cbn. specialize (Hsum Exited). cbn in Hsum. lia.
    + apply Forall_cons in Ht as [Hq Ht]. split; [split; cbn; try done; by apply Forall_insert|].
      unfold weight, loop_weight, task_weight. cbn. rewrite Eq. specialize (Hsum (Executing q)). cbn in Hsum |- *. unfold task_weight. lia.
  - specialize (Hsum Testing). cbn in Hsum. destruct (post_callback_done_ s); intros [= <-].
    + split; [split; cbn; try done; [by apply Forall_insert|by apply push_calm]|].
      pose proof (push_weight (event_queue_ s) make_callback_done_event) as Hpw.
      unfold weight, loop_weight. cbn in *. lia.
    + split; [split; cbn; try done; by apply Forall_insert|]. unfold weight, loop_weight. cbn in *. lia.
  - apply posts_cons in Hcalm as [Ha Hq]. destruct (act k a s) as [s1|] eqn:Ea; [|done]. intros [= <-].
    destruct (act_calm k a s s1 Hc Ha Ea) as (d & ->). split; [split; cbn; try done; by apply Forall_insert|].
    specialize (Hsum (Executing p)). unfold weight, loop_weight. cbn in *. lia.
Qed.

Lemma loop_returning k s s' :
  returning s -> loop_step k s = Some s' -> calm s' /\ (1 + weight s' <= weight s + charge (Loop k) s)%nat.
Proof.
  intros Hret. destruct (returning_closed s Hret) as (Hc & Hp & _). destruct Hret as ([Ht Hw He Hl] & _ & _).
  unfold loop_step, charge, idle, weight, loop_weight. destruct (loop_ s) as [| |[|a p]|] eqn:El; try done.
  - intros [= <-]. destruct (loop_running_ s) eqn:Er; cbn; rewrite ?Er; (split; [by split|lia]).
  - destruct (EventQueue.try_pop (event_queue_ s)) as [q o] eqn:Eq. destruct (try_pop_calm _ _ _ Eq He) as [Hq Ho].
    destruct o as [e|].
    + pose proof (try_pop_weight _ _ _ Eq) as Hqw. unfold event_weight, event_calm in *.
      case_decide; intros [= <-]; cbn; [split; [by split|lia]|].
      destruct (handler e); (split; [by split|]); rewrite ?andb_false_r; cbn; destruct (loop_running_ s); cbn; lia.
    + intros [= <-]. cbn. destruct (loop_running_ s) eqn:Er; cbn; rewrite ?Er; (split; [by split|lia]).
  - intros [= <-]. cbn. split; [by split|]. destruct (loop_running_ s); cbn; lia.
  - apply posts_cons in Hl as [Ha Hq]. destruct (act k a s) as [s1|] eqn:Ea; [|done]. intros [= <-].
    destruct (act_calm k a s s1 Hc Ha Ea) as (d & ->). cbn. split; [by split|]. lia.
Qed.

Lemma stop_returning s s' : returning s -> stop_step s = Some s' -> calm s' /\ (1 + weight s' <= weight s)%nat.
Proof.
  intros ([Ht Hw He Hl] & Hok & Hj). unfold stop_step, stage_ok, weight, loop_weight in *.
  destruct (stop_ s) eqn:E; try done.
  - ifz; [|done]. intros [= <-]. cbn. split; [by split|]. lia.
  - intros [= <-]. cbn. split; [by split|]. destruct (loop_ s), (loop_running_ s); lia.
  - intros [= <-]. pose proof (push_weight (event_queue_ s) make_shutdown_event) as Hpw. cbn in *.
    split; [split; cbn; try done; by apply push_calm|]. lia.
  - destruct (loop_ s) eqn:El; try done. intros [= <-]. cbn. rewrite El. split; [split; cbn; by rewrite ?El|]. lia.
  - intros [= <-]. cbn. split; [by split|]. lia.
  - intros [= <-]. cbn. split; [by split|]. lia.
Qed.

Lemma outside_returning l s s' :
  returning s -> outside l = true -> step l s = Some s' -> calm s' /\ (1 + weight s' <= weight s + charge l s)%nat.
Proof.
  intros Hret. destruct (returning_closed s Hret) as (Hc & _ & Hrun). destruct Hret as ([Ht Hw He Hl] & _ & _).
  destruct l as [| | | | |ty conn fd|e|p|k]; try done; intros _; cbn [step charge].
  - ifz; [|done]. intros [= <-]. pose proof (push_weight (event_queue_ s) (mkEvent ty conn fd 0 None)) as Hpw.
    split; [split; cbn; try done; by apply push_calm|]. unfold weight, loop_weight. cbn in *. lia.
  - unfold post_event. rewrite Hrun. ifz; [done|]. intros [= <-]. split; [by split|lia].
  - destruct (caller_ s); [done|]. intros [= <-]. unfold weight, loop_weight. destruct (alive s); cbn; (split; [by split|lia]).
  - destruct (caller_ s) as [p|]; [|done]. unfold post_task. rewrite Hc.
    repeat ifz; try done; intros [= <-]; unfold weight, loop_weight; cbn; (split; [by split|lia]).
Qed.

Lemma returning_step l s s' :
  returning s -> step l s = Some s' -> returning s' /\ (1 + weight s' <= weight s + charge l s)%nat.
Proof.
  intros Hret Hst. pose proof Hret as (Hcalm & Hok & Hj).
  assert (Hstage : joining (stop_ s') = true).
  { destruct (stop_label l) as [[-> | ->]|[Hn1 Hn2]]; cbn in Hst.
    - unfold stop_step in Hst. destruct (stop_ s) eqn:E; try done; repeat ifz_in Hst; try case_match; by simplify_eq.
    - destruct (returning_closed s Hret) as (_ & _ & Hrun). unfold stop_call in Hst. rewrite Hrun in Hst.
      destruct (stop_ s) eqn:E; try done. simplify_eq. by rewrite E.
    - pose proof (stop_only l s s' Hn1 Hn2 Hst) as (Hc & _). unfold control in Hc. injection Hc as _ _ _ _ _ Hstop. by rewrite Hstop. }
  cut (calm s' /\ (1 + weight s' <= weight s + charge l s)%nat).
  { intros [? ?]. split; [|done]. split; [done|]. split; [by eapply step_stage|done]. }
  destruct (label_cases l) as [[->| ->]|[Ho|[(i & k & ->)|[(k & ->)|(i & ->)]]]]; cbn [step] in Hst.
  - rewrite Nat.add_0_r. by apply stop_returning.
  - destruct (returning_closed s Hret) as (_ & _ & Hrun). unfold stop_call in Hst. rewrite Hrun in Hst.
    destruct (stop_ s) eqn:E; try done. simplify_eq. cbn. split; [done|lia].
  - by apply outside_returning.
  - rewrite Nat.add_0_r. by eapply worker_returning.
  - by eapply loop_returning.
  - apply spurious_frame in Hst as [Hi _]. by destruct (Forall_lookup_1 _ _ _ _ (calm_workers s Hcalm) Hi).
Qed.

(** A thread [stop] joins, or [stop], can move. *)
Lemma act_enabled k a s : queue_closed_ s = true -> mutex_free s = true -> posts [a] = false -> is_Some (act k a s).
Proof.
  intros Hc Hm Ha. destruct a; try done. cbn. unfold post_callback_task, post_task. rewrite Hc, Hm. destruct (alive s); eauto.
Qed.

Lemma calm_mutex_free s : calm s -> mutex_free s = true.
Proof.
  intros [_ Hw _ _]. unfold mutex_free. apply negb_true_iff. induction Hw as [|w ws Hw _ IH]; [done|]. by destruct w.
Qed.

Lemma worker_enabled i w s :
  returning s -> workers_ s !! i = Some w -> w <> Exited -> is_Some (worker_step i 0 s).
Proof.
  intros Hret Hi Hw. destruct (returning_closed s Hret) as (Hc & _ & _). destruct Hret as (Hcalm & _ & _).
  pose proof (Forall_lookup_1 _ _ _ _ (calm_workers s Hcalm) Hi) as Hcw. unfold worker_step. rewrite Hi.
  destruct w as [| | |[|a p]|]; try done.
  - rewrite (calm_mutex_free s Hcalm). destruct (task_queue_ s); cbn; eauto.
  - apply posts_cons in Hcw as [Ha _]. destruct (act_enabled 0 a s) as [s1 ->]; eauto using calm_mutex_free.
Qed.

Lemma not_all_exited ws : forallb is_exited ws = false -> exists i w, ws !! i = Some w /\ w <> Exited.
Proof.
  induction ws as [|w ws IH]; [done|]. cbn. destruct (is_exited w) eqn:Ew.
  - intros (i & x & Hx)%IH. by exists (S i), x.
  - intros _. exists 0%nat, w. split; [done|]. by intros ->.
Qed.

Lemma event_loop_enabled s :
  returning s -> loop_running_ s = false -> loop_ s <> LoopExited -> is_Some (loop_step 0 s) /\ charge (Loop 0) s = 0%nat.
Proof.
  intros Hret Hr Hl. destruct (returning_closed s Hret) as (Hc & _ & _). destruct Hret as (Hcalm & _ & _).
  unfold charge, idle. rewrite Hr. split; [|done]. pose proof (calm_loop s Hcalm) as Hp. unfold loop_step.
  destruct (loop_ s) as [| |[|a p]|]; try done; eauto.
  - destruct (EventQueue.try_pop (event_queue_ s)) as [q [e|]]; [case_decide|]; eauto.
  - apply posts_cons in Hp as [Ha _]. destruct (act_enabled 0 a s) as [s1 ->]; eauto using calm_mutex_free.
Qed.

Lemma returning_enabled s :
  returning s -> stop_ s = Returned \/ exists l, charge l s = 0%nat /\ outside l = false /\ is_Some (step l s).
Proof.
  intros Hret. pose proof Hret as (Hcalm & Hok & Hj). unfold stage_ok in Hok.
  assert (Hstop : is_Some (stop_step s) -> exists l, charge l s = 0%nat /\ outside l = false /\ is_Some (step l s)) by (exists Stop; done).
  destruct (stop_ s) eqn:E; try done; try (right; apply Hstop; unfold stop_step; rewrite E; by eauto); [| |by left].
  - right. destruct (forallb is_exited (workers_ s)) eqn:Ef; [apply Hstop; unfold stop_step; rewrite E, Ef; by eauto|].
    apply not_all_exited in Ef as (i & w & Hi & Hw). exists (Worker i 0). split; [done|]. split; [done|].
    by eapply worker_enabled.
  - right. destruct Hok as (_ & _ & _ & _ & _ & _ & Hr).
    assert (loop_ s = LoopExited \/ loop_ s <> LoopExited) as [El|El] by (destruct (loop_ s); auto).
    + apply Hstop. unfold stop_step. rewrite E, El. eauto.
    + destruct (event_loop_enabled s Hret Hr El). by exists (Loop 0).
Qed.

(** * Properties *)

(** C18. [stop] returns. From its join of the workers on, if no worker sleeps
    or is about to and no task, handler or queued event still calls [post_event]
    ([calm]), every run is bounded: its length is at most [weight] of the state it
    starts from plus what it is charged for. Each call another thread makes
    ([post_event], [post_task], a use of the centre, another [stop]) is charged
    one step; each event an I/O thread pushes is charged three, its own and the
    two the loop thread needs to take it and run it; each turn of the event loop
    that finds nothing to do is charged one. So [stop], the workers and the loop
    thread make finitely many steps, and more of them only by what the others
    push; and until [stop] has returned, one more step of theirs that costs
    nothing is possible. *)
Theorem centre_stop_returns s ls s' :
  reachable s -> stop_ s = JoinWorkers -> calm s -> run ls s = Some s' ->
  (length ls <= weight s + run_cost step charge ls s)%nat /\
  (stop_ s' = Returned \/ exists l, charge l s' = 0%nat /\ outside l = false /\ is_Some (step l s')).
Proof.
  intros Hs Hj Hcalm Hr.
  destruct (run_steps_bounded step returning weight charge ls) with (s := s) (s' := s') as [Hs' Hlen]; try done.
  - intros l s1 s2 _. apply returning_step.
  - split; [done|]. split; [by apply reachable_stage|]. by rewrite Hj.
  - split; [lia|]. by apply returning_enabled.
Qed.

(** C19. [stop] holds [post_mutex_] while it joins. It never returns, in any
    run without a spurious wake-up, once it has the mutex and a worker runs, or
    has still to run, a task that calls [post_event], or the loop thread runs
    such a handler; and neither does it when a worker fell asleep on a
    predicate evaluated before the flags changed: the workers' [mutex_] is not
    taken to change them, so that [notify_all] can come too early. *)
Theorem stop_hangs s ls s' :
  reachable s -> hangs s -> (forall i, Spurious i ∉ ls) -> run ls s = Some s' -> hangs s' /\ stop_ s' <> Returned.
Proof.
  intros Hs Hh Hsp Hr. cut (stage_ok s' /\ hangs s').
  - intros [_ Hh']. split; [done|]. intros E. unfold hangs in Hh'. rewrite E in Hh'. naive_solver.
  - revert Hr. apply (run_steps_keeps step (fun x => stage_ok x /\ hangs x)); [|by split; [apply reachable_stage|]].
    intros l s1 s2 Hin [Hok1 Hh1] Hst. split; [by eapply step_stage|]. apply (hangs_step l s1); try done.
    intros i ->. by apply (Hsp i).
Qed.

(** ** Witnesses *)

Definition after (ls : list label) : t := default (started 1 8) (run ls (started 1 8)).

Lemma after_reachable ls : is_Some (run ls (started 1 8)) -> reachable (after ls).
Proof. intros (s & Hs). exists 1%nat, 8, ls. split; [lia|]. unfold after. by rewrite Hs. Qed.

(** A task is queued and [stop] called while the loop thread is in a handler;
    [stop] gets as far as the join of the worker. *)
Definition busy_stop : list label :=
  [CallPostEvent (mkEvent READ 1 9 0 (Some [Work])); Loop 0; Loop 0; CallPostTask [Work; PostTask []]; CallUse 0; StopCall;
   Stop; Stop; Stop; Stop].
Definition wind_down : list label :=
  [Worker 0 0; Worker 0 0; Worker 0 0; Worker 0 0; Worker 0 0; Stop; Stop; Stop; Loop 0; Loop 0; Loop 0; Stop; Stop; Stop].

Lemma centre_stop_returns_witness :
  stop_ (after (busy_stop ++ wind_down)) = Returned /\ (14 <= weight (after busy_stop))%nat.
Proof.
  split; [vm_compute; reflexivity|].
  assert (reachable (after busy_stop)) as Hr by (apply after_reachable; vm_compute; eauto).
  assert (calm (after busy_stop)) as Hc by (split; vm_compute; repeat constructor).
  assert (run wind_down (after busy_stop) = Some (after (busy_stop ++ wind_down))) as Hrun by (vm_compute; reflexivity).
  assert (stop_ (after busy_stop) = JoinWorkers) as Hj by (vm_compute; reflexivity).
  pose proof (proj1 (centre_stop_returns _ _ _ Hr Hj Hc Hrun)) as Hlen.
  replace (run_cost step charge wind_down (after busy_stop)) with 0%nat in Hlen by (vm_compute; reflexivity).
  rewrite Nat.add_0_r in Hlen. exact Hlen.
Defined.

(** The worker has seen an empty queue and [running_] set; [stop] then changes
    both flags and notifies before the worker sleeps. *)
Definition lost_wakeup : list label := [Worker 0 0; StopCall; Stop; Stop; Stop; Stop; Worker 0 0].
(** A task that posts an event runs when [stop] takes the mutex. *)
Definition posting_task : list label :=
  [CallPostTask [PostEvent CALLBACK_DONE None]; CallUse 0; Worker 0 0; StopCall; Stop; Stop; Stop; Stop].

Lemma stop_hangs_witness :
  hangs (after lost_wakeup) /\ stop_ (after lost_wakeup) <> Returned /\
  hangs (after posting_task) /\ stop_ (after posting_task) <> Returned.
Proof.
  assert (Hhang : forall ls, is_Some (run ls (started 1 8)) -> hangs (after ls) -> hangs (after ls) /\ stop_ (after ls) <> Returned).
  { intros ls Hr Hh. apply (stop_hangs (after ls) [] (after ls)); [by apply after_reachable|done| |reflexivity].
    intros i Hi. by apply elem_of_nil in Hi. }
  destruct (Hhang lost_wakeup) as [H1 H2]; [vm_compute; eauto| |].
  { right. right. split; [reflexivity|]. exists 0%nat. right. reflexivity. }
  destruct (Hhang posting_task) as [H3 H4]; [vm_compute; eauto| |].
  { left. split; [reflexivity|]. left. exists 0%nat. eexists. split; reflexivity. }
  exact (conj H1 (conj H2 (conj H3 H4))).
Defined.

(** [post_callback_task] tests [worker_pool_] and uses it without
    [post_mutex_]: a [stop] in between destroys the pool that is then used. *)
Theorem post_callback_task_races : exists ls, option_map dangling (run ls (started 1 8)) = Some true.
Proof.
  exists ([CallPostTask [Work]; StopCall; Stop; Stop; Stop; Stop; Worker 0 0; Stop; Stop; Stop; Loop 0; Stop; Stop; Stop; CallUse 0]).
  vm_compute. reflexivity.
Qed.

Lemma stage_alive s : stage_ok s -> alive s = true \/ workers_ s = [] /\ loop_ s = LoopExited.
Proof. unfold stage_ok. destruct (stop_ s); naive_solver. Qed.

Lemma post_task_dangling k p s s' : post_task k p s = Some s' -> dangling s' = dangling s.
Proof. unfold post_task, notify_one. repeat first [ifz|case_match]; try done; by intros [= <-]. Qed.

Lemma act_dangling k a s s' : alive s = true -> act k a s = Some s' -> dangling s' = dangling s.
Proof.
  intros Ha. destruct a as [|ty h|p]; cbn; [by intros [= <-]| |].
  - unfold post_event. repeat ifz; try done; by intros [= <-].
  - unfold post_callback_task. rewrite Ha. apply post_task_dangling.
Qed.

(** The threads [stop] joins never meet a pool that was reset. *)
Theorem joined_threads_safe ls n max s :
  run ls (started n max) = Some s -> (forall k, CallUse k ∉ ls) -> dangling s = false.
Proof.
  intros Hr Hn. cut (stage_ok s /\ dangling s = false); [tauto|]. revert Hr.
  apply (run_steps_keeps step (fun x => stage_ok x /\ dangling x = false)); [|by split_and!].
  intros l s1 s2 Hin [Hok Hd] Hst. split; [by eapply step_stage|]. rewrite <- Hd.
  destruct l as [i k|k| | |i|ty conn fd|e|p|k]; cbn [step] in Hst.
  - destruct (stage_alive s1 Hok) as [Ha|[Hw _]]; unfold worker_step in Hst; [|by rewrite Hw in Hst].
    destruct (workers_ s1 !! i) as [[| | |[|a p]|]|] eqn:Ei; try done; try by simplify_eq.
    + ifz_in Hst; [done|]. destruct (task_queue_ s1); by simplify_eq.
    + simplify_eq. by destruct (post_callback_done_ s1).
    + destruct (act k a s1) as [s3|] eqn:Ea; [|done]. simplify_eq/=. by eapply act_dangling.
  - destruct (stage_alive s1 Hok) as [Ha|[_ Hl]]; unfold loop_step in Hst; [|by rewrite Hl in Hst].
    destruct (loop_ s1) as [| |[|a p]|] eqn:El; try done; try by simplify_eq.
    + destruct (EventQueue.try_pop (event_queue_ s1)) as [q [e|]]; [case_decide|]; by simplify_eq.
    + destruct (act k a s1) as [s3|] eqn:Ea; [|done]. simplify_eq/=. by eapply act_dangling.
  - unfold stop_call in Hst. repeat case_match; by simplify_eq.
  - unfold stop_step in Hst. repeat case_match; by simplify_eq.
  - apply spurious_frame in Hst as [_ ->]. done.
  - ifz_in Hst; by simplify_eq.
  - unfold post_event in Hst. repeat ifz_in Hst; by simplify_eq.
  - destruct (caller_ s1); simplify_eq. by destruct (alive s1).
  - by destruct (Hn k).
Qed.
End Stopping.
