(* ===== verification/Http.v ===== *)
(** HTTP/1.1 messages and their textual form
    (protocol/include/protocol/http_message.hpp, http_parser.hpp and
    protocol/source/http_message.cpp, http_parser.cpp).

    The parser's [buffer_] points to a buffer its owner holds, so the parsing
    functions take that buffer and return it; [init] with a null pointer is
    [bound := false]. A line filled into a [char] array is the list of its
    characters. *)

From S2P Require Import Prelude StdMap ByteBuffer CString Hpack.

Module HttpMessage.

Definition HttpHeaders := list (bytes * bytes).   (* std::map, see StdMap *)

Record HttpRequest := mkRequest {
  method : bytes;
  path : bytes;
  version : bytes;
  headers : HttpHeaders;
  body : bytes;
  content_length : Z;
  debug_token : bytes;
}.

(** The constructor, [reset] and [clear] all give this value. *)
Definition request_reset : HttpRequest := mkRequest [] [] (str "HTTP/1.1") [] [] 0 [].

Record HttpResponse := mkResponse {
  status_code : Z;
  status_text : bytes;
  resp_headers : HttpHeaders;
  resp_body : bytes;
}.

Definition response_reset : HttpResponse := mkResponse 200 (str "OK") [] [].
(** [clear], the other name of [reset]. *)
Definition request_clear : HttpRequest := request_reset.
Definition response_clear : HttpResponse := response_reset.

Definition set_status (code : Z) (text : bytes) (r : HttpResponse) : HttpResponse :=
  mkResponse code text (resp_headers r) (resp_body r).
Definition add_header (name value : bytes) (r : HttpResponse) : HttpResponse :=
  mkResponse (status_code r) (status_text r) (mset name value (resp_headers r)) (resp_body r).
(** [data] is [None] for a null pointer ([body.resize(len)] keeps the old bytes
    in that case), else at least [len] bytes. *)
Definition set_body (data : option bytes) (len : Z) (r : HttpResponse) : HttpResponse :=
  mkResponse (status_code r) (status_text r) (resp_headers r)
    (match data with
     | Some d => if 0 <? len then ztake len d else vresize len (resp_body r)
     | None => vresize len (resp_body r)
     end).

End HttpMessage.

Module HttpParser.
Import HttpMessage.

Definition MAX_LINE_LEN : Z := 8192.
Definition MAX_HEADER_LINE_LEN : Z := 8192.
Definition MAX_HEADERS : nat := 100.
Definition MAX_HEADER_NAME_LEN : Z := 256.
Definition MAX_HEADER_VALUE_LEN : Z := 4096.

Record t := mk { bound : bool; error_code_ : Z; error_msg_ : bytes }.

Definition create : t := mk false 0 [].
(** [init] with a non-null buffer. *)
Definition init : t := mk true 0 [].
Definition reset (p : t) : t := mk (bound p) 0 [].
Definition set_error (p : t) (code : Z) (msg : bytes) : t := mk (bound p) code msg.
Definition get_error_code (p : t) : Z := error_code_ p.
Definition get_error_msg (p : t) : bytes := error_msg_ p.

Definition CR : byte := x0d.
Definition LF : byte := x0a.
Definition CRLF : bytes := [CR; LF].
Definition is_sp (b : byte) : bool := b2z b =? 32.
Definition is_blank (b : byte) : bool := (b2z b =? 32) || (b2z b =? 9).
Definition is_colon (b : byte) : bool := b2z b =? 58.

(** The scan of [read_line]: offset of the first carriage return that a line
    feed follows. *)
Fixpoint find_crlf (data : bytes) : option Z :=
  match data with
  | a :: r =>
      match r with
      | b :: _ => if bool_decide (a = CR /\ b = LF) then Some 0
                  else Z.succ <$> find_crlf r
      | [] => None
      end
  | [] => None
  end.

(** The line, or the code returned. *)
Definition read_line (p : t) (b : Buffer.t) (max_len : Z) : t * Buffer.t * (Z + bytes) :=
  if negb (bound p) then
    (set_error p PROTOCOL_ERROR_INVALID (str "Buffer not initialized"), b, inl PROTOCOL_ERROR_INVALID)
  else if Buffer.readable_bytes b =? 0 then (p, b, inl PROTOCOL_ERROR_EAGAIN)
  else
    let data := Buffer.slice (Buffer.data_ b) (Buffer.read_idx_ b) (Buffer.readable_bytes b) in
    match find_crlf data with
    | None => (p, b, inl PROTOCOL_ERROR_EAGAIN)
    | Some pos =>
        if max_len <=? pos then
          (set_error p PROTOCOL_ERROR_TOO_LONG (str "Line too long"), b, inl PROTOCOL_ERROR_TOO_LONG)
        else (p, Buffer.skip b (pos + 2), inr (ztake pos data))
    end.

(** [while (pos < len && f(line[pos])) pos++]: what was passed, what is left. *)
Fixpoint span (f : byte -> bool) (l : bytes) : bytes * bytes :=
  match l with
  | a :: r => if f a then let '(x, y) := span f r in (a :: x, y) else ([], l)
  | [] => ([], [])
  end.

Definition bad_line (p : t) : t :=
  set_error p PROTOCOL_ERROR_INVALID (str "Invalid request line format").

(** Returned: the parser, the code, and the three output strings (cleared
    first, so that an early return leaves the later ones empty). *)
Definition parse_request_line (p : t) (line : bytes) : t * Z * (bytes * bytes * bytes) :=
  let '(m, r1) := span (fun c => negb (is_sp c)) line in
  if bool_decide (m = []) || bool_decide (r1 = []) then
    (bad_line p, PROTOCOL_ERROR_INVALID, ([], [], []))
  else
    let r2 := snd (span is_sp r1) in
    if bool_decide (r2 = []) then (bad_line p, PROTOCOL_ERROR_INVALID, (m, [], []))
    else
      let '(q, r3) := span (fun c => negb (is_sp c)) r2 in
      if bool_decide (q = []) || bool_decide (r3 = []) then
        (bad_line p, PROTOCOL_ERROR_INVALID, (m, [], []))
      else
        let v := snd (span is_sp r3) in
        if bool_decide (v = []) then (bad_line p, PROTOCOL_ERROR_INVALID, (m, q, []))
        else if negb (bool_decide (v = str "HTTP/1.1")) then
          (set_error p PROTOCOL_ERROR_VERSION (str "HTTP version not supported"),
           PROTOCOL_ERROR_VERSION, (m, q, v))
        else (p, PROTOCOL_OK, (m, q, v)).

(** The two pointer loops that trim spaces and tabs. *)
Definition trim_start (l : bytes) : bytes := snd (span is_blank l).
Definition trim (l : bytes) : bytes := reverse (trim_start (reverse (trim_start l))).

Definition parse_header (p : t) (line : bytes) : t * (Z + bytes * bytes) :=
  match span (fun c => negb (is_colon c)) line with
  | (_, []) =>
      (set_error p PROTOCOL_ERROR_INVALID (str "Invalid header format"), inl PROTOCOL_ERROR_INVALID)
  | (k0, _ :: v0) =>
      let key := trim k0 in
      if blen key =? 0 then
        (set_error p PROTOCOL_ERROR_INVALID (str "Empty header name"), inl PROTOCOL_ERROR_INVALID)
      else if MAX_HEADER_NAME_LEN <? blen key then
        (set_error p PROTOCOL_ERROR_TOO_LONG (str "Header name too long"), inl PROTOCOL_ERROR_TOO_LONG)
      else
        let value := trim v0 in
        if MAX_HEADER_VALUE_LEN <? blen value then
          (set_error p PROTOCOL_ERROR_TOO_LONG (str "Header value too long"), inl PROTOCOL_ERROR_TOO_LONG)
        else (p, inr (key, value))
  end.

(** The loop of [parse_headers] when [left] more headers are allowed
    ([MAX_HEADERS - header_count]): the map so far is the output parameter. *)
Fixpoint parse_headers_loop (left : nat) (p : t) (b : Buffer.t) (hs : HttpHeaders)
  : t * Buffer.t * HttpHeaders * Z :=
  match read_line p b MAX_HEADER_LINE_LEN with
  | (p1, b1, inl ret) => (p1, b1, hs, ret)
  | (p1, b1, inr line) =>
      if blen line =? 0 then (p1, b1, hs, PROTOCOL_OK)
      else
        match left with
        | O => (set_error p1 PROTOCOL_ERROR_TOO_MANY (str "Too many headers"), b1, hs,
                PROTOCOL_ERROR_TOO_MANY)
        | S n =>
            match parse_header p1 line with
            | (p2, inl ret) => (p2, b1, hs, ret)
            | (p2, inr (key, value)) => parse_headers_loop n p2 b1 (mset key value hs)
            end
        end
  end.

(** The headers passed in are cleared first. *)
Definition parse_headers (p : t) (b : Buffer.t) (headers : HttpHeaders)
  : t * Buffer.t * HttpHeaders * Z :=
  if negb (bound p) then
    (set_error p PROTOCOL_ERROR_INVALID (str "Buffer not initialized"), b, headers,
     PROTOCOL_ERROR_INVALID)
  else parse_headers_loop MAX_HEADERS p b [].

Fixpoint find_header (headers : HttpHeaders) (name : bytes) : option bytes :=
  match headers with
  | [] => None
  | (k, v) :: r => if strcasecmp_eq k name then Some v else find_header r name
  end.

(** One bounds check and copy of [build_response]. *)
Definition emit (max_len : Z) (out : bytes) (piece : bytes) : option bytes :=
  if max_len <? blen out + blen piece then None else Some (out ++ piece).

Definition header_line (h : bytes * bytes) : bytes := h.1 ++ str ": " ++ h.2 ++ CRLF.

Fixpoint emit_headers (max_len : Z) (out : bytes) (has_cl : bool) (hs : HttpHeaders)
  : option (bytes * bool) :=
  match hs with
  | [] => Some (out, has_cl)
  | h :: r =>
      out' ← emit max_len out (header_line h);
      emit_headers max_len out' (has_cl || strcasecmp_eq h.1 (str "Content-Length")) r
  end.

Definition status_line (resp : HttpResponse) : bytes :=
  str "HTTP/1.1 " ++ to_string (status_code resp) ++ str " " ++ status_text resp ++ CRLF.

(** What is written to [out], or the code returned. *)
Definition build_response (p : t) (resp : HttpResponse) (max_len : Z) : t * (Z + bytes) :=
  let built :=
    o1 ← emit max_len [] (status_line resp);
    '(o2, has_cl) ← emit_headers max_len o1 false (resp_headers resp);
    o3 ← (if negb has_cl && negb (bool_decide (resp_body resp = [])) then
            emit max_len o2
              (str "Content-Length: " ++ to_string (blen (resp_body resp)) ++ CRLF)
          else Some o2);
    o4 ← emit max_len o3 CRLF;
    if bool_decide (resp_body resp = []) then Some o4 else emit max_len o4 (resp_body resp) in
  match built with
  | Some o => (p, inr o)
  | None => (set_error p PROTOCOL_ERROR_BUFFER (str "Buffer too small"), inl PROTOCOL_ERROR_BUFFER)
  end.

(** * Lines *)

Lemma find_crlf_cons a l : a <> CR -> find_crlf (a :: l) = Z.succ <$> find_crlf l.
Proof. intros Ha. cbn [find_crlf]. destruct l as [|b r]; [done|]. by rewrite bool_decide_eq_false_2 by naive_solver. Qed.

Lemma find_crlf_app l r : CR ∉ l -> find_crlf (l ++ CRLF ++ r) = Some (blen l).
Proof.
  induction l as [|a l IH]; intros Hn; [done|]. apply not_elem_of_cons in Hn as [Ha Hl].
  change ((a :: l) ++ CRLF ++ r) with (a :: (l ++ CRLF ++ r)).
  rewrite find_crlf_cons, IH by done. cbn. f_equal. rewrite blen_cons. lia.
Qed.

Lemma find_crlf_none l : CR ∉ l -> find_crlf l = None.
Proof.
  induction l as [|a l IH]; intros Hn; [done|]. apply not_elem_of_cons in Hn as [Ha Hl].
  by rewrite find_crlf_cons, IH.
Qed.

Lemma find_crlf_bounds data n : find_crlf data = Some n -> 0 <= n /\ n + 2 <= blen data.
Proof.
  revert n. induction data as [|a r IH]; intros n; [done|]. cbn [find_crlf].
  destruct r as [|b r]; [done|]. case_bool_decide.
  - intros [= <-]. rewrite !blen_cons. pose proof (blen_nonneg r). lia.
  - destruct (find_crlf (b :: r)) as [k|] eqn:E; [|done]. cbn. intros [= <-].
    specialize (IH k eq_refl). rewrite blen_cons. lia.
Qed.

Lemma read_line_content p b n :
  Buffer.wf b -> bound p = true ->
  read_line p b n =
    match find_crlf (Buffer.content b) with
    | None => (p, b, inl PROTOCOL_ERROR_EAGAIN)
    | Some pos =>
        if n <=? pos then
          (set_error p PROTOCOL_ERROR_TOO_LONG (str "Line too long"), b, inl PROTOCOL_ERROR_TOO_LONG)
        else (p, Buffer.skip b (pos + 2), inr (ztake pos (Buffer.content b)))
    end.
Proof.
  intros Hw Hb. unfold read_line. rewrite Hb. cbn [negb].
  rewrite Buffer.readable_wf by done. fold (Buffer.content b).
  pose proof (Buffer.blen_content b Hw) as Hl.
  destruct (Buffer.write_idx_ b - Buffer.read_idx_ b =? 0) eqn:E; [|done]. zb.
  rewrite (blen_0_nil (Buffer.content b)) by lia. done.
Qed.

(** A complete line within the limit is returned without its terminator, and
    exactly the line and the terminator are consumed. *)
Lemma read_line_spec p b n l rest :
  Buffer.wf b -> bound p = true -> Buffer.content b = l ++ CRLF ++ rest -> CR ∉ l -> blen l < n ->
  exists b', read_line p b n = (p, b', inr l) /\ Buffer.wf b' /\ Buffer.content b' = rest.
Proof.
  intros Hw Hb Hc Hn Hlt. rewrite read_line_content by done. rewrite Hc, find_crlf_app by done.
  ifz; [lia|]. pose proof (blen_nonneg l). eexists. split; [by rewrite ztake_app_all|].
  split; [apply Buffer.skip_wf; [done|lia]|]. rewrite Buffer.skip_content by (done || lia).
  rewrite Hc. replace (blen l + 2) with (blen (l ++ CRLF)) by (rewrite blen_app; done).
  rewrite app_assoc. by rewrite zdrop_app_all.
Qed.

Lemma read_line_eagain p b n :
  Buffer.wf b -> bound p = true -> CR ∉ Buffer.content b ->
  read_line p b n = (p, b, inl PROTOCOL_ERROR_EAGAIN).
Proof. intros Hw Hb Hn. by rewrite read_line_content, find_crlf_none. Qed.

(** Reading a line only shortens the buffer, and never unbinds the parser. *)
Lemma read_line_shrinks p b n p' b' r :
  Buffer.wf b -> bound p = true -> read_line p b n = (p', b', r) ->
  bound p' = true /\ Buffer.wf b' /\ blen (Buffer.content b') <= blen (Buffer.content b).
Proof.
  intros Hw Hp. rewrite read_line_content by done.
  destruct (find_crlf (Buffer.content b)) as [k|] eqn:Ef; [|intros [= <- <- _]; done].
  apply find_crlf_bounds in Ef. ifz; intros [= <- <- _]; [done|].
  split; [done|]. split; [apply Buffer.skip_wf; [done|lia]|].
  rewrite Buffer.skip_content, blen_zdrop by (done || lia). lia.
Qed.

(** * [span] and [trim] *)

Lemma span_app f l x r :
  Forall (fun c => f c = true) l -> f x = false -> span f (l ++ x :: r) = (l, x :: r).
Proof.
  intros Hl Hx. induction Hl as [|a l Ha Hl IH]; cbn; [by rewrite Hx|]. by rewrite Ha, IH.
Qed.

Lemma span_spec f l x y :
  span f l = (x, y) ->
  l = x ++ y /\ Forall (fun c => f c = true) x /\ (y = [] \/ exists a r, y = a :: r /\ f a = false).
Proof.
  revert x y. induction l as [|a l IH]; intros x y; cbn; [by intros [= <- <-]; auto|].
  destruct (f a) eqn:Ha.
  - destruct (span f l) as [x' y'] eqn:E. intros [= <- <-].
    destruct (IH x' y' eq_refl) as (-> & Hf & Hy). auto.
  - intros [= <- <-]. split; [done|]. split; [constructor|]. right. eauto.
Qed.

(** No blank at either end. *)
Definition trimmed (l : bytes) : Prop :=
  (forall a, head l = Some a -> is_blank a = false) /\
  (forall a, last l = Some a -> is_blank a = false).

Lemma trim_start_head l : (forall a, head l = Some a -> is_blank a = false) -> trim_start l = l.
Proof. unfold trim_start. destruct l as [|a l]; cbn; [done|]. intros Ha. by rewrite (Ha a eq_refl). Qed.

Lemma trim_start_blank b l : is_blank b = true -> trim_start (b :: l) = trim_start l.
Proof. unfold trim_start. cbn. intros ->. by destruct (span is_blank l). Qed.

Lemma trim_trimmed l : trimmed l -> trim l = l.
Proof.
  intros [Hh Hl]. unfold trim. rewrite (trim_start_head l) by done.
  rewrite trim_start_head; [apply reverse_involutive|]. intros a Ha. apply Hl.
  by rewrite head_reverse in Ha.
Qed.

Lemma trim_space l : trimmed l -> trim (x20 :: l) = l.
Proof.
  intros Hl. unfold trim. rewrite trim_start_blank by done. exact (trim_trimmed l Hl).
Qed.

(** * The request line *)

Definition all_spaces (l : bytes) : Prop := l <> [] /\ Forall (fun c => is_sp c = true) l.
Definition no_space (l : bytes) : Prop := l <> [] /\ Forall (fun c => negb (is_sp c) = true) l.

Lemma span_sp_skip s v : Forall (fun c => is_sp c = true) s -> head v <> Some x20 ->
  snd (span is_sp (s ++ v)) = v.
Proof.
  intros Hs Hv. destruct v as [|x v].
  - rewrite app_nil_r. induction Hs as [|a s Ha Hs IH]; cbn; [done|]. rewrite Ha.
    destruct (span is_sp s). by cbn in *.
  - rewrite span_app; [done..|]. unfold is_sp. apply Z.eqb_neq. intros Hx. apply Hv. cbn. f_equal.
    by apply b2z_inj.
Qed.

Lemma span_word m s v :
  Forall (fun c => negb (is_sp c) = true) m -> all_spaces s ->
  span (fun c => negb (is_sp c)) (m ++ s ++ v) = (m, s ++ v).
Proof.
  intros Hm [Hne Hs]. destruct s as [|a s]; [done|]. inversion Hs as [|? ? Ha Hs']; subst.
  cbn. apply span_app; [done|]. by rewrite Ha.
Qed.

Lemma no_space_head m : no_space m -> head m <> Some x20.
Proof. intros [Hne Hm] Hh. destruct m as [|a m]; [done|]. cbn in Hh. simplify_eq. by inversion Hm. Qed.

Lemma head_app_ne {A} (l k : list A) : l <> [] -> head (l ++ k) = head l.
Proof. by destruct l. Qed.

(** [parse_request_line] succeeds exactly on method, spaces, target, spaces and
    [HTTP/1.1]. *)
Lemma parse_request_line_ok p line m q v :
  parse_request_line p line = (p, PROTOCOL_OK, (m, q, v)) <->
  exists s1 s2, line = m ++ s1 ++ q ++ s2 ++ v /\ v = str "HTTP/1.1" /\
    no_space m /\ no_space q /\ all_spaces s1 /\ all_spaces s2.
Proof.
  split.
  - unfold parse_request_line.
    destruct (span _ line) as [m' r1] eqn:E1. apply span_spec in E1 as (-> & Hm & H1).
    destruct (span is_sp r1) as [s1 r2] eqn:E2. apply span_spec in E2 as (-> & Hs1 & H2).
    destruct (bool_decide (m' = [])) eqn:B1; [done|]. cbn [orb].
    destruct (bool_decide (s1 ++ r2 = [])) eqn:B2; [done|]. cbn [snd].
    destruct (bool_decide (r2 = [])) eqn:B3; [done|].
    destruct (span _ r2) as [q' r3] eqn:E3. apply span_spec in E3 as (-> & Hq & H3).
    destruct (span is_sp r3) as [s2 r4] eqn:E4. apply span_spec in E4 as (-> & Hs2 & H4).
    destruct (bool_decide (q' = [])) eqn:B4; [done|]. cbn [orb].
    destruct (bool_decide (s2 ++ r4 = [])) eqn:B5; [done|]. cbn [snd].
    destruct (bool_decide (r4 = [])) eqn:B6; [done|].
    destruct (bool_decide (r4 = str "HTTP/1.1")) eqn:B7; cbn [negb]; [|done].
    intros [= -> -> ->]. apply bool_decide_eq_false in B1, B2, B3, B4, B5, B6.
    apply bool_decide_eq_true in B7. exists s1, s2. split; [done|]. split; [done|].
    split; [done|]. split; [done|]. split; (split; [|done]).
    + intros ->. destruct H1 as [?|(a & r & Ha & Hs)]; [done|]. cbn in Ha.
      destruct H2 as [?|(a' & r' & Ha' & Hs')]; [done|]. rewrite Ha in Ha'. simplify_eq.
      by rewrite Hs' in Hs.
    + intros ->. destruct H3 as [?|(a & r & Ha & Hs)]; [done|]. cbn in Ha. rewrite B7 in Ha.
      injection Ha as <- _. done.
  - intros (s1 & s2 & -> & -> & Hm & Hq & Hs1 & Hs2). unfold parse_request_line.
    rewrite span_word by (apply Hm || done).
    rewrite bool_decide_eq_false_2 by apply Hm. cbn [orb].
    rewrite bool_decide_eq_false_2 by (intros [? _]%app_eq_nil; by apply Hs1).
    rewrite (span_sp_skip s1); [|by apply Hs1|].
    2:{ rewrite head_app_ne by apply Hq. by apply no_space_head. }
    rewrite bool_decide_eq_false_2 by (intros [? _]%app_eq_nil; by apply Hq).
    rewrite span_word by (apply Hq || done).
    rewrite bool_decide_eq_false_2 by apply Hq. cbn [orb].
    rewrite bool_decide_eq_false_2 by (intros [? _]%app_eq_nil; by apply Hs2).
    rewrite (span_sp_skip s2); [|by apply Hs2|done].
    by rewrite bool_decide_eq_false_2, bool_decide_eq_true_2.
Qed.

Lemma parse_header_bound p line p' r : parse_header p line = (p', r) -> bound p' = bound p.
Proof. unfold parse_header. intros E. repeat first [progress simplify_eq | case_match]; done. Qed.

Lemma parse_headers_loop_shrinks n p b hs p' b' hs' ret :
  bound p = true -> Buffer.wf b -> parse_headers_loop n p b hs = (p', b', hs', ret) ->
  bound p' = true /\ Buffer.wf b' /\ blen (Buffer.content b') <= blen (Buffer.content b).
Proof.
  revert p b hs. induction n as [|n IH]; intros p b hs Hp Hw; cbn [parse_headers_loop];
    destruct (read_line p b MAX_HEADER_LINE_LEN) as [[p1 b1] r1] eqn:Er;
    destruct (read_line_shrinks _ _ _ _ _ _ Hw Hp Er) as (Hp1 & Hw1 & Hl1);
    (destruct r1 as [c|line]; [by intros [= <- <- <- <-]|]);
    (ifz; [by intros [= <- <- <- <-]|]).
  - by intros [= <- <- <- <-].
  - destruct (parse_header p1 line) as [p2 r2] eqn:Eh. apply parse_header_bound in Eh.
    destruct r2 as [c|[k v]]; [intros [= <- <- <- <-]; split; [congruence|done]|].
    intros El. destruct (IH p2 b1 _ ltac:(congruence) Hw1 El) as (? & ? & ?).
    split; [done|]. split; [done|lia].
Qed.

(** * Header lines *)

(** A header the parser can represent: a trimmed non-empty name without a
    colon, a trimmed value, no carriage return, within the limits. *)
Record valid_header (h : bytes * bytes) : Prop := {
  vh_name : h.1 <> [] /\ trimmed h.1 /\ blen h.1 <= MAX_HEADER_NAME_LEN;
  vh_colon : Forall (fun c => negb (is_colon c) = true) h.1;
  vh_value : trimmed h.2 /\ blen h.2 <= MAX_HEADER_VALUE_LEN;
  vh_cr : (CR ∉ h.1) /\ (CR ∉ h.2);
}.

Lemma parse_header_valid p h :
  valid_header h -> parse_header p (h.1 ++ str ": " ++ h.2) = (p, inr h).
Proof.
  destruct h as [k v]. intros [(Hne & Hkt & Hkl) Hc [Hvt Hvl] _]. cbn in *. unfold parse_header.
  change (k ++ str ": " ++ v) with (k ++ x3a :: (x20 :: v)). rewrite span_app by done.
  rewrite trim_trimmed, trim_space by done.
  ifz; [by apply blen_0_nil in E|]. ifz; [lia|]. ifz; [lia|done].
Qed.

Lemma header_line_split h : header_line h = (h.1 ++ str ": " ++ h.2) ++ CRLF.
Proof. unfold header_line. by rewrite <- !app_assoc. Qed.

Lemma valid_header_line h : valid_header h ->
  (CR ∉ (h.1 ++ str ": " ++ h.2)) /\ 0 < blen (h.1 ++ str ": " ++ h.2) < MAX_HEADER_LINE_LEN.
Proof.
  intros [(Hne & _ & Hkl) _ [_ Hvl] [Hk Hv]]. split.
  - rewrite !not_elem_of_app. repeat split; [done| |done]. apply (bool_decide_unpack _). by vm_compute.
  - rewrite !blen_app. change (blen (str ": ")) with 2.
    pose proof (blen_nonneg h.1). pose proof (blen_nonneg h.2).
    unfold MAX_HEADER_LINE_LEN, MAX_HEADER_NAME_LEN, MAX_HEADER_VALUE_LEN in *. lia.
Qed.

Lemma parse_headers_one n p b acc h rest :
  bound p = true -> Buffer.wf b -> valid_header h -> Buffer.content b = header_line h ++ rest ->
  exists b', parse_headers_loop (S n) p b acc = parse_headers_loop n p b' (mset h.1 h.2 acc) /\
    Buffer.wf b' /\ Buffer.content b' = rest.
Proof.
  intros Hp Hw Hh Hc. destruct (valid_header_line h Hh) as [Hcr Hlen].
  rewrite header_line_split, <- app_assoc in Hc.
  destruct (read_line_spec p b MAX_HEADER_LINE_LEN _ rest Hw Hp Hc Hcr) as (b' & Hr & Hw' & Hc'); [lia|].
  exists b'. split; [|done]. cbn [parse_headers_loop]. rewrite Hr.
  ifz; [lia|]. rewrite parse_header_valid by done. by destruct h.
Qed.

Lemma parse_headers_end n p b acc rest :
  bound p = true -> Buffer.wf b -> Buffer.content b = CRLF ++ rest ->
  exists b', parse_headers_loop n p b acc = (p, b', acc, PROTOCOL_OK) /\
    Buffer.wf b' /\ Buffer.content b' = rest.
Proof.
  intros Hp Hw Hc.
  destruct (read_line_spec p b MAX_HEADER_LINE_LEN [] rest Hw Hp Hc) as (b' & Hr & Hw' & Hc');
    [by apply not_elem_of_nil|done|].
  exists b'. split; [|done]. destruct n; cbn [parse_headers_loop]; by rewrite Hr.
Qed.

Lemma parse_headers_many p hs n b acc rest :
  bound p = true -> Forall valid_header hs -> (length hs <= n)%nat -> Buffer.wf b ->
  Buffer.content b = concat (map header_line hs) ++ CRLF ++ rest ->
  exists b', parse_headers_loop n p b acc =
      (p, b', foldl (fun a h => mset h.1 h.2 a) acc hs, PROTOCOL_OK) /\
    Buffer.wf b' /\ Buffer.content b' = rest.
Proof.
  intros Hp Hf. revert n b acc. induction Hf as [|h hs Hh Hf IH]; intros n b acc Hn Hw Hc.
  - by apply parse_headers_end.
  - cbn in Hn, Hc. rewrite <- app_assoc in Hc. destruct n as [|n]; [lia|].
    destruct (parse_headers_one n p b acc h _ Hp Hw Hh Hc) as (b1 & -> & Hw1 & Hc1).
    apply IH; [lia|done|done].
Qed.

(** Any sorted map of at most 100 representable headers, written one
    per line and closed by an empty line, is parsed back to the same map, and
    the buffer is left at the byte that follows. *)
Theorem headers_roundtrip p b hs old rest :
  bound p = true -> mwf hs -> Forall valid_header hs -> (length hs <= MAX_HEADERS)%nat ->
  Buffer.wf b -> Buffer.content b = concat (map header_line hs) ++ CRLF ++ rest ->
  exists b', parse_headers p b old = (p, b', hs, PROTOCOL_OK) /\
    Buffer.wf b' /\ Buffer.content b' = rest.
Proof.
  intros Hp Hm Hf Hl Hw Hc. unfold parse_headers. rewrite Hp.
  destruct (parse_headers_many p hs MAX_HEADERS b [] rest Hp Hf Hl Hw Hc) as (b' & -> & H').
  exists b'. rewrite (foldl_mset_sorted hs []) by (done || constructor). done.
Qed.

Definition buffer_of (d : bytes) : Buffer.t :=
  match Buffer.write (Buffer.create Buffer.DEFAULT_INITIAL_CAPACITY) (Some d) with
  | Some (b, _) => b
  | None => Buffer.create 0
  end.

Lemma buffer_of_spec d : blen d <= Buffer.MAX_CAPACITY ->
  Buffer.wf (buffer_of d) /\ Buffer.content (buffer_of d) = d.
Proof.
  intros Hd. unfold buffer_of.
  pose proof (Buffer.create_wf Buffer.DEFAULT_INITIAL_CAPACITY) as Hw.
  assert (Hc : Buffer.content (Buffer.create Buffer.DEFAULT_INITIAL_CAPACITY) = []) by reflexivity.
  destruct (Buffer.write_spec _ d Hw) as (b' & -> & Hw' & Hc'); [rewrite Hc; exact Hd|].
  split; [done|]. rewrite Hc', Hc. done.
Qed.

Definition demo_headers : HttpHeaders := [(str "Content-Length", str "5"); (str "Host", str "a")].

Lemma demo_headers_valid : mwf demo_headers /\ Forall valid_header demo_headers.
Proof.
  split; [repeat constructor|]. repeat constructor; cbn; try discriminate; try reflexivity;
    try (intros a [= <-]; reflexivity);
    try (apply (bool_decide_unpack _); vm_compute; reflexivity); by vm_compute.
Qed.

Lemma headers_roundtrip_witness :
  exists b', parse_headers init (buffer_of (concat (map header_line demo_headers) ++ CRLF ++ str "hello")) []
      = (init, b', demo_headers, PROTOCOL_OK) /\
    Buffer.wf b' /\ Buffer.content b' = str "hello".
Proof.
  destruct (buffer_of_spec (concat (map header_line demo_headers) ++ CRLF ++ str "hello"))
    as [Hw Hc]; [by vm_compute|].
  apply (headers_roundtrip init _ demo_headers [] (str "hello"));
    [reflexivity|apply demo_headers_valid|apply demo_headers_valid|by apply Nat.leb_le|exact Hw|exact Hc].
Defined.

(** When the buffer runs out in the middle of a header block,
    [parse_headers] reports [-EAGAIN] having consumed the complete lines it saw;
    the next call clears the map before reading on, so those headers are lost:
    a request whose headers arrive in two pieces is parsed differently from the
    same request in one piece. *)
Theorem headers_before_eagain_are_lost p b h old :
  bound p = true -> Buffer.wf b -> valid_header h -> Buffer.content b = header_line h ->
  exists b1, parse_headers p b old = (p, b1, mset h.1 h.2 [], PROTOCOL_ERROR_EAGAIN) /\
    Buffer.content b1 = [] /\
    forall b2, Buffer.wf b2 -> Buffer.content b2 = Buffer.content b1 ++ CRLF ->
      exists b3, parse_headers p b2 (mset h.1 h.2 []) = (p, b3, [], PROTOCOL_OK).
Proof.
  intros Hp Hw Hh Hc. unfold parse_headers. rewrite Hp. cbn [negb].
  rewrite <- (app_nil_r (header_line h)) in Hc.
  destruct (parse_headers_one 99 p b [] h [] Hp Hw Hh Hc) as (b1 & E & Hw1 & Hc1).
  change MAX_HEADERS with (S 99). rewrite E. exists b1. split; [|split; [done|]].
  - cbn [parse_headers_loop]. rewrite read_line_eagain; [done..|]. rewrite Hc1. by apply not_elem_of_nil.
  - intros b2 Hw2 Hc2. rewrite Hc1 in Hc2. cbn [app] in Hc2. rewrite <- (app_nil_r CRLF) in Hc2.
    destruct (parse_headers_end (S 99) p b2 [] [] Hp Hw2 Hc2) as (b3 & E3 & _). exists b3. exact E3.
Qed.

Lemma headers_before_eagain_are_lost_witness :
  let h := (str "Content-Length", str "5") in
  exists b1, parse_headers init (buffer_of (header_line h)) [] =
      (init, b1, mset h.1 h.2 [], PROTOCOL_ERROR_EAGAIN) /\ Buffer.content b1 = [] /\
    forall b2, Buffer.wf b2 -> Buffer.content b2 = Buffer.content b1 ++ CRLF ->
      exists b3, parse_headers init b2 (mset h.1 h.2 []) = (init, b3, [], PROTOCOL_OK).
Proof.
  destruct (buffer_of_spec (header_line (str "Content-Length", str "5"))) as [Hw Hc]; [by vm_compute|].
  apply (headers_before_eagain_are_lost init _ (str "Content-Length", str "5"));
    [reflexivity|exact Hw| |exact Hc].
  destruct demo_headers_valid as [_ Hv]. by inversion Hv.
Defined.

Lemma parse_request_line_codes p line :
  let '(p', ret, _) := parse_request_line p line in
  (ret = PROTOCOL_OK /\ p' = p) \/
  (ret = PROTOCOL_ERROR_INVALID \/ ret = PROTOCOL_ERROR_VERSION) /\ get_error_code p' = ret.
Proof.
  unfold parse_request_line. repeat first [case_match | progress simplify_eq]; cbn; auto.
Qed.

(** A request line is accepted, as method [m] and target [q], exactly
    when it is [m], spaces, [q], spaces and the text [HTTP/1.1], both being
    non-empty and free of spaces; anything else is refused with -1 or -5, and
    the parser remembers the code it returned. *)
Theorem request_line_grammar p line :
  let '(p', ret, (m, q, v)) := parse_request_line p line in
  (forall m0 q0, (ret = PROTOCOL_OK /\ m = m0 /\ q = q0) <->
     exists s1 s2, line = m0 ++ s1 ++ q0 ++ s2 ++ str "HTTP/1.1" /\
       no_space m0 /\ no_space q0 /\ all_spaces s1 /\ all_spaces s2) /\
  (ret = PROTOCOL_OK /\ p' = p \/
   (ret = PROTOCOL_ERROR_INVALID \/ ret = PROTOCOL_ERROR_VERSION) /\ get_error_code p' = ret).
Proof.
  pose proof (parse_request_line_codes p line) as Hcodes.
  destruct (parse_request_line p line) as [[p' ret] [[m q] v]] eqn:E.
  split; [|done]. intros m0 q0. split.
  - intros (-> & -> & ->). assert (p' = p) as -> by (destruct Hcodes as [[_ ?]|[[?|?] _]]; done).
    apply parse_request_line_ok in E as (s1 & s2 & -> & -> & ?). by exists s1, s2.
  - intros (s1 & s2 & Hl & Hm & Hq & Hs1 & Hs2).
    assert (parse_request_line p line = (p, PROTOCOL_OK, (m0, q0, str "HTTP/1.1"))) as E'
      by (apply parse_request_line_ok; by exists s1, s2).
    rewrite E' in E. by simplify_eq.
Qed.

(** * Responses *)

(** The text of a response: what RFC 7230 calls the message. *)
Definition has_content_length (hs : HttpHeaders) : bool :=
  existsb (fun h => strcasecmp_eq h.1 (str "Content-Length")) hs.
Definition content_length_line (resp : HttpResponse) : bytes :=
  if negb (has_content_length (resp_headers resp)) && negb (bool_decide (resp_body resp = []))
  then str "Content-Length: " ++ to_string (blen (resp_body resp)) ++ CRLF else [].
Definition render (resp : HttpResponse) : bytes :=
  status_line resp ++ concat (map header_line (resp_headers resp)) ++ content_length_line resp ++
  CRLF ++ resp_body resp.

Lemma emit_some n out piece : blen out + blen piece <= n -> emit n out piece = Some (out ++ piece).
Proof. intros Hl. unfold emit. by ifz; [lia|]. Qed.
Lemma emit_none n out piece : n < blen out + blen piece -> emit n out piece = None.
Proof. intros Hl. unfold emit. by ifz; [|lia]. Qed.

Lemma emit_headers_spec n out c hs :
  emit_headers n out c hs =
    if (n <? blen (out ++ concat (map header_line hs))) && (0 <? blen hs) then None
    else Some (out ++ concat (map header_line hs), c || has_content_length hs).
Proof.
  revert out c. induction hs as [|h hs IH]; intros out c; cbn [emit_headers].
  - cbn [blen map concat length]. rewrite andb_false_r. by rewrite app_nil_r, orb_false_r.
  - replace (0 <? blen (h :: hs)) with true by (symmetry; apply Z.ltb_lt; rewrite blen_cons; pose proof (blen_nonneg hs); lia).
    rewrite andb_true_r. cbn [map concat]. rewrite app_assoc.
    set (rest := concat (map header_line hs)). pose proof (blen_nonneg rest).
    destruct (Z.le_gt_cases (blen out + blen (header_line h)) n).
    + rewrite emit_some by lia. cbn [mbind option_bind]. rewrite IH. fold rest.
      cbn [has_content_length existsb]. fold (has_content_length hs).
      rewrite orb_assoc. destruct hs as [|h' hs].
      * subst rest. cbn [map concat]. rewrite andb_false_r, app_nil_r, blen_app. by ifz; [lia|].
      * replace (0 <? blen (h' :: hs)) with true by (symmetry; apply Z.ltb_lt; rewrite blen_cons; pose proof (blen_nonneg hs); lia).
        by rewrite andb_true_r.
    + rewrite emit_none by lia. cbn. rewrite !blen_app. by ifz; [|lia].
Qed.

Lemma build_response_eq p resp n :
  build_response p resp n =
    if blen (render resp) <=? n then (p, inr (render resp))
    else (set_error p PROTOCOL_ERROR_BUFFER (str "Buffer too small"), inl PROTOCOL_ERROR_BUFFER).
Proof.
  unfold build_response, render.
  set (sl := status_line resp). set (hl := concat (map header_line (resp_headers resp))).
  pose proof (blen_nonneg sl). pose proof (blen_nonneg hl). pose proof (blen_nonneg (resp_body resp)).
  pose proof (blen_nonneg (content_length_line resp)). assert (HC : blen CRLF = 2) by done.
  destruct (Z.le_gt_cases (blen sl) n); cycle 1.
  { rewrite (emit_none n [] sl) by (rewrite blen_nil; lia). cbn [mbind option_bind]. rewrite !blen_app. by ifz; [lia|]. }
  rewrite (emit_some n [] sl) by (rewrite blen_nil; lia). cbn [mbind option_bind app].
  rewrite emit_headers_spec. fold hl. cbn [orb].
  destruct (Z.le_gt_cases (blen sl + blen hl) n); cycle 1.
  { replace (n <? blen (sl ++ hl)) with true by (symmetry; apply Z.ltb_lt; rewrite blen_app; lia).
    destruct (resp_headers resp) as [|h0 hs0] eqn:Eh; [assert (blen hl = 0) by (unfold hl; by rewrite ?Eh); lia|].
    replace (0 <? blen (h0 :: hs0)) with true
      by (symmetry; apply Z.ltb_lt; rewrite blen_cons; pose proof (blen_nonneg hs0); lia).
    cbn [andb negb mbind option_bind]. rewrite !blen_app. by ifz; [lia|]. }
  replace (n <? blen (sl ++ hl)) with false by (symmetry; apply Z.ltb_ge; rewrite blen_app; lia).
  cbn [andb mbind option_bind].
  assert (Hcl : (if negb (has_content_length (resp_headers resp)) && negb (bool_decide (resp_body resp = []))
     then emit n (sl ++ hl) (str "Content-Length: " ++ to_string (blen (resp_body resp)) ++ CRLF)
     else Some (sl ++ hl)) =
    if blen sl + blen hl + blen (content_length_line resp) <=? n
    then Some (sl ++ hl ++ content_length_line resp) else None).
  { unfold content_length_line in *. destruct (_ && _)%bool.
    - ifz.
      + rewrite emit_some by (rewrite !blen_app in *; lia). by rewrite <- app_assoc.
      + apply emit_none. rewrite !blen_app in *. lia.
    - rewrite blen_nil in *. ifz; [by rewrite app_nil_r|lia]. }
  rewrite Hcl. clear Hcl. set (cl := content_length_line resp) in *.
  destruct (blen sl + blen hl + blen cl <=? n) eqn:E; zb; cbn [mbind option_bind]; cycle 1.
  { rewrite !blen_app. by ifz; [lia|]. }
  destruct (Z.le_gt_cases (blen sl + blen hl + blen cl + 2) n); cycle 1.
  { rewrite emit_none by (rewrite !blen_app; lia). cbn [mbind option_bind]. rewrite !blen_app. by ifz; [lia|]. }
  rewrite emit_some by (rewrite !blen_app; lia). cbn [mbind option_bind].
  case_bool_decide as Hb.
  - rewrite Hb, app_nil_r. rewrite !blen_app. ifz; [|lia]. by rewrite <- !app_assoc.
  - destruct (Z.le_gt_cases (blen sl + blen hl + blen cl + 2 + blen (resp_body resp)) n).
    + rewrite emit_some by (rewrite !blen_app; lia). rewrite !blen_app. ifz; [|lia].
      by rewrite <- !app_assoc.
    + rewrite emit_none by (rewrite !blen_app; lia). rewrite !blen_app. by ifz; [lia|].
Qed.

(** [build_response] produces the whole message, with a
    [Content-Length] added exactly when the caller gave none and the body is not
    empty, whenever it fits in [max_len] bytes; otherwise it returns -4 and
    writes nothing past the buffer. *)
Theorem build_response_spec p resp n :
  build_response p resp n =
    if blen (render resp) <=? n then (p, inr (render resp))
    else (set_error p PROTOCOL_ERROR_BUFFER (str "Buffer too small"), inl PROTOCOL_ERROR_BUFFER).
Proof. apply build_response_eq. Qed.

End HttpParser.
