(* ===== verification/Tls.v ===== *)
(** The TLS layer (protocol/include/protocol/tls_handler.hpp,
    protocol/source/tls_handler.cpp).

    [Alpn] is the protocol selection, [Stub] the build without OpenSSL and
    [Tls] the build with it. OpenSSL and the file system are not part of the
    repository: [Tls] takes them as the classes [OpenSSL] and [SslConfig]. The
    protocol handlers see either build through the class [TlsLayer].

    [read_buffer_] and [write_buffer_] point to the connection's buffers; the
    state holds the buffers they point to. [conn_] is only stored. The context
    that a failed [init] leaves half configured is not part of the result of
    [TlsInit.init]: its callers give the handler up. The build is one whose
    OpenSSL defines [EVP_PKEY_SM2] and the [SSL_OP_NO_TLSv1_*] options. *)

From S2P Require Import Prelude ByteBuffer Hpack Http.

Inductive CertType := RSA | ECDSA | SM2.
#[export] Instance CertType_eq_dec : EqDecision CertType.
Proof. solve_decision. Defined.

Record CertConfig := mkCertConfig {
  cert_path : bytes;
  key_path : bytes;
  ca_path : bytes;
  sm2_cert_path : bytes;
  sm2_key_path : bytes;
  sm2_sign_cert_path : bytes;
  sm2_sign_key_path : bytes;
  use_gmssl : bool;
}.
Definition default_cert_config : CertConfig := mkCertConfig [] [] [] [] [] [] [] false.

Record TlsConfig := mkTlsConfig {
  cipher_suites : bytes;
  alpn_protocols : bytes;
  enable_tls_1_3 : bool;
  enable_tls_1_2 : bool;
}.
Definition ALPN_HTTP11 : bytes := str "http/1.1".
Definition ALPN_HTTP2_HTTP11 : bytes := str "h2,http/1.1".
Definition default_tls_config : TlsConfig := mkTlsConfig [] ALPN_HTTP11 true true.

(** * What the protocol handlers ask of the TLS layer

    [tls_read t n]: the code returned, and at most [n] bytes of plaintext when
    it is [PROTOCOL_OK]. [tls_write t d]: the code and how much was written.
    [None] is undefined behaviour. *)
Class TlsLayer (T : Type) := {
  tls_read : T -> Z -> option (T * Z * bytes);
  tls_write : T -> bytes -> option (T * Z * Z);
  tls_close : T -> T;
  tls_read_len t n t' ret d : tls_read t n = Some (t', ret, d) -> 0 <= n -> blen d <= n;
}.

(** The layer has no undefined behaviour. *)
Definition layer_total (T : Type) `{!TlsLayer T} : Prop :=
  (forall (x : T) n, is_Some (tls_read x n)) /\ (forall (x : T) d, is_Some (tls_write x d)).

(** The next [k] writes are defined, whatever is written. *)
Fixpoint writable {T} `{!TlsLayer T} (k : nat) (x : T) : Prop :=
  match k with
  | O => True
  | S n => forall d, exists x' ret w, tls_write x d = Some (x', ret, w) /\ writable n x'
  end.

(** One read of [n] bytes is defined, and so are the [k] writes that follow. *)
Definition serves {T} `{!TlsLayer T} (k : nat) (x : T) (n : Z) : Prop :=
  exists x' ret d, tls_read x n = Some (x', ret, d) /\ writable k x'.

Lemma total_writable {T} `{!TlsLayer T} k (x : T) : layer_total T -> writable k x.
Proof.
  intros [_ Hw]. revert x. induction k as [|k IH]; [done|]. intros x d.
  destruct (Hw x d) as [[[x' ret] w] E]. exists x', ret, w. by split.
Qed.

Lemma total_serves {T} `{!TlsLayer T} k (x : T) n : layer_total T -> serves k x n.
Proof.
  intros Ht. destruct (proj1 Ht x n) as [[[x' ret] d] E]. exists x', ret, d.
  split; [done|by apply total_writable].
Qed.

(** Undefined behaviour of the layer itself: at the next write or at one that
    some further writes lead to; and at a read of [n] bytes or a write after it. *)
Definition write_fails {T} `{!TlsLayer T} (x : T) : Prop := exists d, tls_write x d = None.
Inductive write_undefined {T} `{!TlsLayer T} : T -> Prop :=
| wu_now x : write_fails x -> write_undefined x
| wu_later x d x' ret n : tls_write x d = Some (x', ret, n) -> write_undefined x' -> write_undefined x.
Definition tls_undefined {T} `{!TlsLayer T} (x : T) (n : Z) : Prop :=
  tls_read x n = None \/ exists x' ret d, tls_read x n = Some (x', ret, d) /\ write_undefined x'.

Lemma serves_no_failure {T} `{!TlsLayer T} (x : T) n :
  serves 1 x n -> exists x' ret d, tls_read x n = Some (x', ret, d) /\ ~ write_fails x'.
Proof.
  intros (x' & ret & d & E & Hw). exists x', ret, d. split; [done|]. intros [e He].
  destruct (Hw e) as (? & ? & ? & He' & _). congruence.
Qed.

Lemma total_no_undefined {T} `{!TlsLayer T} : layer_total T ->
  (forall x : T, ~ write_undefined x) /\ (forall (x : T) n, ~ tls_undefined x n).
Proof.
  intros [Hr Hw]. assert (H : forall x : T, ~ write_undefined x).
  { intros x Hx. induction Hx as [x [d Hd]|]; [|done]. destruct (Hw x d) as [? ?]. congruence. }
  split; [done|]. intros x n [E|(x' & ret & d & _ & Hu)]; [|by apply (H x')].
  destruct (Hr x n) as [? ?]. congruence.
Qed.

(** A TLS layer that delivers the records of [incoming] one by one and records
    what is sent. *)
Record PlainTls := mkPlain { incoming : list bytes; sent : list bytes }.

Definition plain_read (p : PlainTls) (n : Z) : PlainTls * Z * bytes :=
  match incoming p with
  | [] => (p, PROTOCOL_ERROR_EAGAIN, [])
  | d :: r => (mkPlain (if blen d <=? n then r else zdrop n d :: r) (sent p), PROTOCOL_OK, ztake n d)
  end.

#[export] Instance plain_layer : TlsLayer PlainTls.
Proof.
  refine {| tls_read p n := Some (plain_read p n);
            tls_write p d := Some (mkPlain (incoming p) (sent p ++ [d]), PROTOCOL_OK, blen d);
            tls_close p := p |}.
  intros p n p' ret d. unfold plain_read. destruct (incoming p); intros [= _ _ <-] Hn; [done|].
  rewrite blen_ztake. lia.
Defined.

Lemma plain_total : layer_total PlainTls.
Proof. split; intros; eexists; reflexivity. Qed.

(** * ALPN *)

Module Alpn.

(** [std::string::find] of a comma, then [substr]: the pieces between commas. A
    trailing comma does not start another piece. *)
Fixpoint pieces (fuel : nat) (s : bytes) : list bytes :=
  match fuel with
  | O => []
  | S n =>
      match s with
      | [] => []
      | _ =>
          let '(p, r) := HttpParser.span (fun c => negb (b2z c =? 44)) s in
          p :: pieces n (tail r)
      end
  end.

(** The server's list, trimmed, without the empty entries. *)
Definition server_protocols (alpn : bytes) : list bytes :=
  filter (fun p => p <> []) (map HttpParser.trim (pieces (length alpn) alpn)).

(** The client's list: length-prefixed names; a truncated one ends the scan. *)
Fixpoint client_offers (fuel : nat) (proto : bytes) (offer : bytes) : bool :=
  match fuel with
  | O => false
  | S n =>
      match offer with
      | [] => false
      | l :: r =>
          let len := b2z l in
          if blen r <? len then false
          else if (len =? blen proto) && bool_decide (ztake len r = proto) then true
          else client_offers n proto (zdrop len r)
      end
  end.

(** [AlpnSelectCallback]: [Some p] for [SSL_TLSEXT_ERR_OK] with [p] selected,
    [None] for [SSL_TLSEXT_ERR_NOACK]. *)
Definition select (alpn offer : bytes) : option bytes :=
  List.find (fun p => client_offers (S (length offer)) p offer) (server_protocols alpn).

(** * Reference: the first protocol of the server's list that the client named *)

(** The wire form of a client's list (RFC 7301, section 3.1). *)
Definition encode_offer (ps : list bytes) : bytes := concat (map (fun p => z2b (blen p) :: p) ps).
(** Names of 1 to 255 bytes. *)
Definition valid_name (p : bytes) : Prop := 0 < blen p < 256.

Lemma client_offers_spec fuel proto ps :
  Forall valid_name ps -> (length ps < fuel)%nat ->
  client_offers fuel proto (encode_offer ps) = bool_decide (proto ∈ ps).
Proof.
  intros Hv. revert fuel. induction Hv as [|p ps Hp Hv IH]; intros [|n] Hf; cbn in Hf; try lia.
  - cbn. symmetry. apply bool_decide_eq_false_2, not_elem_of_nil.
  - unfold encode_offer. cbn [client_offers map concat app]. fold (encode_offer ps).
    unfold valid_name in Hp. rewrite b2z_z2b_small by lia.
    pose proof (blen_nonneg (encode_offer ps)).
    rewrite blen_app. ifz; [lia|]. rewrite ztake_app_all, zdrop_app_all, IH by lia. cbn [negb].
    destruct (decide (p = proto)) as [->|Hne].
    + rewrite Z.eqb_refl, bool_decide_eq_true_2 by done. cbn. symmetry.
      apply bool_decide_eq_true_2. by left.
    + rewrite (bool_decide_eq_false_2 (p = proto)) by done. rewrite andb_false_r.
      apply bool_decide_ext. rewrite elem_of_cons. naive_solver.
Qed.

Lemma length_encode_offer ps : (length ps <= length (encode_offer ps))%nat.
Proof.
  induction ps as [|p ps IH]; [done|]. unfold encode_offer in *. cbn. rewrite length_app. lia.
Qed.

(** C37. Against a well-formed client list the callback selects the first
    protocol of the configured list the client offers, and acknowledges nothing
    when they have none in common. *)
Theorem alpn_selects_server_preference alpn ps :
  Forall valid_name ps ->
  match select alpn (encode_offer ps) with
  | Some p => exists l1 l2, server_protocols alpn = l1 ++ p :: l2 /\ p ∈ ps /\
                Forall (fun q => q ∉ ps) l1
  | None => Forall (fun q => q ∉ ps) (server_protocols alpn)
  end.
Proof.
  intros Hv. unfold select.
  assert (Hs : forall q, client_offers (S (length (encode_offer ps))) q (encode_offer ps) =
    bool_decide (q ∈ ps)).
  { intros q. apply client_offers_spec; [done|]. pose proof (length_encode_offer ps). lia. }
  generalize dependent (client_offers (S (length (encode_offer ps)))). intros off Hs.
  induction (server_protocols alpn) as [|q l IH]; cbn [List.find]; [constructor|].
  rewrite Hs. case_bool_decide as Hq.
  - exists [], l. repeat split; [done|constructor].
  - destruct (List.find _ l) as [p|].
    + destruct IH as (l1 & l2 & -> & Hp & Hf). exists (q :: l1), l2. repeat split; [done|].
      by constructor.
    + by constructor.
Qed.

Lemma alpn_selects_server_preference_witness :
  match select (str " h2, http/1.1,") (encode_offer [str "http/1.1"; str "h2"]) with
  | Some p => exists l1 l2, server_protocols (str " h2, http/1.1,") = l1 ++ p :: l2 /\
                p ∈ [str "http/1.1"; str "h2"] /\
                Forall (fun q => q ∉ [str "http/1.1"; str "h2"]) l1
  | None => Forall (fun q => q ∉ [str "http/1.1"; str "h2"]) (server_protocols (str " h2, http/1.1,"))
  end.
Proof.
  apply (alpn_selects_server_preference (str " h2, http/1.1,") [str "http/1.1"; str "h2"]).
  repeat constructor; by vm_compute.
Defined.

Example select_h2 :
  select (str " h2, http/1.1,") (encode_offer [str "http/1.1"; str "h2"]) = Some (str "h2").
Proof. reflexivity. Qed.

End Alpn.

(** * The handler's own fields, common to both builds *)

Record TlsFields := mkFields {
  initialized_ : bool;
  handshake_done_ : bool;
  certs_ : CertConfig;          (* the seven paths and [use_gmssl_] *)
  cert_type_ : CertType;
  error_code_ : Z;
  error_msg_ : bytes;
  alpn_protocols_ : bytes;
}.

Definition fields_create : TlsFields :=
  mkFields false false default_cert_config RSA 0 [] ALPN_HTTP2_HTTP11.

Definition set_error (code : Z) (msg : bytes) (f : TlsFields) : TlsFields :=
  mkFields (initialized_ f) (handshake_done_ f) (certs_ f) (cert_type_ f) code msg
    (alpn_protocols_ f).
Definition set_cert_type (c : CertType) (f : TlsFields) : TlsFields :=
  mkFields (initialized_ f) (handshake_done_ f) (certs_ f) c (error_code_ f) (error_msg_ f)
    (alpn_protocols_ f).
Definition set_flags (init done : bool) (f : TlsFields) : TlsFields :=
  mkFields init done (certs_ f) (cert_type_ f) (error_code_ f) (error_msg_ f) (alpn_protocols_ f).

(** [init] up to the OpenSSL calls. *)
Definition init_fields (cert : CertConfig) (tls : TlsConfig) (f : TlsFields) : TlsFields :=
  mkFields (initialized_ f) (handshake_done_ f) cert (cert_type_ f) (error_code_ f) (error_msg_ f)
    (if bool_decide (alpn_protocols tls = []) then alpn_protocols_ f else alpn_protocols tls).

Definition close_fields (f : TlsFields) : TlsFields :=
  mkFields false false (certs_ f) (cert_type_ f) 0 [] (alpn_protocols_ f).
Definition reset_fields (f : TlsFields) : TlsFields :=
  mkFields (initialized_ f) false (certs_ f) (cert_type_ f) 0 [] (alpn_protocols_ f).

Definition is_sm2_cert (f : TlsFields) : bool := bool_decide (cert_type_ f = SM2).
Definition get_alpn_protocols (f : TlsFields) : bytes := alpn_protocols_ f.

Definition not_initialized (f : TlsFields) : TlsFields :=
  set_error PROTOCOL_ERROR_INVALID (str "TlsHandler not initialized") f.

(** * The build without OpenSSL *)

Module Stub.

Definition init (cert : CertConfig) (tls : TlsConfig) (f : TlsFields) : TlsFields * Z :=
  (set_flags true (handshake_done_ f) (init_fields cert tls f), PROTOCOL_OK).

Definition read (f : TlsFields) (len : Z) : TlsFields * Z * bytes :=
  if negb (initialized_ f) then (not_initialized f, PROTOCOL_ERROR_INVALID, [])
  else (f, PROTOCOL_ERROR_EAGAIN, []).

Definition write (f : TlsFields) (data : bytes) : TlsFields * Z * Z :=
  if negb (initialized_ f) then (not_initialized f, PROTOCOL_ERROR_INVALID, 0)
  else (f, PROTOCOL_OK, blen data).

Definition continue_handshake (f : TlsFields) : TlsFields * Z :=
  if negb (initialized_ f) then (not_initialized f, PROTOCOL_ERROR_INVALID)
  else (set_flags (initialized_ f) true f, PROTOCOL_OK).

Definition get_selected_alpn : bytes := str "http/1.1".
Definition close : TlsFields -> TlsFields := close_fields.

#[export] Instance stub_layer : TlsLayer TlsFields.
Proof.
  refine {| tls_read f n := Some (read f n); tls_write f d := Some (write f d); tls_close := close |}.
  intros f n f' ret d. unfold read. ifz; by intros [= _ _ <-].
Defined.

Lemma stub_total : layer_total TlsFields.
Proof. split; intros; eexists; reflexivity. Qed.

End Stub.

(** * The build with OpenSSL *)

(** The outcome of an [SSL_*] call, after [SSL_get_error]. *)
Inductive ssl_result (A : Type) :=
| SslDone (a : A)
| SslWant      (* SSL_ERROR_WANT_READ or SSL_ERROR_WANT_WRITE *)
| SslFailed.
Arguments SslDone {A} a.
Arguments SslWant {A}.
Arguments SslFailed {A}.

(** OpenSSL on one connection: the [SSL] object with the pair of BIOs that
    [setup_bio] makes. A negative or zero count of a BIO call is a failure;
    [should_retry] tells which. *)
Class OpenSSL (S : Type) := {
  BIO_write_read_bio : S -> bytes -> S * Z;         (* BIO_write(ssl_read_bio_, ...) *)
  BIO_should_retry_read_bio : S -> bool;
  BIO_pending_write_bio : S -> Z;                   (* BIO_ctrl_pending(ssl_write_bio_) *)
  BIO_read_write_bio : S -> Z -> S * option bytes;  (* BIO_read(ssl_write_bio_, buf, n) *)
  BIO_should_retry_write_bio : S -> bool;
  SSL_read : S -> Z -> S * ssl_result bytes;
  SSL_write : S -> bytes -> Z -> S * ssl_result Z;
  SSL_do_handshake : S -> S * ssl_result unit;
  SSL_shutdown : S -> S * option (ssl_result unit);  (* None: returned 0 *)
  SSL_alpn_selected : S -> bytes;
  (* Documented: the counts returned never exceed what was asked for, and reading
     takes what is pending. *)
  BIO_write_le s d s' n : BIO_write_read_bio s d = (s', n) -> n <= blen d;
  BIO_read_le s n s' d : BIO_read_write_bio s n = (s', Some d) -> 0 < blen d <= n;
  BIO_pending_read s n s' d : BIO_read_write_bio s n = (s', Some d) ->
    BIO_pending_write_bio s' = BIO_pending_write_bio s - blen d;
  BIO_pending_nonneg s : 0 <= BIO_pending_write_bio s;
  SSL_read_le s n s' d : SSL_read s n = (s', SslDone d) -> blen d <= n;
}.

Module Tls.
Section Tls.
Context {S : Type} `{!OpenSSL S}.

Definition TEMP_BUFFER_SIZE : Z := 4096.

Record t := mk {
  fields : TlsFields;
  ssl_ : option S;                  (* null or not; the BIO pointers go with it *)
  read_buffer_ : option Buffer.t;
  write_buffer_ : option Buffer.t;
}.

Definition on_fields (g : TlsFields -> TlsFields) (h : t) : t :=
  mk (g (fields h)) (ssl_ h) (read_buffer_ h) (write_buffer_ h).
Definition fail (code : Z) (msg : bytes) (h : t) : t := on_fields (set_error code msg) h.

(** The [while (total_written < readable)] loop on the bytes still to write;
    the last component is false after a real error. Each round writes at least
    one byte, so [length data] rounds are enough. *)
Fixpoint bio_write_all (fuel : nat) (s : S) (data : bytes) (total : Z) : S * Z * bool :=
  match fuel with
  | O => (s, total, true)
  | Datatypes.S n =>
      if blen data =? 0 then (s, total, true)
      else
        let '(s', written) := BIO_write_read_bio s data in
        if written <=? 0 then (s', total, BIO_should_retry_read_bio s')
        else bio_write_all n s' (zdrop written data) (total + written)
  end.

Definition pump_read_bio (h : t) : t * Z :=
  match read_buffer_ h, ssl_ h with
  | Some rb, Some s =>
      let readable := Buffer.readable_bytes rb in
      if readable =? 0 then (h, 0)
      else
        let data := Buffer.slice (Buffer.data_ rb) (Buffer.read_idx_ rb) readable in
        let '(s', total, ok) := bio_write_all (length data) s data 0 in
        if negb ok then
          (fail PROTOCOL_ERROR_TLS (str "BIO_write failed") (mk (fields h) (Some s') (Some rb) (write_buffer_ h)),
           PROTOCOL_ERROR_TLS)
        else
          (mk (fields h) (Some s') (Some (if 0 <? total then Buffer.skip rb total else rb))
              (write_buffer_ h), i32 total)
  | _, _ => (h, PROTOCOL_ERROR_INVALID)
  end.

(** The loop of [pump_write_bio], at most [fuel] rounds: the code returned. *)
Fixpoint bio_read_all (fuel : nat) (h : t) (s : S) (wb : Buffer.t) (total : Z) : option (t * Z) :=
  let st f s wb := mk f (Some s) (read_buffer_ h) (Some wb) in
  let pending := BIO_pending_write_bio s in
  match fuel with
  | O => Some (st (fields h) s wb, i32 total)
  | Datatypes.S n =>
      if pending =? 0 then Some (st (fields h) s wb, i32 total)
      else
        match BIO_read_write_bio s (if TEMP_BUFFER_SIZE <? pending then TEMP_BUFFER_SIZE else i32 pending) with
        | (s', None) =>
            if negb (BIO_should_retry_write_bio s') then
              Some (st (set_error PROTOCOL_ERROR_TLS (str "BIO_read failed") (fields h)) s' wb,
                    PROTOCOL_ERROR_TLS)
            else Some (st (fields h) s' wb, i32 total)
        | (s', Some d) =>
            '(wb', n1) ← Buffer.write wb (Some d);
            if negb (n1 =? blen d) then
              Some (st (set_error PROTOCOL_ERROR_BUFFER (str "Write buffer full") (fields h)) s' wb',
                    PROTOCOL_ERROR_BUFFER)
            else bio_read_all n h s' wb' (total + blen d)
        end
  end.

Definition pump_write_bio (h : t) : option (t * Z) :=
  match write_buffer_ h, ssl_ h with
  | Some wb, Some s => bio_read_all (Datatypes.S (Z.to_nat (BIO_pending_write_bio s))) h s wb 0
  | _, _ => Some (h, PROTOCOL_ERROR_INVALID)
  end.

(** The guards of [read], [write] and [continue_handshake]. *)
Definition ready (need_handshake : bool) (msg : bytes) (h : t) : t + S :=
  if negb (initialized_ (fields h)) then inl (on_fields not_initialized h)
  else
    match ssl_ h with
    | Some s =>
        if need_handshake && negb (handshake_done_ (fields h))
        then inl (fail PROTOCOL_ERROR_INVALID msg h) else inr s
    | None => inl (fail PROTOCOL_ERROR_INVALID msg h)
    end.
Definition not_ready : bytes := str "SSL not initialized or handshake not done".

Definition with_ssl (s : S) (h : t) : t := mk (fields h) (Some s) (read_buffer_ h) (write_buffer_ h).

(** What [read], [write] and [continue_handshake] share: pump in, call OpenSSL,
    pump out. The pump's own result is ignored after the call. *)
Definition ssl_call {A} (call : S -> S * ssl_result A) (msg : bytes) (h : t) (s0 : S)
  : option (t * (Z + A)) :=
  let '(h1, ret) := pump_read_bio h in
  if ret <? 0 then Some (h1, inl ret)
  else
    match call (default s0 (ssl_ h1)) with
    | (s2, SslDone a) =>
        '(h3, _) ← pump_write_bio (with_ssl s2 h1); Some (h3, inr a)
    | (s2, SslWant) =>
        '(h3, _) ← pump_write_bio (with_ssl s2 h1); Some (h3, inl PROTOCOL_ERROR_EAGAIN)
    | (s2, SslFailed) =>
        Some (fail PROTOCOL_ERROR_TLS msg (with_ssl s2 h1), inl PROTOCOL_ERROR_TLS)
    end.

Definition read (h : t) (len : Z) : option (t * Z * bytes) :=
  match ready true not_ready h with
  | inl h' => Some (h', PROTOCOL_ERROR_INVALID, [])
  | inr s =>
      r ← ssl_call (fun s => SSL_read s (i32 len)) (str "SSL_read failed") h s;
      match r with
      | (h', inr d) => Some (h', PROTOCOL_OK, d)
      | (h', inl ret) => Some (h', ret, [])
      end
  end.

Definition write (h : t) (data : bytes) : option (t * Z * Z) :=
  match ready true not_ready h with
  | inl h' => Some (h', PROTOCOL_ERROR_INVALID, 0)
  | inr s =>
      r ← ssl_call (fun s => SSL_write s data (i32 (blen data))) (str "SSL_write failed") h s;
      match r with
      | (h', inr n) => Some (h', PROTOCOL_OK, n)
      | (h', inl ret) => Some (h', ret, 0)
      end
  end.

(** On success [handshake_done_] is set before the last pump. *)
Definition continue_handshake (h : t) : option (t * Z) :=
  match ready false (str "SSL not initialized") h with
  | inl h' => Some (h', PROTOCOL_ERROR_INVALID)
  | inr s =>
      r ← ssl_call SSL_do_handshake (str "SSL_do_handshake failed") h s;
      match r with
      | (h', inr _) => Some (on_fields (fun f => set_flags (initialized_ f) true f) h', PROTOCOL_OK)
      | (h', inl ret) => Some (h', ret)
      end
  end.

Definition is_handshake_done (h : t) : bool := handshake_done_ (fields h).
Definition get_selected_alpn (h : t) : bytes :=
  match ssl_ h with Some s => SSL_alpn_selected s | None => [] end.

(** Up to [retries] rounds of [SSL_shutdown]. *)
Fixpoint shutdown_loop (retries : nat) (h : t) : option t :=
  match retries, ssl_ h with
  | Datatypes.S n, Some s =>
      match SSL_shutdown s with
      | (s', Some (SslDone _)) => Some (with_ssl s' h)
      | (s', Some SslFailed) => Some (with_ssl s' h)
      | (s', _) => '(h', _) ← pump_write_bio (with_ssl s' h); shutdown_loop n h'
      end
  | _, _ => Some h
  end.

Definition shutdown (h : t) : option (t * Z) :=
  match ssl_ h with
  | None => Some (h, PROTOCOL_OK)
  | Some _ => h' ← shutdown_loop 2 h; '(h'', _) ← pump_write_bio h'; Some (h'', PROTOCOL_OK)
  end.

Definition close (h : t) : t :=
  mk (close_fields (fields h)) None (read_buffer_ h) (write_buffer_ h).
Definition reset (h : t) : t := on_fields reset_fields h.
Definition set_read_buffer (b : option Buffer.t) (h : t) : t := mk (fields h) (ssl_ h) b (write_buffer_ h).
Definition set_write_buffer (b : option Buffer.t) (h : t) : t := mk (fields h) (ssl_ h) (read_buffer_ h) b.

Lemma i32_le z : 0 <= z -> i32 z <= z.
Proof. intros Hz. unfold i32. pose proof (Z.mod_le (z + 2 ^ 31) (2 ^ 32)). lia. Qed.

#[export] Instance openssl_layer : TlsLayer t.
Proof.
  refine {| tls_read := read; tls_write := write; tls_close := close |}.
  intros h n h' ret d E Hn. unfold read in E.
  destruct (ready true not_ready h) as [h1|s]; [by simplify_eq|].
  unfold ssl_call in E. destruct (pump_read_bio h) as [h1 r1].
  destruct (r1 <? 0); cbn in E; [by simplify_eq|].
  destruct (SSL_read _ (i32 n)) as [s2 [x| |]] eqn:Er; cbn in E.
  - destruct (pump_write_bio (with_ssl s2 h1)) as [[h3 r3]|]; cbn in E; [|done]. simplify_eq.
    apply SSL_read_le in Er. pose proof (i32_le n Hn). lia.
  - destruct (pump_write_bio (with_ssl s2 h1)) as [[h3 r3]|]; cbn in E; [|done]. by simplify_eq.
  - by simplify_eq.
Defined.

(** ** When OpenSSL's layer serves a call

    Each SSL call leaves at most [cap] bytes in the write BIO (the capacity of
    a BIO pair); the pumps move them to the connection's write buffer, whose
    overflow is the layer's only undefined behaviour. *)

(** The write buffer, if there is one, has room for [n] more bytes. *)
Definition room (n : Z) (h : t) : Prop :=
  match write_buffer_ h with
  | Some wb => Buffer.wf wb /\ blen (Buffer.content wb) + n <= Buffer.MAX_CAPACITY
  | None => True
  end.

Lemma room_le n m h : n <= m -> room m h -> room n h.
Proof. intros Hn. unfold room. destruct (write_buffer_ h); [|done]. intros [??]. split; [done|lia]. Qed.

Lemma bio_read_all_room fuel n h s wb total :
  Buffer.wf wb -> blen (Buffer.content wb) + BIO_pending_write_bio s + n <= Buffer.MAX_CAPACITY -> 0 <= n ->
  exists h' r, bio_read_all fuel h s wb total = Some (h', r) /\ room n h'.
Proof.
  revert s wb total. induction fuel as [|fuel IH]; intros s wb total Hw Hr Hn.
  { do 2 eexists. split; [reflexivity|]. split; [done|]. pose proof (BIO_pending_nonneg s). lia. }
  pose proof (BIO_pending_nonneg s). cbn [bio_read_all]. destruct (BIO_pending_write_bio s =? 0).
  { do 2 eexists. split; [reflexivity|]. split; [done|lia]. }
  destruct (BIO_read_write_bio s _) as [s' [d|]] eqn:Er.
  - pose proof (BIO_pending_read _ _ _ _ Er). pose proof (BIO_pending_nonneg s').
    destruct (Buffer.write_spec wb d Hw) as (wb' & -> & Hw' & Hc); [lia|]. cbn.
    rewrite Z.eqb_refl. cbn. apply IH; [done| |done]. rewrite Hc, blen_app. lia.
  - destruct (negb _); (do 2 eexists; split; [reflexivity|]; split; [done|lia]).
Qed.

Section Room.
Context (cap : Z) (Hcap0 : 0 <= cap) (Hcap : forall s, BIO_pending_write_bio s <= cap).

Lemma pump_write_room n h : 0 <= n -> room (n + cap) h ->
  exists h' r, pump_write_bio h = Some (h', r) /\ room n h'.
Proof.
  intros Hn Hr. pose proof (room_le n (n + cap) h ltac:(lia) Hr) as Hr0. revert Hr. unfold pump_write_bio.
  destruct (write_buffer_ h) as [wb|] eqn:Ew; [|by do 2 eexists].
  destruct (ssl_ h) as [s|]; [|by do 2 eexists]. unfold room at 1. rewrite Ew. intros [Hw Hr].
  apply bio_read_all_room; [done| |done]. specialize (Hcap s). lia.
Qed.

Lemma pump_read_write_buffer h : write_buffer_ (pump_read_bio h).1 = write_buffer_ h.
Proof.
  unfold pump_read_bio. destruct (read_buffer_ h) as [rb|]; [|done]. destruct (ssl_ h) as [s|]; [|done].
  ifz; [done|]. destruct (bio_write_all _ _ _ _) as [[s' total] ok]. by destruct ok.
Qed.

Lemma ssl_call_room {A} (call : S -> S * ssl_result A) msg n h s0 : 0 <= n -> room (n + cap) h ->
  exists h' r, ssl_call call msg h s0 = Some (h', r) /\ room n h'.
Proof.
  intros Hn Hr. unfold ssl_call. pose proof (pump_read_write_buffer h) as Hp.
  destruct (pump_read_bio h) as [h1 r1]. cbn in Hp.
  assert (Hr1 : forall m f s, room m h -> room m (mk f s (read_buffer_ h1) (write_buffer_ h1)))
    by (intros m f s; unfold room; cbn; by rewrite Hp).
  assert (Hr0 : room n h) by (eapply room_le; [|done]; lia).
  ifz; [do 2 eexists; split; [reflexivity|]; unfold room in *; by rewrite Hp|].
  destruct (call _) as [s2 [a| |]].
  - destruct (pump_write_room n (with_ssl s2 h1)) as (h3 & r3 & -> & H3); [done|by apply Hr1|].
    by do 2 eexists.
  - destruct (pump_write_room n (with_ssl s2 h1)) as (h3 & r3 & -> & H3); [done|by apply Hr1|].
    by do 2 eexists.
  - do 2 eexists. split; [reflexivity|]. by apply Hr1.
Qed.

Lemma ready_room b msg n h h' : ready b msg h = inl h' -> room n h -> room n h'.
Proof. unfold ready. intros E Hr. repeat first [case_match | progress simplify_eq]; done. Qed.

Lemma openssl_writable k h : room (Z.of_nat k * cap) h -> writable k h.
Proof.
  revert h. induction k as [|k IH]; [done|]. intros h Hr d. cbn [tls_write openssl_layer]. unfold write.
  destruct (ready true not_ready h) as [h'|s] eqn:E.
  - do 3 eexists. split; [reflexivity|]. apply IH. eapply ready_room; [done|]. eapply room_le; [|done]. nia.
  - destruct (ssl_call_room (fun s => SSL_write s d (i32 (blen d))) (str "SSL_write failed") (Z.of_nat k * cap) h s)
      as (h' & r & -> & Hr'); [nia|eapply room_le; [|done]; nia|].
    destruct r; (do 3 eexists; split; [reflexivity|]; by apply IH).
Qed.

(** Room for what one read and [k] writes can leave in the BIO is enough. *)
Lemma openssl_serves k h n : room ((Z.of_nat k + 1) * cap) h -> serves k h n.
Proof.
  intros Hr. unfold serves. cbn [tls_read openssl_layer]. unfold read.
  destruct (ready true not_ready h) as [h'|s] eqn:E.
  - do 3 eexists. split; [reflexivity|]. apply openssl_writable. eapply ready_room; [done|].
    eapply room_le; [|done]. nia.
  - destruct (ssl_call_room (fun s => SSL_read s (i32 n)) (str "SSL_read failed") (Z.of_nat k * cap) h s)
      as (h' & r & -> & Hr'); [nia|eapply room_le; [|done]; nia|].
    destruct r; (do 3 eexists; split; [reflexivity|]; by apply openssl_writable).
Qed.

End Room.

End Tls.
Arguments t : clear implicits.
End Tls.

(** * Certificates and cipher suites *)

(** What opening and reading a PEM certificate file gives. *)
Inductive probe_result :=
| CannotOpen | NotACertificate | NoPublicKey | KeyType (c : CertType).

(** The file system and the [SSL_CTX_*] calls of [init]: whether each succeeds. *)
Class SslConfig := {
  probe_certificate : bytes -> probe_result;
  SSL_CTX_new_ok : bool;
  SSL_new_ok : bool;
  BIO_new_bio_pair_ok : bool;
  use_certificate_chain_file : bytes -> bool;
  use_PrivateKey_file : bytes -> bool;
  check_private_key : bytes -> bytes -> bool;   (* chain, key *)
  set_cipher_list_ok : bytes -> bool;
  load_verify_locations_ok : bytes -> bool;
}.

(** What was configured on the [SSL_CTX]. *)
Record SslCtx := mkCtx {
  ctx_pair : option (bytes * bytes);    (* certificate chain file, private key file *)
  ctx_ciphers : option bytes;
  ctx_no_tls_1_2 : bool;
  ctx_no_tls_1_3 : bool;
  ctx_alpn : bool;
}.
Definition ctx_new : SslCtx := mkCtx None None false false false.

Module TlsInit.
Section TlsInit.
Context `{!SslConfig}.

Definition gm_ciphers : bytes :=
  str "SM2-WITH-SMS4-SM3:ECDHE-SM2-WITH-SMS4-SM3:SM2-WITH-SMS4-GCM-SM3:ECDHE-SM2-WITH-SMS4-GCM-SM3".
Definition single_gm_cipher : bytes := str "SM2-WITH-SMS4-SM3".
Definition default_ciphers : bytes :=
  str "ECDHE-ECDSA-AES128-GCM-SHA256:ECDHE-RSA-AES128-GCM-SHA256:ECDHE-ECDSA-AES256-GCM-SHA384:ECDHE-RSA-AES256-GCM-SHA384".

Definition is_empty (s : bytes) : bool := bool_decide (s = []).

(** [init_ssl_context]. *)
Definition init_ssl_context (f : TlsFields) : TlsFields * option SslCtx * Z :=
  if SSL_CTX_new_ok then (f, Some ctx_new, PROTOCOL_OK)
  else (set_error PROTOCOL_ERROR_TLS (str "SSL_CTX_new failed") f, None, PROTOCOL_ERROR_TLS).

(** The certificate type only: [load_certificates] never fails. *)
Definition load_certificates (f : TlsFields) : TlsFields :=
  let c := certs_ f in
  if use_gmssl c then
    let cert_to_check :=
      if negb (is_empty (sm2_sign_cert_path c)) then sm2_sign_cert_path c
      else if negb (is_empty (sm2_cert_path c)) then sm2_cert_path c
      else if negb (is_empty (cert_path c)) then cert_path c
      else [] in
    set_cert_type
      (if negb (is_empty cert_to_check) then
         match probe_certificate cert_to_check with
         | KeyType k => k
         | CannotOpen | NotACertificate | NoPublicKey => SM2
         end
       else SM2) f
  else if is_empty (cert_path c) || is_empty (key_path c) then set_cert_type RSA f
  else
    match probe_certificate (cert_path c) with
    | KeyType k => set_cert_type k f
    | CannotOpen | NotACertificate | NoPublicKey => f
    end.

(** Load a chain and its key and check that they match: the message of the
    first step that fails. *)
Definition load_pair (chain key : bytes) (m1 m2 m3 : bytes) (ctx : SslCtx) : bytes + SslCtx :=
  if negb (use_certificate_chain_file chain) then inl m1
  else if negb (use_PrivateKey_file key) then inl m2
  else if negb (check_private_key chain key) then inl m3
  else inr (mkCtx (Some (chain, key)) (ctx_ciphers ctx) (ctx_no_tls_1_2 ctx) (ctx_no_tls_1_3 ctx)
                  (ctx_alpn ctx)).

Definition finish (f : TlsFields) (r : bytes + SslCtx) : TlsFields * option SslCtx * Z :=
  match r with
  | inl m => (set_error PROTOCOL_ERROR_TLS m f, None, PROTOCOL_ERROR_TLS)
  | inr ctx => (f, Some ctx, PROTOCOL_OK)
  end.

Definition no_ctx (f : TlsFields) : TlsFields * option SslCtx * Z :=
  (set_error PROTOCOL_ERROR_INVALID (str "SSL_CTX not initialized") f, None, PROTOCOL_ERROR_INVALID).

Definition configure_certificates (ctx : option SslCtx) (f : TlsFields)
  : TlsFields * option SslCtx * Z :=
  match ctx with
  | None => no_ctx f
  | Some ctx =>
      let c := certs_ f in
      let normal :=
        load_pair (cert_path c) (key_path c) (str "Failed to load certificate chain")
          (str "Failed to load private key") (str "Private key does not match certificate") ctx in
      if use_gmssl c then
        let has_sign_cert := negb (is_empty (sm2_sign_cert_path c)) && negb (is_empty (sm2_sign_key_path c)) in
        let has_enc_cert := negb (is_empty (sm2_cert_path c)) && negb (is_empty (sm2_key_path c)) in
        if has_sign_cert then
          finish f (load_pair (sm2_sign_cert_path c) (sm2_sign_key_path c)
            (str "Failed to load SM2 sign certificate chain") (str "Failed to load SM2 sign private key")
            (str "SM2 sign private key does not match certificate") ctx)
        else if has_enc_cert then
          finish f (load_pair (sm2_cert_path c) (sm2_key_path c)
            (str "Failed to load SM2 enc certificate chain") (str "Failed to load SM2 enc private key")
            (str "SM2 enc private key does not match certificate") ctx)
        else if negb (is_empty (cert_path c)) && negb (is_empty (key_path c)) then finish f normal
        else (f, Some ctx, PROTOCOL_OK)
      else if is_empty (cert_path c) || is_empty (key_path c) then (f, Some ctx, PROTOCOL_OK)
      else finish f normal
  end.

(** Nothing calls it. *)
Definition load_ca_certificate (ctx : option SslCtx) (ca : bytes) (f : TlsFields) : TlsFields * Z :=
  let c := certs_ f in
  let f1 := mkFields (initialized_ f) (handshake_done_ f)
    (mkCertConfig (cert_path c) (key_path c) ca (sm2_cert_path c) (sm2_key_path c)
       (sm2_sign_cert_path c) (sm2_sign_key_path c) (use_gmssl c))
    (cert_type_ f) (error_code_ f) (error_msg_ f) (alpn_protocols_ f) in
  if is_empty ca then (f1, PROTOCOL_OK)
  else
    match ctx with
    | None => (set_error PROTOCOL_ERROR_INVALID (str "SSL_CTX not initialized") f1, PROTOCOL_ERROR_INVALID)
    | Some _ =>
        if load_verify_locations_ok ca then (f1, PROTOCOL_OK)
        else (set_error PROTOCOL_ERROR_TLS (str "Failed to load CA certificate") f1, PROTOCOL_ERROR_TLS)
    end.

Definition set_ciphers (l : bytes) (ctx : SslCtx) : SslCtx :=
  mkCtx (ctx_pair ctx) (Some l) (ctx_no_tls_1_2 ctx) (ctx_no_tls_1_3 ctx) (ctx_alpn ctx).
Definition disable (no12 no13 : bool) (ctx : SslCtx) : SslCtx :=
  mkCtx (ctx_pair ctx) (ctx_ciphers ctx) (ctx_no_tls_1_2 ctx || no12) (ctx_no_tls_1_3 ctx || no13)
        (ctx_alpn ctx).

Definition configure_cipher_suites (config : TlsConfig) (ctx : option SslCtx) (f : TlsFields)
  : TlsFields * option SslCtx * Z :=
  match ctx with
  | None => no_ctx f
  | Some ctx =>
      if use_gmssl (certs_ f) || is_sm2_cert f then
        let ctx1 :=
          if set_cipher_list_ok gm_ciphers then set_ciphers gm_ciphers ctx
          else if set_cipher_list_ok single_gm_cipher then set_ciphers single_gm_cipher ctx
          else ctx in
        (f, Some (disable false true ctx1), PROTOCOL_OK)
      else
        let choice :=
          if negb (is_empty (cipher_suites config))
          then (cipher_suites config, str "Failed to set cipher list")
          else (default_ciphers, str "Failed to set default cipher list") in
        if negb (set_cipher_list_ok choice.1) then
          (set_error PROTOCOL_ERROR_TLS choice.2 f, Some ctx, PROTOCOL_ERROR_TLS)
        else
          (f, Some (disable (negb (enable_tls_1_2 config)) (negb (enable_tls_1_3 config))
                      (set_ciphers choice.1 ctx)), PROTOCOL_OK)
  end.

Definition configure_alpn (ctx : option SslCtx) (f : TlsFields) : TlsFields * option SslCtx * Z :=
  match ctx with
  | None => no_ctx f
  | Some ctx => (f, Some (mkCtx (ctx_pair ctx) (ctx_ciphers ctx) (ctx_no_tls_1_2 ctx)
                            (ctx_no_tls_1_3 ctx) true), PROTOCOL_OK)
  end.

Definition setup_bio (f : TlsFields) : TlsFields * Z :=
  if BIO_new_bio_pair_ok then (f, PROTOCOL_OK)
  else (set_error PROTOCOL_ERROR_TLS (str "BIO_new_bio_pair failed") f, PROTOCOL_ERROR_TLS).

(** [init]: the steps in order, each failure returned at once. The last
    component is the configured context when everything succeeded. *)
Definition init (cert : CertConfig) (tls : TlsConfig) (f0 : TlsFields) : TlsFields * Z * option SslCtx :=
  let f := init_fields cert tls f0 in
  match init_ssl_context f with
  | (f, ctx, ret) =>
    if negb (ret =? PROTOCOL_OK) then (f, ret, None) else
    let f := load_certificates f in
    match configure_certificates ctx f with
    | (f, ctx, ret) =>
      if negb (ret =? PROTOCOL_OK) then (f, ret, None) else
      match configure_cipher_suites tls ctx f with
      | (f, ctx, ret) =>
        if negb (ret =? PROTOCOL_OK) then (f, ret, None) else
        match configure_alpn ctx f with
        | (f, ctx, ret) =>
          if negb (ret =? PROTOCOL_OK) then (f, ret, None)
          else if negb SSL_new_ok then
            (set_error PROTOCOL_ERROR_TLS (str "SSL_new failed") f, PROTOCOL_ERROR_TLS, None)
          else
            let '(f, ret) := setup_bio f in
            if negb (ret =? PROTOCOL_OK) then (f, ret, None)
            else (set_flags true (handshake_done_ f) f, PROTOCOL_OK, ctx)
        end
      end
    end
  end.

End TlsInit.
End TlsInit.

(** * Initialisation *)

Section Init.
Context `{!SslConfig}.
Import TlsInit.

(** The certificate and key [init] must install: in GM mode the SM2 signature
    pair, then the SM2 encryption pair, then the ordinary pair. *)
Definition complete_pair (cert key : bytes) : option (bytes * bytes) :=
  if is_empty cert || is_empty key then None else Some (cert, key).
Definition wanted_pair (c : CertConfig) : option (bytes * bytes) :=
  let normal := complete_pair (cert_path c) (key_path c) in
  if use_gmssl c then
    match complete_pair (sm2_sign_cert_path c) (sm2_sign_key_path c),
          complete_pair (sm2_cert_path c) (sm2_key_path c) with
    | Some p, _ => Some p
    | None, Some p => Some p
    | None, None => normal
    end
  else normal.

Lemma load_pair_inr chain key m1 m2 m3 ctx ctx' :
  load_pair chain key m1 m2 m3 ctx = inr ctx' ->
  ctx_pair ctx' = Some (chain, key) /\ check_private_key chain key = true /\
  ctx_no_tls_1_3 ctx' = ctx_no_tls_1_3 ctx.
Proof.
  unfold load_pair. destruct (use_certificate_chain_file chain), (use_PrivateKey_file key),
    (check_private_key chain key); cbn; try done. by intros [= <-].
Qed.

Lemma configure_certificates_spec ctx f f' octx ret :
  ctx_pair ctx = None -> configure_certificates (Some ctx) f = (f', octx, ret) ->
  (ret = PROTOCOL_OK /\ f' = f /\ exists ctx', octx = Some ctx' /\
     ctx_no_tls_1_3 ctx' = ctx_no_tls_1_3 ctx /\ ctx_pair ctx' = wanted_pair (certs_ f) /\
     match ctx_pair ctx' with Some (chain, key) => check_private_key chain key = true | None => True end) \/
  (ret = PROTOCOL_ERROR_TLS /\ error_code_ f' = ret /\ initialized_ f' = initialized_ f).
Proof.
  intros Hc. unfold configure_certificates, wanted_pair, complete_pair.
  assert (Hfin : forall chain key m1 m2 m3,
    finish f (load_pair chain key m1 m2 m3 ctx) = (f', octx, ret) ->
    (ret = PROTOCOL_OK /\ f' = f /\ exists ctx', octx = Some ctx' /\
      ctx_pair ctx' = Some (chain, key) /\ check_private_key chain key = true /\
      ctx_no_tls_1_3 ctx' = ctx_no_tls_1_3 ctx) \/
    (ret = PROTOCOL_ERROR_TLS /\ error_code_ f' = ret /\ initialized_ f' = initialized_ f)).
  { intros chain key m1 m2 m3. unfold finish. destruct (load_pair _ _ _ _ _ _) as [m|ctx'] eqn:E.
    - intros [= <- <- <-]. by right.
    - apply load_pair_inr in E. intros [= <- <- <-]. left. repeat split. by exists ctx'. }
  assert (Hnone : (f, Some ctx, PROTOCOL_OK) = (f', octx, ret) ->
    ret = PROTOCOL_OK /\ f' = f /\ exists ctx', octx = Some ctx' /\ ctx_pair ctx' = None /\
      ctx_no_tls_1_3 ctx' = ctx_no_tls_1_3 ctx).
  { intros [= <- <- <-]. repeat split. by exists ctx. }
  destruct (use_gmssl (certs_ f)), (is_empty (sm2_sign_cert_path (certs_ f))),
    (is_empty (sm2_sign_key_path (certs_ f))), (is_empty (sm2_cert_path (certs_ f))),
    (is_empty (sm2_key_path (certs_ f))), (is_empty (cert_path (certs_ f))),
    (is_empty (key_path (certs_ f))); cbn [negb andb orb]; intros Hx;
    first [ destruct (Hnone Hx) as (? & ? & ctx' & ? & E & ?); left; repeat split; try done;
            exists ctx'; rewrite E; done
          | destruct (Hfin _ _ _ _ _ Hx) as [(? & ? & ctx' & ? & E & ? & ?)|?]; [|by right];
            left; repeat split; try done; exists ctx'; rewrite E; done ].
Qed.

Lemma configure_cipher_suites_spec config ctx f f' octx ret :
  configure_cipher_suites config (Some ctx) f = (f', octx, ret) ->
  (ret = PROTOCOL_OK /\ f' = f /\ exists ctx', octx = Some ctx' /\ ctx_pair ctx' = ctx_pair ctx /\
     ctx_no_tls_1_3 ctx' = (ctx_no_tls_1_3 ctx ||
       (use_gmssl (certs_ f) || is_sm2_cert f || negb (enable_tls_1_3 config))) ) \/
  (ret = PROTOCOL_ERROR_TLS /\ error_code_ f' = ret /\ initialized_ f' = initialized_ f).
Proof.
  unfold configure_cipher_suites. destruct (use_gmssl (certs_ f) || is_sm2_cert f) eqn:Hg.
  - intros [= <- <- <-]. left. repeat split. eexists. split; [reflexivity|].
    rewrite orb_true_l. by repeat case_match.
  - destruct (negb (set_cipher_list_ok _)) eqn:E.
    + intros [= <- <- <-]. by right.
    + intros [= <- <- <-]. left. repeat split. eexists. split; [reflexivity|]. by cbn.
Qed.

End Init.

(** C38. [TlsHandler::init] on a new handler marks it initialised exactly
    when it returns 0; every failure is -10 and is recorded. On success the
    context has the ALPN callback and the wanted certificate with a matching
    key, and TLS 1.3 is off whenever GM mode or an SM2 certificate is used or
    the configuration turns it off. *)
Theorem tls_init_spec `{!SslConfig} cert tls f0 :
  initialized_ f0 = false ->
  let '(f, ret, octx) := TlsInit.init cert tls f0 in
  (initialized_ f = true <-> ret = PROTOCOL_OK) /\
  (ret <> PROTOCOL_OK -> ret = PROTOCOL_ERROR_TLS /\ error_code_ f = ret) /\
  (ret = PROTOCOL_OK -> exists ctx, octx = Some ctx /\ ctx_alpn ctx = true /\
     ctx_pair ctx = wanted_pair cert /\
     match ctx_pair ctx with Some (chain, key) => check_private_key chain key = true | None => True end /\
     ctx_no_tls_1_3 ctx = (use_gmssl cert || is_sm2_cert f || negb (enable_tls_1_3 tls))).
Proof.
  intros Hf0. unfold TlsInit.init. set (f := init_fields cert tls f0).
  assert (Hf : initialized_ f = false) by done. assert (Hcert : certs_ f = cert) by done.
  clearbody f. unfold TlsInit.init_ssl_context.
  destruct SSL_CTX_new_ok; cbn [Z.eqb negb]; [|cbn; rewrite Hf; repeat split; done].
  set (f1 := TlsInit.load_certificates f).
  assert (Hf1 : initialized_ f1 = false /\ certs_ f1 = cert).
  { unfold f1, TlsInit.load_certificates. by repeat case_match; cbn. }
  clearbody f1. destruct Hf1 as [Hf1 Hcert1].
  destruct (TlsInit.configure_certificates _ f1) as [[f2 octx2] r2] eqn:E2.
  destruct (configure_certificates_spec ctx_new f1 f2 octx2 r2 eq_refl E2)
    as [(-> & -> & ctx2 & -> & Hn2 & Hp2 & Hm2)|(-> & He2 & Hi2)];
    cbn [Z.eqb negb PROTOCOL_OK PROTOCOL_ERROR_TLS]; [|rewrite Hi2, Hf1; repeat split; done].
  destruct (TlsInit.configure_cipher_suites tls _ f1) as [[f3 octx3] r3] eqn:E3.
  destruct (configure_cipher_suites_spec tls ctx2 f1 f3 octx3 r3 E3)
    as [(-> & -> & ctx3 & -> & Hp3 & Hn3)|(-> & He3 & Hi3)];
    cbn [Z.eqb negb PROTOCOL_OK PROTOCOL_ERROR_TLS]; [|rewrite Hi3, Hf1; repeat split; done].
  cbn [TlsInit.configure_alpn Z.eqb negb PROTOCOL_OK].
  destruct SSL_new_ok; cbn [negb]; [|cbn; rewrite Hf1; repeat split; done].
  unfold TlsInit.setup_bio. destruct BIO_new_bio_pair_ok; cbn; [|rewrite Hf1; repeat split; done].
  split; [done|]. split; [done|]. intros _. eexists. split; [reflexivity|]. cbn.
  rewrite Hcert1 in *. rewrite Hp3. split; [done|]. split; [done|]. split; [done|].
  by rewrite Hn3, Hn2.
Qed.

Definition demo_ssl_config : SslConfig :=
  Build_SslConfig (fun _ => KeyType SM2) true true true (fun _ => true) (fun _ => true)
    (fun _ _ => true) (fun _ => true) (fun _ => true).

Lemma tls_init_spec_witness :
  let cert := mkCertConfig (str "a.pem") (str "a.key") [] [] [] [] [] false in
  let '(f, ret, octx) := @TlsInit.init demo_ssl_config cert default_tls_config fields_create in
  (initialized_ f = true <-> ret = PROTOCOL_OK) /\
  (ret <> PROTOCOL_OK -> ret = PROTOCOL_ERROR_TLS /\ error_code_ f = ret) /\
  (ret = PROTOCOL_OK -> exists ctx, octx = Some ctx /\ ctx_alpn ctx = true /\
     ctx_pair ctx = wanted_pair cert /\
     match ctx_pair ctx with
     | Some (chain, key) => @check_private_key demo_ssl_config chain key = true
     | None => True
     end /\
     ctx_no_tls_1_3 ctx = (use_gmssl cert || is_sm2_cert f || negb (enable_tls_1_3 default_tls_config))).
Proof.
  exact (@tls_init_spec demo_ssl_config (mkCertConfig (str "a.pem") (str "a.key") [] [] [] [] [] false)
    default_tls_config fields_create eq_refl).
Defined.

(** * The pumps *)

Section Pumps.
Context {S : Type} `{HO : !OpenSSL S}.
Import Tls.

(** The fuel of [pump_write_bio] is enough: more rounds change nothing. *)
Lemma bio_read_all_fuel n k (h : Tls.t S) s wb total :
  BIO_pending_write_bio s < Z.of_nat n ->
  bio_read_all (n + k) h s wb total = bio_read_all n h s wb total.
Proof.
  revert s wb total. induction n as [|n IH]; intros s wb total Hn.
  { pose proof (BIO_pending_nonneg s). lia. }
  cbn [bio_read_all Nat.add]. ifz; [done|].
  destruct (BIO_read_write_bio s _) as [s' [d|]] eqn:Er; [|done].
  destruct (Buffer.write wb (Some d)) as [[wb' n1]|]; [|done]. cbn [mbind option_bind].
  ifz; [done|]. apply IH. rewrite (BIO_pending_read _ _ _ _ Er).
  pose proof (BIO_read_le _ _ _ _ Er). lia.
Qed.

(** OpenSSL's documented BIO pair: what is written to one BIO of the pair is
    what is read from the other, in order ([crossed s]: written to
    [ssl_read_bio_], not yet read from [ssl_write_bio_]). [SSL_read] reads from
    its read BIO and writes to its write BIO, which is the other direction. *)
Class BioPair := {
  crossed : S -> bytes;
  pair_write s d s' n : BIO_write_read_bio s d = (s', n) -> crossed s' = crossed s ++ ztake n d;
  pair_read s n s' d : BIO_read_write_bio s n = (s', Some d) -> crossed s = d ++ crossed s';
  pair_blocked s n s' : BIO_read_write_bio s n = (s', None) -> crossed s' = crossed s;
  pair_pending s : BIO_pending_write_bio s = blen (crossed s);
  pair_ssl_read s n s' r : SSL_read s n = (s', r) -> crossed s' = crossed s;
}.
Context `{HP : !BioPair}.

Lemma bio_write_all_crossed fuel s data total s' total' ok :
  bio_write_all fuel s data total = (s', total', ok) ->
  exists k, 0 <= k <= blen data /\ total' = total + k /\ crossed s' = crossed s ++ ztake k data.
Proof.
  revert s data total. induction fuel as [|fuel IH]; intros s data total; cbn [bio_write_all].
  { intros [= <- <- <-]. exists 0. pose proof (blen_nonneg data).
    rewrite ztake_0, app_nil_r by lia. repeat split; lia. }
  pose proof (blen_nonneg data) as Hd. ifz.
  { intros [= <- <- <-]. exists 0. rewrite ztake_0, app_nil_r by lia. repeat split; lia. }
  destruct (BIO_write_read_bio s data) as [s1 w] eqn:Ew.
  pose proof (pair_write _ _ _ _ Ew) as Hc. pose proof (BIO_write_le _ _ _ _ Ew) as Hle. ifz.
  - intros [= <- <- <-]. exists 0. rewrite Hc, !ztake_0 by lia. repeat split; lia.
  - intros Hl. destruct (IH _ _ _ Hl) as (k & Hk & -> & ->). rewrite blen_zdrop in Hk.
    exists (w + k). split; [lia|]. split; [lia|]. rewrite Hc, <- app_assoc. f_equal.
    rewrite <- (ztake_zdrop w (ztake (w + k) data)), ztake_ztake, Z.min_l by lia.
    by rewrite ztake_zdrop_comm by lia.
Qed.

Lemma pump_read_crossed (h : Tls.t S) rb s h' ret :
  read_buffer_ h = Some rb -> ssl_ h = Some s -> Buffer.wf rb -> crossed s = [] ->
  pump_read_bio h = (h', ret) ->
  exists rb' s', read_buffer_ h' = Some rb' /\ ssl_ h' = Some s' /\ write_buffer_ h' = write_buffer_ h /\
    (ret = PROTOCOL_ERROR_TLS \/
     0 <= ret /\ Buffer.content rb = crossed s' ++ Buffer.content rb').
Proof.
  intros Hrb Hs Hw Hc. unfold pump_read_bio. rewrite Hrb, Hs. ifz.
  { intros [= <- <-]. exists rb, s. rewrite Hc. repeat split; [done..|]. by right. }
  rewrite Buffer.readable_wf by done. fold (Buffer.content rb).
  destruct (bio_write_all _ s (Buffer.content rb) 0) as [[s' total] ok] eqn:El.
  destruct (bio_write_all_crossed _ _ _ _ _ _ _ El) as (k & Hk & -> & Hcs). rewrite Hc in Hcs.
  destruct ok; cbn [negb]; intros [= <- <-]; cbn; [|exists rb, s'; repeat split; by left].
  eexists _, s'. repeat split. right. split.
  { pose proof (Buffer.blen_content rb Hw). destruct Hw as [? ?]. unfold Buffer.MAX_CAPACITY in *.
    unfold i32. rewrite Z.mod_small; lia. }
  rewrite Hcs. cbn [app]. ifz.
  - rewrite Buffer.skip_content by (done || lia). by rewrite ztake_zdrop.
  - by rewrite ztake_0 by lia.
Qed.

Lemma bio_read_all_crossed fuel (h : Tls.t S) s wb total :
  Buffer.wf wb -> blen (Buffer.content wb) + blen (crossed s) <= Buffer.MAX_CAPACITY ->
  exists h' ret wb' s' d, bio_read_all fuel h s wb total = Some (h', ret) /\
    read_buffer_ h' = read_buffer_ h /\ write_buffer_ h' = Some wb' /\ ssl_ h' = Some s' /\
    crossed s = d ++ crossed s' /\ Buffer.content wb' = Buffer.content wb ++ d.
Proof.
  revert s wb total. induction fuel as [|fuel IH]; intros s wb total Hw Hmax; cbn [bio_read_all].
  { do 5 eexists. split; [reflexivity|]. cbn. repeat split; [|by rewrite app_nil_r]. done. }
  ifz; [do 5 eexists; split; [reflexivity|]; cbn; repeat split; [|by rewrite app_nil_r]; done|].
  destruct (BIO_read_write_bio s _) as [s1 [d|]] eqn:Er.
  - pose proof (pair_read _ _ _ _ Er) as Hc. rewrite Hc, blen_app in Hmax.
    pose proof (blen_nonneg (crossed s1)).
    destruct (Buffer.write_spec wb d Hw) as (wb1 & -> & Hw1 & Hc1); [lia|]. cbn [mbind option_bind].
    rewrite Z.eqb_refl. cbn [negb].
    destruct (IH s1 wb1 (total + blen d) Hw1) as (h' & ret & wb' & s' & d' & Eb & H1 & H2 & H3 & H4 & H5).
    { rewrite Hc1, blen_app. lia. }
    exists h', ret, wb', s', (d ++ d'). rewrite Hc, H4, H5, Hc1, <- !app_assoc. done.
  - pose proof (pair_blocked _ _ _ Er) as Hc.
    destruct (negb _); do 5 eexists; (split; [reflexivity|]); cbn;
      (repeat split; [|by rewrite app_nil_r]); by rewrite Hc.
Qed.

Lemma pump_write_crossed (h : Tls.t S) wb s :
  write_buffer_ h = Some wb -> ssl_ h = Some s ->
  Buffer.wf wb -> blen (Buffer.content wb) + blen (crossed s) <= Buffer.MAX_CAPACITY ->
  exists h' ret wb' s' d, pump_write_bio h = Some (h', ret) /\
    read_buffer_ h' = read_buffer_ h /\ write_buffer_ h' = Some wb' /\ ssl_ h' = Some s' /\
    crossed s = d ++ crossed s' /\ Buffer.content wb' = Buffer.content wb ++ d.
Proof. intros Hwb Hs. unfold pump_write_bio. rewrite Hwb, Hs. apply bio_read_all_crossed. Qed.

(** [setup_bio] gives the two ends of one BIO pair to the same [SSL], and
    the pumps use the same two ends: the ciphertext [pump_read_bio] feeds in is
    what [pump_write_bio] takes out. Every byte a successful or pending [read]
    consumes from the connection's read buffer is appended to its write buffer
    (or waits to be); none of it can reach OpenSSL. *)
Theorem tls_read_echoes_ciphertext (h : Tls.t S) rb wb s len h' ret d :
  read_buffer_ h = Some rb -> write_buffer_ h = Some wb -> ssl_ h = Some s ->
  initialized_ (fields h) = true -> handshake_done_ (fields h) = true ->
  Buffer.wf rb -> Buffer.wf wb -> crossed s = [] ->
  blen (Buffer.content wb) + blen (Buffer.content rb) <= Buffer.MAX_CAPACITY ->
  Tls.read h len = Some (h', ret, d) -> ret = PROTOCOL_OK \/ ret = PROTOCOL_ERROR_EAGAIN ->
  exists rb' wb' s' out, read_buffer_ h' = Some rb' /\ write_buffer_ h' = Some wb' /\
    ssl_ h' = Some s' /\ Buffer.content rb = out ++ crossed s' ++ Buffer.content rb' /\
    Buffer.content wb' = Buffer.content wb ++ out.
Proof.
  intros Hrb Hwb Hs Hi Hd Hwr Hww Hc Hroom. unfold Tls.read, ready. rewrite Hi, Hs, Hd. cbn [negb andb].
  unfold ssl_call. destruct (pump_read_bio h) as [h1 r1] eqn:Ep.
  destruct (pump_read_crossed h rb s h1 r1 Hrb Hs Hwr Hc Ep)
    as (rb1 & s1 & Hrb1 & Hs1 & Hwb1 & Hret).
  ifz; cbn [mbind option_bind].
  { intros [= <- <- <-] [->| ->]; [done|]. by destruct Hret as [?|[? _]]. }
  destruct Hret as [->|[_ Hcont]]; [done|]. rewrite Hs1. cbn [default from_option id].
  destruct (SSL_read s1 (i32 len)) as [s2 r2] eqn:Er.
  pose proof (pair_ssl_read _ _ _ _ Er) as Hc2. pose proof (blen_nonneg (Buffer.content rb1)).
  destruct (pump_write_crossed (with_ssl s2 h1) wb s2) as (h3 & r3 & wb3 & s3 & out & E3 & H1 & H2 & H3 & H4 & H5);
    [by cbn; rewrite Hwb1|done|done|rewrite Hc2; rewrite Hcont, blen_app in Hroom; lia|].
  rewrite Hc2 in H4.
  assert (Hgoal : exists rb' wb' s' out, read_buffer_ h3 = Some rb' /\ write_buffer_ h3 = Some wb' /\
    ssl_ h3 = Some s' /\ Buffer.content rb = out ++ crossed s' ++ Buffer.content rb' /\
    Buffer.content wb' = Buffer.content wb ++ out).
  { exists rb1, wb3, s3, out. rewrite H1, H2, H3, H5, Hcont, H4, <- app_assoc. done. }
  destruct r2 as [d2| |]; rewrite ?E3; cbn [mbind option_bind]; intros [= <- <- <-] Hok; [done|done|].
  by destruct Hok.
Qed.

End Pumps.

(** A BIO pair that buffers everything, with an [SSL] that never produces or
    understands a record: queue written to the read BIO, queue written to the
    write BIO. *)
Definition pair_read_bio (s : bytes * bytes) (n : Z) : (bytes * bytes) * option bytes :=
  if (0 <? n) && (0 <? blen s.1) then ((zdrop n s.1, s.2), Some (ztake n s.1)) else (s, None).

Lemma pair_read_bio_spec s n s' d : pair_read_bio s n = (s', Some d) ->
  s.1 = d ++ s'.1 /\ 0 < blen d <= n.
Proof.
  unfold pair_read_bio. destruct (_ && _)%bool eqn:E; zb; [|done]. intros [= <- <-]. cbn.
  rewrite ztake_zdrop, blen_ztake. split; [done|lia].
Qed.

Definition demo_ssl : OpenSSL (bytes * bytes).
Proof.
  refine {| BIO_write_read_bio s d := ((s.1 ++ d, s.2), blen d);
            BIO_should_retry_read_bio _ := true;
            BIO_pending_write_bio s := blen s.1;
            BIO_read_write_bio := pair_read_bio;
            BIO_should_retry_write_bio _ := true;
            SSL_read s _ := (s, SslWant);
            SSL_write s _ n := (s, SslDone n);
            SSL_do_handshake s := (s, SslDone tt);
            SSL_shutdown s := (s, Some (SslDone tt));
            SSL_alpn_selected _ := [] |}.
  - intros s d s' n [= _ <-]. lia.
  - intros s n s' d H. apply pair_read_bio_spec in H as [? ?]. done.
  - intros s n s' d H. apply pair_read_bio_spec in H as [-> _]. rewrite blen_app. lia.
  - intros s. apply blen_nonneg.
  - discriminate.
Defined.

Definition demo_pair : @BioPair _ demo_ssl.
Proof.
  refine (@Build_BioPair _ demo_ssl fst _ _ _ _ _).
  - intros s d s' n [= <- <-]. by rewrite (ztake_ge d) by lia.
  - intros s n s' d H. apply pair_read_bio_spec in H as [? ?]. done.
  - intros s n s'. cbn. unfold pair_read_bio. destruct (_ && _)%bool; [done|]. by intros [= <-].
  - done.
  - by intros s n s' r [= <- _].
Defined.

Definition demo_tls : Tls.t (bytes * bytes) :=
  Tls.mk (set_flags true true fields_create) (Some ([], []))
    (Some (HttpParser.buffer_of (str "ciphertext"))) (Some (HttpParser.buffer_of [])).

Lemma tls_read_echoes_ciphertext_witness :
  match @Tls.read _ demo_ssl demo_tls 4096 with
  | Some (h', ret, _) =>
      ret = PROTOCOL_ERROR_EAGAIN /\
      exists rb' wb' s' out, Tls.read_buffer_ h' = Some rb' /\ Tls.write_buffer_ h' = Some wb' /\
        Tls.ssl_ h' = Some s' /\ str "ciphertext" = out ++ s'.1 ++ Buffer.content rb' /\
        Buffer.content wb' = [] ++ out
  | None => False
  end.
Proof.
  destruct (@Tls.read _ demo_ssl demo_tls 4096) as [[[h' ret] d]|] eqn:E; [|by vm_compute in E].
  assert (ret = PROTOCOL_ERROR_EAGAIN) as Hret.
  { assert (Hr : match @Tls.read _ demo_ssl demo_tls 4096 with Some (_, r, _) => r | None => 0 end
      = PROTOCOL_ERROR_EAGAIN) by (vm_compute; reflexivity). by rewrite E in Hr. }
  split; [exact Hret|].
  destruct (HttpParser.buffer_of_spec (str "ciphertext")) as [Hw1 Hc1]; [by vm_compute|].
  destruct (HttpParser.buffer_of_spec []) as [Hw2 Hc2]; [by vm_compute|].
  rewrite <- Hc1, <- Hc2.
  apply (@tls_read_echoes_ciphertext _ demo_ssl demo_pair demo_tls
    (HttpParser.buffer_of (str "ciphertext")) (HttpParser.buffer_of []) ([], []) 4096 h' ret d
    eq_refl eq_refl eq_refl eq_refl eq_refl Hw1 Hw2 eq_refl);
    [rewrite Hc1, Hc2; by vm_compute|exact E|by right].
Defined.
