(* ===== verification/Http1.v ===== *)
(** The HTTP/1.1 connection handler ([Http1Handler] of
    protocol/include/protocol/protocol_handler.hpp and
    protocol/source/protocol_handler.cpp), over any TLS layer.

    [conn_] is whether the connection pointer is set: the handler only copies
    the client's address into a context nothing reads. *)

From S2P Require Import Prelude StdMap ByteBuffer CString Hpack Http Tls.
Import HttpMessage.

Module Http1Handler.

Inductive Http1ParseState :=
| EXPECT_REQUEST_LINE | EXPECT_HEADERS | EXPECT_BODY | EXPECT_COMPLETE | ERROR.
#[export] Instance Http1ParseState_eq_dec : EqDecision Http1ParseState.
Proof. solve_decision. Defined.

Definition TEMP_BUFFER_SIZE : Z := 4096.

Section Http1Handler.
Context {T : Type} `{HT : !TlsLayer T}.

Record t := mk {
  conn_ : bool;
  tls_handler_ : T;
  state_ : Http1ParseState;
  request_ : HttpRequest;
  response_ : HttpResponse;
  plaintext_buffer_ : Buffer.t;
  parser_ : HttpParser.t;
}.

Definition set_tls (x : T) (h : t) : t :=
  mk (conn_ h) x (state_ h) (request_ h) (response_ h) (plaintext_buffer_ h) (parser_ h).
Definition set_state (s : Http1ParseState) (h : t) : t :=
  mk (conn_ h) (tls_handler_ h) s (request_ h) (response_ h) (plaintext_buffer_ h) (parser_ h).
Definition set_request (r : HttpRequest) (h : t) : t :=
  mk (conn_ h) (tls_handler_ h) (state_ h) r (response_ h) (plaintext_buffer_ h) (parser_ h).
Definition set_response (r : HttpResponse) (h : t) : t :=
  mk (conn_ h) (tls_handler_ h) (state_ h) (request_ h) r (plaintext_buffer_ h) (parser_ h).
Definition set_parse (p : HttpParser.t) (b : Buffer.t) (h : t) : t :=
  mk (conn_ h) (tls_handler_ h) (state_ h) (request_ h) (response_ h) b p.

(** [reset]: the parser stays bound to [plaintext_buffer_]. *)
Definition reset (h : t) : t :=
  mk (conn_ h) (tls_handler_ h) EXPECT_REQUEST_LINE request_reset response_reset
     (plaintext_buffer_ h) HttpParser.init.

(** The state after the constructor and a successful [init]. *)
Definition create (conn : bool) (tls : T) : t :=
  mk conn tls EXPECT_REQUEST_LINE request_reset response_reset
     (Buffer.create Buffer.DEFAULT_INITIAL_CAPACITY) HttpParser.init.

Definition estimated_size (r : HttpResponse) : Z :=
  foldl (fun acc h => acc + (blen h.1 + blen h.2 + 32)) 1024 (resp_headers r)
  + (blen (resp_body r) + 64).

(** The response is built, once more in a larger buffer if the estimate was too
    small, and handed to TLS; a partial write is not continued. *)
Definition generate_response (h : t) : option (t * Z) :=
  let '(p1, r1) := HttpParser.build_response (parser_ h) (response_ h) (estimated_size (response_ h)) in
  let '(p2, r2) :=
    match r1 with
    | inl ret => if ret =? PROTOCOL_ERROR_BUFFER
                 then HttpParser.build_response p1 (response_ h) (4096 + blen (resp_body (response_ h)))
                 else (p1, r1)
    | inr _ => (p1, r1)
    end in
  let h1 := set_parse p2 (plaintext_buffer_ h) h in
  match r2 with
  | inl ret => Some (h1, ret)
  | inr out =>
      '(tls', ret, written) ← tls_write (tls_handler_ h1) out;
      Some (set_tls tls' h1, if ret =? PROTOCOL_OK then PROTOCOL_OK else ret)
  end.

(** [state_ = ERROR], a 400 response (whose sending may fail unnoticed), -1. *)
Definition bad_request (h : t) : option (t * Z) :=
  let h1 := set_response (set_status 400 (str "Bad Request") (response_ h)) (set_state ERROR h) in
  '(h2, _) ← generate_response h1; Some (h2, PROTOCOL_ERROR_INVALID).

Definition handle_complete_request (h : t) : option (t * Z) :=
  if negb (conn_ h) then Some (h, PROTOCOL_ERROR_INVALID)
  else
    let body_len := u32 (blen (body (request_ h))) in
    let r1 := add_header (str "Content-Type") (str "text/plain") (set_status 200 (str "OK") (response_ h)) in
    let r2 := if 0 <? body_len then set_body (Some (body (request_ h))) body_len r1
              else set_body (Some (str "OK")) 2 r1 in
    generate_response (set_response r2 h).

(** One iteration of the loop of [on_read]: [inl] goes round again. *)
Definition expect_request_line (h : t) : option (t + t * Z) :=
  match HttpParser.read_line (parser_ h) (plaintext_buffer_ h) HttpParser.MAX_LINE_LEN with
  | (p, b, inl ret) =>
      let h1 := set_parse p b h in
      if ret =? PROTOCOL_ERROR_EAGAIN then Some (inr (h1, PROTOCOL_OK))
      else inr <$> bad_request h1
  | (p, b, inr line) =>
      let '(p', ret, (m, q, v)) := HttpParser.parse_request_line p line in
      let r := request_ h in
      let h1 := set_request (mkRequest m q v (headers r) (body r) (content_length r) (debug_token r))
                  (set_parse p' b h) in
      if ret <? 0 then inr <$> bad_request h1 else Some (inl (set_state EXPECT_HEADERS h1))
  end.

(** [Content-Length] as [strtoull] reads it; [None] is the 400 case. *)
Definition parse_content_length (hs : HttpHeaders) : option Z :=
  match HttpParser.find_header hs (str "Content-Length") with
  | None => Some 0
  | Some v =>
      let r := strtoull v in
      if st_erange r || negb (st_converted r) || negb (bool_decide (st_rest r = [])) then None
      else Some (st_value r)
  end.

Definition is_chunked (hs : HttpHeaders) : bool :=
  match HttpParser.find_header hs (str "Transfer-Encoding") with
  | Some te => contains (str "chunked") te || contains (str "CHUNKED") te
  | None => false
  end.

Definition expect_headers (h : t) : option (t + t * Z) :=
  let '(p, b, hs, ret) := HttpParser.parse_headers (parser_ h) (plaintext_buffer_ h) (headers (request_ h)) in
  let r := request_ h in
  let set_r tok cl := set_request (mkRequest (method r) (path r) (version r) hs (body r) cl tok) in
  let h1 := set_r (debug_token r) (content_length r) (set_parse p b h) in
  if ret =? PROTOCOL_ERROR_EAGAIN then Some (inr (h1, PROTOCOL_OK))
  else if ret <? 0 then inr <$> bad_request h1
  else if is_chunked hs then inr <$> bad_request h1
  else
    let tok := default (debug_token r) (HttpParser.find_header hs (str "Debug-Token")) in
    match parse_content_length hs with
    | None => inr <$> bad_request (set_r tok (content_length r) h1)
    | Some cl =>
        Some (inl (set_state (if 0 <? cl then EXPECT_BODY else EXPECT_COMPLETE) (set_r tok cl h1)))
    end.

Definition expect_body (h : t) : option (t + t * Z) :=
  let r := request_ h in
  let b := plaintext_buffer_ h in
  let remaining := u64 (content_length r - blen (body r)) in
  let readable := Buffer.readable_bytes b in
  let to_read := Z.min readable remaining in
  let body' := if 0 <? to_read
               then body r ++ Buffer.slice (Buffer.data_ b) (Buffer.read_idx_ b) to_read else body r in
  let b' := if 0 <? to_read then Buffer.skip b to_read else b in
  let h1 := set_request (mkRequest (method r) (path r) (version r) (headers r) body'
                           (content_length r) (debug_token r)) (set_parse (parser_ h) b' h) in
  if blen body' =? content_length r then Some (inl (set_state EXPECT_COMPLETE h1))
  else Some (inr (h1, PROTOCOL_OK)).

Definition step (h : t) : option (t + t * Z) :=
  match state_ h with
  | EXPECT_REQUEST_LINE => expect_request_line h
  | EXPECT_HEADERS => expect_headers h
  | EXPECT_BODY => expect_body h
  | EXPECT_COMPLETE =>
      '(h1, ret) ← handle_complete_request h;
      Some (inr (if ret =? PROTOCOL_OK then reset h1 else h1, ret))
  | ERROR => inr <$> bad_request h
  end.

(** What a run of the loop gives. *)
Inductive run_result :=
| Returned (h : t) (ret : Z)
| Undefined
| OutOfFuel.

Fixpoint loop (fuel : nat) (h : t) : run_result :=
  match fuel with
  | O => OutOfFuel
  | S n =>
      match step h with
      | Some (inl h') => loop n h'
      | Some (inr (h', ret)) => Returned h' ret
      | None => Undefined
      end
  end.

Definition of_option (r : option (t * Z)) : run_result :=
  match r with Some (h, ret) => Returned h ret | None => Undefined end.

(** Four states go forward, so four rounds are enough. *)
Definition loop_fuel : nat := 4.

Definition on_read (h : t) : run_result :=
  match tls_read (tls_handler_ h) TEMP_BUFFER_SIZE with
  | None => Undefined
  | Some (tls', ret, d) =>
      let h1 := set_tls tls' h in
      if ret =? PROTOCOL_ERROR_EAGAIN then Returned h1 PROTOCOL_OK
      else if ret <? 0 then of_option (bad_request h1)
      else
        match (if 0 <? blen d then fst <$> Buffer.write (plaintext_buffer_ h1) (Some d)
               else Some (plaintext_buffer_ h1)) with
        | None => Undefined
        | Some b => loop loop_fuel (set_parse HttpParser.init b h1)
        end
  end.

Definition on_write (h : t) : t * Z := (h, PROTOCOL_OK).
Definition send_response (data : option bytes) (len : Z) (h : t) : option (t * Z) :=
  generate_response (set_response (set_body data len (response_ h)) h).
Definition close (h : t) : t := reset (set_tls (tls_close (tls_handler_ h)) h).

(** * Termination *)

Definition rank (s : Http1ParseState) : nat :=
  match s with
  | EXPECT_REQUEST_LINE => 3 | EXPECT_HEADERS => 2 | EXPECT_BODY => 1
  | EXPECT_COMPLETE => 0 | ERROR => 0
  end.

Lemma step_rank h h' : step h = Some (inl h') -> (rank (state_ h') < rank (state_ h))%nat.
Proof.
  unfold step. destruct (state_ h) eqn:Es.
  - unfold expect_request_line. intros H.
    repeat first [progress simplify_eq | progress (unfold bad_request in *)
      | case_match | progress simplify_option_eq]; cbn; lia.
  - unfold expect_headers. intros H.
    destruct (HttpParser.parse_headers _ _ _) as [[[p b] hs] ret].
    repeat first [progress simplify_eq | case_match | progress simplify_option_eq]; cbn; try lia;
      ifz; cbn; lia.
  - unfold expect_body. intros H. repeat first [progress simplify_eq | case_match]; cbn; lia.
  - intros H. destruct (handle_complete_request h) as [[? ?]|]; cbn in H; simplify_eq.
  - intros H. destruct (bad_request h); cbn in H; simplify_eq.
Qed.

Lemma loop_never_out_of_fuel fuel h : (rank (state_ h) < fuel)%nat -> loop fuel h <> OutOfFuel.
Proof.
  revert h. induction fuel as [|n IH]; intros h Hr; [lia|]. cbn.
  destruct (step h) as [[h'|[h' ret]]|] eqn:E; [|done..]. apply IH.
  pose proof (step_rank h h' E). lia.
Qed.

(** * Invariant *)

Record inv (h : t) : Prop := {
  inv_buffer : Buffer.wf (plaintext_buffer_ h);
  inv_bound : HttpParser.bound (parser_ h) = true;
  inv_length : is_u64 (content_length (request_ h));
  inv_state : match state_ h with
    | EXPECT_REQUEST_LINE | EXPECT_HEADERS => body (request_ h) = []
    | EXPECT_BODY => blen (body (request_ h)) < content_length (request_ h)
    | EXPECT_COMPLETE => blen (body (request_ h)) = content_length (request_ h)
    | ERROR => True
    end;
}.

Lemma create_h1_inv conn x : inv (create conn x).
Proof. split; cbn; [apply Buffer.create_wf|done|by vm_compute|done]. Qed.

Lemma reset_inv h : inv h -> inv (reset h).
Proof. intros [Hw Hb Hl Hs]. split; cbn; [done|done|unfold is_u64; lia|done]. Qed.

Lemma build_response_bound p r n p' x :
  HttpParser.build_response p r n = (p', x) -> HttpParser.bound p' = HttpParser.bound p.
Proof. rewrite HttpParser.build_response_eq. ifz; by intros [= <- _]. Qed.

(** Defined, unless the write to the TLS layer is not; the plaintext buffer is
    left alone. *)
Definition answer_ok (h : t) (r : option (t * Z)) : Prop :=
  match r with
  | Some (h', _) => inv h' /\ plaintext_buffer_ h' = plaintext_buffer_ h
  | None => write_fails (tls_handler_ h)
  end.

Lemma generate_response_inv h : inv h -> answer_ok h (generate_response h).
Proof.
  intros [Hw Hb Hl Hs]. unfold generate_response.
  destruct (HttpParser.build_response (parser_ h) _ _) as [p1 r1] eqn:E1.
  apply build_response_bound in E1.
  destruct (match r1 with inl ret => _ | inr _ => _ end) as [p2 r2] eqn:E2.
  assert (Hb2 : HttpParser.bound p2 = true).
  { destruct r1 as [c|o]; [|simplify_eq; congruence].
    destruct (c =? PROTOCOL_ERROR_BUFFER); [apply build_response_bound in E2|simplify_eq]; congruence. }
  destruct r2 as [ret|out]; [split; [by split|done]|]. cbn.
  destruct (tls_write (tls_handler_ h) out) as [[[x ret] n]|] eqn:Ew; [split; [by split|done]|by exists out].
Qed.

Lemma bad_request_inv h : inv h -> answer_ok h (bad_request h).
Proof.
  intros Hi. unfold bad_request. set (h1 := set_response _ (set_state ERROR h)).
  pose proof (generate_response_inv h1) as Hg.
  destruct (generate_response h1) as [[h' ret]|]; apply Hg; destruct Hi as [Hw Hb Hl Hs]; by split.
Qed.

(** Every iteration keeps the invariant and is defined, unless its write is not. *)
Definition step_ok (h : t) (r : option (t + t * Z)) : Prop :=
  match r with
  | Some (inl h') | Some (inr (h', _)) =>
      inv h' /\ blen (Buffer.content (plaintext_buffer_ h')) <= blen (Buffer.content (plaintext_buffer_ h))
  | None => write_fails (tls_handler_ h)
  end.

Lemma bad_request_step_ok h h1 : inv h1 -> tls_handler_ h1 = tls_handler_ h ->
  blen (Buffer.content (plaintext_buffer_ h1)) <= blen (Buffer.content (plaintext_buffer_ h)) ->
  step_ok h (inr <$> bad_request h1).
Proof.
  intros Hi Ht Hl. pose proof (bad_request_inv h1 Hi) as Hb.
  destruct (bad_request h1) as [[h' ret]|]; cbn in *; [|by rewrite <- Ht]. by destruct Hb as [? ->].
Qed.

Lemma expect_request_line_ok h :
  inv h -> state_ h = EXPECT_REQUEST_LINE -> step_ok h (expect_request_line h).
Proof.
  intros [Hw Hb Hl Hs] Es. rewrite Es in Hs. unfold expect_request_line.
  destruct (HttpParser.read_line _ _ _) as [[p b] r] eqn:Er.
  destruct (HttpParser.read_line_shrinks _ _ _ _ _ _ Hw Hb Er) as (Hb1 & Hw1 & Hl1).
  destruct r as [ret|line].
  - assert (inv (set_parse p b h)) by (split; cbn; [done..|by rewrite Es]).
    destruct (ret =? _); [by cbn|]. by apply bad_request_step_ok.
  - destruct (HttpParser.parse_request_line p line) as [[p' ret] [[m q] v]] eqn:El.
    assert (Hb2 : HttpParser.bound p' = true).
    { revert El. unfold HttpParser.parse_request_line. intros El.
      repeat first [progress simplify_eq | case_match]; done. }
    assert (Hi : inv (set_request (mkRequest m q v (headers (request_ h)) (body (request_ h))
      (content_length (request_ h)) (debug_token (request_ h))) (set_parse p' b h)))
      by (split; cbn; [done..|by rewrite Es]).
    destruct (ret <? 0); [by apply bad_request_step_ok|]. cbn. split; [|done]. by split.
Qed.

Lemma parse_content_length_u64 hs cl : parse_content_length hs = Some cl -> is_u64 cl.
Proof.
  unfold parse_content_length. destruct (HttpParser.find_header hs _) as [v|].
  - ifz; [done|]. intros [= <-]. apply strtoull_u64.
  - intros [= <-]. by vm_compute.
Qed.

Lemma expect_headers_ok h :
  inv h -> state_ h = EXPECT_HEADERS -> step_ok h (expect_headers h).
Proof.
  intros [Hw Hb Hl Hs] Es. rewrite Es in Hs. unfold expect_headers.
  destruct (HttpParser.parse_headers _ _ _) as [[[p b] hs] ret] eqn:Ep.
  unfold HttpParser.parse_headers in Ep. rewrite Hb in Ep. cbn [negb] in Ep.
  destruct (HttpParser.parse_headers_loop_shrinks _ _ _ _ _ _ _ _ Hb Hw Ep) as (Hb1 & Hw1 & Hl1).
  assert (Hi : forall r, body r = [] -> is_u64 (content_length r) -> inv (set_request r (set_parse p b h)))
    by (intros r Hr Hc; split; cbn; [done..|by rewrite Es]).
  destruct (ret =? PROTOCOL_ERROR_EAGAIN); [by split; [apply Hi|]|].
  destruct (ret <? 0); [apply bad_request_step_ok; [by apply Hi|done|done]|].
  destruct (is_chunked hs); [apply bad_request_step_ok; [by apply Hi|done|done]|].
  destruct (parse_content_length hs) as [cl|] eqn:Ec.
  - apply parse_content_length_u64 in Ec. cbn. split; [|done].
    split; cbn; [done..|]. rewrite Hs. unfold is_u64 in Ec. ifz; rewrite blen_nil; lia.
  - apply bad_request_step_ok; [by apply Hi|done|done].
Qed.

Lemma expect_body_ok h :
  inv h -> state_ h = EXPECT_BODY -> step_ok h (expect_body h).
Proof.
  intros [Hw Hb Hl Hs] Es. rewrite Es in Hs. unfold expect_body.
  pose proof (blen_nonneg (body (request_ h))). unfold is_u64 in Hl.
  unfold u64, wrap. rewrite Z.mod_small by lia.
  rewrite Buffer.readable_content by done. pose proof (blen_nonneg (Buffer.content (plaintext_buffer_ h))).
  set (n := Z.min _ _). set (body' := if 0 <? n then _ else _). set (b' := if 0 <? n then _ else _).
  assert (Hbody : blen body' = blen (body (request_ h)) + n).
  { unfold body'. ifz; [|subst n; lia]. rewrite blen_app. f_equal.
    pose proof (Buffer.blen_content _ Hw). destruct Hw.
    rewrite Buffer.blen_slice; subst n; lia. }
  assert (Hb' : Buffer.wf b' /\ blen (Buffer.content b') <= blen (Buffer.content (plaintext_buffer_ h))).
  { unfold b'. ifz; [|done]. split; [apply Buffer.skip_wf; [done|lia]|].
    rewrite Buffer.skip_content, blen_zdrop by (done || lia). lia. }
  destruct Hb' as [Hwb' Hlb']. ifz; cbn; (split; [|done]); split; cbn; try done.
  rewrite Es. subst n. lia.
Qed.

Lemma step_h1_inv h : inv h -> step_ok h (step h).
Proof.
  intros Hi. unfold step. destruct (state_ h) eqn:Es.
  - by apply expect_request_line_ok.
  - by apply expect_headers_ok.
  - by apply expect_body_ok.
  - unfold handle_complete_request. destruct (conn_ h); cbn [negb].
    + match goal with |- context [generate_response ?x] => set (h1 := x) end.
      pose proof (generate_response_inv h1 ltac:(by destruct Hi; split)) as Hg.
      destruct (generate_response h1) as [[h' ret]|]; [|exact Hg]. destruct Hg as [Hi' Hp]. cbn in *. destruct (ret =? PROTOCOL_OK); cbn; rewrite Hp; (split; [|done]); [by apply reset_inv|done].
    + by cbn.
  - by apply bad_request_step_ok.
Qed.

(** No round before the last one touches the TLS handler. *)
Lemma step_tls h h' : step h = Some (inl h') -> tls_handler_ h' = tls_handler_ h.
Proof.
  unfold step. destruct (state_ h); intros H.
  - unfold expect_request_line in H. destruct (HttpParser.read_line _ _ _) as [[p b] r].
    repeat first [progress simplify_eq | case_match | progress simplify_option_eq]; done.
  - unfold expect_headers in H. destruct (HttpParser.parse_headers _ _ _) as [[[p b] hs] ret].
    repeat first [progress simplify_eq | case_match | progress simplify_option_eq]; done.
  - unfold expect_body in H. repeat first [progress simplify_eq | case_match]; done.
  - destruct (handle_complete_request h) as [[? ?]|]; cbn in H; simplify_eq.
  - destruct (bad_request h); cbn in H; simplify_eq.
Qed.

Lemma loop_inv fuel h : inv h -> (rank (state_ h) < fuel)%nat ->
  match loop fuel h with
  | Returned h' _ => inv h' /\
      blen (Buffer.content (plaintext_buffer_ h')) <= blen (Buffer.content (plaintext_buffer_ h))
  | Undefined => write_fails (tls_handler_ h)
  | OutOfFuel => False
  end.
Proof.
  revert h. induction fuel as [|n IH]; intros h Hi Hr; [lia|]. cbn [loop].
  pose proof (step_h1_inv h Hi) as Hs. pose proof (step_rank h) as Hk. pose proof (step_tls h) as Ht.
  unfold step_ok in Hs. destruct (step h) as [[h'|[h' ret]]|]; [|done..]. destruct Hs as [Hi' Hl].
  specialize (IH h' Hi' ltac:(specialize (Hk h' eq_refl); lia)). rewrite (Ht h' eq_refl) in IH.
  destruct (loop n h'); [|done..]. destruct IH. split; [done|lia].
Qed.

End Http1Handler.
Arguments t : clear implicits.
Arguments run_result : clear implicits.

Lemma on_read_h1_ok {T} `{!TlsLayer T} (h : t T) : inv h ->
  blen (Buffer.content (plaintext_buffer_ h)) + TEMP_BUFFER_SIZE <= Buffer.MAX_CAPACITY ->
  match on_read h with
  | Returned h' _ => inv h' /\ blen (Buffer.content (plaintext_buffer_ h')) <=
      blen (Buffer.content (plaintext_buffer_ h)) + TEMP_BUFFER_SIZE
  | Undefined => tls_read (tls_handler_ h) TEMP_BUFFER_SIZE = None \/
      exists x ret d, tls_read (tls_handler_ h) TEMP_BUFFER_SIZE = Some (x, ret, d) /\ write_fails x
  | OutOfFuel => False
  end.
Proof.
  intros Hi Hroom. unfold on_read.
  destruct (tls_read (tls_handler_ h) TEMP_BUFFER_SIZE) as [[[x ret] d]|] eqn:E; [|by left].
  assert (Hi1 : inv (set_tls x h)) by (by destruct Hi; split).
  destruct (ret =? PROTOCOL_ERROR_EAGAIN); [split; [done|]; cbn; unfold TEMP_BUFFER_SIZE; lia|].
  destruct (ret <? 0) eqn:Eneg.
  { pose proof (bad_request_inv (set_tls x h) Hi1) as Hb.
    destruct (bad_request (set_tls x h)) as [[h' r']|]; cbn in *; [|by right; exists x, ret, d].
    destruct Hb as [? ->]. split; [done|]. unfold TEMP_BUFFER_SIZE. lia. }
  pose proof (tls_read_len _ _ _ _ _ E ltac:(done)) as Hd. pose proof (blen_nonneg d).
  destruct (Buffer.receive_ok (plaintext_buffer_ h) d (inv_buffer h Hi)) as (b & Eb & Hwb & Hcb); [rewrite blen_app; lia|].
  apply (f_equal blen) in Hcb. rewrite blen_app in Hcb.
  change (plaintext_buffer_ (set_tls x h)) with (plaintext_buffer_ h). rewrite Eb.
  pose proof (loop_inv loop_fuel (set_parse HttpParser.init b (set_tls x h))) as Hl.
  destruct (loop _ _); cbn in Hl; [destruct Hl as [? Hl]| |]; try (split; [done|lia]);
    try (by destruct Hi; split); try (unfold loop_fuel; destruct (state_ h); cbn; lia).
  - right. exists x, ret, d. split; [done|]. apply Hl; [by destruct Hi; split|]. unfold loop_fuel. destruct (state_ h); cbn; lia.
  - apply Hl; [by destruct Hi; split|]. unfold loop_fuel. destruct (state_ h); cbn; lia.
Qed.

(** C9. [on_read] returns (its loop runs at most four rounds), is defined
    and keeps the invariant, as long as the plaintext buffer has room for one
    more TLS read, and the TLS layer serves the call: its own read of 4096
    bytes is defined, and so is one write after it, whatever is written (the
    answer). The invariant: the buffers are well formed, the body is empty until
    the headers are complete, is never longer than the announced length, and has
    exactly that length when the request is complete. The condition on the layer
    always holds of the build without OpenSSL; of [TlsHandler] with OpenSSL it
    holds when the connection's write buffer has room for what the two calls can
    leave in the BIO, and fails when that buffer is full. *)
Theorem http1_on_read_safe {T} `{!TlsLayer T} (h : t T) :
  serves 1 (tls_handler_ h) TEMP_BUFFER_SIZE -> inv h ->
  blen (Buffer.content (plaintext_buffer_ h)) + TEMP_BUFFER_SIZE <= Buffer.MAX_CAPACITY ->
  exists h' ret, on_read h = Returned h' ret /\ inv h' /\
    blen (Buffer.content (plaintext_buffer_ h')) <=
      blen (Buffer.content (plaintext_buffer_ h)) + TEMP_BUFFER_SIZE.
Proof.
  intros Ht Hi Hroom. pose proof (on_read_h1_ok h Hi Hroom) as Ho.
  destruct (serves_no_failure _ _ Ht) as (x & r & d & E & Hw). rewrite E in Ho.
  destruct (on_read h) as [h' ret| |]; [by exists h', ret| |done].
  destruct Ho as [?|(? & ? & ? & [= <- <- <-] & ?)]; done.
Qed.

#[local] Existing Instance Tls.openssl_layer.

(** Over OpenSSL's layer: room in the connection's write buffer for what two
    SSL calls leave in a BIO of capacity [cap] is enough. *)
Lemma served_over_openssl {S} `{!OpenSSL S} cap (h : t (Tls.t S)) :
  0 <= cap -> (forall s, BIO_pending_write_bio s <= cap) -> Tls.room (2 * cap) (tls_handler_ h) ->
  serves 1 (tls_handler_ h) TEMP_BUFFER_SIZE.
Proof. intros H0 Hcap Hr. by apply (Tls.openssl_serves cap H0 Hcap 1). Qed.

(** * The whole exchange *)

Section Exchange.
Context {T : Type} `{!TlsLayer T}.
Import HttpParser.

(** The answer to a request whose body is [bd]. *)
Definition echo_response (bd : bytes) : HttpResponse :=
  mkResponse 200 (str "OK") [(str "Content-Type", str "text/plain")]
    (if bool_decide (bd = []) then str "OK" else bd).

Lemma echo_fits bd : blen bd <= Buffer.MAX_CAPACITY ->
  blen (render (echo_response bd)) <= estimated_size (echo_response bd).
Proof.
  intros Hb. set (r := echo_response bd).
  assert (Hbody : 0 <= blen (resp_body r) < 2 ^ 64).
  { unfold r, echo_response. cbn [resp_body]. case_bool_decide; [by vm_compute|].
    unfold Buffer.MAX_CAPACITY in Hb. pose proof (blen_nonneg bd). lia. }
  unfold render. rewrite !blen_app.
  change (blen (status_line r)) with 17. change (blen CRLF) with 2.
  change (blen (concat (map header_line (resp_headers r)))) with 26.
  assert (Hcl : blen (content_length_line r) <= 82).
  { unfold content_length_line. ifz; [|rewrite blen_nil; lia]. rewrite !blen_app.
    pose proof (blen_to_string _ Hbody). change (blen (str "Content-Length: ")) with 16.
    change (blen CRLF) with 2. lia. }
  unfold estimated_size. change (foldl _ 1024 (resp_headers r)) with 1078. lia.
Qed.

Lemma generate_response_fits h :
  blen (render (response_ h)) <= estimated_size (response_ h) ->
  generate_response h =
    ('(tls', ret, written) ← tls_write (tls_handler_ h) (render (response_ h));
     Some (set_tls tls' h, if ret =? PROTOCOL_OK then PROTOCOL_OK else ret)).
Proof.
  intros Hf. unfold generate_response. rewrite build_response_eq. ifz; [|lia]. by destruct h.
Qed.

Lemma request_line_step h p m q rest :
  state_ h = EXPECT_REQUEST_LINE -> parser_ h = p -> bound p = true -> Buffer.wf (plaintext_buffer_ h) ->
  no_space m -> no_space q -> CR ∉ m -> CR ∉ q -> blen m + blen q + 10 < MAX_LINE_LEN ->
  Buffer.content (plaintext_buffer_ h) = (m ++ str " " ++ q ++ str " " ++ str "HTTP/1.1") ++ CRLF ++ rest ->
  exists b, step h = Some (inl (set_state EXPECT_HEADERS
      (set_request (mkRequest m q (str "HTTP/1.1") (headers (request_ h)) (body (request_ h))
         (content_length (request_ h)) (debug_token (request_ h))) (set_parse p b h)))) /\
    Buffer.wf b /\ Buffer.content b = rest.
Proof.
  intros Es Ep Hb Hw Hm Hq Hcm Hcq Hlen Hc. unfold step. rewrite Es. unfold expect_request_line.
  destruct (read_line_spec (parser_ h) (plaintext_buffer_ h) MAX_LINE_LEN
    (m ++ str " " ++ q ++ str " " ++ str "HTTP/1.1") rest Hw) as (b & Er & Hwb & Hcb);
    [by rewrite Ep|exact Hc| | |].
  - rewrite !not_elem_of_app. repeat split; try done; apply (bool_decide_unpack _); by vm_compute.
  - rewrite !blen_app. change (blen (str " ")) with 1. change (blen (str "HTTP/1.1")) with 8. lia.
  - rewrite Er, Ep.
    assert (parse_request_line p (m ++ str " " ++ q ++ str " " ++ str "HTTP/1.1") =
      (p, PROTOCOL_OK, (m, q, str "HTTP/1.1"))) as ->.
    { apply parse_request_line_ok. exists (str " "), (str " ").
      do 4 (split; [done|]). split; (split; [done|by repeat constructor]). }
    cbn [Z.ltb]. exists b. done.
Qed.

Lemma headers_step h p hs n rest :
  state_ h = EXPECT_HEADERS -> parser_ h = p -> bound p = true -> Buffer.wf (plaintext_buffer_ h) ->
  mwf hs -> Forall valid_header hs -> (length hs <= MAX_HEADERS)%nat ->
  is_chunked hs = false -> parse_content_length hs = Some n ->
  Buffer.content (plaintext_buffer_ h) = concat (map header_line hs) ++ CRLF ++ rest ->
  exists b tok, step h = Some (inl (set_state (if 0 <? n then EXPECT_BODY else EXPECT_COMPLETE)
      (set_request (mkRequest (method (request_ h)) (path (request_ h)) (version (request_ h)) hs
         (body (request_ h)) n tok) (set_parse p b h)))) /\
    Buffer.wf b /\ Buffer.content b = rest.
Proof.
  intros Es Ep Hb Hw Hm Hv Hl Hch Hcl Hc. unfold step. rewrite Es. unfold expect_headers.
  destruct (parse_headers_many p hs MAX_HEADERS (plaintext_buffer_ h) [] rest Hb Hv Hl Hw Hc)
    as (b & Er & Hwb & Hcb).
  rewrite (foldl_mset_sorted hs []) in Er by (done || constructor). cbn [app] in Er.
  unfold parse_headers. rewrite Ep, Hb. cbn [negb]. rewrite Er. cbn [Z.eqb Z.ltb].
  change (PROTOCOL_OK =? PROTOCOL_ERROR_EAGAIN) with false. change (PROTOCOL_OK <? 0) with false.
  cbv iota. rewrite Hch, Hcl. eexists b, _. split; [reflexivity|done].
Qed.

Lemma body_step h p bd rest :
  state_ h = EXPECT_BODY -> parser_ h = p -> Buffer.wf (plaintext_buffer_ h) ->
  body (request_ h) = [] -> content_length (request_ h) = blen bd -> bd <> [] ->
  Buffer.content (plaintext_buffer_ h) = bd ++ rest ->
  exists b, step h = Some (inl (set_state EXPECT_COMPLETE
      (set_request (mkRequest (method (request_ h)) (path (request_ h)) (version (request_ h))
         (headers (request_ h)) bd (blen bd) (debug_token (request_ h))) (set_parse p b h)))) /\
    Buffer.wf b /\ Buffer.content b = rest.
Proof.
  intros Es Ep Hw Hbody Hcl Hne Hc. unfold step. rewrite Es. unfold expect_body.
  rewrite Hbody, Hcl, Ep. pose proof (blen_nonneg bd). pose proof (blen_nonneg rest).
  assert (blen bd <> 0) by (intros ?%blen_0_nil; done).
  pose proof (Buffer.blen_content _ Hw) as Hl. pose proof Hw as [Hi1 Hi2].
  unfold Buffer.MAX_CAPACITY in Hi2. rewrite Hc, blen_app in Hl.
  change (blen (@nil byte)) with 0. unfold u64, wrap. rewrite Z.mod_small by lia.
  rewrite Buffer.readable_content, Hc, blen_app, Z.min_r by (done || lia).
  replace (0 <? blen bd - 0) with true by (symmetry; apply Z.ltb_lt; lia). cbn [app].
  assert (Hsl : Buffer.slice (Buffer.data_ (plaintext_buffer_ h)) (Buffer.read_idx_ (plaintext_buffer_ h))
    (blen bd - 0) = bd).
  { transitivity (ztake (blen bd) (bd ++ rest)); [|apply ztake_app_all].
    rewrite <- Hc. unfold Buffer.content, Buffer.slice. rewrite ztake_ztake. f_equal. lia. }
  rewrite Hsl, Z.eqb_refl. eexists. split; [reflexivity|].
  split; [apply Buffer.skip_wf; [done|lia]|].
  rewrite Buffer.skip_content, Hc by (done || lia). rewrite Z.sub_0_r. apply zdrop_app_all.
Qed.

Lemma complete_step h bd tls2 n :
  state_ h = EXPECT_COMPLETE -> conn_ h = true -> body (request_ h) = bd ->
  blen bd <= Buffer.MAX_CAPACITY -> response_ h = response_reset ->
  tls_write (tls_handler_ h) (render (echo_response bd)) = Some (tls2, PROTOCOL_OK, n) ->
  exists h', step h = Some (inr (h', PROTOCOL_OK)) /\ tls_handler_ h' = tls2 /\
    state_ h' = EXPECT_REQUEST_LINE /\ request_ h' = request_reset /\ response_ h' = response_reset /\
    plaintext_buffer_ h' = plaintext_buffer_ h /\ conn_ h' = true.
Proof.
  intros Es Hconn Hb Hmax Hr Htls. unfold step. rewrite Es. unfold handle_complete_request.
  rewrite Hconn, Hr, Hb. cbn [negb]. pose proof (blen_nonneg bd).
  unfold Buffer.MAX_CAPACITY in Hmax. unfold u32, wrap. rewrite Z.mod_small by lia.
  assert (E : (if 0 <? blen bd
     then set_body (Some bd) (blen bd) (add_header (str "Content-Type") (str "text/plain")
            (set_status 200 (str "OK") response_reset))
     else set_body (Some (str "OK")) 2 (add_header (str "Content-Type") (str "text/plain")
            (set_status 200 (str "OK") response_reset))) = echo_response bd).
  { unfold echo_response. case_bool_decide as Hbd.
    - rewrite Hbd. reflexivity.
    - assert (blen bd <> 0) by (intros ?%blen_0_nil; done). ifz; [|lia].
      unfold set_body. ifz; [|lia]. by rewrite ztake_ge by lia. }
  rewrite E. rewrite generate_response_fits; [|cbn [set_response response_]; by apply echo_fits].
  cbn [set_response response_ tls_handler_]. rewrite Htls. eexists. split; [reflexivity|done].
Qed.

End Exchange.

(** Between two requests, with [rest] in the buffer. *)
Record idle {T} (rest : bytes) (h : t T) : Prop := {
  id_buffer : Buffer.wf (plaintext_buffer_ h);
  id_content : Buffer.content (plaintext_buffer_ h) = rest;
  id_state : state_ h = EXPECT_REQUEST_LINE;
  id_body : body (request_ h) = [];
  id_response : response_ h = response_reset;
  id_conn : conn_ h = true;
}.

(** A request with method [m], target [q], headers [hs] and a body of [n] bytes. *)
Record request_ok (m q : bytes) (hs : HttpHeaders) (n : Z) : Prop := {
  rq_method : HttpParser.no_space m /\ HttpParser.CR ∉ m;
  rq_target : HttpParser.no_space q /\ HttpParser.CR ∉ q;
  rq_line : blen m + blen q + 10 < HttpParser.MAX_LINE_LEN;
  rq_headers : mwf hs /\ Forall HttpParser.valid_header hs /\ (length hs <= HttpParser.MAX_HEADERS)%nat;
  rq_body : is_chunked hs = false /\ parse_content_length hs = Some n;
}.
Definition request_head (m q : bytes) (hs : HttpHeaders) : bytes :=
  (m ++ str " " ++ q ++ str " " ++ str "HTTP/1.1") ++ HttpParser.CRLF ++ concat (map HttpParser.header_line hs) ++ HttpParser.CRLF.

Lemma whole_request_answered {T} `{!TlsLayer T} (h : t T) prev tls1 d m q hs bd rest tls2 n :
  idle prev h -> request_ok m q hs (blen bd) ->
  tls_read (tls_handler_ h) TEMP_BUFFER_SIZE = Some (tls1, PROTOCOL_OK, d) ->
  prev ++ d = request_head m q hs ++ bd ++ rest -> blen (prev ++ d) <= Buffer.MAX_CAPACITY ->
  tls_write tls1 (HttpParser.render (echo_response bd)) = Some (tls2, PROTOCOL_OK, n) ->
  exists h', on_read h = Returned h' PROTOCOL_OK /\ tls_handler_ h' = tls2 /\ idle rest h' /\ request_ h' = request_reset.
Proof.
  intros [Hw Hprev Es Hbody0 Hresp Hconn] [[Hm Hcm] [Hq Hcq] Hlen (Hmwf & Hval & Hcount) [Hch Hcl]] Hread Hcont Hmax Hwrite.
  unfold request_head in Hcont. rewrite <- !app_assoc in Hcont. rewrite <- Hprev in *.
  unfold on_read. rewrite Hread. change (PROTOCOL_OK =? PROTOCOL_ERROR_EAGAIN) with false.
  change (PROTOCOL_OK <? 0) with false. cbv iota.
  change (plaintext_buffer_ (set_tls tls1 h)) with (plaintext_buffer_ h).
  destruct (Buffer.receive_ok (plaintext_buffer_ h) d Hw Hmax) as (b0 & -> & Hw0 & Hc0). rewrite Hcont in Hc0.
  assert (Hbd : blen bd <= Buffer.MAX_CAPACITY).
  { rewrite Hcont, !blen_app in Hmax. repeat match type of Hmax with context [blen ?l] =>
      lazymatch goal with _ : 0 <= blen l |- _ => fail | _ => pose proof (blen_nonneg l) end end. lia. }
  unfold loop_fuel. set (h0 := set_parse HttpParser.init b0 (set_tls tls1 h)).
  destruct (request_line_step h0 HttpParser.init m q (concat (map HttpParser.header_line hs) ++ HttpParser.CRLF ++ bd ++ rest)
    Es eq_refl eq_refl Hw0 Hm Hq Hcm Hcq Hlen) as (b1 & E1 & Hw1 & Hc1); [by rewrite <- !app_assoc|]. cbn [loop]. rewrite E1. clear E1.
  set (h1 := set_state EXPECT_HEADERS _).
  destruct (headers_step h1 HttpParser.init hs (blen bd) (bd ++ rest) eq_refl eq_refl eq_refl Hw1
    Hmwf Hval Hcount Hch Hcl Hc1) as (b2 & tok & E2 & Hw2 & Hc2). rewrite E2. clear E2.
  destruct (0 <? blen bd) eqn:Ebd; zb.
  - set (h2 := set_state EXPECT_BODY _).
    destruct (body_step h2 HttpParser.init bd rest eq_refl eq_refl Hw2 Hbody0 eq_refl)
      as (b3 & E3 & Hw3 & Hc3); [by intros ->|exact Hc2|]. rewrite E3. clear E3.
    set (h3 := set_state EXPECT_COMPLETE _).
    destruct (complete_step h3 bd tls2 n eq_refl Hconn eq_refl Hbd Hresp Hwrite) as (h' & -> & Ht & Hs & Hq' & Hr & Hb & Hc').
    exists h'. split; [done|]. split; [done|]. split; [|done]. by split; rewrite ?Hb, ?Hq'.
  - pose proof (blen_nonneg bd). assert (bd = []) as Hnil by (apply blen_0_nil; lia).
    set (h2 := set_state EXPECT_COMPLETE _).
    destruct (complete_step h2 bd tls2 n eq_refl Hconn (eq_trans Hbody0 (eq_sym Hnil)) Hbd Hresp Hwrite)
      as (h' & -> & Ht & Hs & Hq' & Hr & Hb & Hc').
    rewrite Hnil in Hc2. cbn [app] in Hc2. exists h'. split; [done|]. split; [done|]. split; [|done]. by split; rewrite ?Hb, ?Hq'.
Qed.

(** C1. A complete request in the plaintext buffer (some of it possibly read
    earlier) is answered with 200, [Content-Type: text/plain] and the request's
    body, or [OK] when it has none; the handler is back in its initial state and
    has consumed exactly the request. *)
Theorem http1_request_answered {T} `{!TlsLayer T} (h : t T) tls1 d m q hs bd rest tls2 n :
  inv h -> state_ h = EXPECT_REQUEST_LINE -> conn_ h = true -> response_ h = response_reset ->
  HttpParser.no_space m -> HttpParser.no_space q -> HttpParser.CR ∉ m -> HttpParser.CR ∉ q ->
  blen m + blen q + 10 < HttpParser.MAX_LINE_LEN ->
  mwf hs -> Forall HttpParser.valid_header hs -> (length hs <= HttpParser.MAX_HEADERS)%nat ->
  is_chunked hs = false -> parse_content_length hs = Some (blen bd) ->
  tls_read (tls_handler_ h) TEMP_BUFFER_SIZE = Some (tls1, PROTOCOL_OK, d) ->
  Buffer.content (plaintext_buffer_ h) ++ d =
    (m ++ str " " ++ q ++ str " " ++ str "HTTP/1.1") ++ HttpParser.CRLF ++
    concat (map HttpParser.header_line hs) ++ HttpParser.CRLF ++ bd ++ rest ->
  blen (Buffer.content (plaintext_buffer_ h) ++ d) <= Buffer.MAX_CAPACITY ->
  tls_write tls1 (HttpParser.render (echo_response bd)) = Some (tls2, PROTOCOL_OK, n) ->
  exists h', on_read h = Returned h' PROTOCOL_OK /\ tls_handler_ h' = tls2 /\
    state_ h' = EXPECT_REQUEST_LINE /\ request_ h' = request_reset /\ response_ h' = response_reset /\
    Buffer.content (plaintext_buffer_ h') = rest.
Proof.
  intros Hi Es Hconn Hresp Hm Hq Hcm Hcq Hlen Hmwf Hval Hcount Hch Hcl Hread Hcont Hmax Hwrite.
  assert (Hbody : body (request_ h) = []) by (pose proof (inv_state h Hi) as Hs; by rewrite Es in Hs).
  destruct (whole_request_answered h _ tls1 d m q hs bd rest tls2 n (Build_idle _ _ h (inv_buffer h Hi) eq_refl Es Hbody Hresp Hconn))
    as (h' & Hon & Ht & [] & Hq'); [by split|done|unfold request_head; by rewrite Hcont, <- !app_assoc|done..|].
  by exists h'.
Qed.

Lemma http1_on_read_safe_witness :
  exists h' ret, on_read (create true (mkPlain [str "GET / HT"] [])) = Returned h' ret /\ inv h' /\
    blen (Buffer.content (plaintext_buffer_ h')) <= 0 + TEMP_BUFFER_SIZE.
Proof.
  exact (http1_on_read_safe (create true (mkPlain [str "GET / HT"] []))
    (total_serves 1 (mkPlain [str "GET / HT"] []) _ plain_total)
    (create_h1_inv true _) ltac:(vm_compute; discriminate)).
Defined.

Definition demo_request : bytes :=
  str "POST /x HTTP/1.1" ++ HttpParser.CRLF ++
  concat (map HttpParser.header_line HttpParser.demo_headers) ++ HttpParser.CRLF ++ str "hello".

Lemma http1_request_answered_witness :
  exists h', on_read (create true (mkPlain [demo_request] [])) = Returned h' PROTOCOL_OK /\
    tls_handler_ h' = mkPlain [] [HttpParser.render (echo_response (str "hello"))] /\
    state_ h' = EXPECT_REQUEST_LINE /\ request_ h' = request_reset /\ response_ h' = response_reset /\
    Buffer.content (plaintext_buffer_ h') = [].
Proof.
  destruct HttpParser.demo_headers_valid as [Hm Hv].
  apply (http1_request_answered (create true (mkPlain [demo_request] [])) (mkPlain [] []) demo_request
    (str "POST") (str "/x") HttpParser.demo_headers (str "hello") []
    (mkPlain [] [HttpParser.render (echo_response (str "hello"))])
    (blen (HttpParser.render (echo_response (str "hello")))));
    try reflexivity; try exact Hm; try exact Hv; try (apply create_h1_inv);
    try (split; [done|by repeat constructor]);
    try (apply (bool_decide_unpack _); vm_compute; reflexivity);
    try (by vm_compute); by apply Nat.leb_le.
Defined.

(** A negative [Content-Length] is accepted: [strtoull] negates it in
    the unsigned type, so [-n] announces a body of [2^64 - n] bytes, and the
    handler waits for it instead of answering 400. *)
Theorem negative_content_length_accepted n hs :
  0 < n < 2 ^ 64 ->
  parse_content_length ((str "Content-Length", x2d :: to_string n) :: hs) = Some (2 ^ 64 - n).
Proof.
  intros Hn. unfold parse_content_length. cbn [HttpParser.find_header].
  change (strcasecmp_eq (str "Content-Length") (str "Content-Length")) with true. cbv iota.
  pose proof (strtoull_to_string n ltac:(lia)) as Hs.
  pose proof (to_string_digits n ltac:(lia)) as Hd.
  unfold strtoull in *. cbn [c_str]. change (b2z x2d =? 0) with false. cbv iota.
  rewrite c_str_digits in * by done. cbn [skip_spaces]. change (is_space x2d) with false. cbv iota.
  change (b2z x2d =? 45) with true. cbv iota.
  destruct (to_string n) as [|b r] eqn:E; [discriminate Hs|].
  inversion Hd as [|? ? Hb _]; subst. destruct (digit_props b Hb) as (_ & Hsp & H45 & H43 & _).
  apply Z.eqb_neq in H45, H43. cbn [skip_spaces] in Hs. rewrite Hsp, H45, H43, Hb in Hs.
  rewrite Hb. destruct (digits 0 (b :: r)) as [v rest]. destruct (ULLONG_MAX <? v); [discriminate Hs|].
  injection Hs as -> ->. cbn. f_equal. unfold u64, wrap.
  rewrite <- (Z_mod_plus_full _ 1), Z.mod_small; lia.
Qed.

Lemma negative_content_length_accepted_witness :
  parse_content_length [(str "Content-Length", str "-1")] = Some (2 ^ 64 - 1).
Proof. exact (negative_content_length_accepted 1 [] ltac:(lia)). Defined.

End Http1Handler.
