(* ===== verification/Http1Pieces.v ===== *)
(** Requests whose bodies arrive in several TLS records, requests one after the
    other on one connection, and requests sent without waiting for the answer
    ([Http1Handler::on_read] of protocol/source/protocol_handler.cpp). *)

From S2P Require Import Prelude StdMap ByteBuffer CString Hpack Http Tls Http1.
Import HttpMessage.

Module Http1Pieces.
Import Http1Handler.

(** [on_read] until the records are used up or a call fails. *)
Fixpoint read_all (n : nat) (h : t PlainTls) : run_result PlainTls :=
  match n with
  | O => Returned h PROTOCOL_OK
  | S n =>
      match on_read h with
      | Returned h' ret => if ret <? 0 then Returned h' ret else read_all n h'
      | r => r
      end
  end.

(** A handler that waits for more of a body: [acc] of it has arrived, out of [n] bytes. *)
Record awaiting (h : t PlainTls) (acc : bytes) (n : Z) : Prop := {
  aw_state : state_ h = EXPECT_BODY;
  aw_wf : Buffer.wf (plaintext_buffer_ h);
  aw_buffer : Buffer.content (plaintext_buffer_ h) = [];
  aw_body : body (request_ h) = acc;
  aw_length : content_length (request_ h) = n;
  aw_more : blen acc < n <= Buffer.MAX_CAPACITY;
  aw_conn : conn_ h = true;
  aw_response : response_ h = response_reset;
}.

(** [expect_body] on the bytes [c] of the buffer. *)
Lemma expect_body_takes (h : t PlainTls) acc n c :
  state_ h = EXPECT_BODY -> Buffer.wf (plaintext_buffer_ h) -> Buffer.content (plaintext_buffer_ h) = c ->
  body (request_ h) = acc -> content_length (request_ h) = n -> blen acc < n <= Buffer.MAX_CAPACITY ->
  let k := Z.min (blen c) (n - blen acc) in
  exists b, Buffer.wf b /\ Buffer.content b = zdrop k c /\
    let h1 := set_request (mkRequest (method (request_ h)) (path (request_ h)) (version (request_ h)) (headers (request_ h))
                 (acc ++ ztake k c) n (debug_token (request_ h))) (set_parse (parser_ h) b h) in
    step h = Some (if blen acc + k =? n then inl (set_state EXPECT_COMPLETE h1) else inr (h1, PROTOCOL_OK)).
Proof.
  intros Es Hw Hc Hb Hn Hl. cbv zeta. set (k := Z.min (blen c) (n - blen acc)).
  pose proof (blen_nonneg acc). pose proof (blen_nonneg c). unfold Buffer.MAX_CAPACITY in Hl.
  unfold step. rewrite Es. unfold expect_body. rewrite Hb, Hn. unfold u64, wrap. rewrite Z.mod_small by lia.
  rewrite Buffer.readable_content, Hc by done. fold k.
  assert (Hsl : 0 < k -> Buffer.slice (Buffer.data_ (plaintext_buffer_ h)) (Buffer.read_idx_ (plaintext_buffer_ h)) k = ztake k c).
  { intros Hk. rewrite <- Hc. unfold Buffer.content, Buffer.slice. rewrite ztake_ztake. f_equal.
    pose proof (Buffer.blen_content _ Hw) as Hbl. rewrite Hc in Hbl. lia. }
  assert (Hlen : blen (ztake k c) = k) by (rewrite blen_ztake; lia).
  destruct (0 <? k) eqn:Ek; zb.
  - rewrite (Hsl Ek). exists (Buffer.skip (plaintext_buffer_ h) k). split; [by apply Buffer.skip_wf; [|lia]|].
    split; [by rewrite Buffer.skip_content, Hc by (done || lia)|]. rewrite blen_app, Hlen. by ifz.
  - assert (k = 0) as Hk0 by lia. exists (plaintext_buffer_ h). split; [done|].
    rewrite Hk0, zdrop_0, ztake_0, app_nil_r, Z.add_0_r by lia. split; [done|]. by ifz.
Qed.

(** What [on_read] does with a record: it runs the loop on a buffer that holds
    the bytes that were there and the record's. *)
Lemma on_read_record (h : t PlainTls) d ds :
  Buffer.wf (plaintext_buffer_ h) -> incoming (tls_handler_ h) = d :: ds -> blen d <= TEMP_BUFFER_SIZE ->
  blen (Buffer.content (plaintext_buffer_ h) ++ d) <= Buffer.MAX_CAPACITY ->
  exists b, Buffer.wf b /\ Buffer.content b = Buffer.content (plaintext_buffer_ h) ++ d /\
    on_read h = loop loop_fuel (set_parse HttpParser.init b (set_tls (mkPlain ds (sent (tls_handler_ h))) h)).
Proof.
  intros Hw Hinc Hd Hroom. unfold on_read. cbn [tls_read plain_layer]. unfold plain_read. rewrite Hinc.
  replace (blen d <=? TEMP_BUFFER_SIZE) with true by lia. rewrite ztake_ge by lia.
  change (PROTOCOL_OK =? PROTOCOL_ERROR_EAGAIN) with false. change (PROTOCOL_OK <? 0) with false. cbv iota.
  cbn [plaintext_buffer_ set_tls]. destruct (Buffer.receive_ok (plaintext_buffer_ h) d Hw Hroom) as (b & -> & Hwb & Hcb).
  by exists b.
Qed.

(** A record that does not complete the body: the handler waits for the rest. *)
Lemma piece_awaits h acc n d ds :
  awaiting h acc n -> incoming (tls_handler_ h) = d :: ds -> blen d <= TEMP_BUFFER_SIZE -> blen acc + blen d < n ->
  exists h', on_read h = Returned h' PROTOCOL_OK /\ awaiting h' (acc ++ d) n /\
    tls_handler_ h' = mkPlain ds (sent (tls_handler_ h)).
Proof.
  intros [Es Hw Hbuf Hbody Hn Hmore Hconn Hresp] Hinc Hd Hlt. pose proof (blen_nonneg acc).
  destruct (on_read_record h d ds Hw Hinc Hd) as (b & Hwb & Hcb & ->); [rewrite Hbuf; cbn [app]; lia|].
  rewrite Hbuf in Hcb. cbn [app] in Hcb.
  set (h0 := set_parse HttpParser.init b (set_tls (mkPlain ds (sent (tls_handler_ h))) h)).
  destruct (expect_body_takes h0 acc n d Es Hwb Hcb Hbody Hn Hmore) as (b' & Hwb' & Hcb' & Hst).
  cbn [loop loop_fuel]. rewrite Hst. rewrite Z.min_l by lia. ifz; [lia|]. eexists. split; [reflexivity|]. split; [|done].
  rewrite Z.min_l, zdrop_ge in Hcb' by lia. rewrite ztake_ge by lia.
  split; cbn; try done. rewrite blen_app. lia.
Qed.

(** The record that completes it: the request is answered with its body. *)
Lemma last_piece_answers h acc n d rest ds :
  awaiting h acc n -> incoming (tls_handler_ h) = (d ++ rest) :: ds -> blen (d ++ rest) <= TEMP_BUFFER_SIZE ->
  blen acc + blen d = n ->
  exists h', on_read h = Returned h' PROTOCOL_OK /\
    tls_handler_ h' = mkPlain ds (sent (tls_handler_ h) ++ [HttpParser.render (echo_response (acc ++ d))]) /\
    idle rest h' /\ request_ h' = request_reset.
Proof.
  intros [Es Hw Hbuf Hbody Hn Hmore Hconn Hresp] Hinc Hd Hlast. pose proof (blen_nonneg acc). pose proof (blen_nonneg rest).
  destruct (on_read_record h (d ++ rest) ds Hw Hinc Hd) as (b & Hwb & Hcb & ->).
  { rewrite Hbuf. cbn [app]. unfold TEMP_BUFFER_SIZE, Buffer.MAX_CAPACITY in *. lia. }
  rewrite Hbuf in Hcb. cbn [app] in Hcb.
  set (h0 := set_parse HttpParser.init b (set_tls (mkPlain ds (sent (tls_handler_ h))) h)).
  destruct (expect_body_takes h0 acc n (d ++ rest) Es Hwb Hcb Hbody Hn Hmore) as (b' & Hwb' & Hcb' & Hst).
  cbn [loop loop_fuel]. rewrite Hst. rewrite blen_app in *.
  replace (Z.min (blen d + blen rest) (n - blen acc)) with (blen d) in * by lia. ifz; [|lia].
  rewrite zdrop_app_all in Hcb'. rewrite ztake_app_all. set (h1 := set_state EXPECT_COMPLETE _).
  destruct (complete_step h1 (acc ++ d) (mkPlain ds (sent (tls_handler_ h) ++ [HttpParser.render (echo_response (acc ++ d))]))
    (blen (HttpParser.render (echo_response (acc ++ d)))) eq_refl Hconn eq_refl) as (h' & -> & Ht & Hs & Hq & Hr & Hb & Hc');
    [rewrite blen_app; lia|done|done|].
  exists h'. split; [done|]. split; [done|]. split; [|done]. by split; rewrite ?Hb, ?Hq.
Qed.

(** The records of the rest of a body, none empty, the last one with more bytes after it. *)
Lemma pieces_answered ps : forall h acc n d rest ds,
  awaiting h acc n -> incoming (tls_handler_ h) = ps ++ [d ++ rest] ++ ds -> Forall (fun p => blen p <= TEMP_BUFFER_SIZE) (ps ++ [d ++ rest]) ->
  d <> [] -> blen acc + blen (concat ps) + blen d = n ->
  exists h', read_all (S (length ps)) h = Returned h' PROTOCOL_OK /\
    tls_handler_ h' = mkPlain ds (sent (tls_handler_ h) ++ [HttpParser.render (echo_response (acc ++ concat ps ++ d))]) /\
    idle rest h' /\ request_ h' = request_reset.
Proof.
  induction ps as [|p ps IH]; intros h acc n d rest ds Haw Hinc Hd Hne Hn.
  - cbn [app concat length] in *. destruct (last_piece_answers h acc n d rest ds Haw Hinc) as (h' & Hon & Hrest).
    + by apply Forall_inv in Hd.
    + rewrite (@blen_nil byte) in Hn. lia.
    + exists h'. cbn [read_all]. by rewrite Hon.
  - assert (0 < blen d) by (pose proof (blen_nonneg d); assert (blen d <> 0) by (by intros ?%blen_0_nil); lia).
    pose proof (blen_nonneg (concat ps)). rewrite concat_cons, blen_app in Hn.
    destruct (piece_awaits h acc n p (ps ++ [d ++ rest] ++ ds) Haw Hinc) as (h1 & Hon & Haw1 & Ht1); [by apply Forall_inv in Hd|lia|].
    destruct (IH h1 (acc ++ p) n d rest ds Haw1) as (h' & Hall & Ht & Hrest);
      [by rewrite Ht1|by apply Forall_inv_tail in Hd|done|rewrite blen_app; lia|].
    exists h'. rewrite concat_cons, <- !app_assoc in *. change (S (length (p :: ps))) with (S (S (length ps))).
    remember (S (length ps)) as m. cbn [read_all]. rewrite Hon. change (PROTOCOL_OK <? 0) with false. cbv iota.
    rewrite Hall, Ht, Ht1. done.
Qed.

(** The request line and the headers: the handler waits for the body. *)
Lemma head_awaits (h : t PlainTls) m q hs n p ds :
  idle [] h -> request_ok m q hs n -> incoming (tls_handler_ h) = (request_head m q hs ++ p) :: ds ->
  blen (request_head m q hs ++ p) <= TEMP_BUFFER_SIZE -> blen p < n <= Buffer.MAX_CAPACITY ->
  exists h', on_read h = Returned h' PROTOCOL_OK /\ awaiting h' p n /\ tls_handler_ h' = mkPlain ds (sent (tls_handler_ h)).
Proof.
  intros [Hw Hbuf Es Hbody0 Hresp Hconn] [[Hm Hcm] [Hq Hcq] Hlen (Hmwf & Hval & Hcount) [Hch Hcl]] Hinc Hd Hbd. pose proof (blen_nonneg p).
  destruct (on_read_record h (request_head m q hs ++ p) ds Hw Hinc Hd) as (b0 & Hw0 & Hc0 & ->).
  { rewrite Hbuf. cbn [app]. unfold TEMP_BUFFER_SIZE, Buffer.MAX_CAPACITY in *. lia. }
  rewrite Hbuf in Hc0. unfold request_head in Hc0. cbn [app] in Hc0. rewrite <- !app_assoc in Hc0.
  set (h0 := set_parse HttpParser.init b0 (set_tls _ h)). unfold loop_fuel.
  destruct (request_line_step h0 HttpParser.init m q (concat (map HttpParser.header_line hs) ++ HttpParser.CRLF ++ p) Es eq_refl eq_refl Hw0 Hm Hq Hcm Hcq Hlen)
    as (b1 & E1 & Hw1 & Hc1); [by rewrite <- !app_assoc|]. cbn [loop]. rewrite E1. clear E1.
  set (h1 := set_state EXPECT_HEADERS _).
  destruct (headers_step h1 HttpParser.init hs n p eq_refl eq_refl eq_refl Hw1 Hmwf Hval Hcount Hch Hcl Hc1)
    as (b2 & tok & E2 & Hw2 & Hc2). rewrite E2. clear E2. ifz; [|lia].
  set (h2 := set_state EXPECT_BODY _).
  destruct (expect_body_takes h2 [] n p eq_refl Hw2 Hc2 Hbody0 eq_refl) as (b3 & Hw3 & Hc3 & E3); [rewrite blen_nil; lia|].
  rewrite E3. rewrite (@blen_nil byte) in *. rewrite Z.min_l in * by lia. ifz; [lia|]. eexists. split; [reflexivity|]. split; [|done].
  rewrite zdrop_ge in Hc3 by lia. rewrite ztake_ge by lia. by split.
Qed.

(** Without records, calls change nothing: the bytes in the buffer are not looked at. *)
Lemma read_all_idle n (h : t PlainTls) : incoming (tls_handler_ h) = [] -> read_all n h = Returned h PROTOCOL_OK.
Proof.
  intros Hinc. induction n as [|n IH]; [done|]. cbn [read_all].
  assert (on_read h = Returned h PROTOCOL_OK) as ->.
  { unfold on_read. cbn [tls_read plain_layer]. unfold plain_read. rewrite Hinc. by destruct h. }
  exact IH.
Qed.

Lemma read_all_more n k h h1 : read_all n h = Returned h1 PROTOCOL_OK -> read_all (n + k) h = read_all k h1.
Proof.
  revert h. induction n as [|n IH]; intros h; [by intros [= ->]|]. cbn [read_all Nat.add].
  destruct (on_read h) as [h2 ret| |]; try done. ifz; [|apply IH]. intros [= _ ->]. done.
Qed.

(** A request whose body is cut over several records. *)
Lemma pieces_request_answered h m q hs p ps d rest ds :
  idle [] h -> request_ok m q hs (blen (p ++ concat ps ++ d)) -> blen (p ++ concat ps ++ d) <= Buffer.MAX_CAPACITY ->
  d <> [] -> incoming (tls_handler_ h) = (request_head m q hs ++ p) :: ps ++ [d ++ rest] ++ ds ->
  Forall (fun r => blen r <= TEMP_BUFFER_SIZE) ((request_head m q hs ++ p) :: ps ++ [d ++ rest]) ->
  exists h', read_all (2 + length ps) h = Returned h' PROTOCOL_OK /\
    tls_handler_ h' = mkPlain ds (sent (tls_handler_ h) ++ [HttpParser.render (echo_response (p ++ concat ps ++ d))]) /\
    idle rest h' /\ request_ h' = request_reset.
Proof.
  intros Hi Hq Hmax Hd Hinc Hrec. pose proof (Forall_inv Hrec) as Hr0. apply Forall_inv_tail in Hrec. pose proof (blen_nonneg (concat ps)).
  assert (0 < blen d) by (pose proof (blen_nonneg d); assert (blen d <> 0) by (by intros ?%blen_0_nil); lia).
  destruct (head_awaits h m q hs _ p (ps ++ [d ++ rest] ++ ds) Hi Hq Hinc Hr0) as (h1 & Hon & Haw & Ht1); [rewrite !blen_app in *; lia|].
  destruct (pieces_answered ps h1 p _ d rest ds Haw) as (h' & Hall & Ht & Hrest); [by rewrite Ht1|done|done|rewrite !blen_app; lia|].
  exists h'. split; [|by rewrite Ht, Ht1]. change (2 + length ps)%nat with (S (S (length ps))). remember (S (length ps)) as n. cbn [read_all].
  by rewrite Hon.
Qed.

(** C6. A request whose head comes in one record and whose body is cut in any
    way over that record and the following ones is answered once, with the whole
    body, when its last byte arrives. Bytes that follow the body in the last
    record, a next request for instance, stay in the buffer, and no number of
    further calls without a new record looks at them. The conditions: every TLS
    record has at most 4096 bytes, what one [on_read] takes (a longer one is
    taken in two reads, and a head cut that way loses headers,
    [headers_before_eagain_are_lost]); the body has at most [MAX_CAPACITY]
    (64 MiB) bytes and a last piece that is not empty; the handler has its
    connection and is between two requests, with nothing buffered and no answer
    begun ([idle]); and the head is one the parser takes ([request_ok]: method
    and target without spaces or CR, a request line under 8192 bytes, at most
    100 headers that differ in name and read back unchanged, not chunked, a
    [Content-Length] that is the length of the body, or none for an empty one). *)
Theorem http1_body_in_pieces h m q hs p ps d rest :
  idle [] h -> request_ok m q hs (blen (p ++ concat ps ++ d)) -> blen (p ++ concat ps ++ d) <= Buffer.MAX_CAPACITY ->
  d <> [] -> incoming (tls_handler_ h) = (request_head m q hs ++ p) :: ps ++ [d ++ rest] ->
  Forall (fun r => blen r <= TEMP_BUFFER_SIZE) (incoming (tls_handler_ h)) ->
  exists h',
    (forall k, read_all (2 + length ps + k) h = Returned h' PROTOCOL_OK) /\
    tls_handler_ h' = mkPlain [] (sent (tls_handler_ h) ++ [HttpParser.render (echo_response (p ++ concat ps ++ d))]) /\
    idle rest h' /\ request_ h' = request_reset.
Proof.
  intros Hi Hq Hmax Hd Hinc Hrec.
  destruct (pieces_request_answered h m q hs p ps d rest [] Hi Hq Hmax Hd Hinc) as (h' & Hall & Ht & Hrest); [by rewrite <- Hinc|].
  exists h'. split; [|done]. intros k. rewrite (read_all_more _ k h h' Hall). apply read_all_idle. by rewrite Ht.
Qed.

(** * One request after another *)

(** How a request arrives: in one record, or with its body cut after [p], into
    [ps] and a last, non-empty piece [d]. *)
Inductive delivery := Whole (bd : bytes) | Pieces (p : bytes) (ps : list bytes) (d : bytes).
Record exchange := mkExchange { ex_method : bytes; ex_target : bytes; ex_headers : HttpHeaders; ex_delivery : delivery }.

Definition body_of (e : exchange) : bytes :=
  match ex_delivery e with Whole bd => bd | Pieces p ps d => p ++ concat ps ++ d end.
Definition records_of (e : exchange) : list bytes :=
  let head := request_head (ex_method e) (ex_target e) (ex_headers e) in
  match ex_delivery e with Whole bd => [head ++ bd] | Pieces p ps d => (head ++ p) :: ps ++ [d] end.
Record exchange_ok (e : exchange) : Prop := {
  ex_request : request_ok (ex_method e) (ex_target e) (ex_headers e) (blen (body_of e));
  ex_room : blen (body_of e) <= Buffer.MAX_CAPACITY;
  ex_records : Forall (fun r => blen r <= TEMP_BUFFER_SIZE) (records_of e);
  ex_last : match ex_delivery e with Pieces _ _ d => d <> [] | Whole _ => True end;
}.

Lemma exchange_served e h ds : idle [] h -> exchange_ok e -> incoming (tls_handler_ h) = records_of e ++ ds ->
  exists h', read_all (length (records_of e)) h = Returned h' PROTOCOL_OK /\
    tls_handler_ h' = mkPlain ds (sent (tls_handler_ h) ++ [HttpParser.render (echo_response (body_of e))]) /\ idle [] h'.
Proof.
  destruct e as [m q hs [bd|p ps d]]; intros Hi [Hq Hmax Hrec Hlast] Hinc;
    unfold body_of, records_of in *; cbn [ex_method ex_target ex_headers ex_delivery length app read_all] in *.
  - apply Forall_inv in Hrec.
    destruct (whole_request_answered h [] (mkPlain ds (sent (tls_handler_ h))) (request_head m q hs ++ bd) m q hs bd []
      (mkPlain ds (sent (tls_handler_ h) ++ [HttpParser.render (echo_response bd)])) (blen (HttpParser.render (echo_response bd))) Hi Hq)
      as (h' & -> & Ht & Hi' & _).
    + cbn [tls_read plain_layer]. unfold plain_read. rewrite Hinc. replace (blen (request_head m q hs ++ bd) <=? TEMP_BUFFER_SIZE) with true by lia. by rewrite ztake_ge by lia.
    + by rewrite app_nil_r.
    + cbn [app]. unfold TEMP_BUFFER_SIZE, Buffer.MAX_CAPACITY in *. lia.
    + done.
    + exists h'. by split.
  - rewrite <- app_assoc in Hinc.
    destruct (pieces_request_answered h m q hs p ps d [] ds Hi Hq Hmax Hlast) as (h' & Hall & Ht & Hi' & _); [by rewrite app_nil_r|by rewrite app_nil_r|].
    exists h'. rewrite length_app, Nat.add_comm. by split.
Qed.

(** C5. A kept-alive connection: requests sent one after the other are all
    answered, each once, in order and with its own body; no further call has
    anything to do, and the handler is back where it started. Each request starts
    a new TLS record with its whole head in it, and its body is cut in any way
    over that record and the following ones. Every record has at most 4096 bytes,
    what one [on_read] takes (a head in a longer record is read in two pieces and
    loses headers, [headers_before_eagain_are_lost]), so the head has at most
    4096 bytes too; every body has at most [MAX_CAPACITY] (64 MiB) bytes; and
    each head is one the parser takes ([request_ok], as in
    [http1_body_in_pieces]). *)
Theorem http1_serves_in_order h es :
  idle [] h -> Forall exchange_ok es -> incoming (tls_handler_ h) = concat (map records_of es) ->
  exists h', (forall k, read_all (length (incoming (tls_handler_ h)) + k) h = Returned h' PROTOCOL_OK) /\
    tls_handler_ h' = mkPlain [] (sent (tls_handler_ h) ++ map (fun e => HttpParser.render (echo_response (body_of e))) es) /\
    idle [] h'.
Proof.
  intros Hi He Hinc. rewrite Hinc. revert h Hi Hinc. induction He as [|e es He _ IH]; intros h Hi Hinc.
  - exists h. split; [intros k; by apply read_all_idle|]. cbn in *. split; [|done]. rewrite app_nil_r, <- Hinc. by destruct (tls_handler_ h).
  - cbn [map concat] in *. destruct (exchange_served e h _ Hi He Hinc) as (h1 & Hr1 & Ht1 & Hi1).
    destruct (IH h1 Hi1) as (h2 & Hr2 & Ht2 & Hi2); [by rewrite Ht1|]. exists h2. split; [|split; [|done]].
    + intros k. rewrite length_app, <- Nat.add_assoc, (read_all_more _ _ h h1 Hr1). apply Hr2.
    + rewrite Ht2, Ht1. cbn. by rewrite <- app_assoc.
Qed.

(** [hello] in three records, a second request behind it. *)
Definition demo_rest : bytes := str "GET / HTTP/1.1" ++ HttpParser.CRLF ++ HttpParser.CRLF.
Definition demo_records : list bytes :=
  [request_head (str "POST") (str "/x") HttpParser.demo_headers ++ str "he"; str "ll"; str "o" ++ demo_rest].

Lemma demo_request_ok : request_ok (str "POST") (str "/x") HttpParser.demo_headers 5.
Proof.
  destruct HttpParser.demo_headers_valid as [Hm Hv].
  split; [| | |split; [exact Hm|split; [exact Hv|by apply Nat.leb_le]]|split; vm_compute; reflexivity];
    [split; [split; [done|by repeat constructor]|apply (bool_decide_unpack _); vm_compute; reflexivity]..|vm_compute; reflexivity].
Qed.

Lemma http1_body_in_pieces_witness :
  exists h',
    (forall k, read_all (3 + k) (create true (mkPlain demo_records [])) = Returned h' PROTOCOL_OK) /\
    tls_handler_ h' = mkPlain [] [HttpParser.render (echo_response (str "hello"))] /\
    idle demo_rest h' /\ request_ h' = request_reset.
Proof.
  apply (http1_body_in_pieces (create true (mkPlain demo_records [])) (str "POST") (str "/x") HttpParser.demo_headers
    (str "he") [str "ll"] (str "o") demo_rest).
  - split; try reflexivity. apply create_h1_inv with (conn := true).
  - exact demo_request_ok.
  - vm_compute. discriminate.
  - discriminate.
  - reflexivity.
  - vm_compute. repeat constructor; discriminate.
Defined.

Definition demo_exchanges : list exchange :=
  [mkExchange (str "POST") (str "/x") HttpParser.demo_headers (Pieces (str "he") [str "ll"] (str "o"));
   mkExchange (str "POST") (str "/x") HttpParser.demo_headers (Whole (str "again"))].

Lemma http1_serves_in_order_witness :
  exists h',
    (forall k, read_all (4 + k) (create true (mkPlain (concat (map records_of demo_exchanges)) [])) = Returned h' PROTOCOL_OK) /\
    tls_handler_ h' = mkPlain [] [HttpParser.render (echo_response (str "hello")); HttpParser.render (echo_response (str "again"))] /\
    idle [] h'.
Proof.
  apply (http1_serves_in_order (create true (mkPlain (concat (map records_of demo_exchanges)) [])) demo_exchanges).
  - split; try reflexivity. apply create_h1_inv with (conn := true).
  - constructor; [|constructor; [|constructor]];
      (split; [exact demo_request_ok|vm_compute; discriminate|vm_compute; repeat constructor; discriminate|first [discriminate|exact I]]).
  - reflexivity.
Defined.
End Http1Pieces.
