(* ===== verification/Http2.v ===== *)
(** The HTTP/2 connection handler ([Http2Handler] of
    protocol/include/protocol/protocol_handler.hpp and
    protocol/source/protocol_handler.cpp) and its streams
    (http2_stream.hpp, http2_stream.cpp), over any TLS layer.

    Frame types are the raw byte: [static_cast<Http2FrameType>] accepts any. *)

From S2P Require Import Prelude StdMap ByteBuffer CString Hpack Http Tls.
Import HttpMessage.

Module Http2Stream.

Inductive Http2StreamState := IDLE | OPEN | HALF_CLOSED_LOCAL | HALF_CLOSED_REMOTE | CLOSED.
#[export] Instance Http2StreamState_eq_dec : EqDecision Http2StreamState.
Proof. solve_decision. Defined.

Definition HTTP2_DEFAULT_INITIAL_WINDOW_SIZE : Z := 65535.

Record t := mk {
  stream_id : Z;
  state : Http2StreamState;
  request : HttpRequest;
  response : HttpResponse;
  send_window : Z;   (* int32_t *)
  recv_window : Z;
}.

Definition init (id : Z) : t :=
  mk id IDLE request_reset response_reset HTTP2_DEFAULT_INITIAL_WINDOW_SIZE HTTP2_DEFAULT_INITIAL_WINDOW_SIZE.
Definition reset : t := init 0.

Definition set_state (x : Http2StreamState) (s : t) : t :=
  mk (stream_id s) x (request s) (response s) (send_window s) (recv_window s).
Definition set_window (w : Z) (s : t) : t :=
  mk (stream_id s) (state s) (request s) (response s) w (recv_window s).
(** [request.headers[k] = v] for every decoded header; [body.insert] at the end. *)
Definition add_headers (hs : HttpHeaders) (s : t) : t :=
  let r := request s in
  mk (stream_id s) (state s)
     (mkRequest (method r) (path r) (version r) (foldl (fun a h => mset h.1 h.2 a) (headers r) hs)
        (body r) (content_length r) (debug_token r))
     (response s) (send_window s) (recv_window s).
Definition append_body (d : bytes) (s : t) : t :=
  let r := request s in
  mk (stream_id s) (state s)
     (mkRequest (method r) (path r) (version r) (headers r) (body r ++ d)
        (content_length r) (debug_token r))
     (response s) (send_window s) (recv_window s).

End Http2Stream.

Module Http2Handler.
Import Http2Stream.

(** * Frames *)

Definition HTTP2_FRAME_HEADER_SIZE : Z := 9.
Definition HTTP2_FLAG_END_STREAM : Z := 1.
Definition HTTP2_FLAG_END_HEADERS : Z := 4.
Definition HTTP2_FLAG_ACK : Z := 1.
Definition DATA : Z := 0.
Definition HEADERS : Z := 1.
Definition RST_STREAM : Z := 3.
Definition SETTINGS : Z := 4.
Definition PING : Z := 6.
Definition GOAWAY : Z := 7.
Definition WINDOW_UPDATE : Z := 8.
Definition CONTINUATION : Z := 9.

Record frame := mkFrame { ftype : Z; fstream : Z; fflags : Z; fpayload : bytes }.

Record Http2Settings := mkSettings {
  header_table_size : Z;
  enable_push : Z;
  max_concurrent_streams : Z;
  max_frame_size : Z;
  initial_window_size : Z;
  max_header_list_size : Z;
}.
Definition settings_reset : Http2Settings := mkSettings 4096 0 100 16384 65535 (2 ^ 32 - 1).

(** [(v >> n) & mask] stored in a byte. *)
Definition byte_at (v n mask : Z) : byte := z2b (Z.land (Z.shiftr v n) mask).
(** The four-byte integers of the wire: [data[0] << 24 | ...]. *)
Definition be32 (a b c d : byte) : Z :=
  Z.lor (Z.lor (Z.lor (Z.shiftl (b2z a) 24) (Z.shiftl (b2z b) 16)) (Z.shiftl (b2z c) 8)) (b2z d).

(** The nine bytes [write_frame] sends first. *)
Definition frame_header_bytes (f : frame) : bytes :=
  let len := blen (fpayload f) in
  [byte_at len 16 255; byte_at len 8 255; byte_at len 0 255; z2b (ftype f); z2b (fflags f);
   byte_at (fstream f) 24 127; byte_at (fstream f) 16 255; byte_at (fstream f) 8 255;
   byte_at (fstream f) 0 255].

Record frame_header := mkHeader { length_ : Z; type_ : Z; flags_ : Z; stream_ : Z }.

(** The header [read_frame] reads from the first nine bytes. *)
Definition parse_frame_header (data : bytes) : option frame_header :=
  match data with
  | a :: b :: c :: t :: f :: s0 :: s1 :: s2 :: s3 :: _ =>
      Some (mkHeader (Z.lor (Z.lor (Z.shiftl (b2z a) 16) (Z.shiftl (b2z b) 8)) (b2z c))
                     (b2z t) (b2z f) (Z.land (be32 s0 s1 s2 s3) 0x7FFFFFFF))
  | _ => None
  end.

Section Http2Handler.
Context {T : Type} `{HT : !TlsLayer T}.

Record t := mk {
  conn_ : bool;
  tls_handler_ : T;
  streams_ : list (Z * Http2Stream.t);   (* std::map *)
  plaintext_buffer_ : Buffer.t;
  settings_ : Http2Settings;             (* the peer's *)
  local_settings_ : Http2Settings;
  last_stream_id_ : Z;
  hpack_decoder_ : Hpack.codec;
  settings_ack_received_ : bool;
  settings_ack_sent_ : bool;
}.

Definition set_tls (x : T) (h : t) : t :=
  mk (conn_ h) x (streams_ h) (plaintext_buffer_ h) (settings_ h) (local_settings_ h)
     (last_stream_id_ h) (hpack_decoder_ h) (settings_ack_received_ h) (settings_ack_sent_ h).
Definition set_streams (x : list (Z * Http2Stream.t)) (h : t) : t :=
  mk (conn_ h) (tls_handler_ h) x (plaintext_buffer_ h) (settings_ h) (local_settings_ h)
     (last_stream_id_ h) (hpack_decoder_ h) (settings_ack_received_ h) (settings_ack_sent_ h).
Definition set_buffer (x : Buffer.t) (h : t) : t :=
  mk (conn_ h) (tls_handler_ h) (streams_ h) x (settings_ h) (local_settings_ h)
     (last_stream_id_ h) (hpack_decoder_ h) (settings_ack_received_ h) (settings_ack_sent_ h).
Definition set_settings (x : Http2Settings) (h : t) : t :=
  mk (conn_ h) (tls_handler_ h) (streams_ h) (plaintext_buffer_ h) x (local_settings_ h)
     (last_stream_id_ h) (hpack_decoder_ h) (settings_ack_received_ h) (settings_ack_sent_ h).
Definition set_decoder (x : Hpack.codec) (h : t) : t :=
  mk (conn_ h) (tls_handler_ h) (streams_ h) (plaintext_buffer_ h) (settings_ h) (local_settings_ h)
     (last_stream_id_ h) x (settings_ack_received_ h) (settings_ack_sent_ h).
Definition set_acks (received sent : bool) (h : t) : t :=
  mk (conn_ h) (tls_handler_ h) (streams_ h) (plaintext_buffer_ h) (settings_ h) (local_settings_ h)
     (last_stream_id_ h) (hpack_decoder_ h) received sent.

(** * Sending *)

Definition write_frame (f : frame) (h : t) : option (t * Z) :=
  '(x1, ret, written) ← tls_write (tls_handler_ h) (frame_header_bytes f);
  let h1 := set_tls x1 h in
  if negb (ret =? PROTOCOL_OK) then Some (h1, ret)
  else if negb (written =? HTTP2_FRAME_HEADER_SIZE) then Some (h1, PROTOCOL_ERROR_BUFFER)
  else if 0 <? blen (fpayload f) then
    '(x2, ret, written) ← tls_write (tls_handler_ h1) (fpayload f);
    let h2 := set_tls x2 h1 in
    if negb (ret =? PROTOCOL_OK) then Some (h2, ret)
    else if negb (written =? blen (fpayload f)) then Some (h2, PROTOCOL_ERROR_BUFFER)
    else Some (h2, PROTOCOL_OK)
  else Some (h1, PROTOCOL_OK).

(** One parameter of a SETTINGS payload. *)
Definition setting_param (id value : Z) : bytes :=
  [byte_at id 8 255; byte_at id 0 255;
   byte_at value 24 255; byte_at value 16 255; byte_at value 8 255; byte_at value 0 255].
Definition settings_payload (s : Http2Settings) : bytes :=
  setting_param 1 (header_table_size s) ++ setting_param 2 (enable_push s) ++
  setting_param 3 (max_concurrent_streams s) ++ setting_param 4 (initial_window_size s) ++
  setting_param 5 (max_frame_size s).

Definition send_settings_frame (h : t) : option (t * Z) :=
  write_frame (mkFrame SETTINGS 0 0 (settings_payload (local_settings_ h))) h.

Definition send_settings_ack (h : t) : option (t * Z) :=
  if negb (settings_ack_sent_ h) then
    write_frame (mkFrame SETTINGS 0 HTTP2_FLAG_ACK []) (set_acks (settings_ack_received_ h) true h)
  else Some (h, PROTOCOL_OK).

(** The CONTINUATION frames of [send_headers_frame]; [payload] starts at
    [offset]. A round takes [max_payload] bytes, so [length payload] rounds are
    enough; [None] would be the endless loop of a zero [max_payload]. *)
Fixpoint send_continuations (fuel : nat) (sid max_payload : Z) (payload : bytes) (h : t) : option (t * Z) :=
  match fuel with
  | O => None
  | S n =>
      if max_payload <? blen payload then
        '(h1, ret) ← write_frame (mkFrame CONTINUATION sid 0 (ztake max_payload payload)) h;
        if negb (ret =? PROTOCOL_OK) then Some (h1, ret)
        else send_continuations n sid max_payload (zdrop max_payload payload) h1
      else write_frame (mkFrame CONTINUATION sid HTTP2_FLAG_END_HEADERS payload) h
  end.

Definition send_headers_frame (sid : Z) (hs : HttpHeaders) (end_stream : bool) (h : t) : option (t * Z) :=
  let payload := Hpack.encode hs in
  let flags := if end_stream then Z.lor HTTP2_FLAG_END_HEADERS HTTP2_FLAG_END_STREAM
               else HTTP2_FLAG_END_HEADERS in
  let max_payload := max_frame_size (local_settings_ h) in
  if blen payload <=? max_payload then write_frame (mkFrame HEADERS sid flags payload) h
  else
    let first_flags := Z.land flags (Z.lnot HTTP2_FLAG_END_HEADERS) in
    '(h1, ret) ← write_frame (mkFrame HEADERS sid first_flags (ztake max_payload payload)) h;
    if negb (ret =? PROTOCOL_OK) then Some (h1, ret)
    else send_continuations (S (length payload)) sid max_payload (zdrop max_payload payload) h1.

(** The loop of [send_data_frame] on the data from [offset]; each round sends at
    least a byte. *)
Fixpoint send_data_loop (fuel : nat) (sid max_size : Z) (data : bytes) (end_stream : bool) (h : t)
  : option (t * Z) :=
  match fuel with
  | O => None
  | S n =>
      if blen data =? 0 then Some (h, PROTOCOL_OK)
      else
        let chunk_size := Z.min (blen data) max_size in
        let last_chunk := chunk_size =? blen data in
        let flags := if last_chunk && end_stream then HTTP2_FLAG_END_STREAM else 0 in
        '(h1, ret) ← write_frame (mkFrame DATA sid flags (ztake chunk_size data)) h;
        if negb (ret =? PROTOCOL_OK) then Some (h1, ret)
        else send_data_loop n sid max_size (zdrop chunk_size data) end_stream h1
  end.
Definition send_data_frame (sid : Z) (data : bytes) (end_stream : bool) (h : t) : option (t * Z) :=
  send_data_loop (S (length data)) sid (max_frame_size (local_settings_ h)) data end_stream h.

Definition send_window_update_frame (sid increment : Z) (h : t) : option (t * Z) :=
  write_frame (mkFrame WINDOW_UPDATE sid 0
    [byte_at increment 24 127; byte_at increment 16 255; byte_at increment 8 255; byte_at increment 0 255]) h.
Definition send_rst_stream_frame (sid error_code : Z) (h : t) : option (t * Z) :=
  write_frame (mkFrame RST_STREAM sid 0
    [byte_at error_code 24 255; byte_at error_code 16 255; byte_at error_code 8 255; byte_at error_code 0 255]) h.

Definition response_headers : HttpHeaders :=
  mset (str "content-type") (str "text/plain") (mset (str ":status") (str "200") []).

(** The results of the two sends are ignored. *)
Definition handle_complete_request (s : Http2Stream.t) (h : t) : option (t * Z) :=
  if negb (conn_ h) then Some (h, PROTOCOL_ERROR_INVALID)
  else
    '(h1, _) ← send_headers_frame (stream_id s) response_headers false h;
    '(h2, _) ← (if negb (bool_decide (body (request s) = []))
                then send_data_frame (stream_id s) (body (request s)) true h1
                else send_data_frame (stream_id s) (str "OK") true h1);
    Some (h2, PROTOCOL_OK).

Definition send_response (data : bytes) (h : t) : option (t * Z) := send_data_frame 1 data true h.

(** * Receiving *)

Definition find_stream (sid : Z) (h : t) : option Http2Stream.t := mfind sid (streams_ h).
(** A write through the stream pointer. *)
Definition put_stream (sid : Z) (s : Http2Stream.t) (h : t) : t :=
  set_streams (mset sid s (streams_ h)) h.

Definition get_or_create_stream (sid : Z) (h : t) : t * Http2Stream.t :=
  match find_stream sid h with
  | Some s => (h, s)
  | None => let s := Http2Stream.init sid in (put_stream sid s h, s)
  end.

(** The [switch] on the identifier. *)
Definition apply_setting (id value : Z) (s : Http2Settings) : Http2Settings :=
  match id with
  | 1 => mkSettings value (enable_push s) (max_concurrent_streams s) (max_frame_size s) (initial_window_size s) (max_header_list_size s)
  | 2 => mkSettings (header_table_size s) value (max_concurrent_streams s) (max_frame_size s) (initial_window_size s) (max_header_list_size s)
  | 3 => mkSettings (header_table_size s) (enable_push s) value (max_frame_size s) (initial_window_size s) (max_header_list_size s)
  | 4 => mkSettings (header_table_size s) (enable_push s) (max_concurrent_streams s) (max_frame_size s) value (max_header_list_size s)
  | 5 => mkSettings (header_table_size s) (enable_push s) (max_concurrent_streams s) value (initial_window_size s) (max_header_list_size s)
  | 6 => mkSettings (header_table_size s) (enable_push s) (max_concurrent_streams s) (max_frame_size s) (initial_window_size s) value
  | _ => s
  end.

(** Six bytes at a time; a shorter rest is ignored. *)
Fixpoint read_settings (payload : bytes) (s : Http2Settings) : Http2Settings :=
  match payload with
  | i1 :: i0 :: v3 :: v2 :: v1 :: v0 :: r =>
      read_settings r (apply_setting (Z.lor (Z.shiftl (b2z i1) 8) (b2z i0)) (be32 v3 v2 v1 v0) s)
  | _ => s
  end.

Definition handle_settings_frame (payload : bytes) (h : t) : option (t * Z) :=
  if blen payload =? 0 then Some (set_acks true (settings_ack_sent_ h) h, PROTOCOL_OK)
  else send_settings_ack (set_settings (read_settings payload (settings_ h)) h).

(** [flags & bit]. *)
Definition has_flag (flags bit : Z) : bool := negb (Z.land flags bit =? 0).

Definition handle_headers_frame (sid : Z) (payload : bytes) (flags : Z) (h : t) : option (t * Z) :=
  let '(h0, s0) := get_or_create_stream sid h in
  let s1 := if bool_decide (state s0 = IDLE) then set_state OPEN s0 else s0 in
  let h1 := put_stream sid s1 h0 in
  match Hpack.decode (hpack_decoder_ h1) payload with
  | UB => None
  | Err ret => Some (h1, ret)
  | Ok (c, hs, ret) =>
      let h2 := set_decoder c h1 in
      if negb (ret =? PROTOCOL_OK) then Some (h2, ret)
      else
        let s2 := add_headers hs s1 in
        if negb (has_flag flags HTTP2_FLAG_END_HEADERS) then Some (put_stream sid s2 h2, PROTOCOL_OK)
        else if has_flag flags HTTP2_FLAG_END_STREAM then
          let s3 := set_state HALF_CLOSED_REMOTE s2 in
          handle_complete_request s3 (put_stream sid s3 h2)
        else Some (put_stream sid s2 h2, PROTOCOL_OK)
  end.

Definition handle_data_frame (sid : Z) (payload : bytes) (flags : Z) (h : t) : option (t * Z) :=
  match find_stream sid h with
  | None => Some (h, PROTOCOL_ERROR_INVALID)
  | Some s =>
      let s1 := if 0 <? blen payload then append_body payload s else s in
      if has_flag flags HTTP2_FLAG_END_STREAM then
        let s2 := set_state HALF_CLOSED_REMOTE s1 in
        handle_complete_request s2 (put_stream sid s2 h)
      else Some (put_stream sid s1 h, PROTOCOL_OK)
  end.

Definition handle_continuation_frame (sid : Z) (payload : bytes) (flags : Z) (h : t) : option (t * Z) :=
  match find_stream sid h with
  | None => Some (h, PROTOCOL_ERROR_INVALID)
  | Some s =>
      match Hpack.decode (hpack_decoder_ h) payload with
      | UB => None
      | Err ret => Some (h, ret)
      | Ok (c, hs, ret) =>
          let h1 := set_decoder c h in
          if negb (ret =? PROTOCOL_OK) then Some (h1, ret)
          else
            let s1 := add_headers hs s in
            let h2 := put_stream sid s1 h1 in
            if has_flag flags HTTP2_FLAG_END_HEADERS && bool_decide (state s1 = HALF_CLOSED_REMOTE)
            then handle_complete_request s1 h2
            else Some (h2, PROTOCOL_OK)
      end
  end.

Definition MAX_WINDOW : Z := 0x7FFFFFFF.

(** The saturating addition, in [int32_t]. *)
Definition grow_window (incr : Z) (s : Http2Stream.t) : Http2Stream.t :=
  if MAX_WINDOW - incr <? send_window s then set_window MAX_WINDOW s
  else set_window (i32 (send_window s + incr)) s.

Definition handle_window_update_frame (sid increment : Z) (h : t) : t * Z :=
  if (increment =? 0) || (MAX_WINDOW <? increment) then (h, PROTOCOL_ERROR_INVALID)
  else if sid =? 0 then
    (set_streams (map (fun p => (p.1, grow_window increment p.2)) (streams_ h)) h, PROTOCOL_OK)
  else
    match find_stream sid h with
    | Some s => (put_stream sid (grow_window increment s) h, PROTOCOL_OK)
    | None => (h, PROTOCOL_OK)
    end.

Definition handle_rst_stream_frame (sid : Z) (h : t) : t * Z :=
  match find_stream sid h with
  | Some s => (put_stream sid (set_state CLOSED s) h, PROTOCOL_OK)
  | None => (h, PROTOCOL_OK)
  end.

Definition handle_ping_frame (payload : bytes) (h : t) : option (t * Z) :=
  if 8 <=? blen payload then
    '(h1, _) ← write_frame (mkFrame PING 0 HTTP2_FLAG_ACK (ztake 8 payload)) h; Some (h1, PROTOCOL_OK)
  else Some (h, PROTOCOL_OK).

Definition handle_goaway_frame (h : t) : t * Z := (h, PROTOCOL_OK).

(** [payload] is the [header->length] bytes at the pointer. *)
Definition handle_frame (fh : frame_header) (payload : bytes) (h : t) : option (t * Z) :=
  let ty := type_ fh in
  if ty =? SETTINGS then handle_settings_frame payload h
  else if ty =? HEADERS then handle_headers_frame (stream_ fh) payload (flags_ fh) h
  else if ty =? DATA then handle_data_frame (stream_ fh) payload (flags_ fh) h
  else if ty =? CONTINUATION then handle_continuation_frame (stream_ fh) payload (flags_ fh) h
  else if ty =? WINDOW_UPDATE then
    match payload with
    | a :: b :: c :: d :: _ =>
        Some (handle_window_update_frame (stream_ fh) (Z.land (be32 a b c d) 0x7FFFFFFF) h)
    | _ => Some (h, PROTOCOL_OK)
    end
  else if ty =? RST_STREAM then
    if 4 <=? blen payload then Some (handle_rst_stream_frame (stream_ fh) h) else Some (h, PROTOCOL_OK)
  else if ty =? PING then handle_ping_frame payload h
  else if ty =? GOAWAY then Some (handle_goaway_frame h)
  else Some (h, PROTOCOL_OK).

Definition read_frame (h : t) : option (t * Z) :=
  let b := plaintext_buffer_ h in
  let data := Buffer.slice (Buffer.data_ b) (Buffer.read_idx_ b) (Buffer.readable_bytes b) in
  if Buffer.readable_bytes b <? HTTP2_FRAME_HEADER_SIZE then Some (h, PROTOCOL_ERROR_EAGAIN)
  else
    match parse_frame_header data with
    | None => None   (* out of bounds: excluded by the guard *)
    | Some fh =>
        if Buffer.readable_bytes b <? HTTP2_FRAME_HEADER_SIZE + length_ fh
        then Some (h, PROTOCOL_ERROR_EAGAIN)
        else
          let payload := ztake (length_ fh) (zdrop HTTP2_FRAME_HEADER_SIZE data) in
          '(h1, ret) ← handle_frame fh payload (set_buffer (Buffer.skip b HTTP2_FRAME_HEADER_SIZE) h);
          Some (set_buffer (Buffer.skip (plaintext_buffer_ h1) (length_ fh)) h1, ret)
    end.

Inductive run_result := Returned (h : t) (ret : Z) | Undefined | OutOfFuel.

(** The [while (true)] of [on_read]. *)
Fixpoint frames_loop (fuel : nat) (h : t) : run_result :=
  match fuel with
  | O => OutOfFuel
  | S n =>
      match read_frame h with
      | None => Undefined
      | Some (h1, ret) =>
          if ret =? PROTOCOL_ERROR_EAGAIN then Returned h1 PROTOCOL_OK
          else if ret <? 0 then Returned h1 ret
          else frames_loop n h1
      end
  end.

(** Each round consumes a frame header, so the readable bytes bound the rounds. *)
Definition loop_fuel (h : t) : nat :=
  S (Z.to_nat (Buffer.readable_bytes (plaintext_buffer_ h))).

Definition on_read (h : t) : run_result :=
  match tls_read (tls_handler_ h) 4096 with
  | None => Undefined
  | Some (x, ret, d) =>
      let h1 := set_tls x h in
      if ret =? PROTOCOL_ERROR_EAGAIN then Returned h1 PROTOCOL_OK
      else if ret <? 0 then Returned h1 ret
      else
        match (if 0 <? blen d then fst <$> Buffer.write (plaintext_buffer_ h1) (Some d)
               else Some (plaintext_buffer_ h1)) with
        | None => Undefined
        | Some b => let h2 := set_buffer b h1 in frames_loop (loop_fuel h2) h2
        end
  end.

Definition on_write (h : t) : t * Z := (h, PROTOCOL_OK).

Definition reset (h : t) : t :=
  mk (conn_ h) (tls_handler_ h) [] (plaintext_buffer_ h) (settings_ h) (local_settings_ h) 0
     (hpack_decoder_ h) false false.
Definition close (h : t) : t := reset (set_tls (tls_close (tls_handler_ h)) h).

(** The constructor and [init] with an initialised TLS layer: the SETTINGS
    frame's own result is ignored. *)
Definition create (conn : bool) (x : T) : t :=
  mk conn x [] (Buffer.create Buffer.DEFAULT_INITIAL_CAPACITY) settings_reset settings_reset 0
     Hpack.codec_new false false.
Definition init (conn : bool) (x : T) : option (t * Z) :=
  '(h, _) ← send_settings_frame (create conn x); Some (h, PROTOCOL_OK).

(** * Writing never touches anything but the TLS layer *)

(** The call only changes the TLS state, by writes; it is undefined only if one
    of them is. *)
Definition only_tls (h : t) (r : option (t * Z)) : Prop :=
  match r with
  | Some (h', _) => exists x, h' = set_tls x h /\ (write_undefined x -> write_undefined (tls_handler_ h))
  | None => write_undefined (tls_handler_ h)
  end.

Lemma only_tls_ret h ret : only_tls h (Some (h, ret)).
Proof. exists (tls_handler_ h). by destruct h. Qed.

Lemma only_tls_bind h r (k : t -> Z -> option (t * Z)) :
  only_tls h r -> (forall x ret, only_tls (set_tls x h) (k (set_tls x h) ret)) ->
  only_tls h ('(h1, ret) ← r; k h1 ret).
Proof.
  destruct r as [[h1 ret]|]; [|done]. intros (x & -> & Hx) Hk. specialize (Hk x ret). cbn in *.
  destruct (k (set_tls x h) ret) as [[h2 ret']|]; [|by apply Hx].
  destruct Hk as (y & -> & Hy). exists y. split; [done|]. auto.
Qed.

Lemma tls_write_only_tls d h (k : T -> Z -> Z -> option (t * Z)) :
  (forall x ret n, only_tls (set_tls x h) (k x ret n)) ->
  only_tls h ('(x, ret, n) ← tls_write (tls_handler_ h) d; k x ret n).
Proof.
  intros Hk. destruct (tls_write (tls_handler_ h) d) as [[[x ret] n]|] eqn:E; cbn [mbind option_bind].
  2: { apply wu_now. by exists d. }
  assert (Hu : write_undefined x -> write_undefined (tls_handler_ h)) by (intros Hu; by eapply wu_later).
  specialize (Hk x ret n). destruct (k x ret n) as [[h' r]|]; [|by apply Hu].
  destruct Hk as (y & -> & Hy). exists y. split; [done|]. auto.
Qed.

Lemma write_frame_only_tls f h : only_tls h (write_frame f h).
Proof.
  unfold write_frame. apply tls_write_only_tls. intros x ret n.
  ifz; [apply only_tls_ret|]. ifz; [apply only_tls_ret|]. ifz; [|apply only_tls_ret].
  apply (tls_write_only_tls (fpayload f) (set_tls x h)). intros y ret' n'.
  ifz; [apply only_tls_ret|]. ifz; apply only_tls_ret.
Qed.

Lemma zdrop_shorter {A} n (l : list A) m :
  0 < n -> (length l < S m)%nat -> 0 < blen l -> (length (zdrop n l) < m)%nat.
Proof. intros Hn Hl Hp. unfold zdrop, blen in *. rewrite length_drop. lia. Qed.

Lemma send_continuations_only_tls fuel sid mx payload h :
  0 < mx -> (length payload < fuel)%nat ->
  only_tls h (send_continuations fuel sid mx payload h).
Proof.
  intros Hm. revert payload h. induction fuel as [|n IH]; intros payload h Hl; [lia|].
  cbn [send_continuations]. ifz; [|by apply write_frame_only_tls].
  apply only_tls_bind; [by apply write_frame_only_tls|]. intros x ret.
  ifz; [apply only_tls_ret|]. apply IH. apply zdrop_shorter; lia.
Qed.

Lemma send_headers_only_tls sid hs es h :
  0 < max_frame_size (local_settings_ h) -> only_tls h (send_headers_frame sid hs es h).
Proof.
  intros Hm. unfold send_headers_frame. ifz; [by apply write_frame_only_tls|].
  apply only_tls_bind; [by apply write_frame_only_tls|]. intros x ret.
  ifz; [apply only_tls_ret|]. apply send_continuations_only_tls; [done|].
  assert (0 < blen (Hpack.encode hs)) by lia.
  enough (length (zdrop (max_frame_size (local_settings_ h)) (Hpack.encode hs)) <
    length (Hpack.encode hs))%nat by lia.
  apply zdrop_shorter; lia.
Qed.

Lemma send_data_only_tls sid d es h :
  0 < max_frame_size (local_settings_ h) -> only_tls h (send_data_frame sid d es h).
Proof.
  intros Hm. unfold send_data_frame. assert (Hl : (length d < S (length d))%nat) by lia.
  revert Hm Hl. generalize (max_frame_size (local_settings_ h)) as mx.
  generalize (S (length d)) as fuel. intros fuel mx Hm. revert d h.
  induction fuel as [|n IH]; intros d h Hl; [lia|]. cbn [send_data_loop].
  ifz; [apply only_tls_ret|]. pose proof (blen_nonneg d).
  apply only_tls_bind; [by apply write_frame_only_tls|]. intros x ret.
  ifz; [apply only_tls_ret|]. apply IH. apply zdrop_shorter; lia.
Qed.

Lemma handle_complete_only_tls s h :
  0 < max_frame_size (local_settings_ h) -> only_tls h (handle_complete_request s h).
Proof.
  intros Hm. unfold handle_complete_request. ifz; [apply only_tls_ret|].
  apply only_tls_bind; [by apply send_headers_only_tls|]. intros x ret.
  apply only_tls_bind; [ifz; by apply send_data_only_tls|]. intros y ret'. apply only_tls_ret.
Qed.

(** * Invariant *)

Record stream_ok (p : Z * Http2Stream.t) : Prop := {
  so_id : stream_id p.2 = p.1;
  so_window : 0 <= send_window p.2 <= MAX_WINDOW;
}.

Record inv (h : t) : Prop := {
  inv_buffer : Buffer.wf (plaintext_buffer_ h);
  inv_local : local_settings_ h = settings_reset;
  inv_map : mwf (streams_ h);
  inv_streams : Forall stream_ok (streams_ h);
}.

Lemma set_tls_inv x h : inv h -> inv (set_tls x h).
Proof. by intros [? ? ? ?]; split. Qed.

Lemma put_stream_inv sid s h : inv h -> stream_ok (sid, s) -> inv (put_stream sid s h).
Proof.
  intros [Hb Hl Hm Hs] Ho. split; cbn; [done|done|by apply mwf_mset|]. by apply mset_Forall.
Qed.

Lemma find_stream_ok sid h s : inv h -> find_stream sid h = Some s -> stream_ok (sid, s).
Proof.
  intros Hi Hf. apply mfind_Some_In in Hf. pose proof (inv_streams h Hi) as Hs.
  rewrite List.Forall_forall in Hs. by apply Hs.
Qed.

Lemma grow_window_ok incr sid s : 0 < incr <= MAX_WINDOW -> stream_ok (sid, s) ->
  stream_ok (sid, grow_window incr s) /\
  send_window (grow_window incr s) = Z.min MAX_WINDOW (send_window s + incr).
Proof.
  intros Hi [Hid Hw]. cbn in *. unfold grow_window, i32, MAX_WINDOW in *.
  ifz; cbn; [|rewrite Z.mod_small by lia]; (split; [split; cbn; [done|]|]); unfold MAX_WINDOW; lia.
Qed.

Lemma init_stream_ok sid : stream_ok (sid, Http2Stream.init sid).
Proof. split; cbn; [done|by vm_compute]. Qed.

(** What a handler may do: return a good state that has the same buffer, or be
    undefined, because a TLS write is or because of [ub] (the HPACK decoder). *)
Definition handler_ok (ub : Prop) (h : t) (r : option (t * Z)) : Prop :=
  match r with
  | Some (h', ret) => inv h' /\ plaintext_buffer_ h' = plaintext_buffer_ h /\
      (write_undefined (tls_handler_ h') -> write_undefined (tls_handler_ h))
  | None => write_undefined (tls_handler_ h) \/ ub
  end.

Lemma handler_ok_some ub h h' ret : inv h' -> plaintext_buffer_ h' = plaintext_buffer_ h ->
  tls_handler_ h' = tls_handler_ h -> handler_ok ub h (Some (h', ret)).
Proof. intros Hi Hb Ht. cbn. by rewrite Ht. Qed.

Lemma only_tls_handler_ok ub h0 h r :
  inv h -> plaintext_buffer_ h = plaintext_buffer_ h0 -> tls_handler_ h = tls_handler_ h0 ->
  only_tls h r -> handler_ok ub h0 r.
Proof.
  intros Hi Hb Ht. destruct r as [[h' ret]|]; cbn; rewrite <- Ht; [|by left].
  intros (x & -> & Hx). split_and!; [by apply set_tls_inv|done|done].
Qed.

Lemma local_max h : inv h -> 0 < max_frame_size (local_settings_ h).
Proof. intros Hi. rewrite (inv_local h Hi). done. Qed.

Lemma handle_settings_ok payload h : inv h -> handler_ok False h (handle_settings_frame payload h).
Proof.
  intros Hi. unfold handle_settings_frame. ifz; [split; [by destruct Hi; split|done]|].
  set (h1 := set_settings _ h). assert (Hi1 : inv h1) by (by destruct Hi; split).
  unfold send_settings_ack. ifz; [|by split].
  apply (only_tls_handler_ok _ h (set_acks (settings_ack_received_ h1) true h1));
    [by destruct Hi1; split|done|done|apply write_frame_only_tls].
Qed.

Lemma handle_complete_ok ub s h0 h : inv h -> plaintext_buffer_ h = plaintext_buffer_ h0 ->
  tls_handler_ h = tls_handler_ h0 -> handler_ok ub h0 (handle_complete_request s h).
Proof.
  intros Hi Hb Ht. apply (only_tls_handler_ok ub h0 h _ Hi Hb Ht).
  by apply handle_complete_only_tls, local_max.
Qed.

Lemma handle_headers_ok sid payload flags h :
  inv h -> handler_ok (Hpack.hpack_decode payload = UB) h (handle_headers_frame sid payload flags h).
Proof.
  intros Hi. unfold handle_headers_frame, get_or_create_stream.
  assert (Hg : exists h0 s0, (match find_stream sid h with
      | Some s => (h, s) | None => (put_stream sid (Http2Stream.init sid) h, Http2Stream.init sid) end) = (h0, s0) /\
    inv h0 /\ plaintext_buffer_ h0 = plaintext_buffer_ h /\ tls_handler_ h0 = tls_handler_ h /\ stream_ok (sid, s0)).
  { destruct (find_stream sid h) as [s|] eqn:Ef.
    - exists h, s. split_and!; [done..|by apply (find_stream_ok _ h)].
    - do 2 eexists. split; [reflexivity|]. split_and!; [|done|done|apply init_stream_ok].
      apply put_stream_inv; [done|apply init_stream_ok]. }
  destruct Hg as (h0 & s0 & -> & Hi0 & Hb0 & Ht0 & Hs0).
  set (s1 := if bool_decide (state s0 = IDLE) then _ else _).
  assert (Hs1 : stream_ok (sid, s1)).
  { destruct Hs0 as [Ha Hw]. unfold s1. case_bool_decide; by split. }
  pose proof (put_stream_inv sid s1 h0 Hi0 Hs1) as Hi1.
  destruct (Hpack.decode _ payload) as [[[c hs] ret]|ret|] eqn:Ed; [|by apply handler_ok_some|right; by eapply Hpack.hpack_decode_ub].
  assert (Hi2 : inv (set_decoder c (put_stream sid s1 h0))) by (by destruct Hi1; split).
  ifz; [by apply handler_ok_some|].
  assert (Hs2 : stream_ok (sid, add_headers hs s1)) by (by destruct Hs1; split).
  pose proof (put_stream_inv sid _ _ Hi2 Hs2).
  ifz; [by apply handler_ok_some|]. ifz; [|by apply handler_ok_some].
  apply handle_complete_ok; [|done..]. apply put_stream_inv; [done|by destruct Hs2; split].
Qed.

Lemma handle_data_ok sid payload flags h :
  inv h -> handler_ok False h (handle_data_frame sid payload flags h).
Proof.
  intros Hi. unfold handle_data_frame. destruct (find_stream sid h) as [s|] eqn:Ef; [|by split].
  pose proof (find_stream_ok _ _ _ Hi Ef) as Hs. set (s1 := if 0 <? blen payload then _ else _).
  assert (Hs1 : stream_ok (sid, s1)) by (destruct Hs; unfold s1; ifz; by split).
  ifz.
  - apply handle_complete_ok; [|done..]. apply put_stream_inv; [done|by destruct Hs1; split].
  - split; [by apply put_stream_inv|done].
Qed.

Lemma handle_continuation_ok sid payload flags h :
  inv h -> handler_ok (Hpack.hpack_decode payload = UB) h (handle_continuation_frame sid payload flags h).
Proof.
  intros Hi. unfold handle_continuation_frame. destruct (find_stream sid h) as [s|] eqn:Ef; [|by split].
  pose proof (find_stream_ok _ _ _ Hi Ef) as Hs.
  destruct (Hpack.decode _ payload) as [[[c hs] ret]|ret|] eqn:Ed; [|by split|right; by eapply Hpack.hpack_decode_ub].
  assert (Hi2 : inv (set_decoder c h)) by (by destruct Hi; split).
  ifz; [by split|].
  assert (Hs2 : stream_ok (sid, add_headers hs s)) by (by destruct Hs; split).
  pose proof (put_stream_inv sid _ _ Hi2 Hs2).
  destruct (_ && _)%bool; [|by split]. by apply handle_complete_ok.
Qed.

Lemma window_update_inv sid incr h : inv h -> 0 <= incr ->
  handler_ok False h (Some (handle_window_update_frame sid incr h)).
Proof.
  intros Hi Hn. unfold handle_window_update_frame. ifz; [by apply handler_ok_some|].
  assert (Hr : 0 < incr <= MAX_WINDOW) by lia. ifz.
  - apply handler_ok_some; [|done..]. destruct Hi as [Hb Hl Hm Hs]. split; cbn; [done|done| |].
    + clear - Hm. induction (streams_ h) as [|[k v] l IH]; cbn in *; [done|].
      destruct Hm as [Hf Hm]. split; [|by apply IH]. apply Forall_map. eapply Forall_impl; [exact Hf|]. done.
    + apply Forall_map. eapply Forall_impl; [exact Hs|]. intros [k v] Ho.
      by destruct (grow_window_ok incr k v Hr Ho).
  - destruct (find_stream sid h) as [s|] eqn:Ef; [|by apply handler_ok_some]. apply handler_ok_some; [|done..].
    apply put_stream_inv; [done|]. pose proof (find_stream_ok _ _ _ Hi Ef) as Hs.
    by destruct (grow_window_ok incr sid s Hr Hs).
Qed.

(** A complete HEADERS or CONTINUATION frame that the HPACK decoder is not safe against. *)
Definition hostile_block (fh : frame_header) (payload : bytes) : Prop :=
  (type_ fh = HEADERS \/ type_ fh = CONTINUATION) /\ Hpack.hpack_decode payload = UB.

Lemma handler_ok_mono (ub ub' : Prop) h r : (ub -> ub') -> handler_ok ub h r -> handler_ok ub' h r.
Proof. intros Hu. destruct r as [[h' ret]|]; [done|]. intros [?|?]; [by left|right; auto]. Qed.

Lemma handle_frame_ok fh payload h : inv h -> handler_ok (hostile_block fh payload) h (handle_frame fh payload h).
Proof.
  intros Hi. unfold handle_frame.
  ifz; [by eapply handler_ok_mono, handle_settings_ok|].
  ifz; [eapply handler_ok_mono, handle_headers_ok; [split; [by left|done]|done]|].
  ifz; [by eapply handler_ok_mono, handle_data_ok|].
  ifz; [eapply handler_ok_mono, handle_continuation_ok; [split; [by right|done]|done]|].
  ifz.
  { destruct payload as [|a [|b [|c [|d r]]]]; try (by apply handler_ok_some).
    eapply handler_ok_mono, window_update_inv; [done..|]. apply Z.land_nonneg. by right. }
  ifz.
  { ifz; [|by apply handler_ok_some]. unfold handle_rst_stream_frame.
    destruct (find_stream (stream_ fh) h) as [s|] eqn:Ef; [|by apply handler_ok_some]. apply handler_ok_some; [|done..].
    apply put_stream_inv; [done|]. pose proof (find_stream_ok _ _ _ Hi Ef) as Hs. by destruct Hs; split. }
  ifz.
  { unfold handle_ping_frame. ifz; [|by apply handler_ok_some].
    apply (only_tls_handler_ok _ h h); [done..|]. apply only_tls_bind; [apply write_frame_only_tls|].
    intros x ret. apply only_tls_ret. }
  ifz; by apply handler_ok_some.
Qed.

(** * Reading frames *)

Lemma parse_frame_header_len data fh : parse_frame_header data = Some fh -> 0 <= length_ fh.
Proof.
  unfold parse_frame_header. destruct data as [|a [|b [|c [|? [|? [|? [|? [|? [|? r]]]]]]]]]; try done.
  intros [= <-]. cbn. rewrite !Z.lor_nonneg, !Z.shiftl_nonneg.
  pose proof (b2z_range a); pose proof (b2z_range b); pose proof (b2z_range c). lia.
Qed.

Lemma parse_frame_header_some data : 9 <= blen data -> exists fh, parse_frame_header data = Some fh.
Proof.
  intros Hl. destruct data as [|a [|b [|c [|? [|? [|? [|? [|? [|? r]]]]]]]]];
    try (unfold blen in Hl; cbn in Hl; lia). by eexists.
Qed.

(** [read_frame] in terms of the buffer's contents. *)
Lemma read_frame_content h :
  Buffer.wf (plaintext_buffer_ h) ->
  read_frame h =
    (let data := Buffer.content (plaintext_buffer_ h) in
     if blen data <? 9 then Some (h, PROTOCOL_ERROR_EAGAIN)
     else
       match parse_frame_header data with
       | None => None
       | Some fh =>
           if blen data <? 9 + length_ fh then Some (h, PROTOCOL_ERROR_EAGAIN)
           else
             '(h1, ret) ← handle_frame fh (ztake (length_ fh) (zdrop 9 data))
                            (set_buffer (Buffer.skip (plaintext_buffer_ h) 9) h);
             Some (set_buffer (Buffer.skip (plaintext_buffer_ h1) (length_ fh)) h1, ret)
       end).
Proof.
  intros Hw. unfold read_frame. rewrite Buffer.readable_wf by done.
  fold (Buffer.content (plaintext_buffer_ h)). rewrite <- Buffer.blen_content by done. reflexivity.
Qed.

Lemma set_buffer_inv b h : inv h -> Buffer.wf b -> inv (set_buffer b h).
Proof. intros [? ? ? ?] ?. by split. Qed.

(** One of the complete frames at the head of the bytes is a HEADERS or
    CONTINUATION frame whose block makes the HPACK decoder shift past 31 bits. *)
Inductive overflows (data : bytes) : Prop :=
| overflows_here fh :
    parse_frame_header data = Some fh -> 9 + length_ fh <= blen data ->
    hostile_block fh (ztake (length_ fh) (zdrop 9 data)) -> overflows data
| overflows_later fh :
    parse_frame_header data = Some fh -> 9 + length_ fh <= blen data ->
    overflows (zdrop (9 + length_ fh) data) -> overflows data.

(** What one [read_frame] does with the buffer: nothing, or it takes the frame at
    its head. *)
Lemma read_frame_ok h : inv h ->
  match read_frame h with
  | Some (h', ret) => inv h' /\ (write_undefined (tls_handler_ h') -> write_undefined (tls_handler_ h)) /\
      (ret = PROTOCOL_ERROR_EAGAIN /\ plaintext_buffer_ h' = plaintext_buffer_ h \/
       exists fh, parse_frame_header (Buffer.content (plaintext_buffer_ h)) = Some fh /\ 0 <= length_ fh /\
         9 + length_ fh <= blen (Buffer.content (plaintext_buffer_ h)) /\
         Buffer.content (plaintext_buffer_ h') = zdrop (9 + length_ fh) (Buffer.content (plaintext_buffer_ h)))
  | None => write_undefined (tls_handler_ h) \/ overflows (Buffer.content (plaintext_buffer_ h))
  end.
Proof.
  intros Hi. pose proof (inv_buffer h Hi) as Hw. rewrite read_frame_content by done. cbv zeta.
  set (data := Buffer.content (plaintext_buffer_ h)). ifz; [split_and!; [done..|by left]|].
  destruct (parse_frame_header_some data E) as (fh & Ef). rewrite Ef.
  pose proof (parse_frame_header_len _ _ Ef) as Hlen. ifz; [split_and!; [done..|by left]|].
  set (h0 := set_buffer (Buffer.skip (plaintext_buffer_ h) 9) h).
  assert (Hi0 : inv h0) by (apply set_buffer_inv; [done|by apply Buffer.skip_wf]).
  pose proof (handle_frame_ok fh (ztake (length_ fh) (zdrop 9 data)) h0 Hi0) as Hok.
  destruct (handle_frame _ _ h0) as [[h1 ret]|]; cbn [mbind option_bind].
  2: { destruct Hok as [?|Hd]; [by left|]. right. by eapply overflows_here. }
  destruct Hok as (Hi1 & Hb1 & Ht1). cbn [plaintext_buffer_ set_buffer tls_handler_]. rewrite Hb1.
  assert (Hw0 : Buffer.wf (plaintext_buffer_ h0)) by apply (inv_buffer h0 Hi0).
  split; [apply set_buffer_inv; [done|by apply Buffer.skip_wf]|]. split; [done|]. right. exists fh.
  split_and!; [done..|]. rewrite Buffer.skip_content by done. unfold h0. cbn [plaintext_buffer_ set_buffer].
  rewrite Buffer.skip_content by done. fold data. by rewrite zdrop_zdrop by lia.
Qed.

Lemma frames_loop_ok fuel h : inv h ->
  blen (Buffer.content (plaintext_buffer_ h)) < Z.of_nat fuel ->
  match frames_loop fuel h with
  | Returned h' ret => inv h' /\ ret <= 0 /\
      blen (Buffer.content (plaintext_buffer_ h')) <= blen (Buffer.content (plaintext_buffer_ h))
  | Undefined => write_undefined (tls_handler_ h) \/ overflows (Buffer.content (plaintext_buffer_ h))
  | OutOfFuel => False
  end.
Proof.
  revert h. induction fuel as [|n IH]; intros h Hi Hl.
  { pose proof (blen_nonneg (Buffer.content (plaintext_buffer_ h))). lia. }
  cbn [frames_loop]. pose proof (read_frame_ok h Hi) as Hr.
  destruct (read_frame h) as [[h1 ret]|]; [|exact Hr].
  destruct Hr as (Hi1 & Ht1 & [[-> Hb]|(fh & Ef & Hlen & Hle & Hc)]); [cbn; by rewrite Hb|].
  assert (Hl1 := f_equal blen Hc). rewrite blen_zdrop in Hl1.
  destruct (ret =? PROTOCOL_ERROR_EAGAIN) eqn:E1; zb; [split_and!; [done..|lia]|].
  destruct (ret <? 0) eqn:E2; zb; [split_and!; [done|lia..]|].
  specialize (IH h1 Hi1 ltac:(lia)). destruct (frames_loop n h1); [|rewrite Hc in IH|done].
  - destruct IH as (? & ? & ?). split_and!; [done..|lia].
  - destruct IH as [?|?]; [left; auto|right; by eapply overflows_later].
Qed.

End Http2Handler.
Arguments t : clear implicits.
Arguments run_result : clear implicits.

Lemma on_read_h2_ok {T} `{!TlsLayer T} (h : t T) :
  inv h -> blen (Buffer.content (plaintext_buffer_ h)) + 4096 <= Buffer.MAX_CAPACITY ->
  match on_read h with
  | Returned h' ret => inv h' /\ ret <= 0 /\
      blen (Buffer.content (plaintext_buffer_ h')) <=
        blen (Buffer.content (plaintext_buffer_ h)) + 4096
  | Undefined => tls_undefined (tls_handler_ h) 4096 \/
      exists x ret d, tls_read (tls_handler_ h) 4096 = Some (x, ret, d) /\
        overflows (Buffer.content (plaintext_buffer_ h) ++ d)
  | OutOfFuel => False
  end.
Proof.
  intros Hi Hroom. unfold on_read.
  destruct (tls_read (tls_handler_ h) 4096) as [[[x ret] d]|] eqn:E; [|by left; left].
  pose proof (set_tls_inv x h Hi) as Hi1.
  destruct (ret =? PROTOCOL_ERROR_EAGAIN).
  { split; [done|]. split; [done|]. cbn [plaintext_buffer_ set_tls]. lia. }
  destruct (ret <? 0) eqn:Eneg; zb.
  { split; [done|]. split; [lia|]. cbn [plaintext_buffer_ set_tls]. lia. }
  pose proof (tls_read_len _ _ _ _ _ E ltac:(done)) as Hd. pose proof (blen_nonneg d).
  destruct (Buffer.receive_ok (plaintext_buffer_ h) d (inv_buffer h Hi)) as (b & Eb & Hwb & Hcb); [rewrite blen_app; lia|].
  change (plaintext_buffer_ (set_tls x h)) with (plaintext_buffer_ h). rewrite Eb. assert (Hlb := f_equal blen Hcb). rewrite blen_app in Hlb.
  set (h2 := set_buffer b (set_tls x h)). assert (Hi2 : inv h2) by (by apply set_buffer_inv).
  pose proof (frames_loop_ok (loop_fuel h2) h2 Hi2) as Hl.
  assert (Hf : blen (Buffer.content (plaintext_buffer_ h2)) < Z.of_nat (loop_fuel h2)).
  { unfold loop_fuel. rewrite Buffer.readable_content by done.
    pose proof (blen_nonneg (Buffer.content (plaintext_buffer_ h2))). lia. }
  specialize (Hl Hf). destruct (frames_loop (loop_fuel h2) h2); [| |done].
  2: { destruct Hl as [Hl|Hl]; [left; right|right]; exists x, ret, d; (split; [done|]); [exact Hl|]. by rewrite <- Hcb. }
  destruct Hl as (? & ? & Hlast). cbn [h2 plaintext_buffer_ set_buffer] in Hlast.
  split; [done|]. split; [done|]. unfold h2 in Hlast. cbn [plaintext_buffer_ set_buffer] in Hlast. lia.
Qed.

(** C10. Whatever bytes arrive, [on_read] terminates (a round of its loop
    consumes a frame header), keeps every stream's window inside [0, 2^31-1] and
    the stream table keyed by stream id, as long as the plaintext buffer has room
    for a TLS read. It is defined, but for two cases. The first is the TLS layer's
    own undefined behaviour: in the read of 4096 bytes, or in a write that
    further writes lead to from the state the read leaves (impossible in the build
    without OpenSSL; [TlsHandler] with OpenSSL has it when the connection's write
    buffer is full). The second is an HPACK integer that is shifted past 31 bits,
    in the block of a HEADERS or CONTINUATION frame, complete and one of the
    whole frames the buffered bytes begin with once the bytes read have joined
    them. *)
Theorem http2_on_read_safe {T} `{!TlsLayer T} (h : t T) :
  inv h -> blen (Buffer.content (plaintext_buffer_ h)) + 4096 <= Buffer.MAX_CAPACITY ->
  match on_read h with
  | Returned h' ret => inv h' /\ ret <= 0 /\
      blen (Buffer.content (plaintext_buffer_ h')) <=
        blen (Buffer.content (plaintext_buffer_ h)) + 4096
  | Undefined => tls_undefined (tls_handler_ h) 4096 \/
      exists x ret d, tls_read (tls_handler_ h) 4096 = Some (x, ret, d) /\
        overflows (Buffer.content (plaintext_buffer_ h) ++ d)
  | OutOfFuel => False
  end.
Proof. apply on_read_h2_ok. Qed.

Lemma http2_on_read_safe_witness :
  let h := create true (mkPlain [[x00; x00; x00; x04; x00; x00; x00; x00; x00]] []) in
  match on_read h with
  | Returned h' ret => inv h' /\ ret <= 0 /\
      blen (Buffer.content (plaintext_buffer_ h')) <= blen (Buffer.content (plaintext_buffer_ h)) + 4096
  | Undefined => tls_undefined (tls_handler_ h) 4096 \/
      exists x ret d, tls_read (tls_handler_ h) 4096 = Some (x, ret, d) /\
        overflows (Buffer.content (plaintext_buffer_ h) ++ d)
  | OutOfFuel => False
  end.
Proof.
  apply (http2_on_read_safe (create true (mkPlain [[x00; x00; x00; x04; x00; x00; x00; x00; x00]] []))).
  - split; cbn; [apply Buffer.create_wf|done|done|constructor].
  - by vm_compute.
Defined.

(** * The wire format *)

(** A frame whose fields fit the header. *)
Record valid_frame (f : frame) : Prop := {
  vf_type : is_u8 (ftype f);
  vf_flags : is_u8 (fflags f);
  vf_stream : 0 <= fstream f < 2 ^ 31;
  vf_length : blen (fpayload f) < 2 ^ 24;
}.

Definition frame_bytes (f : frame) : bytes := frame_header_bytes f ++ fpayload f.

Lemma b2z_byte_at v n : b2z (byte_at v n 255) = Z.shiftr v n mod 256.
Proof. unfold byte_at. rewrite b2z_z2b, land_255. apply Z.mod_mod. lia. Qed.

Lemma byte_at_127 v : 0 <= v < 2 ^ 31 -> byte_at v 24 127 = byte_at v 24 255.
Proof.
  intros Hv. unfold byte_at. rewrite land_127, land_255, Z.shiftr_div_pow2 by lia.
  assert (0 <= v / 2 ^ 24 < 128) by (split; [apply Z.div_pos; lia|apply Z.div_lt_upper_bound; lia]).
  by rewrite !Z.mod_small by lia.
Qed.

Lemma be32_byte_at v : 0 <= v < 2 ^ 32 ->
  be32 (byte_at v 24 255) (byte_at v 16 255) (byte_at v 8 255) (byte_at v 0 255) = v.
Proof.
  intros Hv. unfold be32. rewrite Buffer.be4_or. cbn [Buffer.be_decode]. rewrite !b2z_byte_at.
  rewrite !Z.shiftr_div_pow2 by lia. change (2 ^ 24) with 16777216. change (2 ^ 16) with 65536.
  change (2 ^ 8) with 256. change (2 ^ 0) with 1. Z.div_mod_to_equations. lia.
Qed.

Lemma be24_byte_at v : 0 <= v < 2 ^ 24 ->
  Z.lor (Z.lor (Z.shiftl (b2z (byte_at v 16 255)) 16) (Z.shiftl (b2z (byte_at v 8 255)) 8))
    (b2z (byte_at v 0 255)) = v.
Proof.
  intros Hv. pose proof (Buffer.be4_or x00 (byte_at v 16 255) (byte_at v 8 255) (byte_at v 0 255)) as H.
  change (Z.shiftl (b2z x00) 24) with 0 in H. rewrite Z.lor_0_l in H. rewrite H.
  cbn [Buffer.be_decode]. rewrite !b2z_byte_at. change (b2z x00) with 0.
  rewrite !Z.shiftr_div_pow2 by lia. change (2 ^ 16) with 65536.
  change (2 ^ 8) with 256. change (2 ^ 0) with 1. Z.div_mod_to_equations. lia.
Qed.

Lemma land_31 z : Z.land z 0x7FFFFFFF = z mod 2 ^ 31.
Proof. change 0x7FFFFFFF with (Z.ones 31). by rewrite Z.land_ones by lia. Qed.

Lemma parse_frame_header_bytes f x : valid_frame f ->
  parse_frame_header (frame_header_bytes f ++ x) =
    Some (mkHeader (blen (fpayload f)) (ftype f) (fflags f) (fstream f)).
Proof.
  intros [Ht Hf Hs Hl]. unfold frame_header_bytes. cbn [app parse_frame_header].
  rewrite byte_at_127 by done. rewrite be32_byte_at by lia.
  rewrite be24_byte_at by (pose proof (blen_nonneg (fpayload f)); lia).
  rewrite !b2z_z2b_small by done. rewrite land_31, Z.mod_small by lia. done.
Qed.

Lemma blen_frame_header f : blen (frame_header_bytes f) = 9.
Proof. reflexivity. Qed.

Section Wire.
Context {T : Type} `{!TlsLayer T}.

(** The frame at the head of the buffer is what [handle_frame] gets. *)
Lemma read_frame_frame (h : t T) f rest :
  Buffer.wf (plaintext_buffer_ h) -> valid_frame f ->
  Buffer.content (plaintext_buffer_ h) = frame_bytes f ++ rest ->
  read_frame h =
    ('(h1, ret) ← handle_frame (mkHeader (blen (fpayload f)) (ftype f) (fflags f) (fstream f))
                    (fpayload f) (set_buffer (Buffer.skip (plaintext_buffer_ h) 9) h);
     Some (set_buffer (Buffer.skip (plaintext_buffer_ h1) (blen (fpayload f))) h1, ret)).
Proof.
  intros Hw Hf Hc. rewrite read_frame_content, Hc by done. cbv zeta.
  unfold frame_bytes. rewrite <- app_assoc, !blen_app, blen_frame_header.
  pose proof (blen_nonneg (fpayload f)). pose proof (blen_nonneg rest).
  ifz; [lia|]. rewrite parse_frame_header_bytes by done. cbn [length_].
  ifz; [lia|]. rewrite <- (blen_frame_header f), zdrop_app_all, ztake_app_all. done.
Qed.

Lemma skip_frame (b : Buffer.t) f rest :
  Buffer.wf b -> Buffer.content b = frame_bytes f ++ rest ->
  let b' := Buffer.skip (Buffer.skip b 9) (blen (fpayload f)) in
  Buffer.wf b' /\ Buffer.content b' = rest.
Proof.
  intros Hw Hc. cbv zeta. pose proof (blen_nonneg (fpayload f)).
  assert (Hw9 : Buffer.wf (Buffer.skip b 9)) by (by apply Buffer.skip_wf).
  split; [by apply Buffer.skip_wf|]. rewrite !Buffer.skip_content, Hc by done.
  unfold frame_bytes. rewrite <- app_assoc, <- (blen_frame_header f), zdrop_app_all.
  apply zdrop_app_all.
Qed.

(** * What is sent, as frames *)

(** Send the frames in order, stopping at the first failure. *)
Fixpoint write_frames (fs : list frame) (h : t T) : option (t T * Z) :=
  match fs with
  | [] => Some (h, PROTOCOL_OK)
  | f :: r =>
      '(h1, ret) ← write_frame f h;
      if negb (ret =? PROTOCOL_OK) then Some (h1, ret) else write_frames r h1
  end.

Lemma write_frame_ret_ok f (h : t T) :
  write_frame f h = ('(h1, ret) ← write_frame f h;
    if negb (ret =? PROTOCOL_OK) then Some (h1, ret) else Some (h1, PROTOCOL_OK)).
Proof.
  destruct (write_frame f h) as [[h1 ret]|]; [|done]. cbn. ifz; [done|]. by subst.
Qed.

(** The frames after the first of a fragmented block. *)
Record continuation_frames (sid : Z) (payload : bytes) (mx : Z) (fs : list frame) : Prop := {
  cf_payload : concat (map fpayload fs) = payload;
  cf_frames : exists l last, fs = l ++ [last] /\ fflags last = HTTP2_FLAG_END_HEADERS /\
    Forall (fun f => fflags f = 0) l;
  cf_all : Forall (fun f => ftype f = CONTINUATION /\ fstream f = sid /\ blen (fpayload f) <= mx) fs;
}.

Lemma send_continuations_frames fuel sid mx payload :
  0 < mx -> (length payload < fuel)%nat ->
  exists fs, continuation_frames sid payload mx fs /\
    forall h : t T, send_continuations fuel sid mx payload h = write_frames fs h.
Proof.
  intros Hm. revert payload. induction fuel as [|n IH]; intros payload Hl; [lia|].
  cbn [send_continuations]. destruct (mx <? blen payload) eqn:E; zb.
  - destruct (IH (zdrop mx payload)) as (fs & [Hp (l & last & -> & Hlast & Hf) Ha] & Hs);
      [apply zdrop_shorter; lia|].
    exists (mkFrame CONTINUATION sid 0 (ztake mx payload) :: l ++ [last]). split.
    + split.
      * cbn [map concat fpayload]. rewrite Hp. apply ztake_zdrop.
      * exists (mkFrame CONTINUATION sid 0 (ztake mx payload) :: l), last. split; [done|].
        split; [done|]. by constructor.
      * constructor; [|done]. cbn. rewrite blen_ztake. repeat split. lia.
    + intros h. cbn [write_frames]. destruct (write_frame _ h) as [[h1 ret]|]; [|done].
      cbn. by rewrite Hs.
  - exists [mkFrame CONTINUATION sid HTTP2_FLAG_END_HEADERS payload]. split.
    + split.
      * cbn. by rewrite app_nil_r.
      * exists [], (mkFrame CONTINUATION sid HTTP2_FLAG_END_HEADERS payload). by repeat constructor.
      * by repeat constructor.
    + intros h. rewrite write_frame_ret_ok at 1. done.
Qed.

End Wire.

(** [send_headers_frame] sends the HPACK block as one HEADERS frame
    and as many CONTINUATION frames as [max_frame_size] requires: their payloads
    put together are the block, none is longer than the limit, [END_HEADERS] is
    on the last one only and [END_STREAM] on the first one exactly when asked. *)
Theorem headers_are_fragmented {T} `{!TlsLayer T} (h : t T) sid hs es :
  let mx := max_frame_size (local_settings_ h) in
  0 < mx ->
  exists first rest, send_headers_frame sid hs es h = write_frames (first :: rest) h /\
    concat (map fpayload (first :: rest)) = Hpack.encode hs /\
    Forall (fun f => fstream f = sid /\ blen (fpayload f) <= mx) (first :: rest) /\
    ftype first = HEADERS /\ Forall (fun f => ftype f = CONTINUATION) rest /\
    fflags first = (if es then HTTP2_FLAG_END_STREAM else 0) +
                   (if bool_decide (rest = []) then HTTP2_FLAG_END_HEADERS else 0) /\
    (rest <> [] -> exists l last, rest = l ++ [last] /\ fflags last = HTTP2_FLAG_END_HEADERS /\
       Forall (fun f => fflags f = 0) l).
Proof.
  cbv zeta. set (mx := max_frame_size (local_settings_ h)). intros Hm.
  unfold send_headers_frame. fold mx. set (p := Hpack.encode hs).
  set (flags := if es then Z.lor _ _ else _). destruct (blen p <=? mx) eqn:E; zb.
  - exists (mkFrame HEADERS sid flags p), []. split; [apply write_frame_ret_ok|].
    split; [cbn; by rewrite app_nil_r|]. split; [by repeat constructor|]. split; [done|].
    split; [constructor|]. split; [by destruct es|done].
  - destruct (send_continuations_frames (T := T) (S (length p)) sid mx (zdrop mx p) Hm)
      as (rest & [Hp Hf Ha] & Hs).
    { assert (length (zdrop mx p) < length p)%nat; [apply zdrop_shorter; lia|lia]. }
    exists (mkFrame HEADERS sid (Z.land flags (Z.lnot HTTP2_FLAG_END_HEADERS)) (ztake mx p)), rest. split; [|split; [|split; [|split; [done|]]]].
    + cbn [write_frames]. destruct (write_frame _ h) as [[h1 ret]|]; [|done].
      cbn [mbind option_bind]. by rewrite Hs.
    + cbn [map concat fpayload]. rewrite Hp. apply ztake_zdrop.
    + constructor; [cbn; rewrite blen_ztake; split; [done|lia]|].
      eapply Forall_impl; [exact Ha|]. cbn. tauto.
    + split; [eapply Forall_impl; [exact Ha|]; cbn; tauto|].
      destruct Hf as (l & last & -> & Hlast & Hl).
      rewrite bool_decide_eq_false_2 by (by destruct l). split; [by destruct es|].
      intros _. by exists l, last.
Qed.

Lemma headers_are_fragmented_witness :
  exists first rest,
    send_headers_frame 1 response_headers false (create true (mkPlain [] [])) =
      write_frames (first :: rest) (create true (mkPlain [] [])) /\
    concat (map fpayload (first :: rest)) = Hpack.encode response_headers /\
    Forall (fun f => fstream f = 1 /\ blen (fpayload f) <= 16384) (first :: rest) /\
    ftype first = HEADERS /\ Forall (fun f => ftype f = CONTINUATION) rest /\
    fflags first = 0 + (if bool_decide (rest = []) then HTTP2_FLAG_END_HEADERS else 0) /\
    (rest <> [] -> exists l last, rest = l ++ [last] /\ fflags last = HTTP2_FLAG_END_HEADERS /\
       Forall (fun f => fflags f = 0) l).
Proof.
  exact (headers_are_fragmented (create true (mkPlain [] [])) 1 response_headers false eq_refl).
Defined.

(** The frames [send_data_frame] makes of its data: DATA (type 0), the last one
    with END_STREAM (1). *)
Record data_frames (sid : Z) (d : bytes) (es : bool) (mx : Z) (fs : list frame) : Prop := {
  df_payload : concat (map fpayload fs) = d;
  df_all : Forall (fun f => ftype f = 0 /\ fstream f = sid /\ 0 < blen (fpayload f) <= mx) fs;
  df_flags : fs <> [] -> exists l last, fs = l ++ [last] /\ Forall (fun f => fflags f = 0) l /\
    fflags last = if es then 1 else 0;
}.

Lemma send_data_frames {T} `{!TlsLayer T} fuel sid mx d es :
  0 < mx -> (length d < fuel)%nat ->
  exists fs, data_frames sid d es mx fs /\
    forall h : t T, send_data_loop fuel sid mx d es h = write_frames fs h.
Proof.
  intros Hm. revert d. induction fuel as [|n IH]; intros d Hl; [lia|]. cbn [send_data_loop].
  destruct (blen d =? 0) eqn:Ed; zb.
  { apply blen_0_nil in Ed as ->. exists []. split; [|done]. by repeat constructor. }
  pose proof (blen_nonneg d). set (c := Z.min (blen d) mx).
  destruct (IH (zdrop c d)) as (fs & [Hp Ha Hf] & Hs); [apply zdrop_shorter; lia|].
  set (f := mkFrame DATA sid (if (c =? blen d) && es then HTTP2_FLAG_END_STREAM else 0) (ztake c d)).
  exists (f :: fs). split; cycle 1.
  { intros h. cbn [write_frames]. destruct (write_frame f h) as [[h1 ret]|]; [|done]. cbn. by rewrite Hs. }
  split.
  - cbn [map concat fpayload f]. rewrite Hp. apply ztake_zdrop.
  - constructor; [|done]. cbn. rewrite blen_ztake. repeat split; lia.
  - intros _. destruct (decide (fs = [])) as [->|Hne].
    + exists [], f. split; [done|]. split; [constructor|]. cbn.
      assert (Hnil : zdrop c d = []) by done. pose proof (blen_zdrop c d) as Hz.
      rewrite Hnil, blen_nil in Hz. replace (c =? blen d) with true by (symmetry; apply Z.eqb_eq; lia).
      by destruct es.
    + destruct (Hf Hne) as (l & last & -> & Hl0 & Hlast). exists (f :: l), last.
      split; [done|]. split; [|done]. constructor; [|done]. cbn.
      destruct (c =? blen d) eqn:Ec; zb; [|done]. exfalso. apply Hne.
      destruct l as [|x l]; [|]; rewrite Forall_app, ?Forall_cons in Ha;
        (assert (Hz : zdrop c d = []) by (apply zdrop_ge; lia)); rewrite Hz in Hp;
        cbn in Hp; apply app_eq_nil in Hp as [Hp _].
      * destruct Ha as [_ [(_ & _ & Hb) _]]. rewrite Hp in Hb. unfold blen in Hb. cbn in Hb. lia.
      * destruct Ha as [[(_ & _ & Hb) _] _]. rewrite Hp in Hb. unfold blen in Hb. cbn in Hb. lia.
Qed.

Lemma data_is_chunked_aux {T} `{!TlsLayer T} (h : t T) sid d :
  0 < max_frame_size (local_settings_ h) ->
  exists fs, send_data_frame sid d true h = write_frames fs h /\
    data_frames sid d true (max_frame_size (local_settings_ h)) fs.
Proof.
  intros Hm. destruct (send_data_frames (T := T) (S (length d)) sid _ d true Hm) as (fs & Hf & Hs); [lia|].
  exists fs. split; [apply Hs|done].
Qed.

(** [send_data_frame] cuts the data into non-empty DATA frames of at most
    [max_frame_size] bytes, in order, with [END_STREAM] (when asked) on the last
    one only. With no data it sends nothing, so [END_STREAM] is never sent. *)
Theorem data_is_chunked {T} `{!TlsLayer T} (h : t T) sid d es :
  let mx := max_frame_size (local_settings_ h) in
  0 < mx ->
  exists fs, send_data_frame sid d es h = write_frames fs h /\ data_frames sid d es mx fs /\
    (d = [] -> fs = []).
Proof.
  cbv zeta. intros Hm. destruct (send_data_frames (T := T) (S (length d)) sid _ d es Hm) as (fs & Hf & Hs); [lia|].
  exists fs. split; [apply Hs|]. split; [done|]. intros ->. destruct fs as [|f fs]; [done|].
  destruct Hf as [Hp Ha _]. cbn in Hp. apply app_eq_nil in Hp as [Hp _].
  rewrite Forall_cons in Ha. destruct Ha as [(_ & _ & Hb) _]. rewrite Hp in Hb. unfold blen in Hb. cbn in Hb. lia.
Qed.

Lemma data_is_chunked_witness :
  exists fs, send_data_frame 1 (str "abc") true (create true (mkPlain [] [])) =
      write_frames fs (create true (mkPlain [] [])) /\ data_frames 1 (str "abc") true 16384 fs /\
    (str "abc" = [] -> fs = []).
Proof. exact (data_is_chunked (create true (mkPlain [] [])) 1 (str "abc") true eq_refl). Defined.

(** * SETTINGS and flow control *)

Lemma be16_byte_at v : 0 <= v < 2 ^ 16 ->
  Z.lor (Z.shiftl (b2z (byte_at v 8 255)) 8) (b2z (byte_at v 0 255)) = v.
Proof.
  intros Hv. rewrite Buffer.be2_or. cbn [Buffer.be_decode]. rewrite !b2z_byte_at.
  rewrite !Z.shiftr_div_pow2 by lia. change (2 ^ 8) with 256. change (2 ^ 0) with 1.
  Z.div_mod_to_equations. lia.
Qed.

Lemma read_settings_param id v r s : 0 <= id < 2 ^ 16 -> is_u32 v ->
  read_settings (setting_param id v ++ r) s = read_settings r (apply_setting id v s).
Proof.
  intros Hi Hv. unfold setting_param. cbn [app read_settings].
  by rewrite be16_byte_at, be32_byte_at.
Qed.

(** A peer running this code that receives the SETTINGS frame of
    [send_settings_frame] ends up with the five values that were sent; the
    maximum header list size, which is never sent, keeps its old value. *)
Theorem settings_roundtrip s s0 :
  is_u32 (header_table_size s) -> is_u32 (enable_push s) -> is_u32 (max_concurrent_streams s) ->
  is_u32 (initial_window_size s) -> is_u32 (max_frame_size s) ->
  read_settings (settings_payload s) s0 =
    mkSettings (header_table_size s) (enable_push s) (max_concurrent_streams s) (max_frame_size s)
      (initial_window_size s) (max_header_list_size s0).
Proof.
  intros H1 H2 H3 H4 H5. unfold settings_payload.
  rewrite <- (app_nil_r (setting_param 5 _)).
  by rewrite !read_settings_param by (done || lia).
Qed.

Lemma settings_roundtrip_witness :
  read_settings (settings_payload settings_reset) (mkSettings 0 1 0 0 0 7) =
    mkSettings 4096 0 100 16384 65535 7.
Proof. apply (settings_roundtrip settings_reset (mkSettings 0 1 0 0 0 7)); by vm_compute. Defined.

Lemma mfind_map_grow incr sid (l : list (Z * Http2Stream.t)) :
  mfind sid (map (fun p => (p.1, grow_window incr p.2)) l) = grow_window incr <$> mfind sid l.
Proof.
  induction l as [|[k v] l IH]; [done|]. cbn. by destruct (sid ?= k).
Qed.

(** WINDOW_UPDATE adds its increment to the window of the stream (of
    every stream for stream 0), saturating at [2^31 - 1] and never wrapping the
    [int32_t]; an increment of 0 is refused and changes nothing. *)
Theorem window_update_saturates {T} (h : t T) sid incr k s :
  inv h -> 0 <= incr <= MAX_WINDOW -> find_stream k h = Some s ->
  let '(h', ret) := handle_window_update_frame sid incr h in
  exists s', find_stream k h' = Some s' /\
    send_window s' = (if (0 <? incr) && ((sid =? 0) || (k =? sid))
                      then Z.min MAX_WINDOW (send_window s + incr) else send_window s) /\
    0 <= send_window s' <= MAX_WINDOW /\
    ret = (if 0 <? incr then PROTOCOL_OK else PROTOCOL_ERROR_INVALID).
Proof.
  intros Hi Hr Hf. pose proof (find_stream_ok _ _ _ Hi Hf) as Hs. unfold handle_window_update_frame.
  destruct (0 <? incr) eqn:Epos; zb; cycle 1.
  { replace (incr =? 0) with true by (symmetry; apply Z.eqb_eq; lia).
    exists s. split; [done|]. split; [done|]. split; [apply Hs|done]. }
  replace ((incr =? 0) || (MAX_WINDOW <? incr))%bool with false
    by (symmetry; apply orb_false_iff; split; [apply Z.eqb_neq; lia|apply Z.ltb_ge; lia]).
  destruct (grow_window_ok incr k s ltac:(lia) Hs) as [Hok Hg]. cbn [andb].
  destruct (sid =? 0) eqn:E0; zb.
  - exists (grow_window incr s). split; [|split; [exact Hg|split; [apply Hok|done]]].
    unfold find_stream in *. cbn. by rewrite mfind_map_grow, Hf.
  - destruct (k =? sid) eqn:Ek; zb.
    + subst k. rewrite Hf. exists (grow_window incr s). split; [|split; [exact Hg|split; [apply Hok|done]]].
      apply mfind_mset_eq.
    + destruct (find_stream sid h) as [s2|]; exists s; (split; [|split; [done|split; [apply Hs|done]]]); [|done].
      unfold find_stream in *. cbn. by rewrite mfind_mset_ne.
Qed.

Definition two_streams : t PlainTls :=
  put_stream 3 (set_window MAX_WINDOW (Http2Stream.init 3))
    (put_stream 1 (Http2Stream.init 1) (create true (mkPlain [] []))).

Lemma two_streams_inv : inv two_streams.
Proof.
  assert (inv (create true (mkPlain [] []))) by (split; cbn; [apply Buffer.create_wf|done|done|constructor]).
  apply put_stream_inv; [apply put_stream_inv; [done|apply init_stream_ok]|].
  by split; [|by vm_compute].
Qed.

Lemma window_update_saturates_witness :
  let '(h', ret) := handle_window_update_frame 0 10 two_streams in
  exists s', find_stream 3 h' = Some s' /\
    send_window s' = (if (0 <? 10) && ((0 =? 0) || (3 =? 0)) then Z.min MAX_WINDOW (MAX_WINDOW + 10) else MAX_WINDOW) /\
    0 <= send_window s' <= MAX_WINDOW /\ ret = (if 0 <? 10 then PROTOCOL_OK else PROTOCOL_ERROR_INVALID).
Proof.
  exact (window_update_saturates two_streams 0 10 3 (set_window MAX_WINDOW (Http2Stream.init 3))
    two_streams_inv ltac:(by vm_compute) eq_refl).
Defined.

(** * What a client observes *)

(** C-preface. The client connection preface of RFC 7540 is read as a frame
    header announcing 5 263 945 bytes: until that many arrive, [read_frame] asks
    for more, whatever frames follow the preface. *)
Definition client_preface : bytes :=
  str "PRI * HTTP/2.0" ++ HttpParser.CRLF ++ HttpParser.CRLF ++ str "SM" ++ HttpParser.CRLF ++ HttpParser.CRLF.

Theorem client_preface_blocks_connection {T} `{!TlsLayer T} (h : t T) x :
  Buffer.wf (plaintext_buffer_ h) -> Buffer.content (plaintext_buffer_ h) = client_preface ++ x ->
  blen x < 5263930 -> read_frame h = Some (h, PROTOCOL_ERROR_EAGAIN).
Proof.
  intros Hw Hc Hx. rewrite read_frame_content, Hc by done. cbv zeta. rewrite blen_app.
  change (blen client_preface) with 24. pose proof (blen_nonneg x). ifz; [lia|].
  change (client_preface ++ x) with (x50 :: x52 :: x49 :: x20 :: x2a :: x20 :: x48 :: x54 :: x54 ::
    (str "P/2.0" ++ HttpParser.CRLF ++ HttpParser.CRLF ++ str "SM" ++ HttpParser.CRLF ++ HttpParser.CRLF ++ x)).
  unfold parse_frame_header. cbv iota.
  set (fh := mkHeader _ _ _ _). assert (length_ fh = 5263945) as -> by reflexivity. by ifz; [|lia].
Qed.

Lemma client_preface_blocks_connection_witness :
  let h := set_buffer (HttpParser.buffer_of (client_preface ++ [])) (create true (mkPlain [] [])) in
  read_frame h = Some (h, PROTOCOL_ERROR_EAGAIN).
Proof.
  destruct (HttpParser.buffer_of_spec (client_preface ++ [])) as [Hw Hc]; [by vm_compute|].
  apply (client_preface_blocks_connection
    (set_buffer (HttpParser.buffer_of (client_preface ++ [])) (create true (mkPlain [] []))) []);
    [exact Hw|exact Hc|by vm_compute].
Defined.

(** C-hpackub. One HEADERS frame of 17 bytes from a client makes [on_read] shift
    an [int] by 35 bits. *)
Definition overlong_frame : bytes :=
  frame_bytes (mkFrame HEADERS 1 5 [x40; xff; x80; x80; x80; x80; x80; x01]).

Theorem remote_undefined_behaviour :
  on_read (create true (mkPlain [overlong_frame] [])) = Undefined.
Proof. vm_compute. reflexivity. Qed.

(** A request whose header block is split between HEADERS (with
    END_STREAM) and CONTINUATION (with END_HEADERS) gets no response: the
    END_STREAM flag is dropped with the unfinished block. *)
Theorem fragmented_request_unanswered {T} `{!TlsLayer T} (h : t T) sid p1 p2 c1 c2 hs1 hs2 :
  find_stream sid h = None -> Hpack.decode (hpack_decoder_ h) p1 = Ok (c1, hs1, PROTOCOL_OK) ->
  Hpack.decode c1 p2 = Ok (c2, hs2, PROTOCOL_OK) ->
  exists h1 h2 s, handle_headers_frame sid p1 HTTP2_FLAG_END_STREAM h = Some (h1, PROTOCOL_OK) /\
    handle_continuation_frame sid p2 HTTP2_FLAG_END_HEADERS h1 = Some (h2, PROTOCOL_OK) /\
    tls_handler_ h2 = tls_handler_ h /\ find_stream sid h2 = Some s /\ state s = OPEN.
Proof.
  intros Hn H1 H2. unfold handle_headers_frame, get_or_create_stream. rewrite Hn.
  cbn [put_stream set_streams hpack_decoder_]. rewrite H1. cbn.
  do 3 eexists. split; [reflexivity|]. unfold handle_continuation_frame, find_stream. cbn.
  rewrite mfind_mset_eq, H2. cbn. split; [reflexivity|]. split; [done|].
  split; [apply mfind_mset_eq|done].
Qed.

Lemma fragmented_request_unanswered_witness :
  exists h1 h2 s,
    handle_headers_frame 1 (Hpack.encode [(str ":method", str "GET")]) HTTP2_FLAG_END_STREAM
      (create true (mkPlain [] [])) = Some (h1, PROTOCOL_OK) /\
    handle_continuation_frame 1 (Hpack.encode [(str ":path", str "/")]) HTTP2_FLAG_END_HEADERS h1 =
      Some (h2, PROTOCOL_OK) /\
    tls_handler_ h2 = mkPlain [] [] /\ find_stream 1 h2 = Some s /\ state s = OPEN.
Proof.
  apply (fragmented_request_unanswered (create true (mkPlain [] [])) 1
    (Hpack.encode [(str ":method", str "GET")]) (Hpack.encode [(str ":path", str "/")])
    Hpack.codec_new Hpack.codec_new [(str ":method", str "GET")] [(str ":path", str "/")]);
    vm_compute; reflexivity.
Defined.

(** * A whole request, over a layer that accepts every write *)

Lemma write_frame_plain f (h : t PlainTls) :
  exists x, write_frame f h = Some (set_tls x h, PROTOCOL_OK) /\
    concat (sent x) = concat (sent (tls_handler_ h)) ++ frame_bytes f /\
    incoming x = incoming (tls_handler_ h).
Proof.
  unfold write_frame. cbn [tls_write plain_layer mbind option_bind]. rewrite blen_frame_header.
  change (PROTOCOL_OK =? PROTOCOL_OK) with true. change (9 =? HTTP2_FRAME_HEADER_SIZE) with true.
  cbn [negb]. destruct (0 <? blen (fpayload f)) eqn:E; zb.
  - cbn [mbind option_bind tls_handler_ set_tls]. rewrite Z.eqb_refl. cbn [negb].
    eexists. split; [reflexivity|]. split; [|done]. cbn [sent]. rewrite !concat_app. cbn [concat].
    unfold frame_bytes. by rewrite !app_nil_r, <- app_assoc.
  - eexists. split; [reflexivity|]. split; [|done]. cbn [sent]. rewrite concat_app. cbn [concat].
    unfold frame_bytes. pose proof (blen_nonneg (fpayload f)).
    by rewrite (blen_0_nil (fpayload f)), !app_nil_r by lia.
Qed.

Lemma write_frames_plain fs (h : t PlainTls) :
  exists x, write_frames fs h = Some (set_tls x h, PROTOCOL_OK) /\
    concat (sent x) = concat (sent (tls_handler_ h)) ++ concat (map frame_bytes fs) /\
    incoming x = incoming (tls_handler_ h).
Proof.
  revert h. induction fs as [|f fs IH]; intros h; cbn [write_frames].
  - exists (tls_handler_ h). cbn. rewrite app_nil_r. by destruct h.
  - destruct (write_frame_plain f h) as (x & -> & Hx & Hinc). cbn [mbind option_bind].
    change (PROTOCOL_OK =? PROTOCOL_OK) with true. cbn [negb].
    destruct (IH (set_tls x h)) as (y & -> & Hy & Hinc2). exists y. split; [done|].
    cbn [set_tls tls_handler_] in Hy, Hinc2. rewrite Hy, Hx, Hinc2. cbn [map concat].
    by rewrite <- app_assoc.
Qed.

(** What a client must get: HEADERS (type 1) with END_HEADERS (4), and these two
    headers. *)
Definition response_head (sid : Z) : frame :=
  mkFrame 1 sid 4 (Hpack.encode [(str ":status", str "200"); (str "content-type", str "text/plain")]).

Lemma response_head_sent sid : response_head sid = mkFrame HEADERS sid HTTP2_FLAG_END_HEADERS (Hpack.encode response_headers).
Proof. vm_compute. reflexivity. Qed.

(** The body of the response to a request with body [bd]. *)
Definition reply_body (bd : bytes) : bytes := if bool_decide (bd = []) then str "OK" else bd.

Lemma handle_complete_plain s (h : t PlainTls) :
  conn_ h = true -> local_settings_ h = settings_reset ->
  exists x fs, handle_complete_request s h = Some (set_tls x h, PROTOCOL_OK) /\
    data_frames (stream_id s) (reply_body (body (request s))) true 16384 fs /\
    concat (sent x) = concat (sent (tls_handler_ h)) ++
      concat (map frame_bytes (response_head (stream_id s) :: fs)) /\
    incoming x = incoming (tls_handler_ h).
Proof.
  intros Hc Hl. unfold handle_complete_request. rewrite Hc. cbn [negb].
  unfold send_headers_frame. rewrite Hl.
  change (blen (Hpack.encode response_headers) <=? max_frame_size settings_reset) with true. cbv iota.
  destruct (write_frame_plain (response_head (stream_id s)) h) as (x & Ex & Hx & Hincx).
  rewrite response_head_sent in Ex. rewrite Ex. cbn [mbind option_bind].
  destruct (data_is_chunked_aux (set_tls x h) (stream_id s) (reply_body (body (request s))))
    as (fs & Hs & Hdf); [cbn [set_tls local_settings_]; by rewrite Hl|].
  cbn [set_tls local_settings_] in Hdf. rewrite Hl in Hdf.
  assert (Hsend : (if negb (bool_decide (body (request s) = []))
     then send_data_frame (stream_id s) (body (request s)) true (set_tls x h)
     else send_data_frame (stream_id s) (str "OK") true (set_tls x h)) =
     write_frames fs (set_tls x h)).
  { rewrite <- Hs. unfold reply_body. by case_bool_decide. }
  rewrite Hsend. destruct (write_frames_plain fs (set_tls x h)) as (y & -> & Hy & Hincy).
  cbn [mbind option_bind]. exists y, fs. split; [done|]. split; [exact Hdf|].
  cbn [set_tls tls_handler_] in Hy, Hincy. rewrite Hy, Hx, Hincy, Hincx. cbn [map concat].
  by rewrite <- app_assoc.
Qed.

Lemma headers_frame_step (h : t PlainTls) sid hs rest :
  inv h -> find_stream sid h = None -> 0 <= sid < 2 ^ 31 ->
  mwf hs -> Forall Hpack.header_ok hs -> blen (Hpack.encode hs) < 2 ^ 24 ->
  Buffer.content (plaintext_buffer_ h) =
    frame_bytes (mkFrame HEADERS sid HTTP2_FLAG_END_HEADERS (Hpack.encode hs)) ++ rest ->
  exists h1, read_frame h = Some (h1, PROTOCOL_OK) /\ inv h1 /\
    find_stream sid h1 = Some (add_headers hs (set_state OPEN (Http2Stream.init sid))) /\
    tls_handler_ h1 = tls_handler_ h /\ conn_ h1 = conn_ h /\
    Buffer.content (plaintext_buffer_ h1) = rest.
Proof.
  intros Hi Hn Hsid Hm Hh Hlen Hc. pose proof (inv_buffer h Hi) as Hw.
  set (f := mkFrame HEADERS sid HTTP2_FLAG_END_HEADERS (Hpack.encode hs)) in *.
  assert (Hvf : valid_frame f) by (split; cbn; [done|done|done|done]).
  destruct (skip_frame _ f rest Hw Hc) as [Hws Hcs].
  pose proof (read_frame_ok h Hi) as Hok.
  rewrite (read_frame_frame h f rest Hw Hvf Hc) in *.
  unfold handle_frame in *. cbn [type_ stream_ flags_ f ftype fstream fflags fpayload] in *.
  change (HEADERS =? SETTINGS) with false in *. change (HEADERS =? HEADERS) with true in *.
  cbv iota in *. unfold handle_headers_frame, get_or_create_stream in *.
  set (h0 := set_buffer (Buffer.skip (plaintext_buffer_ h) 9) h) in *.
  change (find_stream sid h0) with (find_stream sid h) in *. rewrite Hn in *. cbv iota beta zeta in *.
  change (bool_decide (state (Http2Stream.init sid) = IDLE)) with true in *. cbv iota in *.
  unfold Hpack.decode in *.
  rewrite Hpack.decode_loop_encode in * by done. cbv iota beta zeta in *.
  change (PROTOCOL_OK =? PROTOCOL_OK) with true in *.
  change (has_flag HTTP2_FLAG_END_HEADERS HTTP2_FLAG_END_HEADERS) with true in *.
  change (has_flag HTTP2_FLAG_END_HEADERS HTTP2_FLAG_END_STREAM) with false in *.
  cbn [negb mbind option_bind] in *. cbv iota in *.
  rewrite (foldl_mset_sorted hs []) in * by (done || constructor). cbn [app] in *.
  eexists. split; [reflexivity|]. split; [apply Hok|].
  split; [apply mfind_mset_eq|]. split; [done|]. split; [done|exact Hcs].
Qed.

Lemma data_frame_step (h : t PlainTls) sid s bd rest :
  inv h -> conn_ h = true -> find_stream sid h = Some s -> body (request s) = [] ->
  0 <= sid < 2 ^ 31 -> blen bd < 2 ^ 24 ->
  Buffer.content (plaintext_buffer_ h) =
    frame_bytes (mkFrame DATA sid HTTP2_FLAG_END_STREAM bd) ++ rest ->
  exists h1 s1 fs, read_frame h = Some (h1, PROTOCOL_OK) /\ inv h1 /\
    find_stream sid h1 = Some s1 /\ state s1 = HALF_CLOSED_REMOTE /\
    headers (request s1) = headers (request s) /\ body (request s1) = bd /\
    data_frames sid (reply_body bd) true 16384 fs /\
    concat (sent (tls_handler_ h1)) = concat (sent (tls_handler_ h)) ++
      concat (map frame_bytes (response_head sid :: fs)) /\
    Buffer.content (plaintext_buffer_ h1) = rest.
Proof.
  intros Hi Hconn Hf Hb Hsid Hlen Hc. pose proof (inv_buffer h Hi) as Hw.
  pose proof (so_id _ (find_stream_ok _ _ _ Hi Hf)) as Hid. cbn in Hid.
  set (f := mkFrame DATA sid HTTP2_FLAG_END_STREAM bd) in *.
  assert (Hvf : valid_frame f) by (split; cbn; [done|done|done|done]).
  destruct (skip_frame _ f rest Hw Hc) as [Hws Hcs].
  pose proof (read_frame_ok h Hi) as Hok.
  rewrite (read_frame_frame h f rest Hw Hvf Hc) in *.
  unfold handle_frame in *. cbn [type_ stream_ flags_ f ftype fstream fflags fpayload] in *.
  change (DATA =? SETTINGS) with false in *. change (DATA =? HEADERS) with false in *.
  change (DATA =? DATA) with true in *. cbv iota in *. unfold handle_data_frame in *.
  set (h0 := set_buffer (Buffer.skip (plaintext_buffer_ h) 9) h) in *.
  change (find_stream sid h0) with (find_stream sid h) in *. rewrite Hf in *. cbv iota beta zeta in *.
  change (has_flag HTTP2_FLAG_END_STREAM HTTP2_FLAG_END_STREAM) with true in *. cbv iota in *.
  set (s1 := set_state HALF_CLOSED_REMOTE (if 0 <? blen bd then append_body bd s else s)) in *.
  assert (Hs1 : stream_id s1 = sid /\ body (request s1) = bd /\ headers (request s1) = headers (request s)).
  { unfold s1. destruct (0 <? blen bd) eqn:E; zb; cbn; rewrite ?Hb.
    - done.
    - pose proof (blen_nonneg bd). rewrite (blen_0_nil bd) by lia. done. }
  destruct Hs1 as (Hsid1 & Hb1 & Hh1).
  destruct (handle_complete_plain s1 (put_stream sid s1 h0)) as (x & fs & Ec & Hdf & Hsent & _);
    [done|apply Hi|]. rewrite Hsid1, Hb1 in *. rewrite Ec in *. cbn [mbind option_bind] in *.
  eexists _, s1, fs. split; [reflexivity|]. split; [apply Hok|].
  split; [apply mfind_mset_eq|]. split; [done|]. split; [done|]. split; [done|].
  split; [done|]. split; [exact Hsent|exact Hcs].
Qed.

(** C2. A client request on a new stream, made of a HEADERS frame that ends the
    header block and a DATA frame that ends the stream, and completed by one TLS
    read of at most 4096 bytes (with less than a frame header behind it), is
    answered on the same stream: a HEADERS frame with END_HEADERS whose block
    encodes exactly [:status 200] and [content-type text/plain], then, in DATA
    frames of 1 to 16384 bytes of which only the last has END_STREAM, the
    request's own body (or [OK] when it has none). The stream holds the headers
    and the body the client encoded, exactly the two frames are consumed, and
    nothing else is sent. The headers are those of a [std::map], with non-empty
    names. *)
Theorem http2_request_answered (h : t PlainTls) sid hs bd rest d r :
  inv h -> conn_ h = true -> find_stream sid h = None -> 0 <= sid < 2 ^ 31 ->
  mwf hs -> Forall Hpack.header_ok hs -> blen (Hpack.encode hs) < 2 ^ 24 -> blen bd < 2 ^ 24 ->
  blen rest < 9 -> incoming (tls_handler_ h) = d :: r -> 0 < blen d <= 4096 ->
  blen (Buffer.content (plaintext_buffer_ h)) + blen d <= Buffer.MAX_CAPACITY ->
  Buffer.content (plaintext_buffer_ h) ++ d =
    frame_bytes (mkFrame HEADERS sid HTTP2_FLAG_END_HEADERS (Hpack.encode hs)) ++
    frame_bytes (mkFrame DATA sid HTTP2_FLAG_END_STREAM bd) ++ rest ->
  exists h' s fs, on_read h = Returned h' PROTOCOL_OK /\
    find_stream sid h' = Some s /\ state s = HALF_CLOSED_REMOTE /\
    headers (request s) = hs /\ body (request s) = bd /\
    data_frames sid (if bool_decide (bd = []) then str "OK" else bd) true 16384 fs /\
    concat (sent (tls_handler_ h')) = concat (sent (tls_handler_ h)) ++
      concat (map frame_bytes
        (mkFrame 1 sid 4 (Hpack.encode [(str ":status", str "200"); (str "content-type", str "text/plain")]) :: fs)) /\
    Buffer.content (plaintext_buffer_ h') = rest.
Proof.
  intros Hi Hconn Hn Hsid Hm Hh Hlen Hbl Hrest Hinc Hd Hmax Hc. unfold on_read. cbn [tls_read plain_layer].
  unfold plain_read. rewrite Hinc. change (PROTOCOL_OK =? PROTOCOL_ERROR_EAGAIN) with false.
  change (PROTOCOL_OK <? 0) with false. cbv iota. rewrite ztake_ge by lia.
  replace (0 <? blen d) with true by (symmetry; apply Z.ltb_lt; lia).
  set (x := mkPlain _ _). change (plaintext_buffer_ (set_tls x h)) with (plaintext_buffer_ h).
  destruct (Buffer.write_spec (plaintext_buffer_ h) d (inv_buffer h Hi) Hmax) as (b & Ew & Hwb & Hcb).
  rewrite Ew. cbn [fmap option_fmap option_map fst]. rewrite Hc in Hcb.
  set (h2 := set_buffer b (set_tls x h)).
  assert (Hi2 : inv h2) by (apply set_buffer_inv; [by apply set_tls_inv|done]).
  assert (Hfuel : exists n, loop_fuel h2 = S (S (S n))).
  { unfold loop_fuel. assert (2 <= Z.to_nat (Buffer.readable_bytes (plaintext_buffer_ h2)))%nat;
      [|exists (Z.to_nat (Buffer.readable_bytes (plaintext_buffer_ h2)) - 2)%nat; lia].
    rewrite Buffer.readable_content by done. change (plaintext_buffer_ h2) with b.
    rewrite Hcb. unfold frame_bytes. rewrite !blen_app, !blen_frame_header. cbn [fpayload].
    pose proof (blen_nonneg (Hpack.encode hs)). pose proof (blen_nonneg bd). pose proof (blen_nonneg rest).
    lia. }
  destruct Hfuel as [n ->]. cbn [frames_loop].
  destruct (headers_frame_step h2 sid hs _ Hi2 Hn Hsid Hm Hh Hlen Hcb)
    as (h3 & -> & Hi3 & Hf3 & Ht3 & Hc3 & Hcont3).
  change (PROTOCOL_OK =? PROTOCOL_ERROR_EAGAIN) with false. change (PROTOCOL_OK <? 0) with false. cbv iota.
  assert (Hhs : headers (request (add_headers hs (set_state OPEN (Http2Stream.init sid)))) = hs).
  { cbn. by rewrite (foldl_mset_sorted hs []) by (done || constructor). }
  destruct (data_frame_step h3 sid _ bd rest Hi3 (eq_trans Hc3 Hconn) Hf3 eq_refl Hsid Hbl Hcont3)
    as (h4 & s4 & fs & -> & Hi4 & Hf4 & Hst4 & Hh4 & Hb4 & Hdf & Hsent & Hcont4).
  change (PROTOCOL_OK =? PROTOCOL_ERROR_EAGAIN) with false. change (PROTOCOL_OK <? 0) with false. cbv iota.
  rewrite read_frame_content, Hcont4 by apply Hi4. cbv zeta.
  replace (blen rest <? 9) with true by (symmetry; apply Z.ltb_lt; lia).
  change (PROTOCOL_ERROR_EAGAIN =? PROTOCOL_ERROR_EAGAIN) with true. cbv iota.
  rewrite Hhs in Hh4. rewrite Ht3 in Hsent. exists h4, s4, fs. done.
Qed.

Definition demo_get : HttpHeaders := [(str ":method", str "POST"); (str ":path", str "/x")].
Definition demo_bytes : bytes :=
  frame_bytes (mkFrame HEADERS 1 HTTP2_FLAG_END_HEADERS (Hpack.encode demo_get)) ++
  frame_bytes (mkFrame DATA 1 HTTP2_FLAG_END_STREAM (str "hello")) ++ [].

Lemma http2_request_answered_witness :
  exists h' s fs, on_read (create true (mkPlain [demo_bytes] [])) = Returned h' PROTOCOL_OK /\
    find_stream 1 h' = Some s /\ state s = HALF_CLOSED_REMOTE /\
    headers (request s) = demo_get /\ body (request s) = str "hello" /\
    data_frames 1 (str "hello") true 16384 fs /\
    concat (sent (tls_handler_ h')) = concat [] ++ concat (map frame_bytes (
      mkFrame 1 1 4 (Hpack.encode [(str ":status", str "200"); (str "content-type", str "text/plain")]) :: fs)) /\
    Buffer.content (plaintext_buffer_ h') = [].
Proof.
  apply (http2_request_answered (create true (mkPlain [demo_bytes] [])) 1 demo_get (str "hello") []
    demo_bytes []).
  - split; cbn; [apply Buffer.create_wf|done|done|constructor].
  - reflexivity.
  - reflexivity.
  - lia.
  - by repeat constructor.
  - repeat constructor; cbn; try discriminate; by vm_compute.
  - by vm_compute.
  - by vm_compute.
  - by vm_compute.
  - reflexivity.
  - by vm_compute.
  - by vm_compute.
  - reflexivity.
Defined.

End Http2Handler.
