(* ===== verification/Http2Split.v ===== *)
(** However the bytes of an HTTP/2 connection are cut into TLS records,
    [Http2Handler::on_read] (protocol/source/protocol_handler.cpp) does the same
    with them. The frames are a function, [consume], of the bytes and of the
    handler's state without its buffer; each call of [on_read] is [consume] on
    what was left plus the record it reads. *)

From S2P Require Import Prelude ByteBuffer Hpack Http Tls Http2.

Module Http2Split.
Import Http2Handler.

(** The handler with another buffer and other records to come. *)
Definition relay (b : Buffer.t) (inc : list bytes) (h : t PlainTls) : t PlainTls :=
  set_tls (mkPlain inc (sent (tls_handler_ h))) (set_buffer b h).

(** What is left of a handler when the bytes it has still to parse are forgotten. *)
Definition no_buffer : Buffer.t := Buffer.mk [] 0 0.
Definition core : t PlainTls -> t PlainTls := relay no_buffer [].

(** The result of a handler, moved to another buffer. *)
Definition relayed (b : Buffer.t) (inc : list bytes) (r : option (t PlainTls * Z)) : option (t PlainTls * Z) :=
  '(h, ret) ← r; Some (relay b inc h, ret).

Lemma relay_relay b1 inc1 b2 inc2 h : relay b1 inc1 (relay b2 inc2 h) = relay b1 inc1 h.
Proof. done. Qed.

Lemma relay_self h : relay (plaintext_buffer_ h) (incoming (tls_handler_ h)) h = h.
Proof. destruct h as [c x st b s l i d r k]. by destruct x. Qed.

Lemma relay_find b inc h sid : find_stream sid (relay b inc h) = find_stream sid h.
Proof. done. Qed.

(** * Handling a frame does not look at the buffer or at the records to come *)

Section Relay.
Variables (b : Buffer.t) (inc : list bytes).

Lemma bind_relay (r r' : option (t PlainTls * Z)) (k : t PlainTls -> Z -> option (t PlainTls * Z)) :
  r' = relayed b inc r -> (forall h ret, k (relay b inc h) ret = relayed b inc (k h ret)) -> ('(h, ret) ← r'; k h ret) = relayed b inc ('(h, ret) ← r; k h ret).
Proof. intros -> Hk. destruct r as [[h ret]|]; cbn; [apply Hk|done]. Qed.

Lemma write_frame_relay f h : write_frame f (relay b inc h) = relayed b inc (write_frame f h).
Proof.
  unfold write_frame. cbn [tls_write plain_layer mbind option_bind]. rewrite !blen_frame_header.
  repeat ifz; try done.
Qed.

Lemma send_continuations_relay fuel sid mx payload h :
  send_continuations fuel sid mx payload (relay b inc h) = relayed b inc (send_continuations fuel sid mx payload h).
Proof.
  revert payload h. induction fuel as [|n IH]; intros payload h; [done|]. cbn [send_continuations].
  ifz; [|apply write_frame_relay]. apply bind_relay; [apply write_frame_relay|]. intros h1 ret. ifz; [done|apply IH].
Qed.

Lemma send_headers_relay sid hs es h : send_headers_frame sid hs es (relay b inc h) = relayed b inc (send_headers_frame sid hs es h).
Proof.
  unfold send_headers_frame. cbn [relay local_settings_ set_tls set_buffer]. ifz; [apply write_frame_relay|].
  apply bind_relay; [apply write_frame_relay|]. intros h1 ret. ifz; [done|apply send_continuations_relay].
Qed.

Lemma send_data_relay sid d es h : send_data_frame sid d es (relay b inc h) = relayed b inc (send_data_frame sid d es h).
Proof.
  unfold send_data_frame. cbn [relay local_settings_ set_tls set_buffer].
  generalize (max_frame_size (local_settings_ h)) as mx. generalize (S (length d)) as fuel. intros fuel mx. revert d h.
  induction fuel as [|n IH]; intros d h; [done|]. cbn [send_data_loop]. ifz; [done|].
  apply bind_relay; [apply write_frame_relay|]. intros h1 ret. ifz; [done|apply IH].
Qed.

Lemma handle_complete_relay s h : handle_complete_request s (relay b inc h) = relayed b inc (handle_complete_request s h).
Proof.
  unfold handle_complete_request. cbn [relay conn_ set_tls set_buffer]. ifz; [done|].
  apply bind_relay; [apply send_headers_relay|]. intros h1 ret.
  apply bind_relay; [ifz; apply send_data_relay|]. done.
Qed.

Lemma handle_settings_relay payload h : handle_settings_frame payload (relay b inc h) = relayed b inc (handle_settings_frame payload h).
Proof.
  unfold handle_settings_frame, send_settings_ack. ifz; [done|].
  cbn [set_settings settings_ack_sent_ relay set_tls set_buffer]. ifz; [|done].
  exact (write_frame_relay _ (set_acks _ true (set_settings _ h))).
Qed.

Lemma handle_headers_relay sid payload flags h :
  handle_headers_frame sid payload flags (relay b inc h) = relayed b inc (handle_headers_frame sid payload flags h).
Proof.
  unfold handle_headers_frame, get_or_create_stream. rewrite relay_find.
  assert (Hg : exists h0 s0,
    match find_stream sid h with Some s => (h, s) | None => (put_stream sid (Http2Stream.init sid) h, Http2Stream.init sid) end = (h0, s0) /\
    match find_stream sid h with Some s => (relay b inc h, s) | None => (put_stream sid (Http2Stream.init sid) (relay b inc h), Http2Stream.init sid) end = (relay b inc h0, s0))
    by (destruct (find_stream sid h); by do 2 eexists).
  destruct Hg as (h0 & s0 & -> & ->).
  match goal with |- context [put_stream sid ?x h0] => generalize x end. intros s1.
  cbn [put_stream set_streams hpack_decoder_ relay set_tls set_buffer].
  destruct (Hpack.decode _ payload) as [[[c hs] ret]|ret|]; try done. repeat ifz; try done.
  exact (handle_complete_relay _ (put_stream sid _ (set_decoder c (put_stream sid s1 h0)))).
Qed.

Lemma handle_data_relay sid payload flags h :
  handle_data_frame sid payload flags (relay b inc h) = relayed b inc (handle_data_frame sid payload flags h).
Proof.
  unfold handle_data_frame. rewrite relay_find. destruct (find_stream sid h) as [s|]; [|done]. ifz; [|done].
  exact (handle_complete_relay _ (put_stream sid _ h)).
Qed.

Lemma handle_continuation_relay sid payload flags h :
  handle_continuation_frame sid payload flags (relay b inc h) = relayed b inc (handle_continuation_frame sid payload flags h).
Proof.
  unfold handle_continuation_frame. rewrite relay_find. destruct (find_stream sid h) as [s|]; [|done].
  cbn [hpack_decoder_ relay set_tls set_buffer].
  destruct (Hpack.decode _ payload) as [[[c hs] ret]|ret|]; try done. repeat ifz; try done.
  exact (handle_complete_relay _ (put_stream sid _ (set_decoder c h))).
Qed.

Lemma handle_frame_relay fh payload h : handle_frame fh payload (relay b inc h) = relayed b inc (handle_frame fh payload h).
Proof.
  unfold handle_frame. ifz; [apply handle_settings_relay|]. ifz; [apply handle_headers_relay|].
  ifz; [apply handle_data_relay|]. ifz; [apply handle_continuation_relay|].
  ifz.
  { destruct payload as [|x1 [|x2 [|x3 [|x4 r]]]]; try done. unfold handle_window_update_frame.
    rewrite relay_find. repeat ifz; try done. by destruct (find_stream (stream_ fh) h). }
  ifz; [ifz; [|done]; unfold handle_rst_stream_frame; rewrite relay_find; by destruct (find_stream (stream_ fh) h)|].
  ifz; [|by ifz].
  unfold handle_ping_frame. ifz; [|done]. apply bind_relay; [apply write_frame_relay|done].
Qed.
End Relay.

(** Over a layer that takes every write no handler reports EAGAIN. *)
Definition not_eagain (r : option (t PlainTls * Z)) : Prop :=
  match r with Some (_, ret) => ret <> PROTOCOL_ERROR_EAGAIN | None => True end.

Lemma decode_not_eagain c payload : match Hpack.decode c payload with Ok (_, _, ret) | Err ret => ret <> PROTOCOL_ERROR_EAGAIN | UB => True end.
Proof.
  unfold Hpack.decode. generalize (length payload) as fuel, (@nil (bytes * bytes)) as hs. intros fuel. revert c payload.
  induction fuel as [|n IH]; intros c [|x payload] hs; try done. cbn [Hpack.decode_loop].
  destruct (Hpack.decode_step c hs (b2z x) (x :: payload)) as [[[c' hs'] rest]|e|] eqn:E; [apply IH| |done].
  by apply Hpack.decode_step_err in E as ->.
Qed.

Lemma complete_not_eagain s h : not_eagain (handle_complete_request s h).
Proof.
  unfold handle_complete_request, not_eagain. ifz; [done|].
  destruct (send_headers_frame _ _ _ _) as [[h1 r1]|]; [|done]. cbn [mbind option_bind].
  destruct (if negb _ then _ else _) as [[h2 r2]|]; done.
Qed.

Lemma handle_frame_not_eagain fh payload h : not_eagain (handle_frame fh payload h).
Proof.
  unfold handle_frame. repeat ifz.
  - unfold handle_settings_frame, send_settings_ack. repeat ifz; try done.
  - unfold handle_headers_frame. destruct (get_or_create_stream (stream_ fh) h) as [h0 s0].
    pose proof (decode_not_eagain (hpack_decoder_ h0) payload) as Hd. cbn [put_stream set_streams hpack_decoder_].
    destruct (Hpack.decode _ payload) as [[[c hs] ret]|ret|]; try done. repeat ifz; try done; by apply complete_not_eagain.
  - unfold handle_data_frame. destruct (find_stream _ h); [|done]. ifz; [by apply complete_not_eagain|done].
  - unfold handle_continuation_frame. destruct (find_stream _ h); [|done].
    pose proof (decode_not_eagain (hpack_decoder_ h) payload) as Hd.
    destruct (Hpack.decode _ payload) as [[[c hs] ret]|ret|]; try done. repeat ifz; try done; by apply complete_not_eagain.
  - destruct payload as [|x1 [|x2 [|x3 [|x4 r]]]]; try done. unfold handle_window_update_frame.
    repeat ifz; try done. by destruct (find_stream _ h).
  - unfold handle_rst_stream_frame. by destruct (find_stream _ h).
  - done.
  - unfold handle_ping_frame. ifz; [|done]. by destruct (write_frame _ h) as [[h1 r1]|].
  - done.
  - done.
Qed.

(** * Frames as a function of the bytes *)

(** What parsing does: the handler, the bytes left and the result, or undefined
    behaviour. [fuel] bounds the frames. *)
Fixpoint consume (fuel : nat) (h : t PlainTls) (data : bytes) : option (t PlainTls * bytes * Z) :=
  match fuel with
  | O => Some (h, data, PROTOCOL_OK)
  | S n =>
      if blen data <? 9 then Some (h, data, PROTOCOL_OK)
      else
        fh ← parse_frame_header data;
        if blen data <? 9 + length_ fh then Some (h, data, PROTOCOL_OK)
        else
          '(h1, ret) ← handle_frame fh (ztake (length_ fh) (zdrop 9 data)) h;
          if ret <? 0 then Some (h1, zdrop (9 + length_ fh) data, ret)
          else consume n h1 (zdrop (9 + length_ fh) data)
  end.

Lemma parse_frame_header_app d1 d2 : 9 <= blen d1 -> parse_frame_header (d1 ++ d2) = parse_frame_header d1.
Proof.
  intros Hd. do 9 (destruct d1 as [|? d1]; [unfold blen in Hd; cbn in Hd; lia|]). done.
Qed.

Lemma frame_rest data fh :
  parse_frame_header data = Some fh -> 9 + length_ fh <= blen data -> 9 <= blen data ->
  0 <= length_ fh /\ (length (zdrop (9 + length_ fh) data) < length data)%nat.
Proof.
  intros Hf Hl H9. apply parse_frame_header_len in Hf. split; [done|]. unfold zdrop, blen in *. rewrite length_drop. lia.
Qed.

(** More fuel than bytes changes nothing. *)
Lemma consume_fuel n m h data :
  (length data < n)%nat -> (n <= m)%nat -> consume m h data = consume n h data.
Proof.
  revert m h data. induction n as [|n IH]; intros m h data Hn Hm; [lia|]. destruct m as [|m]; [lia|]. cbn [consume].
  ifz; [done|]. destruct (parse_frame_header data) as [fh|] eqn:Ef; [|done]. cbn [mbind option_bind]. ifz; [done|].
  destruct (handle_frame fh _ h) as [[h1 ret]|]; [|done]. cbn [mbind option_bind]. ifz; [done|].
  destruct (frame_rest data fh) as [? Hlt]; [done|lia..|]. apply IH; lia.
Qed.
Definition consume_all (h : t PlainTls) (data : bytes) : option (t PlainTls * bytes * Z) := consume (S (length data)) h data.

Lemma consume_all_step h data :
  consume_all h data =
    if blen data <? 9 then Some (h, data, PROTOCOL_OK)
    else
      fh ← parse_frame_header data;
      if blen data <? 9 + length_ fh then Some (h, data, PROTOCOL_OK)
      else
        '(h1, ret) ← handle_frame fh (ztake (length_ fh) (zdrop 9 data)) h;
        if ret <? 0 then Some (h1, zdrop (9 + length_ fh) data, ret)
        else consume_all h1 (zdrop (9 + length_ fh) data).
Proof.
  unfold consume_all at 1. cbn [consume]. ifz; [done|].
  destruct (parse_frame_header data) as [fh|] eqn:Ef; [|done]. cbn [mbind option_bind]. ifz; [done|].
  destruct (handle_frame fh _ h) as [[h1 ret]|]; [|done]. cbn [mbind option_bind]. ifz; [done|].
  destruct (frame_rest data fh) as [? Hlt]; [done|lia..|]. apply consume_fuel; lia.
Qed.

(** Parsing a prefix first comes to the same. *)
Lemma consume_all_app h d1 d2 :
  consume_all h (d1 ++ d2) =
    ('(h1, rest, ret) ← consume_all h d1; if ret <? 0 then Some (h1, rest ++ d2, ret) else consume_all h1 (rest ++ d2)).
Proof.
  remember (length d1) as n eqn:Hn. revert h d1 Hn. induction (lt_wf n) as [n _ IH]. intros h d1 ->.
  pose proof (blen_nonneg d2). rewrite (consume_all_step h d1).
  destruct (blen d1 <? 9) eqn:E9; zb; [done|].
  destruct (parse_frame_header d1) as [fh|] eqn:Ef; [|by destruct (parse_frame_header_some d1 E9) as (? & ?); congruence].
  cbn [mbind option_bind]. destruct (blen d1 <? 9 + length_ fh) eqn:El; zb; [done|].
  destruct (frame_rest d1 fh Ef El E9) as [H0 Hlt].
  rewrite consume_all_step, blen_app, parse_frame_header_app, Ef by done. cbn [mbind option_bind].
  ifz; [lia|]. ifz; [lia|]. rewrite (zdrop_app_le 9), ztake_app_le, (zdrop_app_le (9 + length_ fh)) by (rewrite ?blen_zdrop; lia).
  destruct (handle_frame fh _ h) as [[h1 ret]|]; [|done]. cbn [mbind option_bind].
  destruct (ret <? 0) eqn:Er; [cbn; by rewrite Er|]. by apply (IH (length (zdrop (9 + length_ fh) d1))).
Qed.

(** * [on_read] is [consume] *)

Lemma consume_relay b inc n h data :
  consume n (relay b inc h) data = '(h1, rest, ret) ← consume n h data; Some (relay b inc h1, rest, ret).
Proof.
  revert h data. induction n as [|n IH]; intros h data; [done|]. cbn [consume]. ifz; [done|].
  destruct (parse_frame_header data) as [fh|]; [|done]. cbn [mbind option_bind]. ifz; [done|].
  rewrite handle_frame_relay. destruct (handle_frame fh _ h) as [[h1 ret]|]; [|done]. cbn [mbind option_bind relayed].
  ifz; [done|apply IH].
Qed.

(** The loop leaves the handler [consume] gives, with a buffer that holds the
    bytes left. *)
Definition leaves (inc : list bytes) (r : option (t PlainTls * bytes * Z)) (o : run_result PlainTls) : Prop :=
  match r with
  | None => o = Undefined
  | Some (h1, rest, ret) => exists b, Buffer.wf b /\ Buffer.content b = rest /\ o = Returned (relay b inc h1) ret
  end.

Lemma frames_loop_consume n h :
  Buffer.wf (plaintext_buffer_ h) -> (length (Buffer.content (plaintext_buffer_ h)) < n)%nat ->
  leaves (incoming (tls_handler_ h)) (consume n (core h) (Buffer.content (plaintext_buffer_ h))) (frames_loop n h).
Proof.
  revert h. induction n as [|n IH]; intros h Hw Hl; [lia|]. cbn [frames_loop consume]. rewrite read_frame_content by done.
  set (data := Buffer.content (plaintext_buffer_ h)) in *. cbv zeta.
  assert (Hstay : leaves (incoming (tls_handler_ h)) (Some (core h, data, PROTOCOL_OK)) (Returned h PROTOCOL_OK)).
  { exists (plaintext_buffer_ h). split; [done|]. split; [done|]. unfold core. by rewrite relay_relay, relay_self. }
  ifz; [exact Hstay|]. destruct (parse_frame_header data) as [fh|] eqn:Ef; [|done]. cbn [mbind option_bind].
  ifz; [exact Hstay|]. clear Hstay. destruct (frame_rest data fh) as [H0 Hlt]; [done|lia..|].
  set (h0 := set_buffer (Buffer.skip (plaintext_buffer_ h) 9) h).
  assert (Hh0 : h0 = relay (Buffer.skip (plaintext_buffer_ h) 9) (incoming (tls_handler_ h)) (core h)).
  { unfold core. rewrite relay_relay. unfold relay, h0. by destruct h as [? [? ?]]. }
  rewrite Hh0, handle_frame_relay. pose proof (handle_frame_not_eagain fh (ztake (length_ fh) (zdrop 9 data)) (core h)) as Hne.
  destruct (handle_frame fh _ (core h)) as [[h1 ret]|] eqn:Eh; [|done]. cbn [mbind option_bind relayed not_eagain] in *.
  cbn [plaintext_buffer_ relay set_tls set_buffer].
  destruct (ret =? PROTOCOL_ERROR_EAGAIN) eqn:Ee; zb; [done|].
  set (b' := Buffer.skip (Buffer.skip (plaintext_buffer_ h) 9) (length_ fh)).
  assert (Hwb : Buffer.wf b') by (apply Buffer.skip_wf; [by apply Buffer.skip_wf|done]).
  assert (Hcb : Buffer.content b' = zdrop (9 + length_ fh) data).
  { unfold b'. rewrite !Buffer.skip_content by (done || by apply Buffer.skip_wf). fold data. by rewrite zdrop_zdrop by lia. }
  ifz; [by exists b'|].
  specialize (IH (relay b' (incoming (tls_handler_ h)) h1)). cbn [plaintext_buffer_ relay set_tls set_buffer tls_handler_ incoming] in IH.
  rewrite Hcb in IH. assert (Hcore : core h1 = h1).
  { pose proof (handle_frame_relay no_buffer [] fh (ztake (length_ fh) (zdrop 9 data)) (core h)) as Hr.
    unfold core in *. rewrite relay_relay, Eh in Hr. cbn in Hr. congruence. }
  replace (core (relay b' _ h1)) with h1 in IH by (unfold core in *; by rewrite relay_relay).
  apply IH; [done|lia].
Qed.

Lemma consume_core h data h1 rest ret : consume_all (core h) data = Some (h1, rest, ret) -> core h1 = h1.
Proof.
  unfold consume_all. intros Hc. pose proof (consume_relay no_buffer [] (S (length data)) (core h) data) as Hr.
  unfold core in *. rewrite relay_relay, Hc in Hr. cbn in Hr. congruence.
Qed.

(** One call: what was left, plus the record. *)
Lemma on_read_consume h d cs :
  Buffer.wf (plaintext_buffer_ h) -> incoming (tls_handler_ h) = d :: cs -> blen d <= 4096 ->
  blen (Buffer.content (plaintext_buffer_ h)) + blen d <= Buffer.MAX_CAPACITY ->
  leaves cs (consume_all (core h) (Buffer.content (plaintext_buffer_ h) ++ d)) (on_read h).
Proof.
  intros Hw Hinc Hd Hroom. unfold on_read. cbn [tls_read plain_layer]. unfold plain_read. rewrite Hinc.
  replace (blen d <=? 4096) with true by lia. rewrite ztake_ge by lia. change (PROTOCOL_OK =? PROTOCOL_ERROR_EAGAIN) with false.
  change (PROTOCOL_OK <? 0) with false. cbv iota. cbn [plaintext_buffer_ set_tls].
  assert (Hbuf : exists b, (if 0 <? blen d then fst <$> Buffer.write (plaintext_buffer_ h) (Some d)
      else Some (plaintext_buffer_ h)) = Some b /\ Buffer.wf b /\ Buffer.content b = Buffer.content (plaintext_buffer_ h) ++ d).
  { pose proof (blen_nonneg d). ifz.
    - destruct (Buffer.write_spec (plaintext_buffer_ h) d Hw) as (b & Ew & Hwb & Hc); [lia|]. exists b. by rewrite Ew.
    - exists (plaintext_buffer_ h). by rewrite (blen_0_nil d), app_nil_r by lia. }
  destruct Hbuf as (b & -> & Hwb & Hcb).
  set (h2 := set_buffer b (set_tls (mkPlain cs (sent (tls_handler_ h))) h)).
  pose proof (frames_loop_consume (loop_fuel h2) h2 Hwb) as Hl. cbn [h2 tls_handler_ incoming set_buffer set_tls plaintext_buffer_] in Hl.
  replace (core h2) with (core h) in Hl by (unfold h2, core, relay; by destruct h as [? [? ?]]).
  rewrite Hcb in Hl. unfold consume_all.
  assert (Hfuel : loop_fuel h2 = S (length (Buffer.content (plaintext_buffer_ h) ++ d))).
  { unfold loop_fuel, h2. cbn [plaintext_buffer_ set_buffer]. rewrite Buffer.readable_content, Hcb by done. unfold blen. by rewrite Nat2Z.id. }
  rewrite <- Hfuel. apply Hl. rewrite Hfuel. lia.
Qed.

(** The calls that deliver the records one by one, up to the first negative
    result. *)
Fixpoint read_all (n : nat) (h : t PlainTls) : run_result PlainTls :=
  match n with
  | O => Returned h PROTOCOL_OK
  | S n =>
      match on_read h with
      | Returned h' ret => if ret <? 0 then Returned h' ret else read_all n h'
      | r => r
      end
  end.

(** What one sees of it: the handler (streams, settings, decoder, everything
    sent), the result, and the bytes that wait for the rest of a frame. *)
Inductive observed := Observed (h : t PlainTls) (ret : Z) (waiting : bytes) | ObservedUndefined | ObservedOutOfFuel.
Definition observe (o : run_result PlainTls) : observed :=
  match o with
  | Returned h ret => Observed (core h) ret (if ret <? 0 then [] else Buffer.content (plaintext_buffer_ h))
  | Undefined => ObservedUndefined
  | OutOfFuel => ObservedOutOfFuel
  end.
Definition observe_parse (r : option (t PlainTls * bytes * Z)) : observed :=
  match r with
  | Some (h, rest, ret) => Observed h ret (if ret <? 0 then [] else rest)
  | None => ObservedUndefined
  end.

Lemma consume_rest n h data h1 rest ret :
  consume n h data = Some (h1, rest, ret) -> blen rest <= blen data /\ (ret < 0 \/ ret = PROTOCOL_OK).
Proof.
  revert h data. induction n as [|n IH]; intros h data; [intros [= _ <- <-]; split; [lia|by right]|]. cbn [consume].
  ifz; [intros [= _ <- <-]; split; [lia|by right]|]. destruct (parse_frame_header data) as [fh|]; [|done]. cbn [mbind option_bind].
  ifz; [intros [= _ <- <-]; split; [lia|by right]|]. destruct (handle_frame fh _ h) as [[h2 ret2]|]; [|done]. cbn [mbind option_bind].
  pose proof (blen_zdrop (9 + length_ fh) data). pose proof (blen_nonneg data).
  ifz; [intros [= _ <- <-]; split; [lia|by left]|]. intros [Hr ?]%IH. split; [lia|done].
Qed.

Lemma observe_leaves inc h data o :
  leaves inc (consume_all (core h) data) o -> observe o = observe_parse (consume_all (core h) data).
Proof.
  destruct (consume_all (core h) data) as [[[h1 rest] ret]|] eqn:Ec; cbn [leaves]; [|by intros ->].
  intros (b & Hw & Hb & ->). apply consume_core in Ec. cbn [observe observe_parse plaintext_buffer_ relay set_tls set_buffer].
  unfold core in *. by rewrite relay_relay, Ec, Hb.
Qed.

Lemma read_all_consume cs : forall d h,
  Buffer.wf (plaintext_buffer_ h) -> incoming (tls_handler_ h) = d :: cs -> Forall (fun c => blen c <= 4096) (d :: cs) ->
  blen (Buffer.content (plaintext_buffer_ h)) + blen (concat (d :: cs)) <= Buffer.MAX_CAPACITY ->
  observe (read_all (S (length cs)) h) =
    observe_parse (consume_all (core h) (Buffer.content (plaintext_buffer_ h) ++ concat (d :: cs))).
Proof.
  induction cs as [|d' cs IH]; intros d h Hw Hinc Hd Hroom; pose proof (Forall_inv Hd) as Hd0;
    rewrite concat_cons in Hroom |- *; rewrite blen_app in Hroom; pose proof (on_read_consume h d _ Hw Hinc Hd0) as Hone.
  - change (concat []) with (@nil byte) in *. rewrite (@blen_nil byte) in Hroom. specialize (Hone ltac:(lia)). rewrite app_nil_r.
    rewrite <- (observe_leaves _ _ _ _ Hone). cbn [read_all length]. pose proof (consume_rest (S (length (Buffer.content (plaintext_buffer_ h) ++ d))) (core h) (Buffer.content (plaintext_buffer_ h) ++ d)) as Hret.
    fold (consume_all (core h) (Buffer.content (plaintext_buffer_ h) ++ d)) in Hret.
    destruct (consume_all (core h) _) as [[[h1 rest] ret]|]; cbn [leaves] in Hone; [|by rewrite Hone].
    destruct Hone as (b & _ & _ & ->). destruct (Hret _ _ _ eq_refl) as [_ [Hneg| ->]]; [|done].
    by replace (ret <? 0) with true by lia.
  - pose proof (blen_nonneg (concat (d' :: cs))) as Hc. specialize (Hone ltac:(lia)). change (length (d' :: cs)) with (S (length cs)).
    rewrite app_assoc, consume_all_app. remember (S (length cs)) as m eqn:Em. cbn [read_all].
    pose proof (consume_rest (S (length (Buffer.content (plaintext_buffer_ h) ++ d))) (core h) (Buffer.content (plaintext_buffer_ h) ++ d)) as Hret.
    fold (consume_all (core h) (Buffer.content (plaintext_buffer_ h) ++ d)) in Hret.
    pose proof (observe_leaves _ _ _ _ Hone) as Hobs.
    destruct (consume_all (core h) _) as [[[h1 rest] ret]|] eqn:Ec; cbn [leaves] in Hone; [|by rewrite Hone].
    destruct Hone as (b & Hwb & Hcb & Eo). rewrite Eo in *. cbn [mbind option_bind].
    destruct (Hret _ _ _ eq_refl) as [Hrest _]. rewrite blen_app in Hrest.
    destruct (ret <? 0) eqn:Er; [rewrite Hobs; cbn; by rewrite Er|]. subst m.
    rewrite (IH d' (relay b (d' :: cs) h1)); [|done..|by apply Forall_inv_tail in Hd|].
    + cbn [plaintext_buffer_ relay set_tls set_buffer]. rewrite Hcb. apply consume_core in Ec. unfold core in *. by rewrite relay_relay, Ec.
    + cbn [plaintext_buffer_ relay set_tls set_buffer]. rewrite Hcb. lia.
Qed.

(** C4. How the bytes are cut into TLS records does not matter: delivering the
    same bytes in any two sequences of records of at most 4096 bytes, the calls
    of [on_read] up to the first negative result give the same result, streams,
    settings and decoder, send the same bytes, and leave the same bytes waiting
    for the rest of a frame; no call runs out of rounds. The bytes, with those
    already waiting, are no more than the 64 MiB of [MAX_CAPACITY]. *)
Theorem http2_split_invariant (h : t PlainTls) cs1 cs2 :
  Buffer.wf (plaintext_buffer_ h) -> cs1 <> [] -> cs2 <> [] -> concat cs1 = concat cs2 ->
  Forall (fun c => blen c <= 4096) (cs1 ++ cs2) ->
  blen (Buffer.content (plaintext_buffer_ h)) + blen (concat cs1) <= Buffer.MAX_CAPACITY ->
  let reads cs := observe (read_all (length cs) (relay (plaintext_buffer_ h) cs h)) in
  reads cs1 = reads cs2 /\ reads cs1 <> ObservedOutOfFuel.
Proof.
  cbv zeta. intros Hw H1 H2 Heq [Hc1 Hc2]%Forall_app Hroom. destruct cs1 as [|d1 cs1], cs2 as [|d2 cs2]; try done.
  assert (Hone : forall d cs, Forall (fun c => blen c <= 4096) (d :: cs) -> concat (d :: cs) = concat (d1 :: cs1) ->
    observe (read_all (S (length cs)) (relay (plaintext_buffer_ h) (d :: cs) h)) =
    observe_parse (consume_all (core h) (Buffer.content (plaintext_buffer_ h) ++ concat (d1 :: cs1)))).
  { intros d cs Hd Hc. rewrite (read_all_consume cs d); cbn [plaintext_buffer_ relay set_tls set_buffer]; rewrite ?Hc; done. }
  cbn [length]. rewrite (Hone d1), (Hone d2) by done. split; [done|].
  by destruct (consume_all (core h) _) as [[[? ?] ?]|].
Qed.

(** A SETTINGS acknowledgement and a PING, in one record and byte by byte. *)
Definition ping_bytes : bytes :=
  frame_bytes (mkFrame SETTINGS 0 0 []) ++ frame_bytes (mkFrame PING 0 0 (replicate 8 x41)).

Lemma http2_split_invariant_witness :
  let h := create true (mkPlain [] []) in
  let reads cs := observe (read_all (length cs) (relay (plaintext_buffer_ h) cs h)) in
  reads [ping_bytes] = reads (map (fun b => [b]) ping_bytes) /\ reads [ping_bytes] <> ObservedOutOfFuel.
Proof.
  apply (http2_split_invariant (create true (mkPlain [] [])) [ping_bytes] (map (fun b => [b]) ping_bytes)).
  - apply Buffer.create_wf.
  - discriminate.
  - discriminate.
  - vm_compute. reflexivity.
  - vm_compute. repeat constructor; discriminate.
  - vm_compute. discriminate.
Defined.
End Http2Split.
