(* ===== verification/Http2Mux.v ===== *)
(** Several requests on one HTTP/2 connection ([Http2Handler] of
    protocol/source/protocol_handler.cpp): an abstract server that answers each
    request when its stream ends, the frames of a client that keeps to the
    protocol, and the proof that the handler implements the one on the input of
    the other, however the streams are interleaved and the bytes are cut.

    The client sends no connection preface: the handler does not expect one
    ([Http2.client_preface_blocks_connection]). *)

From S2P Require Import Prelude StdMap ByteBuffer Hpack Http Tls Http2 Http2Split.

Module Http2Mux.
Import HttpMessage Http2Stream Http2Handler Http2Split.

(** * The abstract server *)

(** The DATA frames of a body, the last one ending the stream. *)
Fixpoint data_chunks (fuel : nat) (sid mx : Z) (d : bytes) : list frame :=
  match fuel with
  | O => []
  | S n =>
      if blen d =? 0 then []
      else
        let c := Z.min (blen d) mx in
        mkFrame DATA sid (if c =? blen d then HTTP2_FLAG_END_STREAM else 0) (ztake c d)
          :: data_chunks n sid mx (zdrop c d)
  end.
Definition max_frame : Z := max_frame_size settings_reset.

(** The answer to a request with body [bd]. *)
Definition reply (sid : Z) (bd : bytes) : list frame :=
  response_head sid :: data_chunks (S (length (reply_body bd))) sid max_frame (reply_body bd).

(** What a client sends. *)
Inductive client_frame :=
| CHeaders (sid : Z) (hs : HttpHeaders) (fin : bool)
| CData (sid : Z) (d : bytes) (fin : bool)
| CReset (sid error_code : Z)
| CPing (d : bytes)
| CSettings (payload : bytes)
| CWindow (sid increment : Z)
| COther (ty sid flags : Z) (payload : bytes).

Definition be32_bytes (v : Z) : bytes := [byte_at v 24 255; byte_at v 16 255; byte_at v 8 255; byte_at v 0 255].
Definition fin_flag (fin : bool) : Z := if fin then HTTP2_FLAG_END_STREAM else 0.
Definition encode (f : client_frame) : frame :=
  match f with
  | CHeaders sid hs fin => mkFrame HEADERS sid (HTTP2_FLAG_END_HEADERS + fin_flag fin) (Hpack.encode hs)
  | CData sid d fin => mkFrame DATA sid (fin_flag fin) d
  | CReset sid code => mkFrame RST_STREAM sid 0 (be32_bytes code)
  | CPing d => mkFrame PING 0 0 d
  | CSettings payload => mkFrame SETTINGS 0 0 payload
  | CWindow sid incr => mkFrame WINDOW_UPDATE sid 0 (be32_bytes incr)
  | COther ty sid flags payload => mkFrame ty sid flags payload
  end.

Definition handled (ty : Z) : bool :=
  existsb (Z.eqb ty) [SETTINGS; HEADERS; DATA; CONTINUATION; WINDOW_UPDATE; RST_STREAM; PING].
Definition valid (f : client_frame) : Prop :=
  valid_frame (encode f) /\
  match f with
  | CHeaders sid hs _ => 0 < sid /\ mwf hs /\ Forall Hpack.header_ok hs
  | CData sid _ _ => 0 < sid
  | CPing d => blen d = 8
  | CWindow _ incr => 0 < incr <= MAX_WINDOW
  | COther ty _ _ _ => handled ty = false
  | _ => True
  end.

(** A stream: the request so far, or nothing more to come. *)
Inductive stream := Receiving (hs : HttpHeaders) (bd : bytes) | Ended.
Record server := mkServer { table : gmap Z stream; acked : bool }.
Definition fresh : server := mkServer ∅ false.
Definition set_stream (sid : Z) (x : stream) (s : server) : server := mkServer (<[sid := x]> (table s)) (acked s).

(** More of the request on [sid]: answered if it ends the stream. *)
Definition receive (sid : Z) (hs : HttpHeaders) (bd : bytes) (fin : bool) (s : server) : server * list frame :=
  if fin then (set_stream sid Ended s, reply sid bd) else (set_stream sid (Receiving hs bd) s, []).

(** What is sent in answer to one frame; [None]: the client broke the protocol. *)
Definition serve (f : client_frame) (s : server) : option (server * list frame) :=
  match f with
  | CHeaders sid hs fin =>
      match table s !! sid with
      | None => Some (receive sid hs [] fin s)
      | Some (Receiving hs0 bd) => Some (receive sid (foldl (fun a h => mset h.1 h.2 a) hs0 hs) bd fin s)
      | Some Ended => None
      end
  | CData sid d fin =>
      match table s !! sid with
      | Some (Receiving hs bd) => Some (receive sid hs (bd ++ d) fin s)
      | _ => None
      end
  | CReset sid _ =>
      match table s !! sid with
      | Some _ => Some (set_stream sid Ended s, [])
      | None => None
      end
  | CPing d => Some (s, [mkFrame PING 0 HTTP2_FLAG_ACK d])
  | CSettings payload =>
      if (blen payload =? 0) || acked s then Some (s, [])
      else Some (mkServer (table s) true, [mkFrame SETTINGS 0 HTTP2_FLAG_ACK []])
  | CWindow _ _ | COther _ _ _ _ => Some (s, [])
  end.

Fixpoint serve_all (fs : list client_frame) (s : server) : option (server * list frame) :=
  match fs with
  | [] => Some (s, [])
  | f :: r =>
      '(s1, out1) ← serve f s;
      '(s2, out2) ← serve_all r s1;
      Some (s2, out1 ++ out2)
  end.

(** * Streams do not interfere *)

(** The body a stream carries, and whether it is completed. *)
Definition data_of (sid : Z) (f : client_frame) : bytes :=
  match f with CData i d _ => if i =? sid then d else [] | _ => [] end.
Definition ends (sid : Z) (f : client_frame) : bool :=
  match f with CHeaders i _ fin | CData i _ fin => (i =? sid) && fin | _ => false end.
Definition owed (sid : Z) (bd : bytes) (fs : list client_frame) : list frame :=
  if existsb (ends sid) fs then reply sid (bd ++ concat (map (data_of sid) fs)) else [].

(** The answer to a stream, as a function of its own frames. *)
Definition answer (sid : Z) (fs : list client_frame) : list frame := owed sid [] fs.

Definition on_stream (sid : Z) (l : list frame) : list frame := filter (fun f => fstream f = sid) l.

Lemma data_chunks_stream fuel sid mx d : Forall (fun f => fstream f = sid) (data_chunks fuel sid mx d).
Proof. revert d. induction fuel as [|n IH]; intros d; cbn; [constructor|]. ifz; by constructor. Qed.

Lemma reply_stream sid bd : Forall (fun f => fstream f = sid) (reply sid bd).
Proof. constructor; [done|apply data_chunks_stream]. Qed.

Lemma on_stream_own sid l : Forall (fun f => fstream f = sid) l -> on_stream sid l = l.
Proof. unfold on_stream. induction 1 as [|f l Hf _ IH]; [done|]. by rewrite filter_cons_True, IH. Qed.

Lemma on_stream_other sid i l : i <> sid -> Forall (fun f => fstream f = i) l -> on_stream sid l = [].
Proof.
  unfold on_stream. intros Hi. induction 1 as [|f l Hf _ IH]; [done|]. by rewrite filter_cons_False, IH by congruence.
Qed.

(** What the server still owes a stream in the state it is in. *)
Definition due (sid : Z) (x : option stream) (fs : list client_frame) : list frame :=
  match x with None => owed sid [] fs | Some (Receiving _ bd) => owed sid bd fs | Some Ended => [] end.

Lemma owed_cons sid bd f fs : ends sid f = false -> owed sid bd (f :: fs) = owed sid (bd ++ data_of sid f) fs.
Proof. unfold owed. cbn. intros ->. by rewrite <- app_assoc. Qed.

(** A frame touches its own stream only. *)
Definition about (f : client_frame) : Z :=
  match f with CHeaders i _ _ | CData i _ _ | CReset i _ => i | _ => 0 end.

Lemma serve_other sid f s s1 out : serve f s = Some (s1, out) -> sid <> 0 -> about f <> sid ->
  table s1 !! sid = table s !! sid /\ on_stream sid out = [] /\ ends sid f = false /\ data_of sid f = [].
Proof.
  assert (Hr : forall i hs bd fin, receive i hs bd fin s = (s1, out) -> i <> sid ->
    table s1 !! sid = table s !! sid /\ on_stream sid out = []).
  { intros i hs bd fin Hr Hi. destruct fin; injection Hr as <- <-; (split; [by apply lookup_insert_ne|]); [|done].
    apply (on_stream_other sid i); [done|apply reply_stream]. }
  intros Hs H0 Hi. destruct f as [i hs fin|i d fin|i c|d|p|i c|ty i fl p]; cbn [about serve ends data_of] in *;
    rewrite ?(proj2 (Z.eqb_neq i sid)) by done; cbn [andb].
  - destruct (table s !! i) as [[hs0 bd|]|]; [|done|]; injection Hs as Hs; by destruct (Hr _ _ _ _ Hs Hi).
  - destruct (table s !! i) as [[hs0 bd|]|]; [|done|done]. injection Hs as Hs; by destruct (Hr _ _ _ _ Hs Hi).
  - destruct (table s !! i); [|done]. injection Hs as <- <-. split; [by apply lookup_insert_ne|done].
  - injection Hs as <- <-. split; [done|]. by rewrite (on_stream_other sid 0) by (done || by repeat constructor).
  - destruct ((blen p =? 0) || acked s)%bool; injection Hs as <- <-; [done|].
    by rewrite (on_stream_other sid 0) by (done || by repeat constructor).
  - by injection Hs as <- <-.
  - by injection Hs as <- <-.
Qed.

Lemma serve_all_cons f fs s r : serve_all (f :: fs) s = Some r ->
  exists s1 out1 out2, serve f s = Some (s1, out1) /\ serve_all fs s1 = Some (r.1, out2) /\ r.2 = out1 ++ out2.
Proof.
  cbn. destruct (serve f s) as [[s1 out1]|]; [|done]. cbn. destruct (serve_all fs s1) as [[s2 out2]|] eqn:E; [|done].
  intros [= <-]. by exists s1, out1, out2.
Qed.

(** Nothing more comes on a stream that has ended, and nothing is sent on it. *)
Lemma ended_quiet sid fs : sid <> 0 -> forall s r, serve_all fs s = Some r -> table s !! sid = Some Ended ->
  on_stream sid r.2 = [] /\ existsb (ends sid) fs = false /\ concat (map (data_of sid) fs) = [].
Proof.
  intros H0. induction fs as [|f fs IH]; intros s r Hs He; [by injection Hs as <-|].
  destruct (serve_all_cons f fs s r Hs) as (s1 & out1 & out2 & H1 & H2 & ->). unfold on_stream in *. rewrite filter_app.
  cbn [existsb map concat]. destruct (decide (about f = sid)) as [Hi|Hi].
  - destruct f as [i hs fin|i d fin|i c|d|p|i c|ty i fl p]; cbn [about serve ends data_of] in *; subst; rewrite ?He in H1; try done.
    injection H1 as <- <-. apply (IH _ _ H2), lookup_insert_eq.
  - destruct (serve_other sid f s s1 out1 H1 H0 Hi) as (Ht & Ho & -> & ->). unfold on_stream in Ho. rewrite Ho.
    apply (IH _ _ H2). by rewrite Ht.
Qed.

(** The rest of a request that has just gone on. *)
Lemma receive_due sid hs bd fin s fs r :
  sid <> 0 -> (forall s1 r1, serve_all fs s1 = Some r1 -> on_stream sid r1.2 = due sid (table s1 !! sid) fs) ->
  serve_all fs (receive sid hs bd fin s).1 = Some r ->
  on_stream sid ((receive sid hs bd fin s).2 ++ r.2) =
    if fin || existsb (ends sid) fs then reply sid (bd ++ concat (map (data_of sid) fs)) else [].
Proof.
  intros H0 IH Hs. unfold on_stream. rewrite filter_app. destruct fin; cbn [receive fst snd orb] in *.
  - destruct (ended_quiet sid fs H0 _ _ Hs) as (Ho & _ & ->); [apply lookup_insert_eq|]. unfold on_stream in Ho.
    rewrite Ho, !app_nil_r. apply on_stream_own, reply_stream.
  - specialize (IH _ _ Hs). unfold on_stream in IH. rewrite IH. cbn [table set_stream]. by rewrite lookup_insert_eq.
Qed.

Lemma serve_due sid fs : sid <> 0 -> forall s r, serve_all fs s = Some r -> on_stream sid r.2 = due sid (table s !! sid) fs.
Proof.
  intros H0. induction fs as [|f fs IH]; intros s r Hs.
  { injection Hs as <-. cbn. by destruct (table s !! sid) as [[? ?|]|]. }
  destruct (serve_all_cons f fs s r Hs) as (s1 & out1 & out2 & H1 & H2 & Hr).
  destruct (decide (about f = sid)) as [Hi|Hi].
  - assert (Hrec : forall hs bd fin, receive sid hs bd fin s = (s1, out1) -> on_stream sid r.2 =
      if fin || existsb (ends sid) fs then reply sid (bd ++ concat (map (data_of sid) fs)) else []).
    { intros hs bd fin E. pose proof (receive_due sid hs bd fin s fs (r.1, out2) H0 IH) as Hd. rewrite E in Hd. rewrite Hr. by apply Hd. }
    destruct f as [i hs fin|i d fin|i c|d|p|i c|ty i fl p]; cbn [about serve] in *; subst; try done.
    + destruct (table s !! sid) as [[hs0 bd|]|]; [|done|]; injection H1 as H1; rewrite (Hrec _ _ _ H1); cbn; unfold owed; cbn; by rewrite Z.eqb_refl.
    + destruct (table s !! sid) as [[hs0 bd|]|]; [|done|done]. injection H1 as H1. rewrite (Hrec _ _ _ H1). cbn. unfold owed. cbn. by rewrite Z.eqb_refl, <- app_assoc.
    + destruct (table s !! sid) as [x|] eqn:Ex; [|done]. injection H1 as <- <-. rewrite Hr.
      destruct (ended_quiet sid fs H0 _ _ H2) as (Ho & He & _); [apply lookup_insert_eq|]. cbn [snd app] in *. rewrite Ho. destruct x; [|done]. cbn. unfold owed. cbn. by rewrite He.
  - destruct (serve_other sid f s s1 out1 H1 H0 Hi) as (Ht & Ho & He & Hd). rewrite Hr. unfold on_stream in *. rewrite filter_app, Ho.
    cbn [app]. pose proof (IH _ _ H2) as Hn. unfold on_stream in Hn. cbn [snd] in Hn. rewrite Hn, Ht. destruct (table s !! sid) as [[hs bd|]|]; cbn; [|done|]; by rewrite owed_cons, Hd, ?app_nil_r.
Qed.

(** * The handler sends the answer *)

Lemma send_data_chunks fuel sid mx d (h : t PlainTls) : 0 < mx -> (length d < fuel)%nat ->
  send_data_loop fuel sid mx d true h = write_frames (data_chunks fuel sid mx d) h.
Proof.
  intros Hm. revert d h. induction fuel as [|n IH]; intros d h Hl; [lia|]. cbn [send_data_loop data_chunks].
  ifz; [done|]. pose proof (blen_nonneg d). rewrite andb_true_r. cbn [write_frames].
  destruct (write_frame _ h) as [[h1 ret]|]; [|done]. cbn. ifz; [done|]. apply IH, zdrop_shorter; lia.
Qed.

Lemma complete_sends st (h : t PlainTls) : conn_ h = true -> local_settings_ h = settings_reset ->
  exists x, handle_complete_request st h = Some (set_tls x h, PROTOCOL_OK) /\
    concat (sent x) = concat (sent (tls_handler_ h)) ++ concat (map frame_bytes (reply (stream_id st) (body (request st)))).
Proof.
  intros Hc Hl. unfold handle_complete_request. rewrite Hc. cbn [negb]. unfold send_headers_frame. rewrite Hl.
  change (blen (Hpack.encode response_headers) <=? max_frame_size settings_reset) with true. cbv iota.
  destruct (write_frame_plain (response_head (stream_id st)) h) as (x & Ex & Hx & _).
  rewrite response_head_sent in Ex. rewrite Ex. cbn [mbind option_bind].
  set (bd := reply_body (body (request st))).
  assert (Hsend : (if negb (bool_decide (body (request st) = []))
     then send_data_frame (stream_id st) (body (request st)) true (set_tls x h)
     else send_data_frame (stream_id st) (str "OK") true (set_tls x h)) =
     write_frames (data_chunks (S (length bd)) (stream_id st) max_frame bd) (set_tls x h)).
  { rewrite <- send_data_chunks by (done || lia). unfold send_data_frame, bd, reply_body. cbn [set_tls local_settings_].
    rewrite Hl. by case_bool_decide. }
  rewrite Hsend. destruct (write_frames_plain (data_chunks (S (length bd)) (stream_id st) max_frame bd) (set_tls x h)) as (y & -> & Hy & _).
  cbn [mbind option_bind]. exists y. split; [done|]. cbn [set_tls tls_handler_] in Hy. rewrite Hy, Hx. unfold reply. fold bd.
  cbn [map concat]. by rewrite <- app_assoc.
Qed.

(** * The simulation *)

Definition stream_rel (sid : Z) (x : option stream) (y : option Http2Stream.t) : Prop :=
  match x, y with
  | None, None => True
  | Some (Receiving hs bd), Some st =>
      stream_id st = sid /\ state st = OPEN /\ headers (request st) = hs /\ body (request st) = bd
  | Some Ended, Some st => stream_id st = sid
  | _, _ => False
  end.

Record sim (s : server) (h : t PlainTls) : Prop := {
  sim_conn : conn_ h = true;
  sim_local : local_settings_ h = settings_reset;
  sim_ack : settings_ack_sent_ h = acked s;
  sim_streams : forall sid, stream_rel sid (table s !! sid) (find_stream sid h);
}.

(** The parts of the handler [sim] is about, the streams aside, and what it has sent. *)
Definition frame_of (h : t PlainTls) := (conn_ h, local_settings_ h, settings_ack_sent_ h, tls_handler_ h).

Lemma sim_update sid x st s h h1 :
  sim s h -> frame_of h1 = frame_of h -> stream_rel sid (Some x) (Some st) ->
  (forall i, i <> sid -> find_stream i h1 = find_stream i h) -> sim (set_stream sid x s) (put_stream sid st h1).
Proof.
  intros [Hc Hl Ha Hs] [= Ec El Ea _] Hr Hi. split; cbn; [congruence..|]. intros i. unfold find_stream in *. cbn.
  destruct (decide (i = sid)) as [->|Hne].
  - by rewrite lookup_insert_eq, mfind_mset_eq.
  - rewrite lookup_insert_ne, mfind_mset_ne by done. rewrite Hi by done. apply Hs.
Qed.

Lemma sim_tls s h x : sim s h -> sim s (set_tls x h).
Proof. by intros [? ? ? ?]; split. Qed.

(** The end of the HEADERS and DATA handlers: the stream is stored, and answered
    if the frame ends it. *)
Definition conclude (sid : Z) (st : Http2Stream.t) (fin : bool) (h : t PlainTls) : option (t PlainTls * Z) :=
  if fin then handle_complete_request (set_state HALF_CLOSED_REMOTE st) (put_stream sid (set_state HALF_CLOSED_REMOTE st) h)
  else Some (put_stream sid st h, PROTOCOL_OK).

(** The handler answers [r] with the frames of the server. *)
Definition answers (s1 : server) (out : list frame) (h : t PlainTls) (r : option (t PlainTls * Z)) : Prop :=
  exists h1, r = Some (h1, PROTOCOL_OK) /\ sim s1 h1 /\
    concat (sent (tls_handler_ h1)) = concat (sent (tls_handler_ h)) ++ concat (map frame_bytes out).

Lemma conclude_answers sid hs bd fin st s h h1 :
  sim s h -> frame_of h1 = frame_of h -> (forall i, i <> sid -> find_stream i h1 = find_stream i h) ->
  stream_rel sid (Some (Receiving hs bd)) (Some st) ->
  answers (receive sid hs bd fin s).1 (receive sid hs bd fin s).2 h (conclude sid st fin h1).
Proof.
  intros Hsim Hf Hi Hr. destruct Hr as (Hid & Hst & Hh & Hb). injection Hf as Ec El Ea Et.
  assert (Hfr : frame_of h1 = frame_of h) by (unfold frame_of; congruence). destruct fin; cbn [receive conclude fst snd].
  - pose proof (sim_update sid Ended (set_state HALF_CLOSED_REMOTE st) s h h1 Hsim Hfr Hid Hi) as Hs1.
    destruct (complete_sends (set_state HALF_CLOSED_REMOTE st) _ (sim_conn _ _ Hs1) (sim_local _ _ Hs1)) as (x & -> & Hx).
    eexists. split; [done|]. split; [by apply sim_tls|]. cbn [put_stream set_streams tls_handler_ set_tls] in *.
    rewrite Hx, Et. cbn. by rewrite Hid, Hb.
  - eexists. split; [done|]. split; [by apply (sim_update sid _ _ s h h1)|]. cbn. by rewrite Et, app_nil_r.
Qed.

Lemma fin_flag_bits b fin : b = 0 \/ b = HTTP2_FLAG_END_HEADERS -> has_flag (b + fin_flag fin) HTTP2_FLAG_END_STREAM = fin.
Proof. by intros [-> | ->]; destruct fin. Qed.

Lemma headers_answers sid hs fin s s1 out h :
  mwf hs -> Forall Hpack.header_ok hs -> serve (CHeaders sid hs fin) s = Some (s1, out) -> sim s h ->
  answers s1 out h (handle_headers_frame sid (Hpack.encode hs) (HTTP2_FLAG_END_HEADERS + fin_flag fin) h).
Proof.
  intros Hm Hh Hs Hsim. unfold handle_headers_frame, get_or_create_stream.
  assert (Hg : exists h0 st0 hs0 bd, match find_stream sid h with
      | Some st => (h, st) | None => (put_stream sid (Http2Stream.init sid) h, Http2Stream.init sid) end = (h0, st0) /\
    frame_of h0 = frame_of h /\ (forall i, i <> sid -> find_stream i h0 = find_stream i h) /\
    stream_rel sid (Some (Receiving hs0 bd)) (Some (if bool_decide (state st0 = IDLE) then set_state OPEN st0 else st0)) /\
    (s1, out) = receive sid (foldl (fun a p => mset p.1 p.2 a) hs0 hs) bd fin s).
  { pose proof (sim_streams s h Hsim sid) as Hr. cbn [serve] in Hs.
    destruct (table s !! sid) as [[hs0 bd|]|]; [| |].
    - destruct (find_stream sid h) as [st|]; [|done]. exists h, st, hs0, bd. destruct Hr as (? & Hst & ? & ?). rewrite Hst. by injection Hs as Hs.
    - done.
    - destruct (find_stream sid h) as [st|]; [done|]. do 2 eexists. exists [], []. split; [done|]. split; [done|]. split; [|split; [done|]].
      + intros i Hi. by apply mfind_mset_ne.
      + rewrite (foldl_mset_sorted hs []) by (done || constructor). cbn. by injection Hs as Hs. }
  destruct Hg as (h0 & st0 & hs0 & bd & -> & Hf & Hi & Hr & E). set (st1 := if bool_decide (state st0 = IDLE) then _ else _) in *.
  cbn [put_stream set_streams hpack_decoder_]. unfold Hpack.decode. rewrite Hpack.decode_loop_encode by done. cbv iota beta zeta.
  rewrite (foldl_mset_sorted hs []) by (done || constructor). cbn [app]. change (PROTOCOL_OK =? PROTOCOL_OK) with true. cbn [negb].
  replace (has_flag (HTTP2_FLAG_END_HEADERS + fin_flag fin) HTTP2_FLAG_END_HEADERS) with true by (by destruct fin). cbn [negb].
  rewrite fin_flag_bits by (by right).
  replace s1 with (s1, out).1 by done. replace out with (s1, out).2 at 2 by done. rewrite E.
  apply (conclude_answers sid _ bd fin (add_headers hs st1) s h (set_decoder (hpack_decoder_ h0) (put_stream sid st1 h0)) Hsim Hf).
  - intros i Hne. rewrite <- Hi by done. unfold find_stream. by apply mfind_mset_ne.
  - destruct Hr as (? & ? & <- & ?). done.
Qed.

Lemma data_answers sid d fin s s1 out h :
  serve (CData sid d fin) s = Some (s1, out) -> sim s h -> answers s1 out h (handle_data_frame sid d (fin_flag fin) h).
Proof.
  intros Hs Hsim. unfold handle_data_frame. pose proof (sim_streams s h Hsim sid) as Hr. cbn [serve] in Hs.
  destruct (table s !! sid) as [[hs bd|]|]; [|done|done]. destruct (find_stream sid h) as [st|]; [|done]. injection Hs as Hs.
  pose proof (fin_flag_bits 0 fin (or_introl eq_refl)) as Hfin. rewrite Z.add_0_l in Hfin. rewrite Hfin.
  pose proof (conclude_answers sid hs (bd ++ d) fin (if 0 <? blen d then append_body d st else st) s h h Hsim eq_refl) as Hc.
  rewrite Hs in Hc. apply Hc; [done|]. destruct Hr as (? & ? & ? & Hb). pose proof (blen_nonneg d).
  ifz; cbn; [by rewrite Hb|]. by rewrite (blen_0_nil d), app_nil_r by lia.
Qed.
Lemma mfind_fmap sid (g : Http2Stream.t -> Http2Stream.t) l :
  mfind sid (map (fun p => (p.1, g p.2)) l) = g <$> mfind sid l.
Proof. induction l as [|[k v] l IH]; cbn in *; [done|]. by destruct (sid ?= k). Qed.

(** A larger window changes nothing [stream_rel] speaks of. *)
Lemma grow_window_rel sid x y incr : stream_rel sid x y -> stream_rel sid x (grow_window incr <$> y).
Proof. destruct x as [[hs bd|]|], y as [st|]; cbn; try done; unfold grow_window; by ifz. Qed.

Lemma sim_same s h h1 : sim s h -> frame_of h1 = frame_of h ->
  (forall sid, stream_rel sid (table s !! sid) (find_stream sid h1)) -> sim s h1.
Proof. intros [? ? ? ?] [= Ec El Ea _] Hs. split; congruence || done. Qed.

Lemma same_answers s h h1 : sim s h -> frame_of h1 = frame_of h ->
  (forall sid, stream_rel sid (table s !! sid) (find_stream sid h1)) -> answers s [] h (Some (h1, PROTOCOL_OK)).
Proof.
  intros Hsim Hf Hs. exists h1. split; [done|]. split; [by apply (sim_same s h)|]. injection Hf as _ _ _ ->. by rewrite app_nil_r.
Qed.

Lemma reset_answers sid code s s1 out h :
  serve (CReset sid code) s = Some (s1, out) -> sim s h -> answers s1 out h (Some (handle_rst_stream_frame sid h)).
Proof.
  intros Hs Hsim. pose proof (sim_streams s h Hsim sid) as Hr. cbn [serve] in Hs.
  unfold handle_rst_stream_frame. destruct (table s !! sid) as [x|]; [|done]. injection Hs as <- <-.
  destruct (find_stream sid h) as [st|]; [|by destruct x].
  eexists. split; [done|]. split; [|by rewrite app_nil_r]. apply (sim_update sid Ended _ s h h); [done|done| |done]. destruct x; [by destruct Hr|done].
Qed.

Lemma window_answers sid incr s h : 0 < incr <= MAX_WINDOW -> sim s h ->
  answers s [] h (Some (handle_window_update_frame sid incr h)).
Proof.
  intros Hi Hsim. pose proof (sim_streams s h Hsim) as Hr. unfold handle_window_update_frame. ifz; [lia|]. ifz.
  - apply same_answers; [done..|]. intros i. unfold find_stream. cbn [streams_ set_streams]. rewrite mfind_fmap.
    apply grow_window_rel, Hr.
  - destruct (find_stream sid h) as [st|] eqn:Ef; [|by apply same_answers]. apply same_answers; [done..|]. intros i.
    specialize (Hr i). unfold find_stream in *. cbn. destruct (decide (i = sid)) as [->|Hne]; [|by rewrite mfind_mset_ne].
    rewrite mfind_mset_eq. rewrite Ef in Hr. by apply (grow_window_rel _ _ (Some st)).
Qed.

Lemma settings_answers payload s s1 out h :
  serve (CSettings payload) s = Some (s1, out) -> sim s h -> answers s1 out h (handle_settings_frame payload h).
Proof.
  intros Hs Hsim. pose proof Hsim as [Hc Hl Ha Hr]. cbn [serve] in Hs. unfold handle_settings_frame, send_settings_ack.
  destruct (blen payload =? 0); cbn [orb] in Hs.
  - injection Hs as <- <-. by apply same_answers.
  - cbn [set_settings settings_ack_sent_]. rewrite Ha. destruct (acked s) eqn:Eack; cbn [negb]; injection Hs as <- <-.
    + by apply same_answers.
    + set (h1 := set_acks _ true _). destruct (write_frame_plain (mkFrame SETTINGS 0 HTTP2_FLAG_ACK []) h1) as (x & -> & Hx & _).
      eexists. split; [done|]. split; [by apply sim_tls; split|]. cbn [set_tls tls_handler_]. by rewrite Hx.
Qed.

Lemma ping_answers d s h : blen d = 8 -> sim s h ->
  answers s [mkFrame PING 0 HTTP2_FLAG_ACK d] h (handle_ping_frame d h).
Proof.
  intros Hd Hsim. unfold handle_ping_frame. rewrite ztake_ge by lia. ifz; [|lia].
  destruct (write_frame_plain (mkFrame PING 0 HTTP2_FLAG_ACK d) h) as (x & -> & Hx & _).
  eexists. split; [done|]. split; [by apply sim_tls|]. cbn [set_tls tls_handler_]. rewrite Hx. cbn [map concat]. by rewrite app_nil_r.
Qed.

(** One frame of the client: the handler does what the server does. *)
Lemma frame_answers f s s1 out h : valid f -> serve f s = Some (s1, out) -> sim s h ->
  answers s1 out h (handle_frame
    (mkHeader (blen (fpayload (encode f))) (ftype (encode f)) (fflags (encode f)) (fstream (encode f))) (fpayload (encode f)) h).
Proof.
  intros [Hvf Hv] Hs Hsim. unfold handle_frame. cbn [type_ stream_ flags_].
  destruct f as [sid hs fin|sid d fin|sid code|d|p|sid incr|ty sid fl p]; cbn [encode ftype fstream fflags fpayload].
  - destruct Hv as (_ & Hm & Hh). by apply headers_answers with s.
  - by apply data_answers with s.
  - by apply reset_answers with code s.
  - injection Hs as <- <-. by apply ping_answers.
  - by apply settings_answers with s.
  - cbn [serve] in Hs. injection Hs as <- <-. cbn [be32_bytes]. unfold be32_bytes.
    unfold MAX_WINDOW in *. rewrite be32_byte_at, land_31, Z.mod_small by lia. by apply window_answers.
  - injection Hs as <- <-. unfold handled in Hv. cbn [existsb] in Hv. rewrite !orb_false_iff in Hv.
    destruct Hv as (-> & -> & -> & -> & -> & -> & -> & _). destruct (ty =? GOAWAY); by apply same_answers, Hsim.
Qed.

Lemma consume_frame f data h : valid_frame f ->
  consume_all h (frame_bytes f ++ data) =
    '(h1, ret) ← handle_frame (mkHeader (blen (fpayload f)) (ftype f) (fflags f) (fstream f)) (fpayload f) h;
    if ret <? 0 then Some (h1, data, ret) else consume_all h1 data.
Proof.
  intros Hf. rewrite consume_all_step. unfold frame_bytes. rewrite <- app_assoc, !blen_app, blen_frame_header.
  pose proof (blen_nonneg (fpayload f)). pose proof (blen_nonneg data). ifz; [lia|].
  rewrite parse_frame_header_bytes by done. cbn [mbind option_bind length_]. ifz; [lia|].
  rewrite <- (zdrop_zdrop (blen (fpayload f)) 9) by lia.
  rewrite <- (blen_frame_header f), zdrop_app_all, ztake_app_all, zdrop_app_all. done.
Qed.

(** The frames of a client, one after the other. *)
Lemma consume_serves fs : forall s r h, Forall valid fs -> serve_all fs s = Some r -> sim s h ->
  exists h1, consume_all h (concat (map (fun f => frame_bytes (encode f)) fs)) = Some (h1, [], PROTOCOL_OK) /\
    sim r.1 h1 /\ concat (sent (tls_handler_ h1)) = concat (sent (tls_handler_ h)) ++ concat (map frame_bytes r.2).
Proof.
  induction fs as [|f fs IH]; intros s r h Hv Hs Hsim.
  - injection Hs as <-. exists h. split; [done|]. split; [done|]. by rewrite app_nil_r.
  - destruct (serve_all_cons f fs s r Hs) as (s1 & out1 & out2 & H1 & H2 & ->). rewrite Forall_cons in Hv. destruct Hv as [Hf Hv].
    destruct (frame_answers f s s1 out1 h Hf H1 Hsim) as (h1 & E1 & Hsim1 & Ht1).
    destruct (IH s1 (r.1, out2) h1 Hv H2 Hsim1) as (h2 & E2 & Hsim2 & Ht2). exists h2. cbn [map concat].
    rewrite consume_frame, E1 by apply Hf. cbn [mbind option_bind]. change (PROTOCOL_OK <? 0) with false. cbv iota.
    split; [done|]. split; [done|]. rewrite Ht2, Ht1. by rewrite map_app, concat_app, <- app_assoc.
Qed.

Lemma sim_fresh cs : sim fresh (core (create true (mkPlain cs []))).
Proof. by split. Qed.

(** C3. Several requests on one connection. A client sends HEADERS (one or
    several per stream), DATA, RST_STREAM, SETTINGS, PING and WINDOW_UPDATE
    frames, and frames of unhandled types, of as many streams as it likes, in any
    order the protocol allows ([serve_all] is defined), at most [MAX_CAPACITY]
    bytes (64 MiB) in all, cut into TLS records of at most 4096 bytes at any
    place. The calls of [on_read] consume them all without error; what the
    handler has sent is the output of the abstract server, frame by frame, and
    its streams hold the requests of the server's. On each stream this output is
    a function of that stream's frames alone: if one carries [END_STREAM], the
    response with [:status 200] and [content-type text/plain] and the
    concatenation of its DATA payloads (or [OK]) as the body, else nothing. *)
Theorem http2_multiplexing cs fs s' out :
  cs <> [] -> Forall (fun c => blen c <= 4096) cs -> blen (concat cs) <= Buffer.MAX_CAPACITY ->
  concat cs = concat (map (fun f => frame_bytes (encode f)) fs) -> Forall valid fs ->
  serve_all fs fresh = Some (s', out) ->
  exists h', read_all (length cs) (create true (mkPlain cs [])) = Returned h' PROTOCOL_OK /\
    Buffer.content (plaintext_buffer_ h') = [] /\
    concat (sent (tls_handler_ h')) = concat (map frame_bytes out) /\
    (forall sid, stream_rel sid (table s' !! sid) (find_stream sid h')) /\
    (forall sid, 0 < sid -> on_stream sid out = answer sid fs).
Proof.
  intros Hne Hd Hmax Hc Hv Hs. set (h := create true (mkPlain cs [])).
  destruct (consume_serves fs fresh (s', out) (core h) Hv Hs (sim_fresh cs)) as (h1 & E & [_ _ _ Hst] & Ht).
  assert (Hobs : observe (read_all (length cs) h) = Observed h1 PROTOCOL_OK []).
  { destruct cs as [|d cs]; [done|]. cbn [length]. rewrite (read_all_consume cs d h); [|apply Buffer.create_wf|done..].
    change (Buffer.content (plaintext_buffer_ h)) with (@nil byte). cbn [app]. by rewrite Hc, E. }
  destruct (read_all (length cs) h) as [h' ret| |]; [|done|done]. injection Hobs as <- -> Hb. exists h'.
  split; [done|]. split; [exact Hb|]. split; [exact Ht|]. split; [exact Hst|].
  intros sid Hsid. pose proof (serve_due sid fs ltac:(lia) fresh (s', out) Hs) as Ho. exact Ho.
Qed.

(** Two interleaved requests, one with its body in two pieces, a PING between
    them, and a third that the client takes back; in records of 50 bytes. *)
Definition demo_frames : list client_frame :=
  [CSettings (setting_param 4 1000); CHeaders 1 demo_get false; CHeaders 3 demo_get false; CData 1 (str "hel") false;
   CPing (replicate 8 x41); CHeaders 5 demo_get false; CData 3 [] true; CWindow 0 10; CReset 5 8; CData 1 (str "lo") true].
Fixpoint cut (n : nat) (d : bytes) : list bytes :=
  match n with O => [d] | S n => take 50 d :: cut n (drop 50 d) end.
Definition demo_records : list bytes := cut 3 (concat (map (fun f => frame_bytes (encode f)) demo_frames)).

Definition demo_answers : list frame :=
  [mkFrame SETTINGS 0 HTTP2_FLAG_ACK []; mkFrame PING 0 HTTP2_FLAG_ACK (replicate 8 x41)] ++ reply 3 [] ++ reply 1 (str "hello").

Lemma http2_multiplexing_witness :
  exists s' h', read_all (length demo_records) (create true (mkPlain demo_records [])) = Returned h' PROTOCOL_OK /\
    Buffer.content (plaintext_buffer_ h') = [] /\
    concat (sent (tls_handler_ h')) = concat (map frame_bytes demo_answers) /\
    (forall sid, stream_rel sid (table s' !! sid) (find_stream sid h')) /\
    (forall sid, 0 < sid -> on_stream sid demo_answers = answer sid demo_frames).
Proof.
  exists (default fresh (fst <$> serve_all demo_frames fresh)).
  apply (http2_multiplexing demo_records demo_frames).
  - discriminate.
  - repeat constructor; vm_compute; discriminate.
  - vm_compute. discriminate.
  - vm_compute. reflexivity.
  - repeat constructor; vm_compute; (discriminate || reflexivity).
  - vm_compute. reflexivity.
Defined.

End Http2Mux.
