(* ===== verification/Conn.v ===== *)
(** Connections and their manager (connection/include/connection/connection.hpp,
    connection_manager.hpp and connection/source/connection.cpp,
    connection_manager.cpp).

    The time source is an argument [now] of the operations that read it. A
    [Connection] is shared by pointer: [ConnectionManager] holds a store of the
    objects it created and the table of the ids it still owns. *)

From S2P Require Import Prelude ByteBuffer.

Module Connection.

Inductive ConnectionState :=
| ACCEPTING | TLS_HANDSHAKING | CONNECTED | RECEIVING | PROCESSING | SENDING
| DISCONNECTING | DISCONNECTED.
#[global] Instance ConnectionState_eq_dec : EqDecision ConnectionState.
Proof. solve_decision. Defined.

Definition state_value (s : ConnectionState) : Z :=
  match s with
  | ACCEPTING => 1 | TLS_HANDSHAKING => 2 | CONNECTED => 3 | RECEIVING => 4 | PROCESSING => 5
  | SENDING => 6 | DISCONNECTING => 7 | DISCONNECTED => 8
  end.

(** The argument is the enumeration's byte: any other value is the default. *)
Definition connection_state_to_string (v : Z) : bytes :=
  if v =? 1 then str "ACCEPTING" else if v =? 2 then str "TLS_HANDSHAKING"
  else if v =? 3 then str "CONNECTED" else if v =? 4 then str "RECEIVING"
  else if v =? 5 then str "PROCESSING" else if v =? 6 then str "SENDING"
  else if v =? 7 then str "DISCONNECTING" else if v =? 8 then str "DISCONNECTED"
  else str "UNKNOWN".

Record ClientInfo := mkClientInfo {
  connection_id : Z;
  client_ip : bytes;
  client_port : Z;
  server_port : Z;
}.

Section Connection.
(** The protocol handlers, and what their [close] does. *)
Context {H : Type}.
Variable handler_close : H -> H.
(** Whether the build defines [NDEBUG]. *)
Variable ndebug : bool.

Record t := mk {
  connection_id_ : Z;
  fd_ : Z;
  state_ : ConnectionState;
  client_info_ : ClientInfo;
  read_buffer_ : Buffer.t;
  write_buffer_ : Buffer.t;
  protocol_handler_ : option H;
  last_activity_time_ : Z;
  callback_start_time_ : Z;
  in_callback_ : bool;
  closed : list Z;                                       (* descriptors given to ::close *)
  transitions : list (ConnectionState * ConnectionState); (* executed, oldest first; the
                                                             state callback sees each *)
}.

Definition create (id fd server_port now : Z) : t :=
  mk id fd ACCEPTING (mkClientInfo id [] 0 server_port)
     (Buffer.create Buffer.DEFAULT_INITIAL_CAPACITY) (Buffer.create Buffer.DEFAULT_INITIAL_CAPACITY)
     None now 0 false [] [].

Definition set_state (s : ConnectionState) (c : t) : t :=
  mk (connection_id_ c) (fd_ c) s (client_info_ c) (read_buffer_ c) (write_buffer_ c)
     (protocol_handler_ c) (last_activity_time_ c) (callback_start_time_ c) (in_callback_ c)
     (closed c) (transitions c).
Definition set_activity (now : Z) (c : t) : t :=
  mk (connection_id_ c) (fd_ c) (state_ c) (client_info_ c) (read_buffer_ c) (write_buffer_ c)
     (protocol_handler_ c) now (callback_start_time_ c) (in_callback_ c) (closed c) (transitions c).
Definition set_callback (start : Z) (b : bool) (c : t) : t :=
  mk (connection_id_ c) (fd_ c) (state_ c) (client_info_ c) (read_buffer_ c) (write_buffer_ c)
     (protocol_handler_ c) (last_activity_time_ c) start b (closed c) (transitions c).
Definition set_handler (h : option H) (c : t) : t :=
  mk (connection_id_ c) (fd_ c) (state_ c) (client_info_ c) (read_buffer_ c) (write_buffer_ c)
     h (last_activity_time_ c) (callback_start_time_ c) (in_callback_ c) (closed c) (transitions c).
Definition log_transition (p : ConnectionState * ConnectionState) (c : t) : t :=
  mk (connection_id_ c) (fd_ c) (state_ c) (client_info_ c) (read_buffer_ c) (write_buffer_ c)
     (protocol_handler_ c) (last_activity_time_ c) (callback_start_time_ c) (in_callback_ c)
     (closed c) (transitions c ++ [p]).

(** [close_fd], also the body of the destructor. *)
Definition close_fd (c : t) : t :=
  if 0 <=? fd_ c then
    mk (connection_id_ c) (-1) (state_ c) (client_info_ c) (read_buffer_ c) (write_buffer_ c)
       (protocol_handler_ c) (last_activity_time_ c) (callback_start_time_ c) (in_callback_ c)
       (closed c ++ [fd_ c]) (transitions c)
  else c.

Definition is_valid_state_transition (from to : ConnectionState) : bool :=
  match from with
  | ACCEPTING => bool_decide (to = ACCEPTING) || bool_decide (to = TLS_HANDSHAKING) || bool_decide (to = DISCONNECTING)
  | TLS_HANDSHAKING => bool_decide (to = TLS_HANDSHAKING) || bool_decide (to = CONNECTED) || bool_decide (to = DISCONNECTING)
  | CONNECTED => bool_decide (to = CONNECTED) || bool_decide (to = RECEIVING) || bool_decide (to = DISCONNECTING)
  | RECEIVING => bool_decide (to = RECEIVING) || bool_decide (to = PROCESSING) || bool_decide (to = DISCONNECTING)
  | PROCESSING => bool_decide (to = PROCESSING) || bool_decide (to = SENDING) || bool_decide (to = DISCONNECTING)
  | SENDING => bool_decide (to = SENDING) || bool_decide (to = CONNECTED) || bool_decide (to = DISCONNECTING)
  | DISCONNECTING => bool_decide (to = DISCONNECTING) || bool_decide (to = DISCONNECTED)
  | DISCONNECTED => bool_decide (to = DISCONNECTED)
  end.

(** [None]: the assertion of a debug build fails. *)
Definition transition_to (now : Z) (new_state : ConnectionState) (c : t) : option t :=
  if bool_decide (state_ c = new_state) then Some c
  else if bool_decide (state_ c = DISCONNECTED) then Some c
  else if negb ndebug && negb (is_valid_state_transition (state_ c) new_state) then None
  else
    let c1 := log_transition (state_ c, new_state) (set_activity now (set_state new_state c)) in
    Some (if bool_decide (new_state = DISCONNECTED)
          then set_callback (callback_start_time_ c1) false c1 else c1).

Definition is_fd_valid (c : t) : bool := (0 <=? fd_ c) && negb (bool_decide (state_ c = DISCONNECTED)).

Definition set_client_info (ip : bytes) (port : Z) (c : t) : t :=
  mk (connection_id_ c) (fd_ c) (state_ c)
     (mkClientInfo (connection_id (client_info_ c)) ip port (server_port (client_info_ c)))
     (read_buffer_ c) (write_buffer_ c) (protocol_handler_ c) (last_activity_time_ c)
     (callback_start_time_ c) (in_callback_ c) (closed c) (transitions c).

Definition update_last_activity (now : Z) (c : t) : t := set_activity now c.

(** [uint64_t] subtraction. *)
Definition is_timeout (now timeout_ms : Z) (c : t) : bool :=
  if bool_decide (state_ c = DISCONNECTED) then false
  else if timeout_ms =? 0 then false
  else timeout_ms <? u64 (now - last_activity_time_ c).

Definition set_callback_start_time (now : Z) (c : t) : t := set_callback now true c.
Definition is_callback_timeout (now timeout_ms : Z) (c : t) : bool :=
  if negb (in_callback_ c) then false
  else if timeout_ms =? 0 then false
  else timeout_ms <? u64 (now - callback_start_time_ c).
Definition on_callback_complete (c : t) : t := set_callback (callback_start_time_ c) false c.

Definition set_protocol_handler (h : option H) (c : t) : t := set_handler h c.

Definition close (now : Z) (c : t) : option t :=
  if bool_decide (state_ c = DISCONNECTED) then Some c
  else
    c1 ← transition_to now DISCONNECTING c;
    transition_to now DISCONNECTED (close_fd (set_handler (handler_close <$> protocol_handler_ c1) c1)).

(** * The state machine *)

Lemma valid_to_disconnecting s : s <> DISCONNECTED -> is_valid_state_transition s DISCONNECTING = true.
Proof. by destruct s. Qed.

Lemma transition_to_some now s c :
  ndebug = true \/ state_ c = s \/ state_ c = DISCONNECTED \/ is_valid_state_transition (state_ c) s = true ->
  exists c', transition_to now s c = Some c'.
Proof.
  intros Hv. unfold transition_to. repeat case_bool_decide; eauto; destruct Hv as [-> | [? | [? | ->]]];
    try done; cbn [negb andb]; rewrite ?andb_false_r; eauto.
Qed.

(** Reduce towers of updates (call by value: the records are shared). *)
Ltac conn_cbv :=
  cbv [set_callback log_transition set_activity set_state set_handler connection_id_ fd_ state_
       client_info_ read_buffer_ write_buffer_ protocol_handler_ last_activity_time_
       callback_start_time_ in_callback_ closed transitions].

(** What [close] leaves of a connection that was not disconnected. *)
Definition closed_conn (now : Z) (c : t) : t :=
  mk (connection_id_ c) (if 0 <=? fd_ c then -1 else fd_ c) DISCONNECTED (client_info_ c)
     (read_buffer_ c) (write_buffer_ c) (handler_close <$> protocol_handler_ c) now
     (callback_start_time_ c) false
     (closed c ++ (if 0 <=? fd_ c then [fd_ c] else []))
     (transitions c ++ (if bool_decide (state_ c = DISCONNECTING) then [] else [(state_ c, DISCONNECTING)])
        ++ [(DISCONNECTING, DISCONNECTED)]).

Lemma transition_valid now s c :
  state_ c <> s -> state_ c <> DISCONNECTED -> is_valid_state_transition (state_ c) s = true ->
  transition_to now s c =
    Some (let c1 := log_transition (state_ c, s) (set_activity now (set_state s c)) in
          if bool_decide (s = DISCONNECTED) then set_callback (callback_start_time_ c1) false c1 else c1).
Proof.
  intros H1 H2 H3. unfold transition_to. rewrite !bool_decide_eq_false_2 by done.
  by rewrite H3, andb_false_r.
Qed.

Lemma close_spec now c :
  close now c = Some (if bool_decide (state_ c = DISCONNECTED) then c else closed_conn now c).
Proof.
  unfold close. case_bool_decide as Hd; [done|].
  assert (Hfin : forall c1, state_ c1 = DISCONNECTING ->
    transition_to now DISCONNECTED (close_fd c1) =
    Some (set_callback (callback_start_time_ c1) false
      (log_transition (DISCONNECTING, DISCONNECTED) (set_activity now (set_state DISCONNECTED (close_fd c1)))))).
  { intros c1 Hs. assert (Hs' : state_ (close_fd c1) = DISCONNECTING) by (unfold close_fd; by ifz).
    rewrite transition_valid by (rewrite ?Hs'; done). rewrite Hs'. cbn [bool_decide].
    rewrite bool_decide_eq_true_2 by done. unfold close_fd. by ifz. }
  unfold closed_conn. destruct (decide (state_ c = DISCONNECTING)) as [Hs|Hs].
  - assert (transition_to now DISCONNECTING c = Some c) as ->
      by (unfold transition_to; by rewrite bool_decide_eq_true_2).
    cbn [mbind option_bind]. rewrite Hfin by done. rewrite (bool_decide_eq_true_2 (state_ c = DISCONNECTING)) by done.
    unfold close_fd. cbn. ifz; conn_cbv;
      by rewrite ?app_nil_r.
  - rewrite transition_valid by (done || by apply valid_to_disconnecting). cbn [mbind option_bind].
    rewrite (bool_decide_eq_false_2 (DISCONNECTING = DISCONNECTED)) by done. cbv zeta.
    rewrite Hfin by done. rewrite (bool_decide_eq_false_2 (state_ c = DISCONNECTING)) by done.
    unfold close_fd. cbn. ifz; conn_cbv;
      by rewrite ?app_nil_r, <- (app_assoc (transitions c)).
Qed.

Inductive op :=
| Transition (now : Z) (s : ConnectionState)
| SetClientInfo (ip : bytes) (port : Z)
| Activity (now : Z)
| CallbackStart (now : Z)
| CallbackDone
| SetHandler (h : option H)
| Close (now : Z)
| Destroy.
Definition run_op (c : t) (o : op) : option t :=
  match o with
  | Transition now s => transition_to now s c
  | SetClientInfo ip port => Some (set_client_info ip port c)
  | Activity now => Some (update_last_activity now c)
  | CallbackStart now => Some (set_callback_start_time now c)
  | CallbackDone => Some (on_callback_complete c)
  | SetHandler h => Some (set_protocol_handler h c)
  | Close now => close now c
  | Destroy => Some (close_fd c)
  end.
Definition run_ops (c : t) (os : list op) : option t :=
  foldl (fun c o => c ← c; run_op c o) (Some c) os.

(** A chain of edges from one state to another. *)
Fixpoint chain (from : ConnectionState) (l : list (ConnectionState * ConnectionState)) (to : ConnectionState) : Prop :=
  match l with
  | [] => from = to
  | (a, b) :: r => a = from /\ a <> DISCONNECTED /\ a <> b /\
      (ndebug = false -> is_valid_state_transition a b = true) /\ chain b r to
  end.

Lemma chain_snoc from l a b :
  chain from l a -> a <> DISCONNECTED -> a <> b ->
  (ndebug = false -> is_valid_state_transition a b = true) -> chain from (l ++ [(a, b)]) b.
Proof.
  revert from. induction l as [|[x y] l IH]; intros from; cbn; [intros ->; done|].
  intros (? & ? & ? & ? & Hc). repeat split; try done. by apply IH.
Qed.

(** The descriptor is closed at most once, and exactly when it is released. *)
Record inv (fd0 : Z) (c : t) : Prop := {
  inv_fd : (fd_ c = fd0 /\ closed c = []) \/ (fd_ c = -1 /\ closed c = [fd0] /\ 0 <= fd0);
  inv_chain : chain ACCEPTING (transitions c) (state_ c);
}.

Lemma close_fd_inv fd0 c : inv fd0 c -> inv fd0 (close_fd c).
Proof.
  intros [Hf Hc]. unfold close_fd. destruct (0 <=? fd_ c) eqn:E; zb; [|by split].
  split; cbn; [|done]. destruct Hf as [[Hn ->]|(Hn & ? & ?)]; [right; rewrite Hn in *; done|lia].
Qed.

Lemma transition_inv fd0 now s c c' : inv fd0 c -> transition_to now s c = Some c' -> inv fd0 c'.
Proof.
  intros [Hf Hc]. unfold transition_to. case_bool_decide as E1; [by intros [= <-]|].
  case_bool_decide as E2; [by intros [= <-]|].
  destruct (negb ndebug && _)%bool eqn:E3; [done|]. intros [= <-].
  assert (Hch : chain ACCEPTING (transitions c ++ [(state_ c, s)]) s).
  { apply chain_snoc; [done..|]. intros Hd. rewrite Hd in E3. cbn in E3.
    by apply negb_false_iff in E3. }
  case_bool_decide; split; cbn; done.
Qed.

Lemma run_conn_op_inv fd0 c o c' : inv fd0 c -> run_op c o = Some c' -> inv fd0 c'.
Proof.
  intros Hi. destruct o; cbn; try (intros [= <-]; by destruct Hi; split).
  - by apply transition_inv.
  - unfold close. case_bool_decide; [by intros [= <-]|].
    destruct (transition_to now DISCONNECTING c) as [c1|] eqn:E; [|done]. cbn [mbind option_bind].
    apply transition_inv. apply close_fd_inv. pose proof (transition_inv _ _ _ _ _ Hi E) as Hi1.
    by destruct Hi1; split.
  - intros [= <-]. by apply close_fd_inv.
Qed.

End Connection.
Arguments t : clear implicits.
Arguments op : clear implicits.

(** [close] never trips the debug assertion, whatever the state: the
    connection ends DISCONNECTED, through DISCONNECTING, its handler closed once
    and its descriptor closed and forgotten; a second [close] changes nothing. *)
Theorem connection_close {H} (handler_close : H -> H) ndebug now now' c :
  exists c', close handler_close ndebug now c = Some c' /\ state_ c' = DISCONNECTED /\
    close handler_close ndebug now' c' = Some c' /\
    (state_ c <> DISCONNECTED ->
       fd_ c' < 0 /\ in_callback_ c' = false /\ last_activity_time_ c' = now /\
       protocol_handler_ c' = handler_close <$> protocol_handler_ c /\
       closed c' = closed c ++ (if 0 <=? fd_ c then [fd_ c] else []) /\
       transitions c' = transitions c ++
         (if bool_decide (state_ c = DISCONNECTING) then [] else [(state_ c, DISCONNECTING)]) ++
         [(DISCONNECTING, DISCONNECTED)]).
Proof.
  rewrite close_spec. eexists. split; [reflexivity|]. case_bool_decide as E.
  - split; [done|]. split; [|done]. by rewrite close_spec, bool_decide_eq_true_2.
  - split; [done|]. split; [done|]. intros _. cbn. repeat split. ifz; lia.
Qed.

(** From the constructor on, whatever the calls: every transition starts
    where the previous one ended, none leaves DISCONNECTED, in a debug build
    each is one the matrix allows, and the descriptor is given to [::close] at
    most once, and then forgotten. *)
Theorem connection_lifecycle {H} (handler_close : H -> H) ndebug id fd port now os c :
  run_ops handler_close ndebug (create id fd port now) os = Some c ->
  chain ndebug ACCEPTING (transitions c) (state_ c) /\
  ((fd_ c = fd /\ closed c = []) \/ (fd_ c = -1 /\ closed c = [fd] /\ 0 <= fd)).
Proof.
  assert (Hi : inv ndebug fd (create (H := H) id fd port now)) by (split; cbn; auto).
  revert Hi. unfold run_ops. generalize (create (H := H) id fd port now) as c0.
  induction os as [|o os IH]; intros c0 Hi; cbn.
  - intros [= <-]. by destruct Hi.
  - destruct (run_op handler_close ndebug c0 o) as [c1|] eqn:E.
    + apply IH. by apply (run_conn_op_inv handler_close ndebug fd c0 o).
    + clear. intros Hx. exfalso. revert Hx. induction os as [|o' os IH]; cbn; [done|]. apply IH.
Qed.

Lemma connection_lifecycle_witness :
  exists c, run_ops (fun x : nat => x) false (create 1 7 8443 0)
      [Transition 1 TLS_HANDSHAKING; Transition 2 CONNECTED; Close 3; Destroy] = Some c /\
    chain false ACCEPTING (transitions c) (state_ c) /\
    ((fd_ c = 7 /\ closed c = []) \/ (fd_ c = -1 /\ closed c = [7] /\ 0 <= 7)).
Proof.
  destruct (run_ops (fun x : nat => x) false (create 1 7 8443 0)
      [Transition 1 TLS_HANDSHAKING; Transition 2 CONNECTED; Close 3; Destroy]) as [c|] eqn:E;
    [|by vm_compute in E].
  exists c. split; [reflexivity|].
  exact (connection_lifecycle (fun x : nat => x) false 1 7 8443 0 _ c E).
Defined.

(** While the wall clock does not go back, a live connection is idle
    for too long exactly when more than [timeout_ms] (non zero) milliseconds
    passed since its last activity; if the clock was set back, every live
    connection times out at once, unless the jump exceeds the [uint64_t] range
    minus the timeout. *)
Theorem idle_timeout_exact {H} now timeout_ms (c : t H) :
  is_u64 now -> is_u64 (last_activity_time_ c) -> is_u32 timeout_ms ->
  is_timeout now timeout_ms c =
    negb (bool_decide (state_ c = DISCONNECTED)) && negb (timeout_ms =? 0) &&
    (if last_activity_time_ c <=? now then timeout_ms <? now - last_activity_time_ c
     else timeout_ms <? 2 ^ 64 - (last_activity_time_ c - now)).
Proof.
  unfold is_u64, is_u32, is_timeout. intros Hn Hl Ht.
  case_bool_decide; [done|]. cbn [negb andb]. destruct (timeout_ms =? 0); [done|]. cbn [negb andb].
  destruct (last_activity_time_ c <=? now) eqn:E; zb; unfold u64, wrap.
  - by rewrite Z.mod_small by lia.
  - rewrite <- (Z_mod_plus_full _ 1), Z.mod_small by lia. f_equal. lia.
Qed.

Lemma idle_timeout_exact_witness :
  is_timeout 999 60000 (@create nat 1 7 8443 1000) = true.
Proof.
  rewrite (idle_timeout_exact 999 60000 (@create nat 1 7 8443 1000)); [reflexivity|..]; by vm_compute.
Defined.

End Connection.

(** * The manager *)

Module ConnectionManager.
Section ConnectionManager.
Context {H : Type}.
Variable handler_close : H -> H.
Variable ndebug : bool.

(** [objects] holds every connection ever created (shared pointers may keep
    one alive after it left the table; the destructor that runs when the last
    one goes is [Connection.close_fd]); [connections_] the ids in the table. *)
Record t := mk {
  next_connection_id_ : Z;
  objects : gmap Z (Connection.t H);
  connections_ : gset Z;
}.

Definition create : t := mk 1 ∅ ∅.

Definition create_connection (now fd server_port : Z) (m : t) : t * Z :=
  let id := next_connection_id_ m in
  (mk (u64 (id + 1)) (<[id := Connection.create id fd server_port now]> (objects m))
      ({[id]} ∪ connections_ m), id).

Definition get_connection (conn_id : Z) (m : t) : option (Connection.t H) :=
  if bool_decide (conn_id ∈ connections_ m) then objects m !! conn_id else None.
Definition remove_connection (conn_id : Z) (m : t) : t :=
  mk (next_connection_id_ m) (objects m) (connections_ m ∖ {[conn_id]}).
Definition get_connection_count (m : t) : Z := u32 (Z.of_nat (size (connections_ m))).

(** Run [f] on the object of every id of the list, in order (a snapshot of the
    table, taken under the lock); [None] if a call aborts. *)
Fixpoint on_each (f : Connection.t H -> option (Connection.t H)) (ids : list Z)
    (o : gmap Z (Connection.t H)) : option (gmap Z (Connection.t H)) :=
  match ids with
  | [] => Some o
  | i :: r =>
      match o !! i with
      | Some c => c' ← f c; on_each f r (<[i := c']> o)
      | None => on_each f r o
      end
  end.

(** The order of an [unordered_map] is unspecified: [snapshot] is any listing. *)
Variable snapshot : gset Z -> list Z.

Definition for_each_connection (f : Connection.t H -> option (Connection.t H)) (m : t) : option t :=
  o ← on_each f (snapshot (connections_ m)) (objects m);
  Some (mk (next_connection_id_ m) o (connections_ m)).

(** The connections collected under the lock. *)
Definition collect (p : Connection.t H -> bool) (m : t) : list Z :=
  filter (fun i => from_option p false (objects m !! i) = true) (snapshot (connections_ m)).

Definition check_timeouts (now idle_ms callback_ms : Z)
    (on_timeout : Connection.t H -> option (Connection.t H)) (m : t) : option t :=
  o ← on_each on_timeout
        (collect (fun c => Connection.is_timeout now idle_ms c
                           || Connection.is_callback_timeout now callback_ms c) m) (objects m);
  Some (mk (next_connection_id_ m) o (connections_ m)).

Definition check_callback_timeouts (now timeout_seconds : Z) (m : t) : option t :=
  let timeout_ms := u32 (timeout_seconds * 1000) in
  o ← on_each (Connection.close handler_close ndebug now)
        (collect (Connection.is_callback_timeout now timeout_ms) m) (objects m);
  Some (mk (next_connection_id_ m) o (connections_ m)).

Definition close_all (now : Z) (m : t) : option t :=
  o ← on_each (Connection.close handler_close ndebug now) (snapshot (connections_ m)) (objects m);
  Some (mk (next_connection_id_ m) o ∅).
Definition clear_all : Z -> t -> option t := close_all.

(** * Lemmas *)

Definition lists (s : gset Z -> list Z) : Prop := forall x, NoDup (s x) /\ forall i, i ∈ s x <-> i ∈ x.

Lemma on_each_total f (g : Connection.t H -> Connection.t H) ids o :
  (forall c, f c = Some (g c)) -> NoDup ids ->
  exists o', on_each f ids o = Some o' /\
    forall i, o' !! i = (if bool_decide (i ∈ ids) then g <$> o !! i else o !! i).
Proof.
  intros Hf. revert o. induction ids as [|j ids IH]; intros o Hnd; cbn.
  - exists o. split; [done|]. intros i. by rewrite bool_decide_eq_false_2 by apply not_elem_of_nil.
  - apply NoDup_cons in Hnd as [Hj Hnd].
    assert (Hstep : forall o1, (forall i, o1 !! i = if bool_decide (i = j) then g <$> o !! i else o !! i) ->
      exists o', on_each f ids o1 = Some o' /\
        forall i, o' !! i = (if bool_decide (i ∈ j :: ids) then g <$> o !! i else o !! i)).
    { intros o1 Ho1. destruct (IH o1 Hnd) as (o' & E & Ho'). exists o'. split; [done|].
      intros i. rewrite Ho', Ho1. destruct (decide (i = j)) as [->|Hne].
      - rewrite bool_decide_eq_false_2 by done. rewrite !bool_decide_eq_true_2 by (done || by left). done.
      - rewrite (bool_decide_eq_false_2 (i = j)) by done.
        rewrite (bool_decide_ext (i ∈ j :: ids) (i ∈ ids)); [done|]. rewrite elem_of_cons. naive_solver. }
    destruct (o !! j) as [c|] eqn:Ec.
    + rewrite Hf. cbn [mbind option_bind]. apply Hstep. intros i.
      destruct (decide (i = j)) as [->|Hne].
      * by rewrite lookup_insert_eq, bool_decide_eq_true_2, Ec.
      * by rewrite lookup_insert_ne, bool_decide_eq_false_2.
    + apply Hstep. intros i. destruct (decide (i = j)) as [->|Hne].
      * by rewrite bool_decide_eq_true_2, Ec.
      * by rewrite bool_decide_eq_false_2.
Qed.

(** What [close] makes of a connection. *)
Definition closed_by (now : Z) (c : Connection.t H) : Connection.t H :=
  if bool_decide (Connection.state_ c = Connection.DISCONNECTED) then c
  else Connection.closed_conn handler_close now c.

Lemma close_total now c : Connection.close handler_close ndebug now c = Some (closed_by now c).
Proof. apply Connection.close_spec. Qed.

Lemma closed_by_disconnected now c : Connection.state_ (closed_by now c) = Connection.DISCONNECTED.
Proof. unfold closed_by. by case_bool_decide. Qed.

(** Ids are handed out once, in increasing order. *)
Record inv (m : t) : Prop := {
  inv_next : 1 <= next_connection_id_ m < 2 ^ 64;
  inv_objects i c : objects m !! i = Some c ->
    Connection.connection_id_ c = i /\ 1 <= i < next_connection_id_ m;
  inv_table i : i ∈ connections_ m -> is_Some (objects m !! i);
}.

Inductive op :=
| Create (now fd server_port : Z)
| Remove (conn_id : Z)
| CheckCallbacks (now timeout_seconds : Z)
| CloseAll (now : Z).
Definition run_op (m : t) (o : op) : option t :=
  match o with
  | Create now fd port => Some (fst (create_connection now fd port m))
  | Remove id => Some (remove_connection id m)
  | CheckCallbacks now s => check_callback_timeouts now s m
  | CloseAll now => close_all now m
  end.
Definition run_ops (m : t) (os : list op) : option t :=
  foldl (fun m o => m ← m; run_op m o) (Some m) os.

Lemma closed_by_id now c : Connection.connection_id_ (closed_by now c) = Connection.connection_id_ c.
Proof. unfold closed_by. by case_bool_decide. Qed.

Lemma on_each_inv now ids m tab : inv m -> NoDup ids -> tab ⊆ connections_ m ->
  exists o', on_each (Connection.close handler_close ndebug now) ids (objects m) = Some o' /\
    inv (mk (next_connection_id_ m) o' tab).
Proof.
  intros [Hn Ho Ht] Hnd Hsub.
  destruct (on_each_total _ (closed_by now) ids (objects m) (close_total now) Hnd) as (o' & E & Hl).
  exists o'. split; [done|]. split; cbn; [done| |].
  - intros i c. rewrite Hl. case_bool_decide; [|apply Ho].
    destruct (objects m !! i) as [c0|] eqn:E0; cbn; [|done]. intros [= <-].
    rewrite closed_by_id. by apply Ho.
  - intros i Hi. rewrite Hl. destruct (Ht i) as [c Hc]; [set_solver|]. rewrite Hc.
    case_bool_decide; by eexists.
Qed.

Lemma run_manager_op_inv m o : lists snapshot -> inv m -> next_connection_id_ m < 2 ^ 64 - 1 ->
  exists m', run_op m o = Some m' /\ inv m' /\
    next_connection_id_ m <= next_connection_id_ m' <= next_connection_id_ m + 1.
Proof.
  intros Hs Hi Hmax. pose proof Hi as [Hn Ho Ht]. destruct o as [now fd port|id|now s|now]; cbn.
  - eexists. split; [reflexivity|]. unfold create_connection, u64, wrap. cbn.
    rewrite Z.mod_small by lia. split; [|lia]. split; cbn; [lia| |].
    + intros i c. rewrite lookup_insert_Some. intros [[<- <-]|[Hne Hc]]; [cbn; lia|].
      destruct (Ho i c Hc). lia.
    + intros i [Hi2|Hi2]%elem_of_union.
      * apply elem_of_singleton in Hi2 as ->. rewrite lookup_insert_eq. by eexists.
      * apply lookup_insert_is_Some'. right. by apply Ht.
  - eexists. split; [reflexivity|]. split; [|cbn; lia]. split; cbn; [done|done|].
    intros i Hi2. apply Ht. set_solver.
  - unfold check_callback_timeouts.
    destruct (on_each_inv now (collect (Connection.is_callback_timeout now (u32 (s * 1000))) m) m (connections_ m) Hi)
      as (o' & -> & Hi'); [by apply NoDup_filter, Hs|done|]. cbn. eexists. split; [reflexivity|]. split; [done|cbn; lia].
  - unfold close_all. destruct (on_each_inv now (snapshot (connections_ m)) m ∅ Hi) as (o' & -> & Hi');
      [by apply Hs|set_solver|]. cbn. eexists. split; [reflexivity|]. split; [done|cbn; lia].
Qed.

End ConnectionManager.
Arguments t : clear implicits.

(** Over any sequence of fewer than [2^64 - 2] calls nothing aborts, every
    connection carries the id it is stored under, the table only holds
    connections that exist, and a new connection gets an id never used before. *)
Theorem manager_ids_unique {H} (handler_close : H -> H) ndebug snapshot os now fd port :
  lists snapshot -> Z.of_nat (length os) < 2 ^ 64 - 2 ->
  exists m, run_ops handler_close ndebug snapshot create os = Some m /\ inv m /\
    objects m !! snd (create_connection now fd port m) = None /\
    get_connection (snd (create_connection now fd port m)) (fst (create_connection now fd port m)) =
      Some (Connection.create (snd (create_connection now fd port m)) fd port now).
Proof.
  intros Hs Hl.
  assert (Hrun : forall m0, inv m0 -> next_connection_id_ m0 + Z.of_nat (length os) < 2 ^ 64 - 1 ->
    exists m, run_ops handler_close ndebug snapshot m0 os = Some m /\ inv m).
  { clear Hl. unfold run_ops. induction os as [|o os IH]; intros m0 Hi Hb; cbn; [by exists m0|].
    cbn in Hb. destruct (run_manager_op_inv handler_close ndebug snapshot m0 o Hs Hi) as (m1 & E & Hi1 & Hn1); [lia|].
    rewrite E. apply IH; [done|lia]. }
  destruct (Hrun create) as (m & E & Hi).
  - split; cbn; [lia|done|set_solver].
  - cbn. lia.
  - exists m. split; [done|]. split; [done|]. cbn. split.
    + destruct (objects m !! next_connection_id_ m) as [c|] eqn:Ec; [|done].
      apply (inv_objects m Hi) in Ec. lia.
    + unfold get_connection. cbn. rewrite bool_decide_eq_true_2 by set_solver. by rewrite lookup_insert_eq.
Qed.

Definition sorted_snapshot (s : gset Z) : list Z := elements s.

Lemma sorted_snapshot_lists : lists sorted_snapshot.
Proof. intros x. split; [apply NoDup_elements|]. intros i. apply elem_of_elements. Qed.

Lemma manager_ids_unique_witness :
  exists m, run_ops (fun x : nat => x) false sorted_snapshot create
      [Create 0 5 8443; Create 1 6 8443; Remove 1; CheckCallbacks 9 30; CloseAll 10] = Some m /\ inv m /\
    objects m !! snd (create_connection 11 7 8443 m) = None /\
    get_connection (snd (create_connection 11 7 8443 m)) (fst (create_connection 11 7 8443 m)) =
      Some (Connection.create (snd (create_connection 11 7 8443 m)) 7 8443 11).
Proof.
  apply (manager_ids_unique (fun x : nat => x) false sorted_snapshot
    [Create 0 5 8443; Create 1 6 8443; Remove 1; CheckCallbacks 9 30; CloseAll 10] 11 7 8443
    sorted_snapshot_lists). cbn. lia.
Defined.

(** [check_callback_timeouts] closes exactly the connections of the
    table whose callback has run too long, leaves the others untouched and
    removes none of them: the closed ones stay in the table, and keep counting,
    until someone calls [remove_connection]. The seconds are turned into
    milliseconds modulo [2^32]. *)
Theorem callback_timeouts_closed {H} (handler_close : H -> H) ndebug snapshot now seconds m :
  lists snapshot ->
  exists m', check_callback_timeouts handler_close ndebug snapshot now seconds m = Some m' /\
    connections_ m' = connections_ m /\ get_connection_count m' = get_connection_count m /\
    forall i c, objects m !! i = Some c ->
      objects m' !! i = Some
        (if bool_decide (i ∈ connections_ m) && Connection.is_callback_timeout now (u32 (seconds * 1000)) c
         then closed_by handler_close now c else c).
Proof.
  intros Hs. unfold check_callback_timeouts.
  set (ids := collect snapshot _ m).
  destruct (on_each_total _ (closed_by handler_close now) ids (objects m) (close_total handler_close ndebug now))
    as (o' & -> & Hl); [by apply NoDup_filter, Hs|].
  cbn. eexists. split; [reflexivity|]. split; [done|]. split; [done|].
  intros i c Hc. cbn. rewrite Hl, Hc. cbn.
  assert (Hin : i ∈ ids <-> i ∈ connections_ m /\ Connection.is_callback_timeout now (u32 (seconds * 1000)) c = true).
  { unfold ids, collect. rewrite list_elem_of_filter, Hc, (proj2 (Hs (connections_ m)) i).
    cbn [from_option]. tauto. }
  case_bool_decide as Hb; rewrite Hin in Hb.
  - destruct Hb as [Hb1 ->]. by rewrite bool_decide_eq_true_2.
  - case_bool_decide as Hb2; [|done]. destruct (Connection.is_callback_timeout _ _ c) eqn:E; [|done].
    by destruct Hb.
Qed.

Definition one_connection : t nat :=
  let m := fst (create_connection 0 5 8443 create) in
  mk (next_connection_id_ m) (Connection.set_callback_start_time 100 <$> objects m) (connections_ m).

Lemma callback_timeouts_closed_witness :
  exists m', check_callback_timeouts (fun x : nat => x) false sorted_snapshot 5000 3 one_connection = Some m' /\
    connections_ m' = connections_ one_connection /\
    get_connection_count m' = get_connection_count one_connection /\
    forall i c, objects one_connection !! i = Some c ->
      objects m' !! i = Some
        (if bool_decide (i ∈ connections_ one_connection) && Connection.is_callback_timeout 5000 (u32 (3 * 1000)) c
         then closed_by (fun x => x) 5000 c else c).
Proof.
  exact (callback_timeouts_closed (fun x : nat => x) false sorted_snapshot 5000 3 one_connection sorted_snapshot_lists).
Defined.

End ConnectionManager.
