(* ===== verification/ConnCallback.v ===== *)
(** The state callback of a connection ([ConnectionCallback::on_state_change],
    connection/include/connection/connection.hpp) as code that may call back
    into the connection: [transition_to] notifies it before it returns, so that
    [transition_to] and [close] (connection/source/connection.cpp) are
    re-entered. In Conn the callback only listens. *)

From S2P Require Import Prelude ByteBuffer Conn.

Module ConnCallback.
Import Connection.

Section Callback.
Context {H : Type}.
Variable handler_close : H -> H.
Variable ndebug : bool.

(** What the callback may call on the connection it is given. *)
Inductive call :=
| Transition (s : ConnectionState)
| Close
| SetClientInfo (ip : bytes) (port : Z)
| Activity
| CallbackStart
| CallbackDone
| SetHandler (h : option H)
| SetStateCallback (set : bool).   (* to itself, or to null *)

(** A connection, whether [state_callback_] is set, and the calls of
    [on_state_change] made so far, with the old and the new state. *)
Record st := mkSt {
  conn : t H;
  state_callback_ : bool;
  notified : list (ConnectionState * ConnectionState);
}.
Definition on_conn (f : t H -> t H) (s : st) : st := mkSt (f (conn s)) (state_callback_ s) (notified s).
Definition set_state_callback (set : bool) (s : st) : st := mkSt (conn s) set (notified s).
Definition notify (edge : ConnectionState * ConnectionState) (s : st) : st :=
  mkSt (conn s) (state_callback_ s) (notified s ++ [edge]).

(** The calls the callback makes when it is notified. *)
Variable reacts : ConnectionState -> ConnectionState -> t H -> list call.
Variable now : Z.

(** [Aborted]: the assertion of a debug build fails. [Endless]: the recursion is
    deeper than the fuel. *)
Inductive result := Done (s : st) | Aborted | Endless.
Definition andThen (r : result) (k : st -> result) : result :=
  match r with Done s => k s | Aborted => Aborted | Endless => Endless end.

Section Nested.
(** A call made by the callback. *)
Variable nested : call -> st -> result.

Fixpoint calls (l : list call) (s : st) : result :=
  match l with [] => Done s | o :: r => andThen (nested o s) (calls r) end.

Definition transition_to (new_state : ConnectionState) (s : st) : result :=
  let c := conn s in
  if bool_decide (state_ c = new_state) then Done s
  else if bool_decide (state_ c = DISCONNECTED) then Done s
  else if negb ndebug && negb (is_valid_state_transition (state_ c) new_state) then Aborted
  else
    let s1 := on_conn (fun c => log_transition (state_ c, new_state) (set_activity now (set_state new_state c))) s in
    andThen (if state_callback_ s1
             then calls (reacts (state_ c) new_state (conn s1)) (notify (state_ c, new_state) s1)
             else Done s1) (fun s2 =>
    Done (if bool_decide (new_state = DISCONNECTED)
          then on_conn (fun c => set_callback (callback_start_time_ c) false c) s2 else s2)).

Definition close (s : st) : result :=
  if bool_decide (state_ (conn s) = DISCONNECTED) then Done s
  else
    andThen (transition_to DISCONNECTING s) (fun s1 =>
    transition_to DISCONNECTED
      (on_conn (fun c => close_fd (set_handler (handler_close <$> protocol_handler_ c) c)) s1)).
End Nested.

(** [fuel] bounds the depth of calls made from inside a notification. *)
Fixpoint exec (fuel : nat) (o : call) (s : st) : result :=
  match fuel with
  | O => Endless
  | S n =>
      match o with
      | Transition new_state => transition_to (exec n) new_state s
      | Close => close (exec n) s
      | SetClientInfo ip port => Done (on_conn (set_client_info ip port) s)
      | Activity => Done (on_conn (update_last_activity now) s)
      | CallbackStart => Done (on_conn (set_callback_start_time now) s)
      | CallbackDone => Done (on_conn on_callback_complete s)
      | SetHandler h => Done (on_conn (set_protocol_handler h) s)
      | SetStateCallback b => Done (set_state_callback b s)
      end
  end.

(** * Any callback keeps the invariant of the connection *)

(** What a call that returns establishes. *)
Definition keeps (P : st -> Prop) (r : result) : Prop := match r with Done s => P s | _ => True end.

Lemma keeps_andThen (P Q : st -> Prop) r k : keeps P r -> (forall s, P s -> keeps Q (k s)) -> keeps Q (andThen r k).
Proof. destruct r; cbn; auto. Qed.

Lemma calls_keeps (P : st -> Prop) nested l :
  (forall o s, o ∈ l -> P s -> keeps P (nested o s)) -> forall s, P s -> keeps P (calls nested l s).
Proof.
  induction l as [|o l IH]; intros Hn s Hs; [done|]. cbn [calls]. apply (keeps_andThen P).
  - apply Hn; [by left|done].
  - apply IH. intros o' s' Hin. apply Hn. by right.
Qed.

Section Invariant.
Variable fd0 : Z.
Definition ok (s : st) : Prop := Connection.inv ndebug fd0 (conn s).

Lemma moved_ok new_state s :
  ok s -> state_ (conn s) <> new_state -> state_ (conn s) <> DISCONNECTED ->
  (negb ndebug && negb (is_valid_state_transition (state_ (conn s)) new_state))%bool = false ->
  ok (on_conn (fun c => log_transition (state_ c, new_state) (set_activity now (set_state new_state c))) s).
Proof.
  intros [Hf Hc] H1 H2 H3. split; [exact Hf|]. cbn. apply chain_snoc; [done..|]. intros Hd. rewrite Hd in H3. cbn in H3.
  by apply negb_false_iff in H3.
Qed.

Lemma transition_ok nested new_state s :
  (forall o s, ok s -> keeps ok (nested o s)) -> ok s -> keeps ok (transition_to nested new_state s).
Proof.
  intros Hn Hs. unfold transition_to. case_bool_decide as E1; [done|]. case_bool_decide as E2; [done|].
  destruct (negb ndebug && _)%bool eqn:E3; [done|]. pose proof (moved_ok new_state s Hs E1 E2 E3) as Hm.
  apply (keeps_andThen ok); [ifz; [by apply calls_keeps; auto|done]|].
  intros s2 Hs2. case_bool_decide; [|done]. by destruct Hs2; split.
Qed.

Lemma close_ok nested s : (forall o s, ok s -> keeps ok (nested o s)) -> ok s -> keeps ok (close nested s).
Proof.
  intros Hn Hs. unfold close. case_bool_decide; [done|]. apply (keeps_andThen ok); [by apply transition_ok|].
  intros s1 Hs1. apply transition_ok; [done|]. apply close_fd_inv. by destruct Hs1; split.
Qed.

Lemma exec_ok fuel o s : ok s -> keeps ok (exec fuel o s).
Proof.
  revert o s. induction fuel as [|n IH]; intros o s Hs; [done|].
  destruct o; cbn [exec]; [by apply transition_ok|by apply close_ok|by destruct Hs; split..].
Qed.
End Invariant.

(** * A callback that closes the connection it is told about *)

Definition moves (o : call) : bool := match o with Transition _ => true | _ => false end.

(** The call returns, in a state that satisfies [P]. *)
Definition returns (P : st -> Prop) (r : result) : Prop := match r with Done s => P s | _ => False end.

Lemma returns_andThen (P Q : st -> Prop) r k : returns P r -> (forall s, P s -> returns Q (k s)) -> returns Q (andThen r k).
Proof. destruct r; cbn; [auto|done..]. Qed.

Lemma calls_return (P : st -> Prop) nested l :
  (forall o s, o ∈ l -> P s -> returns P (nested o s)) -> forall s, P s -> returns P (calls nested l s).
Proof.
  induction l as [|o l IH]; intros Hn s Hs; [done|]. cbn [calls]. apply (returns_andThen P).
  - apply Hn; [by left|done].
  - apply IH. intros o' s' Hin. apply Hn. by right.
Qed.

Abbreviation edge := (ConnectionState * ConnectionState)%type.
Hypothesis never_moves : forall from to c, Forall (fun o => moves o = false) (reacts from to c).

Lemma reacts_return (P : st -> Prop) nested from to c s :
  (forall o s, moves o = false -> o ∈ reacts from to c -> P s -> returns P (nested o s)) -> P s ->
  returns P (calls nested (reacts from to c) s).
Proof.
  intros Hn. pose proof (never_moves from to c) as Hl. rewrite Forall_forall in Hl.
  apply calls_return. intros o s1 Hin. apply Hn; [by apply Hl|done].
Qed.

(** The callback never unsets itself. *)
Definition stays_set : Prop := forall from to c, SetStateCallback false ∉ reacts from to c.

(** What was there before the call that is followed: the transitions, the
    notifications, and whether there was a callback. *)
Variable transitions0 notified0 : list edge.
Variable set0 : bool.

(** Of the transitions [es] made since, which the callback was told of. *)
Definition heard (es : list edge) (s : st) : Prop :=
  exists l, notified s = notified0 ++ l /\ l `sublist_of` es /\
    if set0 then stays_set -> l = es /\ state_callback_ s = true else l = [] /\ state_callback_ s = false.

(** The connection is gone: further calls that do not move it change nothing
    that matters. *)
Definition gone (closed0 : list Z) (es : list edge) (s : st) : Prop :=
  state_ (conn s) = DISCONNECTED /\ fd_ (conn s) < 0 /\ closed (conn s) = closed0 /\
  transitions (conn s) = transitions0 ++ es /\ heard es s.
(** It is being closed. *)
Definition going (fd0 : Z) (closed0 : list Z) (es : list edge) (s : st) : Prop :=
  state_ (conn s) = DISCONNECTING /\ fd_ (conn s) = fd0 /\ closed (conn s) = closed0 /\
  transitions (conn s) = transitions0 ++ es /\ heard es s.

Lemma heard_on_conn es f s : heard es s -> heard es (on_conn f s).
Proof. done. Qed.

(** A transition with its notification, or without. *)
Lemma heard_notify e es s : heard es s -> state_callback_ s = true -> heard (es ++ [e]) (notify e s).
Proof.
  intros (l & Hl & Hsub & Hset) Hcb. exists (l ++ [e]). cbn. rewrite Hl, app_assoc. split; [done|].
  split; [by apply sublist_app|]. destruct set0; [|by destruct Hset; congruence].
  intros Hst. by destruct (Hset Hst) as [-> _].
Qed.

Lemma heard_silent e es s : heard es s -> state_callback_ s = false -> heard (es ++ [e]) s.
Proof.
  intros (l & Hl & Hsub & Hset) Hcb. exists l. split; [done|]. split; [by apply sublist_inserts_r|].
  destruct set0; [|done]. intros Hst. destruct (Hset Hst); congruence.
Qed.

Lemma heard_react from to c o es s : set0 = true -> o ∈ reacts from to c -> heard es s ->
  match o with SetStateCallback b => heard es (set_state_callback b s) | _ => True end.
Proof.
  intros Hset0 Ho (l & Hl & Hsub & Hset). destruct o; try done. exists l. rewrite Hset0 in *. split_and!; [done..|].
  intros Hst. destruct (Hset Hst) as [-> _]. split; [done|]. destruct set; [done|]. by apply Hst in Ho.
Qed.

Lemma heard_set es s : heard es s -> state_callback_ s = true -> set0 = true.
Proof. intros (l & _ & _ & Hset) Hcb. destruct set0; [done|]. destruct Hset; congruence. Qed.

Lemma gone_exec n closed0 es from to c o s :
  set0 = true -> moves o = false -> o ∈ reacts from to c -> gone closed0 es s ->
  returns (gone closed0 es) (exec (S n) o s).
Proof.
  intros Hs0 Ho Hin (H1 & H2 & H3 & H4 & H5). pose proof (heard_react _ _ _ _ _ _ Hs0 Hin H5) as Hh.
  destruct o; try done; cbn [exec]; try (by split_and!).
  unfold close. rewrite bool_decide_eq_true_2 by done. by split_and!.
Qed.

Definition released (fd0 : Z) : list Z := if 0 <=? fd0 then [fd0] else [].
Definition last_edge : edge := (DISCONNECTING, DISCONNECTED).

Lemma last_move n closed0 es s :
  (exists fd0, fd0 < 0 /\ going fd0 closed0 es s) ->
  returns (gone closed0 (es ++ [last_edge])) (transition_to (exec (S n)) DISCONNECTED s).
Proof.
  intros (fd0 & Hneg & H1 & H2 & H3 & H4 & H5).
  unfold transition_to. rewrite H1, !(bool_decide_eq_false_2 (DISCONNECTING = DISCONNECTED)) by done.
  replace (is_valid_state_transition DISCONNECTING DISCONNECTED) with true by done. rewrite andb_false_r.
  set (s1 := on_conn _ s). change (state_callback_ s1) with (state_callback_ s).
  apply (returns_andThen (gone closed0 (es ++ [last_edge]))).
  - assert (Hg : forall s2, conn s2 = conn s1 -> heard (es ++ [last_edge]) s2 -> gone closed0 (es ++ [last_edge]) s2).
    { intros s2 Hc Hh. unfold gone. rewrite Hc. split_and!; cbn; [done|lia|done| |done]. by rewrite H4, H1, <- app_assoc. }
    destruct (state_callback_ s) eqn:Ecb.
    + pose proof (heard_set _ _ H5 Ecb) as Hs0.
      apply reacts_return; [|apply Hg; [done|by apply (heard_notify last_edge es s1)]].
      intros o s2 Ho Hin. by eapply gone_exec.
    + apply Hg; [done|]. by apply (heard_silent last_edge es s1).
  - intros s2 (? & ? & ? & ? & ?). rewrite bool_decide_eq_true_2 by done. by split_and!.
Qed.

(** The second half of [close]. *)
Lemma finish_going n fd0 closed0 es s :
  going fd0 closed0 es s ->
  returns (gone (closed0 ++ released fd0) (es ++ [last_edge]))
    (transition_to (exec (S n)) DISCONNECTED
       (on_conn (fun c => close_fd (set_handler (handler_close <$> protocol_handler_ c) c)) s)).
Proof.
  intros (H1 & H2 & H3 & H4 & H5). apply last_move. unfold released, close_fd, going. cbn. rewrite H2.
  destruct (0 <=? fd0) eqn:E; zb; cbn; rewrite ?H3, ?app_nil_r; [exists (-1)|exists fd0]; by split_and!.
Qed.

Lemma close_going n fd0 closed0 es s :
  going fd0 closed0 es s -> returns (gone (closed0 ++ released fd0) (es ++ [last_edge])) (close (exec (S n)) s).
Proof.
  intros Hs. pose proof Hs as (H1 & _). unfold close. rewrite H1. case_bool_decide; [done|].
  unfold transition_to at 1. rewrite H1. rewrite bool_decide_eq_true_2 by done. cbn [andThen]. by apply finish_going.
Qed.

(** While it is being closed, the callback may finish the job. *)
Definition going_or_gone (fd0 : Z) (closed0 : list Z) (es : list edge) (s : st) : Prop :=
  going fd0 closed0 es s \/ gone (closed0 ++ released fd0) (es ++ [last_edge]) s.

Lemma going_exec n fd0 closed0 es from to c o s :
  set0 = true -> moves o = false -> o ∈ reacts from to c -> going_or_gone fd0 closed0 es s ->
  returns (going_or_gone fd0 closed0 es) (exec (S (S n)) o s).
Proof.
  unfold going_or_gone. intros Hs0 Ho Hin [Hs|Hs].
  - pose proof Hs as (H1 & H2 & H3 & H4 & H5). pose proof (heard_react _ _ _ _ _ _ Hs0 Hin H5) as Hh.
    destruct o; try done; try (cbn [exec returns]; left; by split_and!).
    change (exec (S (S n)) Close s) with (close (exec (S n)) s). pose proof (close_going n _ _ _ _ Hs) as Hc.
    destruct (close (exec (S n)) s); try done. cbn [returns]. by right.
  - pose proof (gone_exec (S n) _ _ _ _ _ o s Hs0 Ho Hin Hs) as Hg.
    destruct (exec (S (S n)) o s); try done. cbn [returns]. by right.
Qed.

(** Nothing has happened yet. *)
Definition fresh (s : st) : Prop :=
  transitions (conn s) = transitions0 /\ notified s = notified0 /\ state_callback_ s = set0.

Lemma fresh_heard s : fresh s -> heard [] s.
Proof.
  intros (_ & Hn & Hs). exists []. rewrite app_nil_r, Hn, Hs. split_and!; [done..|]. by destruct set0.
Qed.

Lemma begin_close n s :
  fresh s -> state_ (conn s) <> DISCONNECTED -> state_ (conn s) <> DISCONNECTING ->
  returns (going_or_gone (fd_ (conn s)) (closed (conn s)) [(state_ (conn s), DISCONNECTING)])
    (transition_to (exec (S (S n))) DISCONNECTING s).
Proof.
  intros Hf H1 H2. unfold transition_to. case_bool_decide; [done|]. case_bool_decide; [done|].
  replace (is_valid_state_transition (state_ (conn s)) DISCONNECTING) with true by (by destruct (state_ (conn s))).
  rewrite andb_false_r. set (s1 := on_conn _ s). set (e := (state_ (conn s), DISCONNECTING)).
  change (state_callback_ s1) with (state_callback_ s). pose proof (fresh_heard s Hf) as Hh.
  apply (returns_andThen (going_or_gone (fd_ (conn s)) (closed (conn s)) [e])).
  - assert (Hg : forall s2, conn s2 = conn s1 -> heard [e] s2 -> going_or_gone (fd_ (conn s)) (closed (conn s)) [e] s2).
    { intros s2 Hc Hh2. left. unfold going. rewrite Hc. split_and!; try done. cbn. by rewrite (proj1 Hf). }
    destruct (state_callback_ s) eqn:Ecb.
    + pose proof (heard_set _ _ Hh Ecb) as Hs0.
      apply reacts_return; [|apply Hg; [done|by apply (heard_notify e [] s1)]].
      intros o s2 Ho Hin. by eapply going_exec.
    + apply Hg; [done|]. by apply (heard_silent e [] s1).
  - intros s2 Hs2. by rewrite bool_decide_eq_false_2.
Qed.

(** The transitions of a [close] in state [x]. *)
Definition closing_edges (x : ConnectionState) : list edge :=
  (if bool_decide (x = DISCONNECTING) then [] else [(x, DISCONNECTING)]) ++ [last_edge].

Lemma close_returns n s :
  fresh s -> state_ (conn s) <> DISCONNECTED ->
  returns (gone (closed (conn s) ++ released (fd_ (conn s))) (closing_edges (state_ (conn s))))
    (exec (S (S (S n))) Close s).
Proof.
  intros Hf Hs. change (exec (S (S (S n))) Close s) with (close (exec (S (S n))) s). unfold closing_edges.
  case_bool_decide as Hd.
  { apply close_going. split_and!; [done..| |by apply fresh_heard]. rewrite app_nil_r. apply Hf. }
  unfold close. rewrite bool_decide_eq_false_2 by done.
  eapply returns_andThen; [by apply begin_close|]. intros s1 [Hg|Hg]; [by apply finish_going|].
  destruct Hg as (H1 & H2 & H3 & H4 & H5).
  assert (on_conn (fun c => close_fd (set_handler (handler_close <$> protocol_handler_ c) c)) s1 =
    on_conn (fun c => set_handler (handler_close <$> protocol_handler_ c) c) s1) as ->.
  { unfold on_conn. f_equal. unfold close_fd. cbn. by replace (0 <=? fd_ (conn s1)) with false by lia. }
  unfold transition_to. cbn [on_conn conn state_ set_handler]. rewrite bool_decide_eq_true_2 by done. by split_and!.
Qed.
End Callback.
Arguments call : clear implicits.
Arguments st : clear implicits.
Arguments result : clear implicits.

(** C32. However the state callback calls back into its connection, at any
    depth, and whatever is called from outside: when the calls return, every
    recorded transition starts where the one before ended, none leaves
    DISCONNECTED, each is one the matrix allows in a debug build, and the
    descriptor was given to [::close] at most once, and then forgotten. *)
Theorem reentrant_lifecycle {H} (handler_close : H -> H) ndebug reacts now fuel os id fd port start set s :
  calls (exec handler_close ndebug reacts now fuel) os (mkSt (create id fd port start) set []) = Done s ->
  chain ndebug ACCEPTING (transitions (conn s)) (state_ (conn s)) /\
  ((fd_ (conn s) = fd /\ closed (conn s) = []) \/ (fd_ (conn s) = -1 /\ closed (conn s) = [fd] /\ 0 <= fd)).
Proof.
  intros Hr. pose proof (calls_keeps (ok ndebug fd) (exec handler_close ndebug reacts now fuel) os) as Hk.
  specialize (Hk ltac:(intros o s1 _; apply exec_ok) (mkSt (create id fd port start) set [])). rewrite Hr in Hk.
  destruct Hk as [Hf Hc]; [|done]. split; cbn; auto.
Qed.

(** A callback that closes the connection it is told about, twice. *)
Definition closes_twice {H} : ConnectionState -> ConnectionState -> t H -> list (call H) := fun _ _ _ => [Close; Activity; Close].

Lemma reentrant_lifecycle_witness :
  exists s, calls (exec S false closes_twice 5 4) [Transition TLS_HANDSHAKING] (mkSt (create (H := nat) 1 7 8443 0) true []) = Done s /\
    chain false ACCEPTING (transitions (conn s)) (state_ (conn s)) /\
    ((fd_ (conn s) = 7 /\ closed (conn s) = []) \/ (fd_ (conn s) = -1 /\ closed (conn s) = [7] /\ 0 <= 7)).
Proof.
  destruct (calls (exec S false closes_twice 5 4) [Transition TLS_HANDSHAKING] (mkSt (create (H := nat) 1 7 8443 0) true [])) as [s| |] eqn:E;
    [|by vm_compute in E..].
  exists s. split; [reflexivity|]. exact (reentrant_lifecycle S false closes_twice 5 4 [Transition TLS_HANDSHAKING] 1 7 8443 0 true s E).
Defined.

(** C35. [close] may be called from inside its own notifications: if the callback
    never calls [transition_to] itself, whatever else it calls and as often as
    it likes, three levels of calls are enough, no assertion fails, the
    connection ends DISCONNECTED, the descriptor is closed once, and the
    connection makes the two transitions, to DISCONNECTING (unless it was there)
    and to DISCONNECTED, once each. [on_state_change] is called exactly once for
    each of them, in this order, if there is a callback that does not unset
    itself; for some of them, in order and at most once each, if it may unset
    itself; and never if there is no callback. *)
Theorem close_reentrant {H} (handler_close : H -> H) ndebug reacts now n s :
  (forall from to c, Forall (fun o => moves (H := H) o = false) (reacts from to c)) -> state_ (conn s) <> DISCONNECTED ->
  exists s' told, exec handler_close ndebug reacts now (3 + n) Close s = Done s' /\
    state_ (conn s') = DISCONNECTED /\ fd_ (conn s') < 0 /\
    closed (conn s') = closed (conn s) ++ (if 0 <=? fd_ (conn s) then [fd_ (conn s)] else []) /\
    let edges := (if bool_decide (state_ (conn s) = DISCONNECTING) then [] else [(state_ (conn s), DISCONNECTING)]) ++
      [(DISCONNECTING, DISCONNECTED)] in
    transitions (conn s') = transitions (conn s) ++ edges /\
    notified s' = notified s ++ told /\ told `sublist_of` edges /\
    (state_callback_ s = true -> (forall from to c, SetStateCallback false ∉ reacts from to c) -> told = edges) /\
    (state_callback_ s = false -> told = []).
Proof.
  intros Hm Hs. change (3 + n)%nat with (S (S (S n))).
  pose proof (close_returns handler_close ndebug reacts now Hm (transitions (conn s)) (notified s) (state_callback_ s)
    n s (conj eq_refl (conj eq_refl eq_refl)) Hs) as Hr.
  destruct (exec handler_close ndebug reacts now (S (S (S n))) Close s) as [s'| |]; try done.
  destruct Hr as (? & ? & ? & ? & told & ? & ? & Hset). exists s', told. do 4 (split; [done|]). cbn zeta. do 3 (split; [done|]). split.
  - intros Hcb Hst. rewrite Hcb in Hset. by apply Hset.
  - intros Hcb. rewrite Hcb in Hset. apply Hset.
Qed.

Lemma close_reentrant_witness :
  exists s' told, exec S false closes_twice 5 3 Close (mkSt (create (H := nat) 1 7 8443 0) true []) = Done s' /\
    state_ (conn s') = DISCONNECTED /\ fd_ (conn s') < 0 /\ closed (conn s') = [7] /\
    let edges := [(ACCEPTING, DISCONNECTING); (DISCONNECTING, DISCONNECTED)] in
    transitions (conn s') = edges /\ notified s' = told /\ told `sublist_of` edges /\
    (true = true -> (forall from to c, SetStateCallback false ∉ @closes_twice nat from to c) -> told = edges) /\
    (true = false -> told = []).
Proof.
  apply (close_reentrant S false closes_twice 5 0 (mkSt (create (H := nat) 1 7 8443 0) true [])); [|done].
  intros from to c. repeat constructor.
Defined.

(** The two notifications of the example. *)
Example close_reentrant_told :
  match exec S false closes_twice 5 3 Close (mkSt (create (H := nat) 1 7 8443 0) true []) with
  | Done s' => notified s' = [(ACCEPTING, DISCONNECTING); (DISCONNECTING, DISCONNECTED)]
  | _ => False
  end.
Proof. reflexivity. Qed.

(** A callback that moves the connection on at every notification, along edges
    the matrix allows: the recursion never ends, in either build. *)
Definition next_state (s : ConnectionState) : ConnectionState :=
  match s with CONNECTED => RECEIVING | RECEIVING => PROCESSING | PROCESSING => SENDING | _ => CONNECTED end.
Definition advances {H} : ConnectionState -> ConnectionState -> t H -> list (call H) := fun _ to _ => [Transition (next_state to)].

Theorem advancing_callback_endless {H} (handler_close : H -> H) ndebug now fuel (s : st H) :
  state_ (conn s) ∈ [CONNECTED; RECEIVING; PROCESSING; SENDING] -> state_callback_ s = true ->
  exec handler_close ndebug advances now fuel (Transition (next_state (state_ (conn s)))) s = Endless.
Proof.
  revert s. induction fuel as [|n IH]; intros s Hs Hcb; [done|]. cbn [exec]. unfold transition_to.
  assert (Hcy : bool_decide (state_ (conn s) = next_state (state_ (conn s))) = false /\ bool_decide (state_ (conn s) = DISCONNECTED) = false /\
    is_valid_state_transition (state_ (conn s)) (next_state (state_ (conn s))) = true /\ next_state (state_ (conn s)) ∈ [CONNECTED; RECEIVING; PROCESSING; SENDING]).
  { rewrite !elem_of_cons, elem_of_nil in Hs. destruct Hs as [->|[->|[->|[->|[]]]]]; split_and!; try done; set_solver. }
  destruct Hcy as (-> & -> & -> & Hin). rewrite andb_false_r. cbn [state_callback_ on_conn]. rewrite Hcb.
  unfold advances at 2. cbn [calls].
  set (s1 := notify _ _). specialize (IH s1). change (state_ (conn s1)) with (next_state (state_ (conn s))) in IH.
  by rewrite IH.
Qed.
End ConnCallback.
