(* ===== verification/LockFree.v ===== *)
(** The single-producer single-consumer linked queue
    (utils/include/utils/lockfree_queue.hpp), one step per access to the shared
    memory.

    A state is the heap of nodes, the two atomic pointers and the program points
    of the producer and of the consumer; a run is any interleaving of their
    steps. The producer's release store to [next] and the consumer's acquire
    load of it are the only accesses both threads make to one location, so the
    interleaving semantics covers what the memory orders allow. [new] may return
    any free address, also one that was deleted before. *)

From S2P Require Import Prelude.

Module LockFreeQueue.
Section LockFreeQueue.
Context {T : Type}.

(** [NodeBase] (no data) and [Node]; a moved-out [data] is no longer there.
    [nullptr] is 0. *)
Record node := mkNode { data : option T; next : Z }.

Inductive producer :=
| ProducerIdle
| Building (batch_head batch_tail : Z) (rest : list T) (batch : list T)
    (* the local list holds [batch], [rest] is still to come *)
| Loaded (batch_head batch_tail old_tail : Z) (batch : list T)
| Linked (batch_tail : Z).

Inductive consumer :=
| ConsumerIdle
| Popping                               (* [pop], before it reads [next] *)
| Found (old_head nx : Z)               (* [next] was not null *)
| Taken (old_head nx : Z)               (* the data was moved out *)
| Freeing (old_head : Z)                (* [head_] was stored *)
| Walking (old_head curr : Z) (count max_count : nat)
    (* [curr] is [last_data_node] once [count > 0] *)
| Deleting (node_to_delete last_data_node : Z).

#[global] Instance consumer_eq_dec : EqDecision consumer.
Proof. solve_decision. Defined.

Record t := mk {
  heap : gmap Z node;
  head_ : Z;
  tail_ : Z;
  prod : producer;
  cons_ : consumer;
  published : list T;   (* items whose node was linked, oldest first *)
  popped : list T;      (* items moved out by the consumer, oldest first *)
  requested : list T;   (* items of the pushes begun, oldest first *)
}.

(** A thread's step: the next state, undefined behaviour (a dereference or a
    [delete] of a node that is not allocated, or reading the data of a sentinel),
    or no step to make. *)
Inductive result := Next (s : t) | Undefined | Disabled.

Definition set_next (a nx : Z) (h : gmap Z node) : option (gmap Z node) :=
  match h !! a with Some n => Some (<[a := mkNode (data n) nx]> h) | None => None end.

(** The constructor, with the address of the sentinel. *)
Definition create (dummy : Z) : t :=
  mk {[dummy := mkNode None 0]} dummy dummy ProducerIdle ConsumerIdle [] [] [].

(** [new Node(x)] at [a]. *)
Definition free_address (a : Z) (s : t) : bool := negb (a =? 0) && bool_decide (heap s !! a = None).

Definition set_prod (h : gmap Z node) (p : producer) (s : t) : t :=
  mk h (head_ s) (tail_ s) p (cons_ s) (published s) (popped s) (requested s).
Definition set_cons (h : gmap Z node) (c : consumer) (s : t) : t :=
  mk h (head_ s) (tail_ s) (prod s) c (published s) (popped s) (requested s).

(** [push(x)] is [push_batch] with [rest = []]. *)
Definition push_begin (a : Z) (x : T) (rest : list T) (s : t) : result :=
  match prod s with
  | ProducerIdle =>
      if free_address a s
      then Next (mk (<[a := mkNode (Some x) 0]> (heap s)) (head_ s) (tail_ s) (Building a a rest [x])
                    (cons_ s) (published s) (popped s) (requested s ++ x :: rest))
      else Disabled
  | _ => Disabled
  end.

Definition producer_step (a : Z) (s : t) : result :=
  match prod s with
  | ProducerIdle => Disabled
  | Building hd tl (x :: rest) b =>
      if free_address a s then
        match set_next tl a (<[a := mkNode (Some x) 0]> (heap s)) with
        | Some h => Next (set_prod h (Building hd a rest (b ++ [x])) s)
        | None => Undefined
        end
      else Disabled
  | Building hd tl [] b =>
      match set_next tl 0 (heap s) with
      | Some h => Next (set_prod h (Loaded hd tl (tail_ s) b) s)
      | None => Undefined
      end
  | Loaded hd tl old_tail b =>
      match set_next old_tail hd (heap s) with
      | Some h => Next (mk h (head_ s) (tail_ s) (Linked tl) (cons_ s) (published s ++ b) (popped s) (requested s))
      | None => Undefined
      end
  | Linked tl =>
      Next (mk (heap s) (head_ s) tl ProducerIdle (cons_ s) (published s) (popped s) (requested s))
  end.

Definition pop_begin (s : t) : result :=
  match cons_ s with ConsumerIdle => Next (set_cons (heap s) Popping s) | _ => Disabled end.
Definition pop_batch_begin (max_count : nat) (s : t) : result :=
  match cons_ s with
  | ConsumerIdle => Next (set_cons (heap s) (Walking (head_ s) (head_ s) 0 max_count) s)
  | _ => Disabled
  end.

(** [item = std::move(data_node->data)]. *)
Definition move_out (a : Z) (s : t) : option (T * gmap Z node) :=
  match heap s !! a with
  | Some (mkNode (Some x) nx) => Some (x, <[a := mkNode None nx]> (heap s))
  | _ => None
  end.

(** The end of the first phase of [pop_batch]. *)
Definition walked (old_head curr : Z) (count : nat) (s : t) : result :=
  if (0 <? Z.of_nat count)
  then Next (mk (heap s) curr (tail_ s) (prod s) (Deleting old_head curr) (published s) (popped s) (requested s))
  else Next (set_cons (heap s) ConsumerIdle s).

Definition consumer_step (s : t) : result :=
  match cons_ s with
  | ConsumerIdle => Disabled
  | Popping =>
      match heap s !! head_ s with
      | Some n => Next (set_cons (heap s)
                          (if next n =? 0 then ConsumerIdle else Found (head_ s) (next n)) s)
      | None => Undefined
      end
  | Found old nx =>
      match move_out nx s with
      | Some (x, h) => Next (mk h (head_ s) (tail_ s) (prod s) (Taken old nx) (published s) (popped s ++ [x]) (requested s))
      | None => Undefined
      end
  | Taken old nx => Next (mk (heap s) nx (tail_ s) (prod s) (Freeing old) (published s) (popped s) (requested s))
  | Freeing old =>
      match heap s !! old with
      | Some _ => Next (set_cons (delete old (heap s)) ConsumerIdle s)
      | None => Undefined
      end
  | Walking old curr count max_count =>
      if Z.of_nat max_count <=? Z.of_nat count then walked old curr count s
      else
        match heap s !! curr with
        | None => Undefined
        | Some n =>
            if next n =? 0 then walked old curr count s
            else
              match move_out (next n) s with
              | Some (x, h) =>
                  Next (mk h (head_ s) (tail_ s) (prod s) (Walking old (next n) (S count) max_count)
                           (published s) (popped s ++ [x]) (requested s))
              | None => Undefined
              end
        end
  | Deleting node last =>
      if node =? last then Next (set_cons (heap s) ConsumerIdle s)
      else
        match heap s !! node with
        | Some n => Next (set_cons (delete node (heap s)) (Deleting (next n) last) s)
        | None => Undefined
        end
  end.

(** [empty], called by the consumer between two operations. *)
Definition empty (s : t) : option bool :=
  n ← heap s !! head_ s; Some (next n =? 0).

(** The destructor's loop: what is left of the heap. *)
Fixpoint destroy (fuel : nat) (curr : Z) (h : gmap Z node) : option (gmap Z node) :=
  if curr =? 0 then Some h
  else
    match fuel with
    | O => None
    | S k => n ← h !! curr; destroy k (next n) (delete curr h)
    end.

Inductive event :=
| Push (a : Z) (x : T) (rest : list T)
| ProducerStep (a : Z)
| Pop
| PopBatch (max_count : nat)
| ConsumerStep.
Definition step (e : event) (s : t) : result :=
  match e with
  | Push a x rest => push_begin a x rest s
  | ProducerStep a => producer_step a s
  | Pop => pop_begin s
  | PopBatch n => pop_batch_begin n s
  | ConsumerStep => consumer_step s
  end.

Inductive reachable : t -> Prop :=
| reach_create dummy : dummy <> 0 -> reachable (create dummy)
| reach_step e s s' : reachable s -> step e s = Next s' -> reachable s'.

(** A run of given events; disabled ones are skipped. *)
Fixpoint run (es : list event) (s : t) : option t :=
  match es with
  | [] => Some s
  | e :: r => match step e s with Next s' => run r s' | Disabled => run r s | Undefined => None end
  end.

(** * The shape of the heap *)

(** The nodes at [l] are linked in this order, the last one to [e]. *)
Fixpoint seg (h : gmap Z node) (l : list Z) (e : Z) : Prop :=
  match l with
  | [] => True
  | a :: r => (exists d, h !! a = Some (mkNode d (List.hd e r))) /\ seg h r e
  end.

Definition holds (h : gmap Z node) (l : list (Z * T)) : Prop :=
  forall a x, (a, x) ∈ l -> exists nx, h !! a = Some (mkNode (Some x) nx).

Lemma seg_app h l1 l2 e : seg h (l1 ++ l2) e <-> seg h l1 (List.hd e l2) /\ seg h l2 e.
Proof.
  induction l1 as [|a l1 IH]; cbn; [tauto|]. rewrite IH.
  destruct l1; cbn; naive_solver.
Qed.

Lemma seg_ext h h' l e : (forall a, a ∈ l -> h' !! a = h !! a) -> seg h l e -> seg h' l e.
Proof.
  induction l as [|a l IH]; cbn; [done|]. intros Hx [[d Hd] Hs]. split.
  - exists d. rewrite Hx by (by left). done.
  - apply IH; [|done]. intros b Hb. apply Hx. by right.
Qed.

(** Moving the data out leaves the links. *)
Lemma seg_data h a d d' nx l e :
  h !! a = Some (mkNode d nx) -> seg h l e -> seg (<[a := mkNode d' nx]> h) l e.
Proof.
  intros Ha. induction l as [|b l IH]; cbn; [done|]. intros [[x Hb] Hs]. split; [|by apply IH].
  destruct (decide (a = b)) as [<-|Hne].
  - rewrite lookup_insert_eq. rewrite Ha in Hb. simplify_eq. by eexists.
  - rewrite lookup_insert_ne by done. by exists x.
Qed.

Lemma seg_insert_ne h a n l e : a ∉ l -> seg h l e -> seg (<[a := n]> h) l e.
Proof. intros Ha. apply seg_ext. intros b Hb. rewrite lookup_insert_ne; [done|]. by intros ->. Qed.
Lemma seg_delete_ne h a l e : a ∉ l -> seg h l e -> seg (delete a h) l e.
Proof. intros Ha. apply seg_ext. intros b Hb. rewrite lookup_delete_ne; [done|]. by intros ->. Qed.

(** Storing the [next] of the last node. *)
Lemma seg_relink h l a e d e0 :
  h !! a = Some (mkNode d e0) -> a ∉ l -> seg h (l ++ [a]) e0 -> seg (<[a := mkNode d e]> h) (l ++ [a]) e.
Proof.
  intros Hh Ha. rewrite !seg_app. cbn. intros (Hs & _). repeat split.
  - by apply seg_insert_ne.
  - exists d. by rewrite lookup_insert_eq.
Qed.

Lemma holds_ext h h' l : (forall a x, (a, x) ∈ l -> h' !! a = h !! a) -> holds h l -> holds h' l.
Proof. intros He Hh a x Hx. rewrite (He a x Hx). by apply Hh. Qed.

(** The nodes allocated: [G], which only the consumer still knows, the logical
    sentinel [c], the pending items [L] and the producer's local list [P]. *)
Definition owned (G : list Z) (c : Z) (L P : list (Z * T)) : list Z := G ++ c :: L.*1 ++ P.*1.

Definition batch_ok (hd tl : Z) (b : list T) (P : list (Z * T)) : Prop :=
  exists P0 x, P = P0 ++ [(tl, x)] /\ hd = List.hd 0 P.*1 /\ b = P.*2.

Definition producer_ok (p : producer) (tail : Z) (P : list (Z * T)) (last : Z) : Prop :=
  match p with
  | ProducerIdle => P = [] /\ tail = last
  | Building hd tl _ b => batch_ok hd tl b P /\ tail = last
  | Loaded hd tl old b => batch_ok hd tl b P /\ tail = last /\ old = last
  | Linked tl => P = [] /\ tl = last
  end.

Definition consumer_ok (k : consumer) (head : Z) (G : list Z) (c : Z) (L : list (Z * T)) : Prop :=
  match k with
  | ConsumerIdle | Popping => G = [] /\ head = c
  | Found old nx => G = [] /\ head = c /\ old = c /\ exists x L', L = (nx, x) :: L'
  | Taken old nx => G = [old] /\ head = old /\ nx = c
  | Freeing old => G = [old] /\ head = c
  | Walking old curr count _ => head = old /\ curr = c /\ length G = count /\ List.hd c G = old
  | Deleting node last => head = last /\ last = c /\ List.hd c G = node
  end.

(** The items of the push under way that are not linked yet. *)
Definition unlinked (p : producer) : list T :=
  match p with Building _ _ rest b => b ++ rest | Loaded _ _ _ b => b | _ => [] end.

Record shape (s : t) (G : list Z) (c : Z) (L P : list (Z * T)) : Prop := {
  sh_nodup : NoDup (owned G c L P);
  sh_null : 0 ∉ owned G c L P;
  sh_dom a : is_Some (heap s !! a) <-> a ∈ owned G c L P;
  sh_seg : seg (heap s) (G ++ c :: L.*1) 0;
  sh_batch : seg (heap s) P.*1 0;
  sh_data : holds (heap s) (L ++ P);
  sh_items : published s = popped s ++ L.*2;
  sh_requested : requested s = published s ++ unlinked (prod s);
  sh_prod : producer_ok (prod s) (tail_ s) P (List.last L.*1 c);
  sh_cons : consumer_ok (cons_ s) (head_ s) G c L;
}.

(** The step has no undefined behaviour and keeps the shape. *)
Definition preserved (r : result) : Prop :=
  match r with
  | Next s => exists G c L P, shape s G c L P
  | Disabled => True
  | Undefined => False
  end.

(** A producer's step leaves the consumer's side alone. *)
Definition kept (s : t) (G : list Z) (c : Z) (r : result) : Prop :=
  match r with
  | Next s' => exists L P, shape s' G c L P /\ cons_ s' = cons_ s /\ popped s' = popped s
  | Disabled => True
  | Undefined => False
  end.

Lemma create_shape dummy : dummy <> 0 -> shape (create dummy) [] dummy [] [].
Proof.
  intros Hd. split; cbn.
  - by apply NoDup_singleton.
  - rewrite list_elem_of_singleton. done.
  - intros a. rewrite list_elem_of_singleton, lookup_singleton_is_Some. naive_solver.
  - split; [|done]. exists None. by rewrite lookup_singleton_eq.
  - done.
  - intros a x Hx. by apply elem_of_nil in Hx.
  - done.
  - done.
  - done.
  - done.
Qed.

(** * The producer *)

Lemma free_address_spec a s G c L P :
  shape s G c L P -> free_address a s = true -> a <> 0 /\ heap s !! a = None /\ a ∉ owned G c L P.
Proof.
  intros Hs. unfold free_address. rewrite andb_true_iff, negb_true_iff, Z.eqb_neq, bool_decide_eq_true.
  intros [H0 Ha]. split; [done|]. split; [done|]. rewrite <- (sh_dom _ _ _ _ _ Hs), Ha. by intros [??].
Qed.

Lemma owned_snoc G c L P p : owned G c L (P ++ [p]) = owned G c L P ++ [p.1].
Proof. unfold owned. rewrite fmap_app, <- app_assoc. cbn. by rewrite <- app_assoc. Qed.

Lemma owned_one G c L p : owned G c L [p] = owned G c L [] ++ [p.1].
Proof. apply (owned_snoc G c L []). Qed.

Lemma NoDup_snoc (l : list Z) a : NoDup l -> a ∉ l -> NoDup (l ++ [a]).
Proof.
  intros Hl Ha. apply NoDup_app. split; [done|]. split; [|apply NoDup_singleton].
  intros x Hx ->%list_elem_of_singleton. done.
Qed.

(** The heap with a new node that ends the local list. *)
Lemma alloc_dom (h : gmap Z node) l a n b : (forall b, is_Some (h !! b) <-> b ∈ l) ->
  is_Some (<[a := n]> h !! b) <-> b ∈ l ++ [a].
Proof.
  intros Hd. rewrite elem_of_app, list_elem_of_singleton, lookup_insert_is_Some'. rewrite Hd. naive_solver.
Qed.

Lemma elem_of_chain a G c (L P : list (Z * T)) : a ∈ G ++ c :: L.*1 -> a ∈ owned G c L P.
Proof. unfold owned. rewrite !elem_of_app, !elem_of_cons, elem_of_app. tauto. Qed.
Lemma elem_of_batch a G c (L P : list (Z * T)) : a ∈ P.*1 -> a ∈ owned G c L P.
Proof. unfold owned. rewrite elem_of_app, elem_of_cons, elem_of_app. tauto. Qed.
Lemma elem_of_items a x G c (L P : list (Z * T)) : (a, x) ∈ L ++ P -> a ∈ owned G c L P.
Proof.
  unfold owned. rewrite elem_of_app. intros H. apply elem_of_app. right. apply elem_of_cons. right.
  apply elem_of_app. destruct H as [H|H]; [left|right]; by apply (list_elem_of_fmap_2 fst) in H.
Qed.

Lemma push_begin_ok a x rest s G c L P : shape s G c L P -> kept s G c (push_begin a x rest s).
Proof.
  intros Hs. unfold push_begin. destruct (prod s) eqn:Ep; try done.
  destruct (free_address a s) eqn:Ef; [|done].
  destruct (free_address_spec a s G c L P Hs Ef) as (H0 & Hn & Ho). destruct Hs.
  rewrite Ep in sh_prod0. cbn in sh_prod0. destruct sh_prod0 as [-> Ht].
  exists L, [(a, x)]. split; [|done]. split; cbn.
  - rewrite owned_one. by apply NoDup_snoc.
  - rewrite owned_one, elem_of_app, list_elem_of_singleton. naive_solver.
  - intros b. rewrite owned_one. by apply alloc_dom.
  - apply seg_insert_ne; [|done]. intros Hin. by apply Ho, elem_of_chain.
  - split; [|done]. exists (Some x). by rewrite lookup_insert_eq.
  - intros b y. rewrite elem_of_app, list_elem_of_singleton. intros [Hb|[= -> ->]].
    + rewrite lookup_insert_ne; [apply sh_data0; by apply elem_of_app; left|].
      intros ->. apply Ho, (elem_of_items b y). apply elem_of_app. by left.
    + exists 0. by rewrite lookup_insert_eq.
  - done.
  - rewrite sh_requested0, Ep. cbn. by rewrite app_nil_r.
  - split; [|done]. by exists [], x.
  - done.
Qed.

Lemma last_fmap_snoc (P0 : list (Z * T)) a x : (P0 ++ [(a, x)]).*1 = P0.*1 ++ [a].
Proof. by rewrite fmap_app. Qed.

Lemma batch_tail_node s G c L P0 tl x :
  shape s G c L (P0 ++ [(tl, x)]) -> heap s !! tl = Some (mkNode (Some x) 0) /\ tl ∉ P0.*1.
Proof.
  intros Hs. destruct Hs. split.
  - rewrite last_fmap_snoc, seg_app in sh_batch0. cbn in sh_batch0. destruct sh_batch0 as [_ [[d Hd] _]].
    destruct (sh_data0 tl x) as [nx Hx]; [|congruence].
    apply elem_of_app. right. apply elem_of_app. right. by left.
  - rewrite owned_snoc in sh_nodup0. cbn in sh_nodup0.
    apply NoDup_app in sh_nodup0 as (_ & Hd & _). intros Hin.
    apply (Hd tl); [by apply elem_of_batch|by left].
Qed.

Lemma hd_snoc {A} (d : A) l x y : List.hd d (l ++ [x]) = List.hd d ((l ++ [x]) ++ [y]).
Proof. by destruct l. Qed.

Lemma build_step_ok a x rest hd tl b s G c L P :
  shape s G c L P -> prod s = Building hd tl (x :: rest) b -> kept s G c (producer_step a s).
Proof.
  intros Hs Ep. unfold producer_step. rewrite Ep. destruct (free_address a s) eqn:Ef; [|done].
  destruct (free_address_spec a s G c L P Hs Ef) as (H0 & Hn & Ho).
  pose proof (sh_prod _ _ _ _ _ Hs) as Hp. rewrite Ep in Hp. destruct Hp as [(P0 & y & -> & Hhd & ->) Ht].
  destruct (batch_tail_node s G c L P0 tl y Hs) as [Htl Hnin].
  assert (Hne : tl <> a) by (intros ->; congruence).
  unfold set_next. rewrite lookup_insert_ne, Htl by done. cbn [data].
  destruct Hs. exists L, ((P0 ++ [(tl, y)]) ++ [(a, x)]). split; [|done]. split; cbn [heap head_ tail_ prod cons_ published popped set_prod].
  - rewrite owned_snoc. by apply NoDup_snoc.
  - rewrite owned_snoc, elem_of_app, list_elem_of_singleton. naive_solver.
  - intros b. rewrite owned_snoc, lookup_insert_is_Some'.
    rewrite (alloc_dom (heap s) (owned G c L (P0 ++ [(tl, y)])) a) by done.
    assert (tl ∈ owned G c L (P0 ++ [(tl, y)])) by (apply sh_dom0; rewrite Htl; by eexists).
    cbn. rewrite elem_of_app. naive_solver.
  - assert (Hc : forall z, z ∈ G ++ c :: L.*1 -> z <> tl /\ z <> a).
    { intros z Hz. rewrite owned_snoc in sh_nodup0. apply NoDup_app in sh_nodup0 as (_ & Hd & _). split.
      - intros ->. apply (Hd tl); [by apply elem_of_chain|by left].
      - intros ->. by apply Ho, elem_of_chain. }
    apply (seg_ext (heap s)); [|done]. intros z [Hz1 Hz2]%Hc. by rewrite !lookup_insert_ne.
  - rewrite (last_fmap_snoc _ a x), seg_app. cbn. split.
    + rewrite last_fmap_snoc. apply (seg_relink _ _ _ _ _ 0); [by rewrite lookup_insert_ne|done|].
      rewrite <- (last_fmap_snoc P0 tl y). apply seg_insert_ne; [|done]. intros Hin. by apply Ho, elem_of_batch.
    + split; [|done]. exists (Some x). by rewrite lookup_insert_ne, lookup_insert_eq.
  - intros z w Hz. rewrite app_assoc, elem_of_app, list_elem_of_singleton in Hz.
    destruct Hz as [Hz|[= -> ->]].
    + assert (z <> a) by (intros ->; by apply Ho, (elem_of_items a w)).
      destruct (sh_data0 z w Hz) as [nx Hx]. destruct (decide (z = tl)) as [->|Hzt].
      * exists a. rewrite lookup_insert_eq. congruence.
      * exists nx. by rewrite !lookup_insert_ne.
    + exists 0. by rewrite lookup_insert_ne, lookup_insert_eq.
  - done.
  - cbn in sh_requested0 |- *. rewrite sh_requested0, Ep. cbn. by rewrite <- app_assoc.
  - split; [|done]. exists (P0 ++ [(tl, y)]), x. split; [done|]. rewrite Hhd, !fmap_app. cbn.
    split; [apply hd_snoc|done].
  - done.
Qed.

Lemma last_cons_default {A} (l : list A) b c : List.last (b :: l) c = List.last l b.
Proof.
  revert b c. induction l as [|x l IH]; intros b c; [done|].
  transitivity (List.last (x :: l) c); [done|]. by rewrite !IH.
Qed.

Lemma cons_last {A} (l : list A) c : exists f, c :: l = f ++ [List.last l c].
Proof.
  revert c. induction l as [|b l IH]; intros c; [by exists []|].
  destruct (IH b) as [f Hf]. exists (c :: f). cbn [app]. f_equal.
  by rewrite last_cons_default.
Qed.

Lemma last_app_cons {A} (l1 l2 : list A) x c : List.last (l1 ++ x :: l2) c = List.last l2 x.
Proof.
  revert c. induction l1 as [|a l1 IH]; intros c; cbn [app]; rewrite last_cons_default; [done|apply IH].
Qed.

Lemma build_end_ok a hd tl b s G c L P :
  shape s G c L P -> prod s = Building hd tl [] b -> kept s G c (producer_step a s).
Proof.
  intros Hs Ep. unfold producer_step. rewrite Ep.
  pose proof (sh_prod _ _ _ _ _ Hs) as Hp. rewrite Ep in Hp. destruct Hp as [(P0 & y & -> & Hhd & ->) Ht].
  destruct (batch_tail_node s G c L P0 tl y Hs) as [Htl Hnin].
  unfold set_next. rewrite Htl. cbn [data]. rewrite insert_id by done.
  destruct Hs. exists L, (P0 ++ [(tl, y)]). split; [|done]. split; cbn; try done.
  - rewrite sh_requested0, Ep. cbn. by rewrite app_nil_r.
  - split; [by exists P0, y|done].
Qed.

Lemma link_ok a hd tl old b s G c L P :
  shape s G c L P -> prod s = Loaded hd tl old b -> kept s G c (producer_step a s).
Proof.
  intros Hs Ep. unfold producer_step. rewrite Ep.
  pose proof (sh_prod _ _ _ _ _ Hs) as Hp. rewrite Ep in Hp.
  destruct Hp as ((P0 & y & HP & Hhd & Hb) & Ht & Hold). subst old.
  destruct (cons_last L.*1 c) as [f Hf]. set (z := List.last L.*1 c) in *.
  assert (Hchain : G ++ c :: L.*1 = (G ++ f) ++ [z]) by (by rewrite Hf, app_assoc).
  destruct Hs. rewrite Hchain in sh_seg0.
  pose proof sh_seg0 as Hz. rewrite seg_app in Hz. cbn in Hz. destruct Hz as [_ [[d Hz] _]].
  unfold set_next. rewrite Hz. cbn [data].
  assert (Hown : owned G c L P = owned G c (L ++ P) []).
  { unfold owned. cbn. by rewrite fmap_app, !app_nil_r. }
  assert (Hnd : NoDup (((G ++ f) ++ [z]) ++ P.*1)).
  { rewrite <- Hchain. unfold owned in sh_nodup0. by rewrite <- app_assoc. }
  apply NoDup_app in Hnd as (Hnd & Hdisj & _). apply NoDup_app in Hnd as (_ & Hzf & _).
  assert (HzP : z ∉ P.*1) by (apply Hdisj; apply elem_of_app; right; by left).
  exists (L ++ P), []. split; [|done]. split; cbn [heap head_ tail_ prod cons_ published popped set_prod];
    rewrite <- ?Hown, ?app_nil_r; try done.
  - intros x. rewrite lookup_insert_is_Some', sh_dom0. split; [|naive_solver].
    intros [<-|?]; [|done]. apply elem_of_chain. rewrite Hchain. apply elem_of_app. right. by left.
  - replace (G ++ c :: (L ++ P).*1) with (((G ++ f) ++ [z]) ++ P.*1)
      by (rewrite <- Hchain, fmap_app, <- app_assoc; done).
    rewrite seg_app. split.
    + rewrite <- Hhd. apply (seg_relink _ _ _ _ d 0); [done| |done].
      intros Hin. apply (Hzf z Hin). by left.
    + by apply seg_insert_ne.
  - intros x w Hw. destruct (sh_data0 x w Hw) as [nx Hx].
    destruct (decide (x = z)) as [->|Hne]; [|exists nx; by rewrite lookup_insert_ne].
    rewrite Hz in Hx. simplify_eq. eexists. by rewrite lookup_insert_eq.
  - rewrite sh_items0, fmap_app, Hb. by rewrite app_assoc.
  - by rewrite sh_requested0, Ep.
  - split; [done|]. rewrite HP, !fmap_app, app_assoc. cbn. by rewrite last_app_cons.
  - destruct (cons_ s); try done. cbn in *. naive_solver.
Qed.

Lemma tail_ok a tl s G c L P :
  shape s G c L P -> prod s = Linked tl -> kept s G c (producer_step a s).
Proof.
  intros Hs Ep. unfold producer_step. rewrite Ep.
  destruct Hs. rewrite Ep in sh_prod0, sh_requested0. exists L, P. split; [by split|done].
Qed.

Lemma producer_step_ok a s G c L P : shape s G c L P -> kept s G c (producer_step a s).
Proof.
  intros Hs. destruct (prod s) as [|hd tl [|x rest] b|hd tl old b|tl] eqn:Ep.
  - unfold producer_step. by rewrite Ep.
  - by eapply build_end_ok.
  - by eapply build_step_ok.
  - by eapply link_ok.
  - by eapply tail_ok.
Qed.

(** * The consumer *)

Lemma sentinel_node s G c L P :
  shape s G c L P -> exists d, heap s !! c = Some (mkNode d (List.hd 0 L.*1)).
Proof.
  intros Hs. pose proof (sh_seg _ _ _ _ _ Hs) as Hg. rewrite seg_app in Hg. cbn in Hg.
  by destruct Hg as [_ [Hd _]].
Qed.

Lemma next_null s G c L P : shape s G c L P -> (List.hd 0 L.*1 =? 0) = bool_decide (L = []).
Proof.
  intros Hs. destruct L as [|[a x] L]; [done|]. rewrite bool_decide_eq_false_2 by done. cbn.
  apply Z.eqb_neq. intros ->. apply (sh_null _ _ _ _ _ Hs). unfold owned. cbn.
  apply elem_of_app. right. right. by left.
Qed.

Lemma move_out_shape s G c nx x L P k head' :
  shape s G c ((nx, x) :: L) P -> consumer_ok k head' (G ++ [c]) nx L ->
  exists h, move_out nx s = Some (x, h) /\
    shape (mk h head' (tail_ s) (prod s) k (published s) (popped s ++ [x]) (requested s)) (G ++ [c]) nx L P.
Proof.
  intros Hs Hk. destruct Hs.
  assert (Hown : owned (G ++ [c]) nx L P = owned G c ((nx, x) :: L) P).
  { unfold owned. cbn. by rewrite <- app_assoc. }
  destruct (sh_data0 nx x) as [nx' Hn]; [apply elem_of_app; left; by left|].
  unfold move_out. rewrite Hn. eexists. split; [reflexivity|].
  split; cbn [heap head_ tail_ prod cons_ published popped]; rewrite ?Hown; try done.
  - intros a. rewrite lookup_insert_is_Some', sh_dom0. split; [|naive_solver].
    intros [<-|?]; [|done]. apply (elem_of_items nx x). apply elem_of_app. left. by left.
  - rewrite <- app_assoc. cbn in sh_seg0 |- *. by apply (seg_data _ _ _ _ _ _ _ Hn).
  - by apply (seg_data _ _ _ _ _ _ _ Hn).
  - intros a w Ha. cbn in sh_data0. destruct (sh_data0 a w) as [ax Hax].
    { by right. }
    destruct (decide (a = nx)) as [->|Hne]; [|exists ax; by rewrite lookup_insert_ne].
    exfalso. unfold owned in sh_nodup0. cbn in sh_nodup0.
    apply NoDup_app in sh_nodup0 as (_ & _ & Hnd). apply NoDup_cons in Hnd as [_ Hnd].
    apply NoDup_cons in Hnd as [Hnin _]. apply Hnin. rewrite <- fmap_app.
    by apply (list_elem_of_fmap_2 fst) in Ha.
  - rewrite sh_items0. cbn. by rewrite <- app_assoc.
  - change (((nx, x) :: L).*1) with (nx :: L.*1) in sh_prod0. by rewrite last_cons_default in sh_prod0.
Qed.

Lemma delete_shape s g G c L P k head' :
  shape s (g :: G) c L P -> consumer_ok k head' G c L ->
  (exists d, heap s !! g = Some (mkNode d (List.hd c G))) /\
  shape (mk (delete g (heap s)) head' (tail_ s) (prod s) k (published s) (popped s) (requested s)) G c L P.
Proof.
  intros Hs Hk. destruct Hs. unfold owned in sh_nodup0. cbn in sh_nodup0.
  apply NoDup_cons in sh_nodup0 as [Hg Hnd]. cbn in sh_seg0. destruct sh_seg0 as [[d Hd] Hseg].
  assert (Hgc : g ∉ G ++ c :: L.*1) by (intros Hin; by apply Hg, (elem_of_chain g G c L P)).
  split. { exists d. rewrite Hd. by destruct G. }
  split; cbn [heap head_ tail_ prod cons_ published popped]; try done.
  - intros H0. apply sh_null0. unfold owned in *. cbn. by right.
  - intros a. rewrite lookup_delete_is_Some, sh_dom0. unfold owned. cbn. rewrite elem_of_cons. split.
    + intros [Hne [->|?]]; [done|done].
    + intros Ha. split; [|by right]. intros ->. done.
  - by apply seg_delete_ne.
  - apply seg_delete_ne; [|done]. intros Hin. by apply Hg, (elem_of_batch g G c L P).
  - intros a w Ha. destruct (sh_data0 a w Ha) as [nx Hx]. exists nx.
    rewrite lookup_delete_ne; [done|]. intros ->. by apply Hg, (elem_of_items a w G c L P).
Qed.

Lemma set_cons_shape s G c L P k head' :
  shape s G c L P -> consumer_ok k head' G c L ->
  shape (mk (heap s) head' (tail_ s) (prod s) k (published s) (popped s) (requested s)) G c L P.
Proof. intros [] Hk. by split. Qed.

(** Steps the consumer's operation still needs, with [g] nodes to delete. *)
Definition work (k : consumer) (g : nat) : nat :=
  match k with
  | ConsumerIdle => 0
  | Popping => 4 | Found _ _ => 3 | Taken _ _ => 2 | Freeing _ => 1
  | Walking _ _ count max_count => 2 * (max_count - count) + count + 2
  | Deleting _ _ => g + 1
  end%nat.

(** Items the operation may still take. *)
Definition quota (k : consumer) : nat :=
  match k with
  | Popping | Found _ _ => 1
  | Walking _ _ count max_count => max_count - count
  | _ => 0
  end%nat.

(** The consumer's step is defined, keeps the shape, makes progress and does not
    change what the operation takes when nothing else is linked. *)
Definition advances (s : t) (g : nat) (L P : list (Z * T)) (r : result) : Prop :=
  exists s' G c L', r = Next s' /\ shape s' G c L' P /\ (work (cons_ s') (length G) < work (cons_ s) g)%nat /\
    popped s' ++ take (quota (cons_ s')) L'.*2 = popped s ++ take (quota (cons_ s)) L.*2.

Lemma walked_ok old curr count max_count s G c L P :
  shape s G c L P -> cons_ s = Walking old curr count max_count -> take (max_count - count) L.*2 = [] ->
  advances s (length G) L P (walked old curr count s).
Proof.
  intros Hs Ek Hq. pose proof (sh_cons _ _ _ _ _ Hs) as Hk. unfold advances. rewrite Ek in *. cbn [quota].
  rewrite Hq. destruct Hk as (Hh & -> & Hl & Hf). unfold walked. ifz.
  - eexists _, G, c, L. split; [reflexivity|]. split; [by apply set_cons_shape|]. split; [cbn; lia|done].
  - destruct G; cbn in Hl; [|lia]. eexists _, [], c, L. split; [reflexivity|].
    split; [|split; [cbn; lia|done]]. apply set_cons_shape; [done|]. cbn in *. split; [done|congruence].
Qed.

Lemma consumer_step_ok s G c L P :
  shape s G c L P -> cons_ s <> ConsumerIdle -> advances s (length G) L P (consumer_step s).
Proof.
  intros Hs Hidle. pose proof (sh_cons _ _ _ _ _ Hs) as Hk. unfold consumer_step.
  destruct (sentinel_node s G c L P Hs) as [d Hc].
  destruct (cons_ s) as [| |old nx|old nx|old|old curr count max_count|node last] eqn:Ek; cbn in Hk;
    [done|unfold advances; rewrite Ek..].
  - destruct Hk as [-> Hh]. rewrite Hh, Hc. cbn [next]. rewrite (next_null s [] c L P Hs).
    eexists _, [], c, L. split; [reflexivity|]. split; [|split; case_bool_decide as HL; cbn; [lia..| |done]].
    + case_bool_decide as HL; apply set_cons_shape; try done.
      destruct L as [|[a x] L]; [done|]. cbn. repeat split; try done. by exists x, L.
    + by rewrite HL.
  - destruct Hk as (-> & Hh & -> & x & L' & ->).
    destruct (move_out_shape s [] c nx x L' P (Taken c nx) c Hs) as (h & -> & Hs'); [done|].
    rewrite Hh. eexists _, [c], nx, L'. split; [reflexivity|]. split; [done|]. split; [cbn; lia|].
    cbn. by rewrite app_nil_r.
  - destruct Hk as (-> & Hh & ->). eexists _, [old], c, L. split; [reflexivity|].
    split; [by apply set_cons_shape|]. split; [cbn; lia|done].
  - destruct Hk as [-> Hh]. destruct (delete_shape s old [] c L P ConsumerIdle c Hs) as [[d' Hd'] Hs']; [done|].
    rewrite Hd'. eexists _, [], c, L. split; [reflexivity|]. split; [|split; [cbn; lia|done]].
    unfold set_cons. by rewrite Hh.
  - destruct Hk as (Hh & -> & Hl & Hf). pose proof (walked_ok _ _ _ _ _ _ _ _ _ Hs Ek) as Hw.
    unfold advances in Hw. rewrite Ek in Hw. ifz.
    { apply Hw. by replace (max_count - count)%nat with 0%nat by lia. }
    rewrite Hc. cbn [next]. rewrite (next_null s G c L P Hs). case_bool_decide as HL.
    { apply Hw. rewrite HL. apply take_nil. }
    destruct L as [|[a x] L]; [done|]. cbn [fmap list_fmap List.hd fst] in *.
    destruct (move_out_shape s G c a x L P (Walking old a (S count) max_count) old Hs) as (h & -> & Hs').
    { cbn. rewrite length_app. cbn. repeat split; [lia|]. by destruct G. }
    rewrite Hh. eexists _, (G ++ [c]), a, L. split; [reflexivity|]. split; [done|].
    rewrite length_app. cbn [work quota cons_ popped length snd]. split; [lia|].
    replace (max_count - count)%nat with (S (max_count - S count)) by lia. cbn. by rewrite <- app_assoc.
  - destruct Hk as (Hh & -> & Hf). ifz.
    + eexists _, [], c, L. split; [reflexivity|]. split; [|split; [cbn; lia|done]].
      destruct G as [|g G]; [by apply set_cons_shape|].
      exfalso. cbn in Hf. pose proof (sh_nodup _ _ _ _ _ Hs) as Hnd. unfold owned in Hnd. cbn in Hnd.
      apply NoDup_cons in Hnd as [Hnin _]. apply Hnin. apply elem_of_app. right.
      apply elem_of_cons. left. congruence.
    + destruct G as [|g G]; cbn in Hf; [congruence|]. subst g.
      destruct (delete_shape s node G c L P (Deleting (List.hd c G) c) c Hs) as [[d' Hd'] Hs']; [done|].
      rewrite Hd'. eexists _, G, c, L. split; [reflexivity|]. split; [|split; [cbn; lia|done]].
      unfold set_cons. by rewrite Hh.
Qed.

Lemma pop_begin_ok s G c L P : shape s G c L P -> preserved (pop_begin s).
Proof.
  intros Hs. pose proof (sh_cons _ _ _ _ _ Hs) as Hk. unfold pop_begin.
  destruct (cons_ s); try done. exists G, c, L, P. by apply set_cons_shape.
Qed.
Lemma pop_batch_begin_ok n s G c L P : shape s G c L P -> preserved (pop_batch_begin n s).
Proof.
  intros Hs. pose proof (sh_cons _ _ _ _ _ Hs) as Hk. unfold pop_batch_begin.
  destruct (cons_ s); try done. cbn in Hk. destruct Hk as [-> Hh].
  exists [], c, L, P. apply set_cons_shape; [done|]. by rewrite Hh.
Qed.

Lemma kept_preserved s G c r : kept s G c r -> preserved r.
Proof. destruct r; cbn; [|done..]. intros (L & P & Hs & _). by exists G, c, L, P. Qed.

Lemma queue_step_ok e s G c L P : shape s G c L P -> preserved (step e s).
Proof.
  intros Hs. destruct e; cbn [step].
  - eapply kept_preserved. by eapply push_begin_ok.
  - eapply kept_preserved. by eapply producer_step_ok.
  - by eapply pop_begin_ok.
  - by eapply pop_batch_begin_ok.
  - destruct (decide (cons_ s = ConsumerIdle)) as [E|E].
    + unfold consumer_step. by rewrite E.
    + destruct (consumer_step_ok s G c L P Hs E) as (s' & G' & c' & L' & -> & Hs' & _). by exists G', c', L', P.
Qed.

Lemma reachable_shape s : reachable s -> exists G c L P, shape s G c L P.
Proof.
  induction 1 as [dummy Hd|e s s' Hr (G & c & L & P & Hs) He].
  - exists [], dummy, [], []. by apply create_shape.
  - pose proof (queue_step_ok e s G c L P Hs) as Hp. by rewrite He in Hp.
Qed.

(** * What the queue holds *)

(** The items found by following [next] from the sentinel at [a]. *)
Fixpoint contents (fuel : nat) (a : Z) (h : gmap Z node) : option (list T) :=
  match fuel with
  | O => None
  | S k =>
      n ← h !! a;
      if next n =? 0 then Some []
      else
        m ← h !! next n; x ← data m; l ← contents k (next n) h; Some (x :: l)
  end.

Lemma contents_S k a h :
  contents (S k) a h =
    (n ← h !! a;
     if next n =? 0 then Some []
     else m ← h !! next n; x ← data m; l ← contents k (next n) h; Some (x :: l)).
Proof. done. Qed.

Lemma contents_shape s G c L P : shape s G c L P -> contents (S (length L)) c (heap s) = Some L.*2.
Proof.
  intros Hs. pose proof (sh_seg _ _ _ _ _ Hs) as Hg. rewrite seg_app in Hg. destruct Hg as [_ Hg].
  assert (Hd : holds (heap s) L).
  { intros a x Hx. apply (sh_data _ _ _ _ _ Hs). apply elem_of_app. by left. }
  assert (H0 : 0 ∉ L.*1).
  { intros H0. apply (sh_null _ _ _ _ _ Hs). unfold owned. rewrite elem_of_app, elem_of_cons, elem_of_app. tauto. }
  clear Hs. revert c Hg. induction L as [|[a x] L IH]; intros c Hg.
  - cbn in Hg. destruct Hg as [[d Hc] _]. cbn. by rewrite Hc.
  - cbn [fmap list_fmap] in Hg, H0. destruct Hg as [[d Hc] Hg]. cbn [List.hd fst] in Hc.
    destruct (Hd a x) as [nx Ha]; [by left|].
    assert (a <> 0) by (intros ->; apply H0; by left).
    specialize (IH (fun b y Hb => Hd b y (list_elem_of_further _ _ _ Hb))
              (fun Hin => H0 (list_elem_of_further _ _ _ Hin)) a Hg).
    rewrite contents_S, Hc. cbn [mbind option_bind next]. ifz; [lia|].
    rewrite Ha. cbn [mbind option_bind data]. change (length ((a, x) :: L)) with (S (length L)). by rewrite IH.
Qed.

Lemma destroy_shape s c L : shape s [] c L [] -> destroy (S (length L)) c (heap s) = Some ∅.
Proof.
  assert (Hgen : forall l (h : gmap Z node), NoDup l -> 0 ∉ l -> (forall a, is_Some (h !! a) <-> a ∈ l) ->
    seg h l 0 -> destroy (length l) (List.hd 0 l) h = Some ∅).
  { induction l as [|a l IH]; intros h Hnd H0 Hdom Hs; cbn.
    - f_equal. apply map_empty. intros a. apply eq_None_not_Some. rewrite Hdom. apply not_elem_of_nil.
    - apply NoDup_cons in Hnd as [Hn Hnd]. rewrite not_elem_of_cons in H0. destruct H0 as [Ha H0].
      destruct Hs as [[d Hd] Hs]. ifz; [lia|]. rewrite Hd. cbn [mbind option_bind next].
      apply IH; [done|done| |by apply seg_delete_ne].
      intros b. rewrite lookup_delete_is_Some, Hdom, elem_of_cons. split; [naive_solver|].
      intros Hb. split; [|by right]. by intros ->. }
  intros [Hnd H0 Hdom Hs _ _ _ _ _ _]. unfold owned in Hnd, H0, Hdom. cbn in Hnd, H0, Hdom, Hs.
  rewrite app_nil_r in Hnd, H0. replace (S (length L)) with (length (c :: L.*1)) by (cbn; by rewrite length_fmap).
  apply (Hgen (c :: L.*1)); [done|done| |done]. intros a. by rewrite Hdom, app_nil_r.
Qed.


(** * Termination of the consumer's operations *)

Definition is_consumer_step (e : event) : bool := match e with ConsumerStep => true | _ => false end.
Definition is_call (e : event) : bool := match e with Pop | PopBatch _ => true | _ => false end.


Lemma producer_event_shape e s G c L P :
  shape s G c L P -> is_call e = false -> is_consumer_step e = false -> kept s G c (step e s).
Proof.
  intros Hs Hc Hk. destruct e; try done; cbn [step]; [by eapply push_begin_ok|by eapply producer_step_ok].
Qed.

(** With enough steps of the consumer, in any interleaving with the producer,
    the operation under way returns. *)
Lemma consumer_returns es s G c L P :
  shape s G c L P -> Forall (fun e => is_call e = false) es ->
  (work (cons_ s) (length G) <= length (filter is_consumer_step es))%nat ->
  exists s' G' c' L' P', run es s = Some s' /\ cons_ s' = ConsumerIdle /\ shape s' G' c' L' P'.
Proof.
  intros Hs Hc. revert s G c L P Hs. induction Hc as [|e es He Hc IH]; intros s G c L P Hs Hw.
  - cbn in Hw. exists s, G, c, L, P. split; [done|]. split; [|done].
    destruct (cons_ s); cbn in Hw; try lia; done.
  - cbn [run]. destruct (is_consumer_step e) eqn:Ek.
    + destruct e; try done. rewrite filter_cons_True in Hw by done. cbn [step length] in *.
      destruct (decide (cons_ s = ConsumerIdle)) as [Ei|Ei].
      * unfold consumer_step. rewrite Ei. eapply IH; [done|]. rewrite Ei. cbn. lia.
      * destruct (consumer_step_ok s G c L P Hs Ei) as (s1 & G1 & c1 & L1 & -> & Hs1 & Hw1 & _).
        eapply IH; [done|]. lia.
    + rewrite filter_cons_False in Hw by (rewrite Ek; intros H; by inversion H).
      pose proof (producer_event_shape e s G c L P Hs He Ek) as Hp.
      destruct (step e s) as [s1| |]; [|done|by eapply IH].
      destruct Hp as (L1 & P1 & Hs1 & Hk1 & _). eapply IH; [done|]. by rewrite Hk1.
Qed.

(** Alone, it takes the oldest linked items it asked for. *)
Lemma consumer_alone m s G c L P :
  shape s G c L P -> (work (cons_ s) (length G) <= m)%nat ->
  exists s', run (replicate m ConsumerStep) s = Some s' /\ cons_ s' = ConsumerIdle /\
    popped s' = popped s ++ take (quota (cons_ s)) L.*2.
Proof.
  revert s G c L. induction m as [|m IH]; intros s G c L Hs Hw; cbn.
  - exists s. split; [done|]. destruct (cons_ s); cbn in Hw |- *; try lia. by rewrite app_nil_r.
  - destruct (decide (cons_ s = ConsumerIdle)) as [Ei|Ei].
    + unfold consumer_step. rewrite Ei. destruct (IH s G c L Hs) as (s' & E & H1 & H2); [rewrite Ei; cbn; lia|].
      exists s'. split; [done|]. by rewrite Ei in H2.
    + destruct (consumer_step_ok s G c L P Hs Ei) as (s1 & G1 & c1 & L1 & -> & Hs1 & Hw1 & Hq).
      destruct (IH s1 G1 c1 L1 Hs1) as (s' & E & H1 & H2); [lia|]. exists s'. by rewrite H2, Hq.
Qed.

End LockFreeQueue.
Arguments t : clear implicits.
Arguments event : clear implicits.

(** C8. Whatever one producer and one consumer do, in any interleaving of
    their memory accesses and with any reuse of addresses by [new], no step
    dereferences or deletes a node that is not allocated; the items taken are a
    prefix of the items pushed, in order, and between two operations of the
    consumer the rest is exactly what the list from [head_] holds, [empty]
    telling whether it is nothing. *)
Theorem spsc_queue_safe_fifo {T} (s : t T) :
  reachable s ->
  (forall e, step e s <> Undefined) /\
  exists pending, published s = popped s ++ pending /\ requested s = published s ++ unlinked (prod s) /\
    (cons_ s = ConsumerIdle ->
       contents (S (length pending)) (head_ s) (heap s) = Some pending /\
       empty s = Some (bool_decide (pending = []))).
Proof.
  intros Hr. destruct (reachable_shape s Hr) as (G & c & L & P & Hs). split.
  - intros e. pose proof (queue_step_ok e s G c L P Hs) as Hp. by destruct (step e s).
  - exists L.*2. split; [apply (sh_items _ _ _ _ _ Hs)|]. split; [apply (sh_requested _ _ _ _ _ Hs)|].
    intros Hi. pose proof (sh_cons _ _ _ _ _ Hs) as Hk. rewrite Hi in Hk. destruct Hk as [-> Hh].
    rewrite length_fmap, Hh. split; [by eapply contents_shape|].
    unfold empty. rewrite Hh. destruct (sentinel_node s [] c L P Hs) as [d ->]. cbn [mbind option_bind next].
    rewrite (next_null s [] c L P Hs). f_equal. apply bool_decide_ext. by destruct L.
Qed.

(** [pop] needs at most 4 steps of its thread and [pop_batch(n)] at
    most [2n + 2], whatever the producer does meanwhile: the consumer never
    waits. *)
Theorem consumer_wait_free {T} (s : t T) call bound es :
  reachable s -> cons_ s = ConsumerIdle ->
  (call = Pop /\ bound = 4%nat) \/ (exists n, call = PopBatch n /\ bound = (2 * n + 2)%nat) ->
  Forall (fun e => is_call e = false) es -> (bound <= length (filter is_consumer_step es))%nat ->
  exists s', run (call :: es) s = Some s' /\ cons_ s' = ConsumerIdle.
Proof.
  intros Hr Hi Hb Hc Hw. destruct (reachable_shape s Hr) as (G & c & L & P & Hs).
  pose proof (sh_cons _ _ _ _ _ Hs) as Hk. rewrite Hi in Hk. destruct Hk as [-> Hh].
  assert (exists k, step call s = Next (set_cons (heap s) k s) /\ consumer_ok k (head_ s) [] c L /\ work k 0 = bound)
    as (k & E & Hok & Hwk).
  { destruct Hb as [[-> ->]|(n & -> & ->)]; cbn [step]; unfold pop_begin, pop_batch_begin; rewrite Hi;
      eexists; (split; [reflexivity|]); cbn; (split; [by rewrite ?Hh|lia]). }
  cbn [run]. rewrite E.
  destruct (consumer_returns es (set_cons (heap s) k s) [] c L P) as (s' & ? & ? & ? & ? & E' & Hi' & _);
    [by apply set_cons_shape|done|cbn; lia|]. by exists s'.
Qed.

(** With the producer at rest, [pop_batch(n)] delivers the [n]
    oldest pending items (all of them if there are fewer) and [pop] the oldest
    one. *)
Theorem pop_batch_takes_oldest {T} (s : t T) pending n m :
  reachable s -> cons_ s = ConsumerIdle -> published s = popped s ++ pending ->
  ((2 * n + 2 <= m)%nat -> exists s', run (PopBatch n :: replicate m ConsumerStep) s = Some s' /\
     cons_ s' = ConsumerIdle /\ popped s' = popped s ++ take n pending) /\
  ((4 <= m)%nat -> exists s', run (Pop :: replicate m ConsumerStep) s = Some s' /\
     cons_ s' = ConsumerIdle /\ popped s' = popped s ++ take 1 pending).
Proof.
  intros Hr Hi Hp. destruct (reachable_shape s Hr) as (G & c & L & P & Hs).
  pose proof (sh_cons _ _ _ _ _ Hs) as Hk. rewrite Hi in Hk. destruct Hk as [-> Hh].
  rewrite (sh_items _ _ _ _ _ Hs) in Hp. apply app_inv_head in Hp as <-.
  split; intros Hm; cbn [run step]; unfold pop_begin, pop_batch_begin; rewrite Hi.
  - destruct (consumer_alone m (set_cons (heap s) (Walking (head_ s) (head_ s) 0 n) s) [] c L P) as (s' & E & H1 & H2);
      [by apply set_cons_shape; [|rewrite Hh]|cbn; lia|].
    exists s'. split; [done|]. split; [done|]. rewrite H2. cbn. by rewrite Nat.sub_0_r.
  - destruct (consumer_alone m (set_cons (heap s) Popping s) [] c L P) as (s' & E & H1 & H2);
      [by apply set_cons_shape|cbn; lia|]. by exists s'.
Qed.

(** Once both threads are done the destructor frees every node, each
    once: nothing leaks. *)
Theorem destructor_frees_everything {T} (s : t T) :
  reachable s -> prod s = ProducerIdle -> cons_ s = ConsumerIdle ->
  exists fuel, destroy fuel (head_ s) (heap s) = Some ∅.
Proof.
  intros Hr Hp Hc. destruct (reachable_shape s Hr) as (G & c & L & P & Hs).
  pose proof (sh_cons _ _ _ _ _ Hs) as Hk. rewrite Hc in Hk. destruct Hk as [-> ->].
  pose proof (sh_prod _ _ _ _ _ Hs) as Hk. rewrite Hp in Hk. destruct Hk as [-> _].
  exists (S (length L)). by apply destroy_shape.
Qed.

Lemma run_reachable {T} es (s s' : t T) : reachable s -> run es s = Some s' -> reachable s'.
Proof.
  revert s. induction es as [|e es IH]; intros s Hr; cbn; [by intros [= <-]|].
  destruct (step e s) as [s1| |] eqn:E; [|done|by apply IH].
  apply IH. by apply (reach_step e s).
Qed.

(** A batch of three pushed while the consumer takes two, then a push that
    reuses the address of the deleted sentinel. *)
Definition demo_events : list (event nat) :=
  [Push 2 10%nat [20; 30]%nat; ProducerStep 3; ProducerStep 4; PopBatch 1; ProducerStep 0; ConsumerStep;
   ProducerStep 0; PopBatch 2; ConsumerStep; ProducerStep 0; ConsumerStep; ConsumerStep; ConsumerStep;
   ConsumerStep; ConsumerStep; Push 1 40%nat []; ProducerStep 0; ProducerStep 0; ProducerStep 0].
Definition demo : t nat := default (create 1) (run demo_events (create 1)).

Lemma demo_reachable : reachable demo.
Proof. apply (run_reachable demo_events (create 1)); [by constructor|by vm_compute]. Qed.

Example demo_takes_two :
  popped demo = [10; 20]%nat /\ contents 3 (head_ demo) (heap demo) = Some [30; 40]%nat /\
  prod demo = ProducerIdle /\ cons_ demo = ConsumerIdle.
Proof. by vm_compute. Qed.

Lemma spsc_queue_safe_fifo_witness :
  (forall e, step e demo <> Undefined) /\
  exists pending, published demo = popped demo ++ pending /\
    requested demo = published demo ++ unlinked (prod demo) /\
    (cons_ demo = ConsumerIdle ->
       contents (S (length pending)) (head_ demo) (heap demo) = Some pending /\
       empty demo = Some (bool_decide (pending = []))).
Proof. exact (spsc_queue_safe_fifo demo demo_reachable). Defined.

Lemma consumer_wait_free_witness :
  exists s', run (PopBatch 1 :: [ConsumerStep; Push 7 50%nat []; ConsumerStep; ProducerStep 0; ConsumerStep;
                                 ConsumerStep]) demo = Some s' /\ cons_ s' = ConsumerIdle.
Proof.
  apply (consumer_wait_free demo (PopBatch 1) 4 [ConsumerStep; Push 7 50%nat []; ConsumerStep; ProducerStep 0;
    ConsumerStep; ConsumerStep] demo_reachable).
  - by vm_compute.
  - right. by exists 1%nat.
  - by repeat constructor.
  - vm_compute. lia.
Defined.

Lemma pop_batch_takes_oldest_witness :
  ((2 * 5 + 2 <= 12)%nat -> exists s', run (PopBatch 5 :: replicate 12 ConsumerStep) demo = Some s' /\
     cons_ s' = ConsumerIdle /\ popped s' = popped demo ++ take 5 [30; 40]%nat) /\
  ((4 <= 12)%nat -> exists s', run (Pop :: replicate 12 ConsumerStep) demo = Some s' /\
     cons_ s' = ConsumerIdle /\ popped s' = popped demo ++ take 1 [30; 40]%nat).
Proof. apply (pop_batch_takes_oldest demo [30; 40]%nat 5 12 demo_reachable); by vm_compute. Defined.

Lemma destructor_frees_everything_witness :
  exists fuel, destroy fuel (head_ demo) (heap demo) = Some ∅.
Proof. apply (destructor_frees_everything demo demo_reachable); by vm_compute. Defined.
End LockFreeQueue.
