(* ===== verification/Callbacks.v ===== *)
(** The callback registry (callback/include/callback/callback.h, client_context.h and
    callback/source/callback.cpp).

    Every method of [CallbackStrategyManager] holds [callback_registry_mutex_]
    while it touches the table, so each access is one transition. [F] and [G]
    are the function pointers of the two callbacks; what they do is a parameter.
    A callback runs outside the lock and may call the registry, so it also maps
    the table to a new one. A pointer argument is an [option]. *)

From S2P Require Import Prelude.

Module Callback.

Definition CALLBACK_MAX_STRATEGY_NAME_LENGTH : Z := 1024.
Definition CALLBACK_SUCCESS : Z := 0.
Definition CALLBACK_ERR_PORT_EXISTS : Z := -1.
Definition CALLBACK_ERR_PORT_NOT_FOUND : Z := -2.
Definition CALLBACK_ERR_STRATEGY_NOT_FOUND : Z := -3.
Definition CALLBACK_ERR_INVALID_PARAM : Z := -4.
Definition CALLBACK_ERR_CALLBACK_EXCEPTION : Z := -5.

Record ClientContext := mkContext {
  connection_id : Z;
  client_ip : option bytes;
  client_port : Z;
  server_port : Z;
  token : option bytes;
}.

Section Callback.
Context {F G : Type}.

(** [name] is the C string pointed to, without its terminator. *)
Record CallbackStrategy := mkStrategy {
  name : option bytes;
  port : Z;
  parse : option F;
  reply : option G;
}.

(** [callback_map_], each entry a copy of the strategy registered. *)
Local Abbreviation t := (gmap Z CallbackStrategy).
Definition create : t := ∅.

(** [strnlen]. *)
Definition strnlen (s : bytes) (n : Z) : Z := Z.min (blen s) n.

Definition validate_strategy (strategy : option CallbackStrategy) : bool :=
  match strategy with
  | None => false
  | Some s =>
      match name s with
      | None => false
      | Some nm =>
          let name_len := strnlen nm CALLBACK_MAX_STRATEGY_NAME_LENGTH in
          if (name_len =? 0) || (CALLBACK_MAX_STRATEGY_NAME_LENGTH <=? name_len) then false
          else if port s =? 0 then false
          else
            match parse s, reply s with
            | Some _, Some _ => true
            | _, _ => false
            end
      end
  end.

Definition register_callback (strategy : option CallbackStrategy) (m : t) : t * Z :=
  if negb (validate_strategy strategy) then (m, CALLBACK_ERR_INVALID_PARAM)
  else
    match strategy with
    | None => (m, CALLBACK_ERR_INVALID_PARAM)
    | Some s =>
        match m !! port s with
        | Some _ => (m, CALLBACK_ERR_PORT_EXISTS)
        | None => (<[port s := s]> m, CALLBACK_SUCCESS)
        end
    end.

Definition get_callback (p : Z) (m : t) : option CallbackStrategy := m !! p.

Definition deregister_callback (p : Z) (m : t) : t * Z :=
  match m !! p with
  | None => (m, CALLBACK_ERR_PORT_NOT_FOUND)
  | Some _ => (delete p m, CALLBACK_SUCCESS)
  end.

Definition clear (m : t) : t := ∅.
Definition get_callback_count (m : t) : Z := Z.of_nat (size m).

(** What a callback does: [None] when it throws. [run_reply] also gives the
    output buffer and the length it left behind. *)
Variable run_parse : F -> ClientContext -> option bytes -> Z -> t -> t * option Z.
Variable run_reply : G -> ClientContext -> bytes -> Z -> t -> t * bytes * Z * option Z.

Definition is_null {A} (p : option A) : bool := match p with None => true | Some _ => false end.

(** [out_result] is the value it points to, null or not. *)
Definition validate_parse_invoke_params (ctx : option ClientContext) (input : option bytes)
    (inLen : Z) (out_result : option Z) : bool :=
  if is_null ctx then false
  else if (0 <? inLen) && is_null input then false
  else negb (is_null out_result).

Definition validate_reply_invoke_params (ctx : option ClientContext) (out : option bytes)
    (outLen : option Z) (out_result : option Z) : bool :=
  negb (is_null ctx) && negb (is_null out) && negb (is_null outLen) && negb (is_null out_result).

(** The table, [*out_result] and the code; undefined if the function pointer is
    null. *)
Definition invoke_parse_callback (p : Z) (ctx : option ClientContext) (input : option bytes)
    (inLen : Z) (out_result : option Z) (m : t) : option (t * option Z * Z) :=
  if negb (validate_parse_invoke_params ctx input inLen out_result)
  then Some (m, out_result, CALLBACK_ERR_INVALID_PARAM)
  else
    match m !! p with
    | None => Some (m, out_result, CALLBACK_ERR_STRATEGY_NOT_FOUND)
    | Some s =>
        f ← parse s; c ← ctx;
        match run_parse f c input inLen m with
        | (m', Some r) => Some (m', Some r, CALLBACK_SUCCESS)
        | (m', None) => Some (m', Some 0, CALLBACK_ERR_CALLBACK_EXCEPTION)
        end
    end.

(** The table, [out], [*outLen], [*out_result] and the code. *)
Definition invoke_reply_callback (p : Z) (ctx : option ClientContext) (out : option bytes)
    (outLen : option Z) (out_result : option Z) (m : t)
    : option (t * option bytes * option Z * option Z * Z) :=
  if negb (validate_reply_invoke_params ctx out outLen out_result)
  then Some (m, out, outLen, out_result, CALLBACK_ERR_INVALID_PARAM)
  else
    match m !! p with
    | None => Some (m, out, outLen, out_result, CALLBACK_ERR_STRATEGY_NOT_FOUND)
    | Some s =>
        g ← reply s; c ← ctx; b ← out; n ← outLen;
        match run_reply g c b n m with
        | (m', b', n', Some r) => Some (m', Some b', Some n', Some r, CALLBACK_SUCCESS)
        | (m', b', _, None) => Some (m', Some b', Some 0, Some 0, CALLBACK_ERR_CALLBACK_EXCEPTION)
        end
    end.

(** * The C interface: the registry pointer may be null *)

Definition callback_registry_register_strategy (r : option t) (s : option CallbackStrategy) : option t * Z :=
  match r with
  | None => (None, CALLBACK_ERR_INVALID_PARAM)
  | Some m => let '(m', code) := register_callback s m in (Some m', code)
  end.

(** [out_strategy] is the structure the caller passed, null or not. *)
Definition callback_registry_get_strategy_copy (r : option t) (p : Z)
    (out_strategy : option CallbackStrategy) : option CallbackStrategy * Z :=
  match r, out_strategy with
  | Some m, Some _ =>
      match get_callback p m with
      | None => (out_strategy, CALLBACK_ERR_STRATEGY_NOT_FOUND)
      | Some s => (Some s, CALLBACK_SUCCESS)
      end
  | _, _ => (out_strategy, CALLBACK_ERR_INVALID_PARAM)
  end.

Definition callback_registry_deregister_strategy (r : option t) (p : Z) : option t * Z :=
  match r with
  | None => (None, CALLBACK_ERR_INVALID_PARAM)
  | Some m => let '(m', code) := deregister_callback p m in (Some m', code)
  end.

Definition callback_registry_get_strategy (r : option t) (p : Z) : option CallbackStrategy :=
  m ← r; get_callback p m.

Definition callback_registry_invoke_parse_callback (r : option t) (p : Z) (ctx : option ClientContext)
    (input : option bytes) (inLen : Z) (out_result : option Z) : option (option t * option Z * Z) :=
  match r with
  | None => Some (None, out_result, CALLBACK_ERR_INVALID_PARAM)
  | Some m =>
      '(m', o, code) ← invoke_parse_callback p ctx input inLen out_result m; Some (Some m', o, code)
  end.

Definition callback_registry_invoke_reply_callback (r : option t) (p : Z) (ctx : option ClientContext)
    (out : option bytes) (outLen out_result : option Z)
    : option (option t * option bytes * option Z * option Z * Z) :=
  match r with
  | None => Some (None, out, outLen, out_result, CALLBACK_ERR_INVALID_PARAM)
  | Some m =>
      '(m', b, n, o, code) ← invoke_reply_callback p ctx out outLen out_result m;
      Some (Some m', b, n, o, code)
  end.

(** * The table under any calls *)

(** The calls that change the table. *)
Inductive table_op := Register (s : option CallbackStrategy) | Deregister (p : Z) | Clear.
Definition table_step (m : t) (o : table_op) : t :=
  match o with
  | Register s => fst (register_callback s m)
  | Deregister p => fst (deregister_callback p m)
  | Clear => clear m
  end.

(** A callback reaches the table through these calls only. *)
Definition callbacks_use_api : Prop :=
  (forall f c i n m, exists os, fst (run_parse f c i n m) = foldl table_step m os) /\
  (forall g c b n m, exists os, fst (fst (fst (run_reply g c b n m))) = foldl table_step m os).

Inductive op :=
| Table (o : table_op)
| InvokeParse (p : Z) (ctx : option ClientContext) (input : option bytes) (inLen : Z) (out : option Z)
| InvokeReply (p : Z) (ctx : option ClientContext) (out : option bytes) (outLen out_result : option Z).
Definition run_op (m : t) (o : op) : option t :=
  match o with
  | Table o => Some (table_step m o)
  | InvokeParse p ctx i n out => '(m', _, _) ← invoke_parse_callback p ctx i n out m; Some m'
  | InvokeReply p ctx b n out => '(m', _, _, _, _) ← invoke_reply_callback p ctx b n out m; Some m'
  end.
Definition run_ops (m : t) (os : list op) : option t := foldl (fun m o => m ← m; run_op m o) (Some m) os.

(** Every entry is a valid strategy stored under its own port. *)
Definition inv (m : t) : Prop :=
  forall p s, m !! p = Some s -> port s = p /\ validate_strategy (Some s) = true.

Lemma create_table_inv : inv create.
Proof. intros p s H. unfold create in H. by rewrite lookup_empty in H. Qed.

Lemma table_step_inv m o : inv m -> inv (table_step m o).
Proof.
  intros Hi. destruct o as [s|p|]; cbn [table_step].
  - unfold register_callback. destruct (validate_strategy s) eqn:Ev; [|done]. cbn [negb].
    destruct s as [s|]; [|done]. destruct (m !! port s) eqn:Ep; [done|]. cbn.
    intros p s'. rewrite lookup_insert_Some. intros [[<- <-]|[_ H]]; [done|by apply Hi].
  - unfold deregister_callback. destruct (m !! p); [|done]. cbn. intros q s.
    rewrite lookup_delete_Some. intros [_ H]. by apply Hi.
  - apply create_table_inv.
Qed.

Lemma table_steps_inv os m : inv m -> inv (foldl table_step m os).
Proof. revert m. induction os as [|o os IH]; intros m Hi; cbn; [done|]. by apply IH, table_step_inv. Qed.

Lemma valid_functions s : validate_strategy (Some s) = true ->
  exists f g, parse s = Some f /\ reply s = Some g.
Proof.
  unfold validate_strategy. destruct (name s); [|done]. intros H.
  destruct (_ || _)%bool; [done|]. destruct (port s =? 0); [done|].
  destruct (parse s), (reply s); try done. by eexists _, _.
Qed.

Lemma run_callback_op_inv m o : callbacks_use_api -> inv m -> exists m', run_op m o = Some m' /\ inv m'.
Proof.
  intros [Hp Hr] Hi. destruct o as [o|p ctx i n out|p ctx b n out]; cbn [run_op].
  - eexists. split; [reflexivity|]. by apply table_step_inv.
  - unfold invoke_parse_callback. destruct (validate_parse_invoke_params ctx i n out) eqn:Ev;
      cbn [negb mbind option_bind]; [|by exists m].
    destruct (m !! p) as [s|] eqn:Es; [|by exists m].
    destruct (Hi p s Es) as [_ Hv]. destruct (valid_functions s Hv) as (f & g & -> & _).
    destruct ctx as [c|]; [|done]. cbn [mbind option_bind].
    destruct (Hp f c i n m) as [os Ho]. destruct (run_parse f c i n m) as [m' [r|]]; cbn in *;
      exists m'; split; try done; rewrite Ho; by apply table_steps_inv.
  - unfold invoke_reply_callback. destruct (validate_reply_invoke_params ctx b n out) eqn:Ev;
      cbn [negb mbind option_bind]; [|by exists m].
    destruct (m !! p) as [s|] eqn:Es; [|by exists m].
    destruct (Hi p s Es) as [_ Hv]. destruct (valid_functions s Hv) as (f & g & _ & ->).
    unfold validate_reply_invoke_params in Ev.
    destruct ctx as [c|], b as [b|], n as [n|]; try done. cbn [mbind option_bind].
    destruct (Hr g c b n m) as [os Ho]. destruct (run_reply g c b n m) as [[[m' b'] n'] [r|]]; cbn in *;
      exists m'; split; try done; rewrite Ho; by apply table_steps_inv.
Qed.

End Callback.
Arguments CallbackStrategy : clear implicits.
Arguments op : clear implicits.
Arguments table_op : clear implicits.
Abbreviation t F G := (gmap Z (CallbackStrategy F G)).

(** C29. Whatever is registered, deregistered and invoked, also from
    inside the callbacks, no null function pointer is ever called, and every
    entry of the table is a valid strategy stored under its own port. *)
Theorem callback_table_sound {F G} run_parse run_reply (os : list (op F G)) :
  callbacks_use_api run_parse run_reply ->
  exists m, run_ops run_parse run_reply create os = Some m /\ inv m.
Proof.
  intros Ha. unfold run_ops.
  assert (Hgen : forall m0, inv m0 -> exists m, foldl (fun m o => m ← m; run_op run_parse run_reply m o) (Some m0) os = Some m /\ inv m).
  { induction os as [|o os IH]; intros m0 Hi; cbn; [by exists m0|].
    destruct (run_callback_op_inv run_parse run_reply m0 o Ha Hi) as (m1 & -> & Hi1). by apply IH. }
  apply Hgen, create_table_inv.
Qed.

(** Registration is refused with -4 exactly for a null strategy, a
    name that is null, empty or of 1024 bytes and more, port 0 or a missing
    function, and otherwise with -1 exactly when the port is taken; in both
    cases nothing changes. Otherwise only that port's entry changes. *)
Theorem callback_register_codes {F G} (s : CallbackStrategy F G) m :
  let '(m', code) := register_callback (Some s) m in
  (code = CALLBACK_ERR_INVALID_PARAM /\ m' = m /\
     (name s = None \/ (exists nm, name s = Some nm /\ (nm = [] \/ 1024 <= blen nm)) \/ port s = 0 \/
      parse s = None \/ reply s = None)) \/
  ((exists nm f g, name s = Some nm /\ 0 < blen nm < 1024 /\ parse s = Some f /\ reply s = Some g) /\
   port s <> 0 /\
   ((code = CALLBACK_ERR_PORT_EXISTS /\ m' = m /\ is_Some (m !! port s)) \/
    (code = CALLBACK_SUCCESS /\ m !! port s = None /\ get_callback (port s) m' = Some s /\
     forall q, q <> port s -> get_callback q m' = get_callback q m))).
Proof.
  unfold register_callback, validate_strategy, strnlen, CALLBACK_MAX_STRATEGY_NAME_LENGTH, get_callback.
  destruct (name s) as [nm|]; cbn [negb]; [|left; repeat split; by left].
  pose proof (blen_nonneg nm) as Hnn.
  destruct ((Z.min (blen nm) 1024 =? 0) || (1024 <=? Z.min (blen nm) 1024))%bool eqn:El; cbn [negb].
  { left. repeat split. right. left. exists nm. split; [done|].
    apply orb_true_iff in El as [El|El]; zb; [left; apply blen_0_nil; lia|right; lia]. }
  zb. destruct (port s =? 0) eqn:Ep; zb; cbn [negb]; [left; repeat split; tauto|].
  destruct (parse s) as [f|]; cbn [negb]; [|left; repeat split; tauto].
  destruct (reply s) as [g|]; cbn [negb]; [|left; repeat split; tauto].
  assert (Hok : exists nm0 f0 g0, Some nm = Some nm0 /\ 0 < blen nm0 < 1024 /\ Some f = Some f0 /\ Some g = Some g0)
    by (exists nm, f, g; repeat split; lia).
  destruct (m !! port s) eqn:Em; right; (split; [done|]); (split; [done|]).
  - left. repeat split. by eexists.
  - right. repeat split; [by rewrite lookup_insert_eq|]. intros q Hq. by rewrite lookup_insert_ne.
Qed.

(** Invoking the parse callback of a registered port runs the
    function that was registered there, on the caller's data, and gives back its
    result (0 and -5 when it throws); what the callback itself does to the
    table, its own entry included, does not matter. *)
Theorem callback_invoked {F G} run_parse run_reply (m : t F G) p c input inLen r0 s f :
  callbacks_use_api run_parse run_reply -> inv m ->
  m !! p = Some s -> parse s = Some f -> (0 < inLen -> input <> None) ->
  exists m', invoke_parse_callback run_parse p (Some c) input inLen (Some r0) m =
    Some (m', Some (default 0 (snd (run_parse f c input inLen m))),
          match snd (run_parse f c input inLen m) with
          | Some _ => CALLBACK_SUCCESS
          | None => CALLBACK_ERR_CALLBACK_EXCEPTION
          end) /\ inv m'.
Proof.
  intros [Hp _] Hi Hs Hf Hin. unfold invoke_parse_callback.
  assert (validate_parse_invoke_params (Some c) input inLen (Some r0) = true) as ->.
  { unfold validate_parse_invoke_params. cbn. destruct (0 <? inLen) eqn:E; zb; [|done].
    destruct input; [done|]. by destruct (Hin E). }
  cbn [negb]. rewrite Hs, Hf. cbn [mbind option_bind].
  destruct (Hp f c input inLen m) as [os Ho].
  destruct (run_parse f c input inLen m) as [m' [r|]]; cbn in *; exists m'; (split; [done|]);
    rewrite Ho; by apply table_steps_inv.
Qed.

(** Callback 0 throws, callback 1 removes its own entry, the others answer the
    input's length. *)
Definition demo_parse (f : nat) (c : ClientContext) (i : option bytes) (n : Z) (m : t nat nat)
    : t nat nat * option Z :=
  match f with
  | 0%nat => (m, None)
  | 1%nat => (fst (deregister_callback (server_port c) m), Some 1)
  | _ => (m, Some n)
  end.
Definition demo_reply (g : nat) (c : ClientContext) (b : bytes) (n : Z) (m : t nat nat)
    : t nat nat * bytes * Z * option Z := (m, str "OK", 2, Some 0).
Definition demo_context : ClientContext := mkContext 1 (Some (str "10.0.0.1")) 40000 8443 None.
Definition demo_strategy (f : nat) : CallbackStrategy nat nat := mkStrategy (Some (str "echo")) 8443 (Some f) (Some 0%nat).

Lemma demo_uses_api : callbacks_use_api demo_parse demo_reply.
Proof.
  split.
  - intros [|[|f]] c i n m; [by exists []| |by exists []]. by exists [Deregister (server_port c)].
  - intros g c b n m. by exists [].
Qed.

Lemma callback_table_sound_witness :
  exists m, run_ops demo_parse demo_reply create
    [Table (Register (Some (demo_strategy 1))); InvokeParse 8443 (Some demo_context) None 0 (Some 7);
     InvokeReply 8443 (Some demo_context) (Some []) (Some 0) (Some 0)] = Some m /\ inv m.
Proof.
  exact (callback_table_sound demo_parse demo_reply
    [Table (Register (Some (demo_strategy 1))); InvokeParse 8443 (Some demo_context) None 0 (Some 7);
     InvokeReply 8443 (Some demo_context) (Some []) (Some 0) (Some 0)] demo_uses_api).
Defined.

Lemma callback_invoked_witness :
  let m := fst (register_callback (Some (demo_strategy 1)) create) in
  exists m', invoke_parse_callback demo_parse 8443 (Some demo_context) (Some (str "hi")) 2 (Some 9) m =
    Some (m', Some 1, CALLBACK_SUCCESS) /\ inv m'.
Proof.
  apply (callback_invoked demo_parse demo_reply (fst (register_callback (Some (demo_strategy 1)) create)) 8443
    demo_context (Some (str "hi")) 2 9 (demo_strategy 1) 1%nat demo_uses_api); try done.
  apply (table_step_inv create (Register (Some (demo_strategy 1)))), create_table_inv.
Defined.
End Callback.
