(* ===== verification/Debugging.v ===== *)
(** The debug handler chain (debug_chain/include/debug_chain/debug_chain.hpp,
    debug_config.hpp, debug_context.hpp, debug_handler.hpp and
    debug_chain/source/debug_chain.cpp).

    A handler object is a record with its address; its functions map the debug
    context they are given, and the effects outside it (time slept, lines
    logged), to new ones. The chain owns its handlers: [destroyed] lists those
    it handed to their [destroy] function. [handlers_] never holds a null
    pointer, [register_handler] refuses it. *)

From S2P Require Import Prelude StdMap Callbacks.
From stdpp Require Import sorting.
Open Scope Z_scope.
Import Callback.

Module DebugChain.

Definition ERR_SUCCESS : Z := 0.
Definition ERR_INVALID_PARAM : Z := -1.
Definition ERR_NOT_FOUND : Z := -2.
Definition ERR_ALREADY_EXISTS : Z := -3.
Definition ERR_CONTINUE_CHAIN : Z := 0.
Definition ERR_STOP_CHAIN : Z := 1.
Definition ERR_NOT_EXECUTED : Z := 2.

Record DebugConfig := mkConfig {
  enabled : bool;
  delay_ms : Z;
  force_disconnect : bool;
  log_packet : bool;
  http_status : Z;
}.
Definition InitDebugConfig : DebugConfig := mkConfig false 0 false false 200.

Record DebugContext := mkDebugContext {
  config : DebugConfig;
  request_data : bytes;
  response_data : bytes;
  override_http_status : Z;
  skip_callback : bool;
  disconnect_after : bool;
}.
Definition new_debug_context : DebugContext := mkDebugContext InitDebugConfig [] [] 0 false false.

(** What a handler does besides: milliseconds slept, and the arguments of each
    line logged (direction, connection, client address and port, server port). *)
Record effects := mkEffects { slept_ms : Z; logged : list (bytes * Z * bytes * Z * Z) }.
Definition no_effects : effects := mkEffects 0 [].

(** Pointers are options; the debug context is passed by pointer. *)
Definition handler_func : Type :=
  option ClientContext -> option DebugConfig -> option DebugContext -> effects ->
  option DebugContext * effects * Z.

Record DebugHandler := mkHandler {
  address : Z;
  name : option bytes;
  priority : Z;
  handle_request : option handler_func;
  handle_response : option handler_func;
  destroy : bool;                        (* not null *)
}.

Record t := mk {
  handlers_ : list DebugHandler;
  sorted_ : bool;
  destroyed : list Z;
}.

Definition create : t := mk [] false [].

Definition named (n : bytes) (h : DebugHandler) : bool := bool_decide (name h = Some n).

Definition has_handler (n : option bytes) (c : t) : bool :=
  match n with None => false | Some n => existsb (named n) (handlers_ c) end.

Definition register_handler (h : option DebugHandler) (c : t) : t * Z :=
  match h with
  | None => (c, ERR_INVALID_PARAM)
  | Some h =>
      match name h with
      | None => (c, ERR_INVALID_PARAM)
      | Some n =>
          if has_handler (Some n) c then (c, ERR_ALREADY_EXISTS)
          else (mk (handlers_ c ++ [h]) false (destroyed c), ERR_SUCCESS)
      end
  end.

(** [find_if], and the list without what it found. *)
Fixpoint take_named (n : bytes) (l : list DebugHandler) : option (DebugHandler * list DebugHandler) :=
  match l with
  | [] => None
  | h :: r =>
      if named n h then Some (h, r)
      else match take_named n r with Some (x, r') => Some (x, h :: r') | None => None end
  end.

Definition release (h : DebugHandler) (d : list Z) : list Z := if destroy h then d ++ [address h] else d.

Definition unregister_handler (n : option bytes) (c : t) : t * Z :=
  match n with
  | None => (c, ERR_INVALID_PARAM)
  | Some n =>
      match take_named n (handlers_ c) with
      | None => (c, ERR_NOT_FOUND)
      | Some (h, r) => (mk r (sorted_ c) (release h (destroyed c)), ERR_SUCCESS)
      end
  end.

(** The destructor. *)
Definition destruct_chain (c : t) : t :=
  mk [] (sorted_ c) (foldl (fun d h => release h d) (destroyed c) (handlers_ c)).

(** The comparator of [sort_handlers]. *)
Definition before (a b : DebugHandler) : bool :=
  if negb (priority a =? priority b) then priority a <? priority b
  else match bytes_cmp (default [] (name a)) (default [] (name b)) with Lt => true | _ => false end.

(** [std::sort]: the names are distinct, so any sorting algorithm gives this list. *)
Fixpoint insert_sorted (h : DebugHandler) (l : list DebugHandler) : list DebugHandler :=
  match l with
  | [] => [h]
  | x :: r => if before h x then h :: l else x :: insert_sorted h r
  end.
Definition sort_handlers (c : t) : t :=
  mk (foldr insert_sorted [] (handlers_ c)) true (destroyed c).

(** The loop of [process_internal] with one of the two functions selected. *)
Fixpoint run_handlers (select : DebugHandler -> option handler_func) (hs : list DebugHandler)
    (ctx : option ClientContext) (cfg : option DebugConfig) (d : option DebugContext) (e : effects)
    : option DebugContext * effects * Z :=
  match hs with
  | [] => (d, e, ERR_CONTINUE_CHAIN)
  | h :: r =>
      let '(d', e', result) :=
        match select h with
        | None => (d, e, ERR_CONTINUE_CHAIN)
        | Some f => f ctx cfg d e
        end in
      if negb (result =? ERR_CONTINUE_CHAIN) then (d', e', result)
      else run_handlers select r ctx cfg d' e'
  end.

(** [None]: an assertion of a debug build ([ndebug = false]) fails. *)
Definition process_internal (ndebug : bool) (select : DebugHandler -> option handler_func) (c : t)
    (ctx : option ClientContext) (cfg : option DebugConfig) (d : option DebugContext) (e : effects)
    : option (t * option DebugContext * effects * Z) :=
  match ctx, cfg, d with
  | Some _, Some k, Some _ =>
      if negb (enabled k) then Some (c, d, e, ERR_NOT_EXECUTED)
      else
        let c1 := if negb (sorted_ c) then sort_handlers c else c in
        let '(d', e', r) := run_handlers select (handlers_ c1) ctx cfg d e in
        Some (c1, d', e', r)
  | _, _, _ => if ndebug then Some (c, d, e, ERR_INVALID_PARAM) else None
  end.
Definition process_request (ndebug : bool) := process_internal ndebug handle_request.
Definition process_response (ndebug : bool) := process_internal ndebug handle_response.

(** * The default handlers *)

Definition delay_common (cfg : option DebugConfig) (e : effects) : effects :=
  match cfg with
  | Some k => if 0 <? delay_ms k then mkEffects (slept_ms e + delay_ms k) (logged e) else e
  | None => e
  end.
Definition delay_handler_handle : handler_func := fun ctx cfg d e =>
  match cfg with
  | None => (d, e, ERR_CONTINUE_CHAIN)
  | Some _ => (d, delay_common cfg e, ERR_CONTINUE_CHAIN)
  end.
Definition create_delay_handler (a : Z) : DebugHandler :=
  mkHandler a (Some (str "DelayHandler")) 100 (Some delay_handler_handle) (Some delay_handler_handle) true.

Definition disconnect_common (cfg : option DebugConfig) (d : option DebugContext) : option DebugContext * Z :=
  match cfg, d with
  | Some k, Some x =>
      if force_disconnect k then
        (Some (mkDebugContext (config x) (request_data x) (response_data x) (override_http_status x)
                 (skip_callback x) true), ERR_STOP_CHAIN)
      else (d, ERR_CONTINUE_CHAIN)
  | _, _ => (d, ERR_CONTINUE_CHAIN)
  end.
Definition disconnect_handler_handle : handler_func := fun ctx cfg d e =>
  let '(d', r) := disconnect_common cfg d in (d', e, r).
Definition create_disconnect_handler (a : Z) : DebugHandler :=
  mkHandler a (Some (str "DisconnectHandler")) 200 (Some disconnect_handler_handle)
    (Some disconnect_handler_handle) true.

Definition log_common (ctx : option ClientContext) (direction : bytes) (e : effects) : effects :=
  match ctx with
  | None => e
  | Some c => mkEffects (slept_ms e)
      (logged e ++ [(direction, connection_id c, default (str "unknown") (client_ip c),
                     u16 (client_port c), u16 (server_port c))])
  end.
Definition log_handler_handle (direction : bytes) : handler_func := fun ctx cfg d e =>
  match cfg, ctx with
  | Some k, Some _ =>
      (d, if log_packet k then log_common ctx direction e else e, ERR_CONTINUE_CHAIN)
  | _, _ => (d, e, ERR_CONTINUE_CHAIN)
  end.
Definition create_log_handler (a : Z) : DebugHandler :=
  mkHandler a (Some (str "LogHandler")) 300 (Some (log_handler_handle (str "Request")))
    (Some (log_handler_handle (str "Response"))) true.

Definition set_override (s : Z) (x : DebugContext) : DebugContext :=
  mkDebugContext (config x) (request_data x) (response_data x) s (skip_callback x) (disconnect_after x).
Definition errorcode_handler_handle_request : handler_func := fun ctx cfg d e =>
  match cfg, d with
  | Some k, Some x => (Some (set_override (http_status k) x), e, ERR_CONTINUE_CHAIN)
  | _, _ => (d, e, ERR_CONTINUE_CHAIN)
  end.
Definition errorcode_handler_handle_response : handler_func := fun ctx cfg d e =>
  match cfg, d with
  | Some k, Some x =>
      (Some (if override_http_status x =? 0 then set_override (http_status k) x else x), e, ERR_CONTINUE_CHAIN)
  | _, _ => (d, e, ERR_CONTINUE_CHAIN)
  end.
Definition create_errorcode_handler (a : Z) : DebugHandler :=
  mkHandler a (Some (str "ErrorCodeHandler")) 400 (Some errorcode_handler_handle_request)
    (Some errorcode_handler_handle_response) true.

(** * The C registry: a null registry or a registry with its chain *)

Definition debug_handler_registry_create_empty : option t := Some create.
(** [a] is the address of the first of the four handlers allocated. *)
Definition debug_handler_registry_create (a : Z) : option t :=
  Some (fst (register_handler (Some (create_errorcode_handler (a + 3)))
        (fst (register_handler (Some (create_log_handler (a + 2)))
        (fst (register_handler (Some (create_disconnect_handler (a + 1)))
        (fst (register_handler (Some (create_delay_handler a)) create)))))))).

Definition debug_handler_registry_register (r : option t) (h : option DebugHandler) : option t * Z :=
  match r, h with
  | Some c, Some h' =>
      match name h' with
      | None => (r, ERR_INVALID_PARAM)
      | Some n =>
          match handle_request h', handle_response h' with
          | None, None => (r, ERR_INVALID_PARAM)
          | _, _ =>
              if has_handler (Some n) c then (r, ERR_ALREADY_EXISTS)
              else let '(c', code) := register_handler h c in (Some c', code)
          end
      end
  | _, _ => (r, ERR_INVALID_PARAM)
  end.

Definition debug_handler_registry_unregister (r : option t) (n : option bytes) : option t * Z :=
  match r with
  | None => (None, ERR_INVALID_PARAM)
  | Some c => let '(c', code) := unregister_handler n c in (Some c', code)
  end.

Definition debug_handler_registry_destroy (r : option t) : list Z :=
  match r with Some c => destroyed (destruct_chain c) | None => [] end.

Definition debug_handler_registry_get_chain (r : option t) : option t := r.

(** * Order *)

Definition hlt (a b : DebugHandler) : Prop := before a b = true.

Lemma before_spec a b :
  hlt a b <-> priority a < priority b \/
              (priority a = priority b /\ bytes_cmp (default [] (name a)) (default [] (name b)) = Lt).
Proof.
  unfold hlt, before. destruct (priority a =? priority b) eqn:E; zb; cbn [negb].
  - destruct (bytes_cmp _ _); split; try done; try naive_solver; intros [?|[_ ?]]; try lia; done.
  - rewrite Z.ltb_lt. naive_solver.
Qed.

Lemma hlt_trans a b c : hlt a b -> hlt b c -> hlt a c.
Proof.
  rewrite !before_spec. intros [H1|[H1 H1']] [H2|[H2 H2']]; try (left; lia).
  right. split; [lia|]. by eapply bytes_cmp_trans.
Qed.

Lemma hlt_irrefl a : ~ hlt a a.
Proof.
  rewrite before_spec. intros [?|[_ H]]; [lia|]. pose proof (bytes_cmp_opp (default [] (name a)) (default [] (name a))) as Ho.
  rewrite H in Ho. done.
Qed.

Lemma hlt_total a b : default [] (name a) <> default [] (name b) -> before a b = false -> hlt b a.
Proof.
  intros Hn Hb. apply before_spec.
  assert (Hnot : ~ hlt a b) by (unfold hlt; congruence). rewrite before_spec in Hnot.
  rewrite (bytes_cmp_opp (default [] (name a))).
  destruct (bytes_cmp (default [] (name a)) (default [] (name b))) eqn:E; cbn.
  - by apply bytes_cmp_eq in E.
  - destruct (Z.lt_trichotomy (priority a) (priority b)) as [?|[?|?]]; [tauto|tauto|lia].
  - destruct (Z.lt_trichotomy (priority a) (priority b)) as [?|[?|?]]; [tauto|right; split; [lia|done]|lia].
Qed.

(** Two sorted lists of the same handlers are the same list. *)
Lemma sorted_unique l1 l2 : StronglySorted hlt l1 -> StronglySorted hlt l2 -> l1 ≡ₚ l2 -> l1 = l2.
Proof.
  intros H1 H2. apply (StronglySorted_unique_strong hlt); [|done|done].
  intros x1 x2 _ _ Ha Hb. destruct (hlt_irrefl x1). by eapply hlt_trans.
Qed.

Lemma insert_permutation h l : insert_sorted h l ≡ₚ h :: l.
Proof.
  induction l as [|x l IH]; cbn; [done|]. destruct (before h x); [done|].
  rewrite IH. apply Permutation_swap.
Qed.

Lemma sort_permutation l : foldr insert_sorted [] l ≡ₚ l.
Proof. induction l as [|h l IH]; cbn; [done|]. by rewrite insert_permutation, IH. Qed.

Lemma insert_strongly_sorted h l :
  StronglySorted hlt l -> Forall (fun x => default [] (name h) <> default [] (name x)) l ->
  StronglySorted hlt (insert_sorted h l).
Proof.
  induction 1 as [|x l Hs IH Hx]; cbn; intros Hn; [repeat constructor|].
  apply Forall_cons in Hn as [Hn Hr]. destruct (before h x) eqn:E.
  - constructor; [by constructor|]. constructor; [done|]. eapply Forall_impl; [exact Hx|].
    intros y Hy. by eapply hlt_trans.
  - constructor; [by apply IH|]. rewrite insert_permutation. constructor; [by apply hlt_total|done].
Qed.

(** * The invariant of the chain *)

Definition key (h : DebugHandler) : bytes := default [] (name h).

Record inv (c : t) : Prop := {
  inv_named : Forall (fun h => is_Some (name h)) (handlers_ c);
  inv_distinct : NoDup (key <$> handlers_ c);
  inv_sorted : sorted_ c = true -> StronglySorted hlt (handlers_ c);
}.

Lemma sort_sorted_handlers l : NoDup (key <$> l) -> StronglySorted hlt (foldr insert_sorted [] l).
Proof.
  induction l as [|h l IH]; cbn; intros Hn; [constructor|]. apply NoDup_cons in Hn as [Hh Hn].
  apply insert_strongly_sorted; [by apply IH|]. rewrite sort_permutation.
  apply Forall_forall. intros x Hx Hk. apply Hh. apply list_elem_of_fmap. by exists x.
Qed.

Lemma sort_inv c : inv c -> inv (sort_handlers c).
Proof.
  intros [Hn Hd Hs]. unfold sort_handlers. split; cbn.
  - by rewrite sort_permutation.
  - by rewrite sort_permutation.
  - intros _. by apply sort_sorted_handlers.
Qed.

Lemma has_handler_false n c : inv c -> has_handler (Some n) c = false -> n ∉ key <$> handlers_ c.
Proof.
  intros [Hn _ _]. unfold has_handler. intros He Hin. apply list_elem_of_fmap in Hin as (h & -> & Hh).
  rewrite Forall_forall in Hn. destruct (Hn h Hh) as [m Hm].
  assert (existsb (named (key h)) (handlers_ c) = true); [|congruence].
  apply existsb_exists. exists h. split; [by apply list_elem_of_In|].
  unfold named, key. rewrite Hm. by apply bool_decide_eq_true.
Qed.

Lemma register_handler_inv h c : inv c -> inv (fst (register_handler h c)).
Proof.
  intros Hi. unfold register_handler. destruct h as [h|]; [|by rewrite ?app_nil_r]. destruct (name h) as [n|] eqn:En; [|done].
  destruct (has_handler (Some n) c) eqn:Eh; [done|]. pose proof (has_handler_false n c Hi Eh) as Hf.
  destruct Hi as [Hn Hd Hs]. split; cbn; [| |done].
  - apply Forall_app. split; [done|]. constructor; [by rewrite En|constructor].
  - rewrite fmap_app. apply NoDup_app. split; [done|]. split; [|apply NoDup_singleton].
    intros x Hx ->%list_elem_of_singleton. apply Hf. unfold key in Hx at 1. by rewrite En in Hx.
Qed.

Lemma take_named_spec n l h r : take_named n l = Some (h, r) ->
  exists l1 l2, l = l1 ++ h :: l2 /\ r = l1 ++ l2 /\ name h = Some n.
Proof.
  revert r. induction l as [|x l IH]; intros r; cbn; [done|].
  unfold named. case_bool_decide as E.
  - intros [= <- <-]. by exists [], l.
  - destruct (take_named n l) as [[y r']|] eqn:Et; [|done]. intros [= <- <-].
    destruct (IH r' eq_refl) as (l1 & l2 & -> & -> & Hn). by exists (x :: l1), l2.
Qed.

Lemma StronglySorted_remove l1 h l2 : StronglySorted hlt (l1 ++ h :: l2) -> StronglySorted hlt (l1 ++ l2).
Proof.
  induction l1 as [|x l1 IH]; cbn; intros Hs; apply StronglySorted_inv in Hs as [Hs Hf]; [done|].
  constructor; [by apply IH|]. rewrite Forall_app in *. destruct Hf as [? Hf]. split; [done|].
  by apply Forall_cons in Hf as [_ ?].
Qed.

Lemma unregister_handler_inv n c : inv c -> inv (fst (unregister_handler n c)).
Proof.
  intros Hi. unfold unregister_handler. destruct n as [n|]; [|done].
  destruct (take_named n (handlers_ c)) as [[h r]|] eqn:E; [|done].
  apply take_named_spec in E as (l1 & l2 & El & -> & _). destruct Hi as [Hn Hd Hs]. rewrite El in *.
  assert (Hp : l1 ++ h :: l2 ≡ₚ h :: (l1 ++ l2)) by (by rewrite Permutation_middle).
  split; cbn.
  - rewrite Hp in Hn. by apply Forall_cons in Hn as [_ ?].
  - rewrite Hp in Hd. cbn in Hd. by apply NoDup_cons in Hd as [_ ?].
  - intros Hso. by eapply StronglySorted_remove, Hs.
Qed.

Lemma process_inv ndebug sel c ctx cfg d e c' d' e' r :
  inv c -> process_internal ndebug sel c ctx cfg d e = Some (c', d', e', r) ->
  inv c' /\ handlers_ c' ≡ₚ handlers_ c /\ destroyed c' = destroyed c.
Proof.
  intros Hi. unfold process_internal.
  destruct ctx as [ctx|], cfg as [cfg|], d as [d|]; try (destruct ndebug; [intros [= <- _ _ _]|]; done).
  destruct (enabled cfg); cbn [negb]; [|by intros [= <- _ _ _]].
  destruct (run_handlers _ _ _ _ _ _) as [[d1 e1] r1]. intros [= <- _ _ _].
  destruct (sorted_ c); cbn [negb]; [done|]. split; [by apply sort_inv|]. split; [|done].
  apply sort_permutation.
Qed.

(** * Runs *)

Inductive op : Type :=
  | Register (h : option DebugHandler)
  | Unregister (n : option bytes)
  | Request (ctx : ClientContext) (cfg : DebugConfig) (d : DebugContext) (e : effects)
  | Response (ctx : ClientContext) (cfg : DebugConfig) (d : DebugContext) (e : effects).

Definition after (r : option (t * option DebugContext * effects * Z)) (c : t) : t :=
  match r with Some (c', _, _, _) => c' | None => c end.

Definition step (c : t) (o : op) : t :=
  match o with
  | Register h => fst (register_handler h c)
  | Unregister n => fst (unregister_handler n c)
  | Request ctx cfg d e => after (process_request true c (Some ctx) (Some cfg) (Some d) e) c
  | Response ctx cfg d e => after (process_response true c (Some ctx) (Some cfg) (Some d) e) c
  end.
Definition run (ops : list op) (c : t) : t := foldl step c ops.

Lemma after_process sel c ctx cfg d e :
  inv c -> let c' := after (process_internal true sel c (Some ctx) (Some cfg) (Some d) e) c in
  inv c' /\ handlers_ c' ≡ₚ handlers_ c /\ destroyed c' = destroyed c.
Proof.
  intros Hi. cbv zeta. destruct (process_internal _ _ _ _ _ _ _) as [[[[c' d'] e'] r]|] eqn:E; cbn; [|done].
  by eapply process_inv.
Qed.

Lemma create_chain_inv : inv create.
Proof. split; cbn; [constructor|constructor|done]. Qed.

Lemma step_chain_inv c o : inv c -> inv (step c o).
Proof.
  intros Hi. destruct o; cbn [step].
  - by apply register_handler_inv.
  - by apply unregister_handler_inv.
  - by apply after_process.
  - by apply after_process.
Qed.

Lemma run_chain_inv ops c : inv c -> inv (run ops c).
Proof. revert c. induction ops as [|o ops IH]; cbn; intros c Hi; [done|]. by apply IH, step_chain_inv. Qed.

Lemma process_runs_sorted nd sel c hs ctx k d e :
  inv c -> enabled k = true -> hs ≡ₚ handlers_ c -> StronglySorted hlt hs ->
  process_internal nd sel c (Some ctx) (Some k) (Some d) e =
  let '(d', e', r) := run_handlers sel hs (Some ctx) (Some k) (Some d) e in
  Some (mk hs true (destroyed c), d', e', r).
Proof.
  intros Hi He Hp Hs. unfold process_internal. rewrite He. cbn [negb].
  set (c1 := if negb (sorted_ c) then sort_handlers c else c).
  assert (c1 = mk hs true (destroyed c)) as ->; [|by destruct (run_handlers _ _ _ _ _ _) as [[??]?]].
  assert (inv c1 /\ handlers_ c1 ≡ₚ hs /\ sorted_ c1 = true /\ destroyed c1 = destroyed c) as (Hi1 & Hp1 & Hs1 & Hd1).
  { unfold c1. destruct (sorted_ c) eqn:E; cbn [negb]; [done|].
    split; [by apply sort_inv|]. split; [|done]. rewrite Hp. apply sort_permutation. }
  assert (handlers_ c1 = hs) by (apply sorted_unique; [by apply Hi1|done|done]).
  destruct c1; cbn in *; congruence.
Qed.

(** The order the chain promises: the smaller priority number first and, at equal
    priority, the name that a dictionary lists first. *)
Definition comes_before (a b : DebugHandler) : Prop :=
  priority a < priority b \/
  priority a = priority b /\ exists na nb, name a = Some na /\ name b = Some nb /\ dictionary_before na nb.
Definition in_order (hs : list DebugHandler) : Prop :=
  forall i j a b, (i < j)%nat -> hs !! i = Some a -> hs !! j = Some b -> comes_before a b.

Lemma hlt_comes_before a b : is_Some (name a) -> is_Some (name b) -> hlt a b <-> comes_before a b.
Proof.
  intros [na Ha] [nb Hb]. rewrite before_spec. unfold comes_before. rewrite Ha, Hb, bytes_cmp_lt. cbn.
  split; (intros [?|[? Hd]]; [by left|right; split; [done|]]); [by exists na, nb|].
  by destruct Hd as (? & ? & [= <-] & [= <-] & ?).
Qed.

Lemma in_order_sorted hs : Forall (fun h => is_Some (name h)) hs -> in_order hs <-> StronglySorted hlt hs.
Proof.
  intros Hn. induction Hn as [|h hs Hh Hn IH]; [split; [constructor|by intros _ i j a b _ Ha]|]. split.
  - intros Ho. constructor; [apply IH; intros i j a b Hij; apply (Ho (S i) (S j)); lia|].
    apply Forall_forall. intros x Hx. rewrite Forall_forall in Hn. apply hlt_comes_before; [done|by apply Hn|].
    apply list_elem_of_lookup in Hx as [i Hi]. apply (Ho 0%nat (S i)); [lia|done..].
  - intros Hs. inversion Hs as [|? ? Hs' Hf]; subst. intros [|i] [|j] a b Hij Ha Hb; try lia.
    + injection Ha as <-. cbn in Hb. apply list_elem_of_lookup_2 in Hb. rewrite Forall_forall in Hf, Hn.
      apply hlt_comes_before; [done|by apply Hn|by apply Hf].
    + apply (proj2 IH Hs' i j); [lia|done..].
Qed.

(** A round handler by handler: [st i] is the debug context and the effects that
    handler [i] is given, [st (S i)] what it leaves, [code i] what it returns; a
    handler without the function leaves both alone and returns 0. [m] handlers
    are run: all of them, or up to the first that returns another code. *)
Record rounds (sel : DebugHandler -> option handler_func) (ctx : ClientContext) (k : DebugConfig)
    (hs : list DebugHandler) (st : nat -> option DebugContext * effects) (code : nat -> Z) (m : nat) : Prop := {
  rs_call i h : (i < m)%nat -> hs !! i = Some h ->
    match sel h with
    | Some f => f (Some ctx) (Some k) (st i).1 (st i).2 = ((st (S i)).1, (st (S i)).2, code i)
    | None => st (S i) = st i /\ code i = 0
    end;
  rs_length : (m <= length hs)%nat;
  rs_go_on i : (S i < m)%nat -> code i = 0;
  rs_ends : (m < length hs)%nat -> exists i, m = S i /\ code i <> 0;
}.

Lemma run_handlers_rounds sel ctx k hs d e d' e' r :
  run_handlers sel hs (Some ctx) (Some k) d e = (d', e', r) ->
  exists st code m, rounds sel ctx k hs st code m /\ st 0%nat = (d, e) /\ st m = (d', e') /\
    r = match m with O => 0 | S i => code i end.
Proof.
  revert d e. induction hs as [|h hs IH]; intros d e; cbn [run_handlers].
  { intros [= <- <- <-]. exists (fun _ => (d, e)), (fun _ => 0), 0%nat. split; [|done].
    split; [lia|done|lia|cbn; lia]. }
  destruct (match sel h with Some f => f (Some ctx) (Some k) d e | None => (d, e, ERR_CONTINUE_CHAIN) end)
    as [[d1 e1] r1] eqn:E1.
  assert (Hcall : match sel h with
      | Some f => f (Some ctx) (Some k) d e = (d1, e1, r1) | None => (d1, e1) = (d, e) /\ r1 = 0 end)
    by (destruct (sel h); [done|by injection E1 as <- <- <-]).
  destruct (r1 =? ERR_CONTINUE_CHAIN) eqn:Er; cbn [negb]; zb.
  - intros Hr. destruct (IH d1 e1 Hr) as (st & code & m & [Hc Hl Hg He] & H0 & Hm & ->).
    exists (fun i => match i with O => (d, e) | S i => st i end),
      (fun i => match i with O => r1 | S i => code i end), (S m).
    split; [split|split; [done|split; [done|by destruct m]]].
    + intros [|i] x Hi Hx; cbn in Hx; [injection Hx as <-; rewrite H0; exact Hcall|apply Hc; [lia|done]].
    + cbn. lia.
    + intros [|i] Hi; [done|apply Hg; lia].
    + cbn. intros Hlt. destruct (He ltac:(lia)) as (i & -> & Hne). by exists (S i).
  - intros [= <- <- <-]. exists (fun i => match i with O => (d, e) | S _ => (d1, e1) end), (fun _ => r1), 1%nat.
    split; [split|done].
    + intros [|i] x Hi Hx; [|lia]. injection Hx as <-. exact Hcall.
    + cbn. lia.
    + lia.
    + intros _. by exists 0%nat.
Qed.

(** C27. Order of the chain. After any registrations, removals and rounds there
    is exactly one arrangement [hs] of the registered handlers in which, of any
    two, the one with the smaller priority number stands first and, at equal
    priority, the one whose name comes first in a dictionary of bytes. An enabled
    [process_request] or [process_response] leaves the chain in this order and
    runs its handlers in it: the first is given the caller's debug context, each
    next one what the one before it left, and so with the effects; the first
    handler that returns a code other than 0 ends the round, and its context,
    effects and code, or those of the last handler if none does, are the
    result. *)
Theorem debug_chain_order (ops : list op) (nd : bool) (ctx : ClientContext) (k : DebugConfig)
    (d : DebugContext) (e : effects) (H : enabled k = true) :
  let c := run ops create in
  exists hs, hs ≡ₚ handlers_ c /\ in_order hs /\
    (forall hs', hs' ≡ₚ handlers_ c -> in_order hs' -> hs' = hs) /\
    forall process sel,
      (process = process_request /\ sel = handle_request) \/
      (process = process_response /\ sel = handle_response) ->
      exists st code m, rounds sel ctx k hs st code m /\ st 0%nat = (Some d, e) /\
        process nd c (Some ctx) (Some k) (Some d) e =
          Some (mk hs true (destroyed c), (st m).1, (st m).2, match m with O => 0 | S i => code i end).
Proof.
  intros c. assert (Hi : inv c) by apply run_chain_inv, create_chain_inv.
  assert (Hp : foldr insert_sorted [] (handlers_ c) ≡ₚ handlers_ c) by apply sort_permutation.
  assert (Hs : StronglySorted hlt (foldr insert_sorted [] (handlers_ c))) by apply sort_sorted_handlers, Hi.
  assert (Hn : forall l, l ≡ₚ handlers_ c -> Forall (fun h => is_Some (name h)) l) by (intros l ->; apply Hi).
  exists (foldr insert_sorted [] (handlers_ c)). split_and!; [done|by apply in_order_sorted; auto| |].
  { intros hs' Hp' Hs'. apply in_order_sorted in Hs'; [|by apply Hn]. apply sorted_unique; [done..|]. by rewrite Hp'. }
  intros process sel Hps.
  assert (Hr : process nd c (Some ctx) (Some k) (Some d) e = process_internal nd sel c (Some ctx) (Some k) (Some d) e)
    by (destruct Hps as [[-> ->]|[-> ->]]; done).
  rewrite Hr, (process_runs_sorted nd sel c _ ctx k d e Hi H Hp Hs).
  destruct (run_handlers _ _ _ _ _ _) as [[d' e'] r] eqn:Erun.
  destruct (run_handlers_rounds _ _ _ _ _ _ _ _ _ Erun) as (st & code & m & Hround & H0 & Hm & ->).
  exists st, code, m. by rewrite Hm.
Qed.

Lemma debug_chain_order_witness :
  exists hs, hs ≡ₚ [create_log_handler 2; create_delay_handler 1] /\ in_order hs /\
    exists st code m, rounds handle_request (mkContext 1 None 0 0 None) (mkConfig true 0 false true 200) hs st code m /\
      st 0%nat = (Some new_debug_context, no_effects).
Proof.
  destruct (debug_chain_order
    [Register (Some (create_log_handler 2)); Register (Some (create_delay_handler 1))] true
    (mkContext 1 None 0 0 None) (mkConfig true 0 false true 200) new_debug_context no_effects eq_refl)
    as (hs & Hp & Hs & _ & Hr).
  exists hs. split; [exact Hp|]. split; [exact Hs|].
  destruct (Hr process_request handle_request (or_introl (conj eq_refl eq_refl))) as (st & code & m & H1 & H2 & _).
  by exists st, code, m.
Defined.

(** * The default handlers *)

Definition add_log (direction : bytes) (ctx : ClientContext) (k : DebugConfig) (e : effects) : effects :=
  if log_packet k then log_common (Some ctx) direction e else e.

Definition mark_disconnect (x : DebugContext) : DebugContext :=
  mkDebugContext (config x) (request_data x) (response_data x) (override_http_status x) (skip_callback x) true.

(** What a round of the default handlers does. *)
Definition default_round (direction : bytes) (keep : bool) (ctx : ClientContext) (k : DebugConfig)
    (d : DebugContext) (e : effects) : option DebugContext * effects * Z :=
  let e1 := mkEffects (slept_ms e + delay_ms k) (logged e) in
  if force_disconnect k then (Some (mark_disconnect d), e1, ERR_STOP_CHAIN)
  else (Some (if keep && negb (override_http_status d =? 0) then d else set_override (http_status k) d),
        add_log direction ctx k e1, ERR_CONTINUE_CHAIN).

(** The default registry. [debug_handler_registry_create] gives a chain
    on which a round under an enabled configuration sleeps [delay_ms], and
    then: with [force_disconnect] it marks the context for disconnection and
    stops with code 1, nothing logged and no status set; otherwise it logs one
    line exactly when [log_packet] is set, and sets the status to
    [http_status] (in a response only when the request has left it 0), with
    code 0. Under a disabled configuration nothing is run and the code is 2. *)
Theorem default_handlers_round (a : Z) (nd : bool) (ctx : ClientContext) (k : DebugConfig)
    (d : DebugContext) (e : effects) (H : 0 <= delay_ms k) :
  exists c hs, debug_handler_registry_create a = Some c /\ debug_handler_registry_get_chain (Some c) = Some c /\
    (enabled k = false ->
       process_request nd c (Some ctx) (Some k) (Some d) e = Some (c, Some d, e, ERR_NOT_EXECUTED) /\
       process_response nd c (Some ctx) (Some k) (Some d) e = Some (c, Some d, e, ERR_NOT_EXECUTED)) /\
    (enabled k = true ->
       process_request nd c (Some ctx) (Some k) (Some d) e =
         (let '(d', e', r) := default_round (str "Request") false ctx k d e in Some (hs, d', e', r)) /\
       process_response nd c (Some ctx) (Some k) (Some d) e =
         (let '(d', e', r) := default_round (str "Response") true ctx k d e in Some (hs, d', e', r))).
Proof.
  set (l := [create_delay_handler a; create_disconnect_handler (a + 1); create_log_handler (a + 2);
             create_errorcode_handler (a + 3)]).
  assert (Hs : sort_handlers (mk l false []) = mk l true []) by reflexivity.
  exists (mk l false []), (mk l true []).
  split; [reflexivity|]. split; [reflexivity|].
  unfold process_request, process_response, process_internal.
  destruct (enabled k); cbn [negb]; split; try done; intros _.
  assert (Hd : delay_common (Some k) e = mkEffects (slept_ms e + delay_ms k) (logged e)).
  { unfold delay_common. destruct (0 <? delay_ms k) eqn:E; zb; [done|]. destruct e; cbn. f_equal; lia. }
  unfold default_round, add_log, set_override, mark_disconnect.
  split; cbn -[delay_common log_common str disconnect_handler_handle sort_handlers]; rewrite Hs;
    cbn -[delay_common log_common str disconnect_handler_handle]; rewrite Hd;
    unfold disconnect_handler_handle, disconnect_common;
    destruct (force_disconnect k); try reflexivity; destruct (log_packet k); try reflexivity;
    cbn -[log_common str sort_handlers]; destruct (override_http_status d =? 0); reflexivity.
Qed.

Lemma default_handlers_round_witness : exists c, debug_handler_registry_create 16 = Some c.
Proof.
  destruct (default_handlers_round 16 true (mkContext 1 None 0 0 None) (mkConfig true 5 false true 503)
    new_debug_context no_effects ltac:(cbn; lia)) as (c & hs & Hc & _).
  exists c. exact Hc.
Defined.

(** * Ownership *)

(** The handlers a run accepts that have a [destroy] function. *)
Definition owned (l : list DebugHandler) : list Z := address <$> filter (fun h => destroy h = true) l.

Fixpoint accepted (ops : list op) (c : t) : list Z :=
  match ops with
  | [] => []
  | o :: ops' =>
      match o with
      | Register (Some h) => if snd (register_handler (Some h) c) =? ERR_SUCCESS then owned [h] else []
      | _ => []
      end ++ accepted ops' (step c o)
  end.

Lemma release_owned h d : release h d = d ++ owned [h].
Proof.
  unfold release, owned. destruct (destroy h) eqn:E.
  - rewrite filter_cons_True by done. done.
  - rewrite filter_cons_False by (rewrite E; done). cbn. by rewrite app_nil_r.
Qed.

Lemma owned_app l1 l2 : owned (l1 ++ l2) = owned l1 ++ owned l2.
Proof. unfold owned. by rewrite filter_app, fmap_app. Qed.

Lemma owned_cons h l : owned (h :: l) = owned [h] ++ owned l.
Proof. apply (owned_app [h] l). Qed.

#[local] Instance owned_proper : Proper ((≡ₚ) ==> (≡ₚ)) owned.
Proof. intros l1 l2 H. unfold owned. by rewrite H. Qed.

Lemma destruct_chain_destroys c : destroyed (destruct_chain c) = destroyed c ++ owned (handlers_ c).
Proof.
  unfold destruct_chain. cbn. generalize (destroyed c). induction (handlers_ c) as [|h l IH]; intros d; cbn.
  - by rewrite app_nil_r.
  - rewrite IH, release_owned, <- app_assoc. by rewrite <- owned_cons.
Qed.

Lemma app_nil_perm (l : list Z) : l ≡ₚ l ++ [].
Proof. apply Permutation_refl'. symmetry. exact (app_nil_r l). Qed.

Lemma step_ownership c o : inv c ->
  destroyed (step c o) ++ owned (handlers_ (step c o)) ≡ₚ
  (destroyed c ++ owned (handlers_ c)) ++ accepted [o] c.
Proof.
  intros Hi. destruct o as [h|n|ctx cfg d e|ctx cfg d e]; cbn [step accepted app];
    try (etransitivity; [|apply app_nil_perm]).
  - unfold register_handler. destruct h as [h|]; [|apply app_nil_perm].
    destruct (name h) as [n|]; cbn -[owned has_handler]; [|apply app_nil_perm].
    destruct (has_handler (Some n) c); cbn -[owned has_handler]; [apply app_nil_perm|].
    by rewrite owned_app, ?app_nil_r, app_assoc.
  - unfold unregister_handler. destruct n as [n|]; [|done].
    destruct (take_named n (handlers_ c)) as [[h r]|] eqn:E; [|done].
    apply take_named_spec in E as (l1 & l2 & El & -> & _). cbn -[owned]. rewrite El, release_owned, <- app_assoc.
    apply Permutation_app_head. rewrite <- owned_cons. by rewrite Permutation_middle.
  - destruct (after_process handle_request c ctx cfg d e Hi) as (_ & Hp & Hd). fold (process_request true) in *.
    rewrite Hd. by rewrite Hp.
  - destruct (after_process handle_response c ctx cfg d e Hi) as (_ & Hp & Hd). fold (process_response true) in *.
    rewrite Hd. by rewrite Hp.
Qed.

Lemma accepted_cons o ops c : accepted (o :: ops) c = accepted [o] c ++ accepted ops (step c o).
Proof. cbn [accepted]. by rewrite app_nil_r. Qed.

Lemma run_ownership ops c : inv c ->
  destroyed (run ops c) ++ owned (handlers_ (run ops c)) ≡ₚ
  (destroyed c ++ owned (handlers_ c)) ++ accepted ops c.
Proof.
  revert c. induction ops as [|o ops IH]; intros c Hi; [by rewrite app_nil_r|].
  rewrite accepted_cons, app_assoc, <- (step_ownership c o Hi). apply IH. by apply step_chain_inv.
Qed.

(** C28. Ownership of the handlers. Whatever registrations, removals and rounds
    a chain goes through before its destructor runs, the calls made to
    [destroy] are exactly one per accepted registration of a handler that has
    a [destroy] function. A registration refused because the name is taken
    changes nothing, so that handler is not among those the chain will
    destroy. *)
Theorem handlers_destroyed_once (ops : list op) :
  destroyed (destruct_chain (run ops create)) ≡ₚ accepted ops create /\
  forall h n, name h = Some n -> has_handler (Some n) (run ops create) = true ->
    register_handler (Some h) (run ops create) = (run ops create, ERR_ALREADY_EXISTS) /\
    accepted (ops ++ [Register (Some h)]) create = accepted ops create.
Proof.
  split.
  - rewrite destruct_chain_destroys. by rewrite (run_ownership ops create create_chain_inv).
  - intros h n Hn Hh.
    assert (Hr : register_handler (Some h) (run ops create) = (run ops create, ERR_ALREADY_EXISTS))
      by (unfold register_handler; by rewrite Hn, Hh).
    split; [done|]. revert Hr. clear Hn Hh. generalize create.
    induction ops as [|o ops IH]; intros c Hr; cbn [app].
    + cbn [accepted]. change (run [] c) with c in Hr. by rewrite Hr.
    + rewrite accepted_cons, IH by done. by rewrite (accepted_cons o ops).
Qed.

Lemma handlers_destroyed_once_example :
  destroyed (destruct_chain (run
    [Register (Some (create_log_handler 1)); Register (Some (create_log_handler 2));
     Register (Some (create_delay_handler 3)); Unregister (Some (str "LogHandler"))] create)) = [1; 3].
Proof. vm_compute. reflexivity. Qed.

End DebugChain.
