(* ===== verification/Config.v ===== *)
(** The configuration (config/include/config/config.hpp and
    config/source/config.cpp).

    The JSON text is parsed by the vendored nlohmann library, a parameter; what
    the source does with the parsed value is modelled, including what
    [get<T>()] of that library does: a [static_cast]. *)

From S2P Require Import Prelude StdMap ByteBuffer CString Hpack Http Tls Http1.
Open Scope Z_scope.
Set Warnings "-register-all".

(** A parsed JSON value. Integers are the 64-bit ones of the library, signed or
    unsigned; a floating point number is finite, hence a fraction; the members
    of an object are in key order, without repetition. *)
Inductive Json :=
| JNull
| JBool (b : bool)
| JInt (z : Z)
| JFloat (num : Z) (den : positive)
| JString (s : bytes)
| JArray (l : list Json)
| JObject (m : list (bytes * Json)).

(** [j.contains(k)] and [j[k]]: only an object has members. *)
Definition member (k : bytes) (j : Json) : option Json :=
  match j with JObject m => mfind k m | _ => None end.

(** [static_cast] of a number to an integer type that holds [lo .. hi]:
    integers wrap around ([conv]); a floating point number is truncated, and
    must fit. [None]: undefined behaviour. It is only called on numbers. *)
Definition get_number (conv : Z -> Z) (lo hi : Z) (j : Json) : option Z :=
  match j with
  | JInt z => Some (conv z)
  | JFloat n d => let q := Z.quot n (Z.pos d) in if (lo <=? q) && (q <=? hi) then Some q else None
  | _ => Some 0
  end.
Definition get_uint16 : Json -> option Z := get_number u16 0 (2 ^ 16 - 1).
Definition get_uint32 : Json -> option Z := get_number u32 0 (2 ^ 32 - 1).
Definition get_int32 : Json -> option Z := get_number i32 (- 2 ^ 31) (2 ^ 31 - 1).

(** [if (j.contains(k) && j[k].is_...()) field = j[k].get<...>()] *)
Definition field_string (k : bytes) (j : Json) (old : bytes) : bytes :=
  match member k j with Some (JString s) => s | _ => old end.
Definition field_bool (k : bytes) (j : Json) (old : bool) : bool :=
  match member k j with Some (JBool b) => b | _ => old end.
Definition field_number (get : Json -> option Z) (k : bytes) (j : Json) (old : Z) : option Z :=
  match member k j with
  | Some (JInt z) => get (JInt z)
  | Some (JFloat n d) => get (JFloat n d)
  | _ => Some old
  end.

Module Config.

Record ListenConfig := mkListen { ip : bytes; port : Z; listen_enabled : bool; backlog : Z }.
Definition default_listen : ListenConfig := mkListen (str "0.0.0.0") 8443 true 128.

Record CertificatesConfig := mkCertificates {
  cert_path : bytes;
  key_path : bytes;
  ca_path : bytes;
  sm2_cert_path : bytes;
  sm2_key_path : bytes;
  sm2_sign_cert_path : bytes;
  sm2_sign_key_path : bytes;
  cipher_suite : bytes;
}.
Definition default_certificates : CertificatesConfig :=
  mkCertificates [] [] [] [] [] [] []
    (str "TLS_AES_256_GCM_SHA384:TLS_CHACHA20_POLY1305_SHA256:TLS_AES_128_GCM_SHA256").

Record DebugPointConfig := mkPoint {
  point_server_port : Z;
  point_name : bytes;
  action : bytes;
  delay_ms : Z;
  error_code : Z;
  probability : Z;
}.
Definition default_point : DebugPointConfig := mkPoint 0 [] [] 0 0 100.

Record DebugConfig := mkDebug { debug_enabled : bool; debug_points : list DebugPointConfig }.
Definition default_debug : DebugConfig := mkDebug false [].

Record CallbackConfig := mkCallback { callback_server_port : Z; script_path : bytes }.
Definition default_callback : CallbackConfig := mkCallback 0 [].

Record CallbacksConfig := mkCallbacks { callbacks_dir : bytes; callbacks : list CallbackConfig }.
Definition default_callbacks : CallbacksConfig := mkCallbacks (str "callbacks") [].

Record LoggingConfig := mkLogging { level : bytes; file : bytes; console_output : bool }.
Definition default_logging : LoggingConfig := mkLogging (str "INFO") [] true.

Record Http2Config := mkHttp2 { http2_enabled : bool; allow_h2c : bool }.
Definition default_http2 : Http2Config := mkHttp2 true false.

Record t := mk {
  listens_ : list ListenConfig;
  certificates_ : CertificatesConfig;
  debug_ : DebugConfig;
  callbacks_ : CallbacksConfig;
  logging_ : LoggingConfig;
  http2_ : Http2Config;
  callbacks_dir_ : bytes;
}.

(** [reset], which is also the constructor. *)
Definition reset : t :=
  mk [default_listen] default_certificates default_debug default_callbacks default_logging
     default_http2 (str "callbacks").

(** The setters: each replaces one member only. In particular [set_callbacks] and
    [set_callbacks_dir] do not keep [callbacks_dir_] and the directory of
    [callbacks_] equal, as loading does. *)
Definition set_listens (x : list ListenConfig) (c : t) : t :=
  mk x (certificates_ c) (debug_ c) (callbacks_ c) (logging_ c) (http2_ c) (callbacks_dir_ c).
Definition set_certificates (x : CertificatesConfig) (c : t) : t :=
  mk (listens_ c) x (debug_ c) (callbacks_ c) (logging_ c) (http2_ c) (callbacks_dir_ c).
Definition set_debug (x : DebugConfig) (c : t) : t :=
  mk (listens_ c) (certificates_ c) x (callbacks_ c) (logging_ c) (http2_ c) (callbacks_dir_ c).
Definition set_callbacks (x : CallbacksConfig) (c : t) : t :=
  mk (listens_ c) (certificates_ c) (debug_ c) x (logging_ c) (http2_ c) (callbacks_dir_ c).
Definition set_logging (x : LoggingConfig) (c : t) : t :=
  mk (listens_ c) (certificates_ c) (debug_ c) (callbacks_ c) x (http2_ c) (callbacks_dir_ c).
Definition set_http2 (x : Http2Config) (c : t) : t :=
  mk (listens_ c) (certificates_ c) (debug_ c) (callbacks_ c) (logging_ c) x (callbacks_dir_ c).
Definition set_callbacks_dir (x : bytes) (c : t) : t :=
  mk (listens_ c) (certificates_ c) (debug_ c) (callbacks_ c) (logging_ c) (http2_ c) x.

Definition ParseListenConfig (j : Json) (cfg : ListenConfig) : option ListenConfig :=
  p ← field_number get_uint16 (str "port") j (port cfg);
  b ← field_number get_uint32 (str "backlog") j (backlog cfg);
  Some (mkListen (field_string (str "ip") j (ip cfg)) p
          (field_bool (str "enabled") j (listen_enabled cfg)) b).

Definition ParseCertificatesConfig (j : Json) (cfg : CertificatesConfig) : CertificatesConfig :=
  mkCertificates
    (field_string (str "cert_path") j (cert_path cfg))
    (field_string (str "key_path") j (key_path cfg))
    (field_string (str "ca_path") j (ca_path cfg))
    (field_string (str "sm2_cert_path") j (sm2_cert_path cfg))
    (field_string (str "sm2_key_path") j (sm2_key_path cfg))
    (field_string (str "sm2_sign_cert_path") j (sm2_sign_cert_path cfg))
    (field_string (str "sm2_sign_key_path") j (sm2_sign_key_path cfg))
    (field_string (str "cipher_suite") j (cipher_suite cfg)).

Definition ParseDebugPointConfig (j : Json) (cfg : DebugPointConfig) : option DebugPointConfig :=
  p ← field_number get_uint16 (str "server_port") j (point_server_port cfg);
  d ← field_number get_uint32 (str "delay_ms") j (delay_ms cfg);
  e ← field_number get_int32 (str "error_code") j (error_code cfg);
  q ← field_number get_uint32 (str "probability") j (probability cfg);
  Some (mkPoint p (field_string (str "point_name") j (point_name cfg))
          (field_string (str "action") j (action cfg)) d e q).

Definition ParseDebugConfig (j : Json) (cfg : DebugConfig) : option DebugConfig :=
  let en := field_bool (str "enabled") j (debug_enabled cfg) in
  match member (str "debug_points") j with
  | Some (JArray l) =>
      ps ← mapM (fun dp => ParseDebugPointConfig dp default_point) l; Some (mkDebug en ps)
  | _ => Some (mkDebug en (debug_points cfg))
  end.

Definition ParseCallbackConfig (j : Json) (cfg : CallbackConfig) : option CallbackConfig :=
  p ← field_number get_uint16 (str "server_port") j (callback_server_port cfg);
  Some (mkCallback p (field_string (str "script_path") j (script_path cfg))).

Definition ParseCallbacksConfig (j : Json) (cfg : CallbacksConfig) : option CallbacksConfig :=
  let dir := field_string (str "callbacks_dir") j (callbacks_dir cfg) in
  match member (str "callbacks") j with
  | Some (JArray l) =>
      cs ← mapM (fun cb => ParseCallbackConfig cb default_callback) l; Some (mkCallbacks dir cs)
  | _ => Some (mkCallbacks dir (callbacks cfg))
  end.

Definition ParseLoggingConfig (j : Json) (cfg : LoggingConfig) : LoggingConfig :=
  mkLogging (field_string (str "level") j (level cfg)) (field_string (str "file") j (file cfg))
    (field_bool (str "console_output") j (console_output cfg)).

Definition ParseHttp2Config (j : Json) (cfg : Http2Config) : Http2Config :=
  mkHttp2 (field_bool (str "enabled") j (http2_enabled cfg))
    (field_bool (str "allow_h2c") j (allow_h2c cfg)).

(** The member [k] of [j] when it is an object. *)
Definition section (k : bytes) (j : Json) : option Json :=
  match member k j with Some (JObject m) => Some (JObject m) | _ => None end.

(** The body of [load_from_string] after the parser. *)
Definition load_json (j : Json) (c : t) : option t :=
  ls ← match member (str "listens") j with
       | Some (JArray l) => mapM (fun item => ParseListenConfig item default_listen) l
       | _ => Some (listens_ c)
       end;
  d ← match section (str "debug") j with
      | Some s => ParseDebugConfig s (debug_ c)
      | None => Some (debug_ c)
      end;
  cb ← match section (str "callbacks") j with
       | Some s => cb ← ParseCallbacksConfig s (callbacks_ c); Some (cb, callbacks_dir cb)
       | None => Some (callbacks_ c, callbacks_dir_ c)
       end;
  Some (mk ls
    match section (str "certificates") j with
    | Some s => ParseCertificatesConfig s (certificates_ c)
    | None => certificates_ c
    end d cb.1
    match section (str "logging") j with
    | Some s => ParseLoggingConfig s (logging_ c)
    | None => logging_ c
    end
    match section (str "http2") j with
    | Some s => ParseHttp2Config s (http2_ c)
    | None => http2_ c
    end cb.2).

Section Load.
(** [Json::parse]; [None] is an exception. *)
Variable parse : bytes -> option Json.

Definition load_from_string (json_str : bytes) (c : t) : option (t * Z) :=
  match parse json_str with
  | None => Some (c, -1)
  | Some j => c' ← load_json j c; Some (c', 0)
  end.

(** [content] is what the file holds, [None] if it cannot be opened. *)
Definition load_from_file (content : option bytes) (c : t) : option (t * Z) :=
  match content with
  | None => Some (c, -1)
  | Some s => load_from_string s c
  end.
End Load.

Definition validate (c : t) : Z :=
  match listens_ c with
  | [] => -1
  | ls => if existsb (fun l => port l =? 0) ls then -1 else 0
  end.

(** * Specification: the file that describes a configuration *)

Definition listen_json (l : ListenConfig) : Json :=
  JObject [(str "backlog", JInt (backlog l)); (str "enabled", JBool (listen_enabled l));
           (str "ip", JString (ip l)); (str "port", JInt (port l))].
Definition certificates_json (c : CertificatesConfig) : Json :=
  JObject [(str "ca_path", JString (ca_path c)); (str "cert_path", JString (cert_path c));
           (str "cipher_suite", JString (cipher_suite c)); (str "key_path", JString (key_path c));
           (str "sm2_cert_path", JString (sm2_cert_path c)); (str "sm2_key_path", JString (sm2_key_path c));
           (str "sm2_sign_cert_path", JString (sm2_sign_cert_path c));
           (str "sm2_sign_key_path", JString (sm2_sign_key_path c))].
Definition point_json (p : DebugPointConfig) : Json :=
  JObject [(str "action", JString (action p)); (str "delay_ms", JInt (delay_ms p));
           (str "error_code", JInt (error_code p)); (str "point_name", JString (point_name p));
           (str "probability", JInt (probability p)); (str "server_port", JInt (point_server_port p))].
Definition callback_json (c : CallbackConfig) : Json :=
  JObject [(str "script_path", JString (script_path c)); (str "server_port", JInt (callback_server_port c))].
Definition config_json (c : t) : Json :=
  JObject
    [(str "callbacks", JObject [(str "callbacks", JArray (map callback_json (callbacks (callbacks_ c))));
                                (str "callbacks_dir", JString (callbacks_dir (callbacks_ c)))]);
     (str "certificates", certificates_json (certificates_ c));
     (str "debug", JObject [(str "debug_points", JArray (map point_json (debug_points (debug_ c))));
                            (str "enabled", JBool (debug_enabled (debug_ c)))]);
     (str "http2", JObject [(str "allow_h2c", JBool (allow_h2c (http2_ c)));
                            (str "enabled", JBool (http2_enabled (http2_ c)))]);
     (str "listens", JArray (map listen_json (listens_ c)));
     (str "logging", JObject [(str "console_output", JBool (console_output (logging_ c)));
                              (str "file", JString (file (logging_ c)));
                              (str "level", JString (level (logging_ c)))])].

(** The ranges of the fields' types. *)
Definition listen_wf (l : ListenConfig) : Prop := is_u16 (port l) /\ is_u32 (backlog l).
Definition point_wf (p : DebugPointConfig) : Prop :=
  is_u16 (point_server_port p) /\ is_u32 (delay_ms p) /\ - 2 ^ 31 <= error_code p < 2 ^ 31 /\
  is_u32 (probability p).
Record wf (c : t) : Prop := {
  wf_listens : Forall listen_wf (listens_ c);
  wf_points : Forall point_wf (debug_points (debug_ c));
  wf_callbacks : Forall (fun cb => is_u16 (callback_server_port cb)) (callbacks (callbacks_ c));
}.

(** * Lemmas *)

Lemma u16_id z : is_u16 z -> u16 z = z.
Proof. unfold is_u16, u16, wrap. intros. by apply Z.mod_small. Qed.
Lemma u32_id z : is_u32 z -> u32 z = z.
Proof. unfold is_u32, u32, wrap. intros. by apply Z.mod_small. Qed.
Lemma i32_id z : - 2 ^ 31 <= z < 2 ^ 31 -> i32 z = z.
Proof. unfold i32. intros. rewrite Z.mod_small; lia. Qed.

Lemma mapM_json {A} (parse : Json -> option A) (json : A -> Json) (ok : A -> Prop) l :
  (forall x, ok x -> parse (json x) = Some x) -> Forall ok l -> mapM parse (map json l) = Some l.
Proof. intros Hp. induction 1 as [|x l Hx _ IH]; cbn; [done|]. by rewrite Hp, IH. Qed.

Lemma listen_json_parses l c : listen_wf l -> ParseListenConfig (listen_json l) c = Some l.
Proof.
  intros [Hp Hb]. unfold ParseListenConfig, listen_json.
  change (field_number get_uint16 _ _ _) with (Some (u16 (port l))).
  change (field_number get_uint32 _ _ _) with (Some (u32 (backlog l))).
  cbn [mbind option_bind]. rewrite u16_id, u32_id by done. by destruct l.
Qed.

Lemma point_json_parses p c : point_wf p -> ParseDebugPointConfig (point_json p) c = Some p.
Proof.
  intros (Hp & Hd & He & Hq). unfold ParseDebugPointConfig, point_json.
  change (field_number get_uint16 _ _ _) with (Some (u16 (point_server_port p))).
  change (field_number get_uint32 (str "delay_ms") _ _) with (Some (u32 (delay_ms p))).
  change (field_number get_uint32 (str "probability") _ _) with (Some (u32 (probability p))).
  change (field_number get_int32 _ _ _) with (Some (i32 (error_code p))).
  cbn [mbind option_bind]. rewrite u16_id, !u32_id, i32_id by done. by destruct p.
Qed.

Lemma callback_json_parses cb c :
  is_u16 (callback_server_port cb) -> ParseCallbackConfig (callback_json cb) c = Some cb.
Proof.
  intros Hp. unfold ParseCallbackConfig, callback_json.
  change (field_number get_uint16 _ _ _) with (Some (u16 (callback_server_port cb))).
  cbn [mbind option_bind]. rewrite u16_id by done. by destruct cb.
Qed.

Lemma certificates_json_parses x c : ParseCertificatesConfig (certificates_json x) c = x.
Proof. by destruct x. Qed.

(** C30. Every setting is read. Loading the file that describes a
    configuration, whatever was loaded before, gives that configuration (the
    callback directory is then the one of the callbacks section). *)
Theorem config_load_roundtrip parse s c c0 :
  wf c -> callbacks_dir_ c = callbacks_dir (callbacks_ c) -> parse s = Some (config_json c) ->
  load_from_string parse s c0 = Some (c, 0) /\ load_from_file parse (Some s) c0 = Some (c, 0).
Proof.
  intros [Hl Hp Hc] Hdir Hs. unfold load_from_file, load_from_string. rewrite Hs.
  assert (load_json (config_json c) c0 = Some c) as ->; [|done].
  unfold load_json.
  change (member (str "listens") (config_json c)) with (Some (JArray (map listen_json (listens_ c)))).
  change (section (str "certificates") (config_json c)) with (Some (certificates_json (certificates_ c))).
  change (section (str "debug") (config_json c)) with (Some (JObject
    [(str "debug_points", JArray (map point_json (debug_points (debug_ c))));
     (str "enabled", JBool (debug_enabled (debug_ c)))])).
  change (section (str "callbacks") (config_json c)) with (Some (JObject
    [(str "callbacks", JArray (map callback_json (callbacks (callbacks_ c))));
     (str "callbacks_dir", JString (callbacks_dir (callbacks_ c)))])).
  cbv beta iota.
  rewrite (mapM_json _ listen_json listen_wf) by (done || by intros; apply listen_json_parses).
  cbn [mbind option_bind]. rewrite certificates_json_parses. unfold ParseDebugConfig, ParseCallbacksConfig.
  change (member (str "debug_points") _) with (Some (JArray (map point_json (debug_points (debug_ c))))).
  change (member (str "callbacks") _) with (Some (JArray (map callback_json (callbacks (callbacks_ c))))).
  cbv beta iota.
  rewrite (mapM_json _ point_json point_wf) by (done || by intros; apply point_json_parses).
  rewrite (mapM_json _ callback_json (fun cb => is_u16 (callback_server_port cb)))
    by (done || by intros; apply callback_json_parses).
  destruct c as [ls ce [de dp] [cd cbs] [lv fi co] [he ha] dir]; cbn in Hdir |- *. by rewrite Hdir.
Qed.

Lemma field_number_range conv get lo hi k j old r :
  get = get_number conv lo hi -> (forall z, lo <= conv z <= hi) -> lo <= old <= hi ->
  field_number get k j old = Some r -> lo <= r <= hi.
Proof.
  intros -> Hc Ho. unfold field_number. destruct (member k j) as [[]|]; cbn; try (intros [= <-]; done || apply Hc).
  destruct ((lo <=? _) && (_ <=? hi)) eqn:E; zb; [|done]. by intros [= <-].
Qed.

Lemma uint16_range k j old r : is_u16 old -> field_number get_uint16 k j old = Some r -> is_u16 r.
Proof.
  unfold is_u16. intros Ho E.
  pose proof (field_number_range u16 _ 0 (2 ^ 16 - 1) k j old r eq_refl) as Hr.
  unfold u16, wrap in Hr. enough (0 <= r <= 2 ^ 16 - 1) by lia. apply Hr; [|lia|exact E].
  intros z. pose proof (Z.mod_pos_bound z (2 ^ 16)) as Hm. lia.
Qed.
Lemma uint32_range k j old r : is_u32 old -> field_number get_uint32 k j old = Some r -> is_u32 r.
Proof.
  unfold is_u32. intros Ho E.
  pose proof (field_number_range u32 _ 0 (2 ^ 32 - 1) k j old r eq_refl) as Hr.
  unfold u32, wrap in Hr. enough (0 <= r <= 2 ^ 32 - 1) by lia. apply Hr; [|lia|exact E].
  intros z. pose proof (Z.mod_pos_bound z (2 ^ 32)) as Hm. lia.
Qed.
Lemma int32_range k j old r : - 2 ^ 31 <= old < 2 ^ 31 ->
  field_number get_int32 k j old = Some r -> - 2 ^ 31 <= r < 2 ^ 31.
Proof.
  intros Ho E.
  pose proof (field_number_range i32 _ (- 2 ^ 31) (2 ^ 31 - 1) k j old r eq_refl) as Hr.
  unfold i32 in Hr. enough (- 2 ^ 31 <= r <= 2 ^ 31 - 1) by lia. apply Hr; [|lia|exact E].
  intros z. pose proof (Z.mod_pos_bound (z + 2 ^ 31) (2 ^ 32)) as Hm. lia.
Qed.

Lemma mapM_forall {A} (f : Json -> option A) (ok : A -> Prop) l k :
  (forall j x, f j = Some x -> ok x) -> mapM f l = Some k -> Forall ok k.
Proof.
  intros Hf. revert k. induction l as [|j l IH]; cbn; intros k; [by intros [= <-]|].
  destruct (f j) as [x|] eqn:E; cbn; [|done]. destruct (mapM f l) as [k'|]; cbn; [|done].
  intros [= <-]. constructor; eauto.
Qed.

Lemma parse_listen_wf j l : ParseListenConfig j default_listen = Some l -> listen_wf l.
Proof.
  unfold ParseListenConfig. destruct (field_number get_uint16 _ _ _) as [p|] eqn:E1; cbn [mbind option_bind]; [|done].
  destruct (field_number get_uint32 _ _ _) as [b|] eqn:E2; cbn [mbind option_bind]; [|done]. intros [= <-].
  split; cbn; [eapply uint16_range, E1|eapply uint32_range, E2]; done.
Qed.

Lemma parse_point_wf j x : ParseDebugPointConfig j default_point = Some x -> point_wf x.
Proof.
  unfold ParseDebugPointConfig. destruct (field_number get_uint16 _ _ _) as [p|] eqn:E1; cbn [mbind option_bind]; [|done].
  destruct (field_number get_uint32 (str "delay_ms") _ _) as [d|] eqn:E2; cbn [mbind option_bind]; [|done].
  destruct (field_number get_int32 _ _ _) as [e|] eqn:E3; cbn [mbind option_bind]; [|done].
  destruct (field_number get_uint32 (str "probability") _ _) as [q|] eqn:E4; cbn [mbind option_bind]; [|done].
  intros [= <-]. repeat apply conj; cbn;
    first [eapply uint16_range, E1; done | eapply uint32_range; [|exact E2]; done
          | eapply int32_range; [|exact E3]; done | eapply uint32_range; [|exact E4]; done].
Qed.

Lemma parse_callback_wf j x : ParseCallbackConfig j default_callback = Some x -> is_u16 (callback_server_port x).
Proof.
  unfold ParseCallbackConfig. destruct (field_number get_uint16 _ _ _) as [p|] eqn:E1; cbn [mbind option_bind]; [|done].
  intros [= <-]. cbn. by eapply uint16_range, E1.
Qed.

Lemma load_json_wf j c c' : wf c -> load_json j c = Some c' -> wf c'.
Proof.
  intros [Hl Hp Hc]. unfold load_json.
  assert (Hls : forall ls, match member (str "listens") j with
      | Some (JArray l) => mapM (fun item => ParseListenConfig item default_listen) l
      | _ => Some (listens_ c) end = Some ls -> Forall listen_wf ls).
  { intros ls. destruct (member _ j) as [[]|]; try (by intros [= <-]).
    apply mapM_forall. intros. by eapply parse_listen_wf. }
  match goal with |- ?m ≫= _ = _ -> _ => destruct m as [ls|]; cbn [mbind option_bind]; [|done] end.
  specialize (Hls _ eq_refl).
  match goal with |- ?m ≫= _ = _ -> _ => destruct m as [d|] eqn:Ed; cbn [mbind option_bind]; [|done] end.
  assert (Hd : Forall point_wf (debug_points d)).
  { destruct (section (str "debug") j) as [sj|]; [|by injection Ed as <-]. revert Ed. unfold ParseDebugConfig.
    destruct (member _ sj) as [[]|]; try (by intros [= <-]).
    destruct (mapM _ _) as [ps|] eqn:Em; cbn; [|done]. intros [= <-]. cbn.
    eapply mapM_forall; [|exact Em]. intros ? ?. apply parse_point_wf. }
  match goal with |- ?m ≫= _ = _ -> _ => destruct m as [cb|] eqn:Ec; cbn [mbind option_bind]; [|done] end.
  assert (Hcb : Forall (fun x => is_u16 (callback_server_port x)) (callbacks cb.1)).
  { destruct (section (str "callbacks") j) as [sj|]; [|by injection Ec as <-]. revert Ec.
    unfold ParseCallbacksConfig. destruct (member _ sj) as [[]|]; try (by intros [= <-]).
    destruct (mapM _ _) as [ps|] eqn:Em; cbn; [|done]. intros [= <-]. cbn.
    eapply mapM_forall; [|exact Em]. intros ? ?. apply parse_callback_wf. }
  intros [= <-]. by split.
Qed.

(** ** When loading is defined

    A fraction must fit the type it is converted to, once truncated. *)

Definition number_ok (lo hi : Z) (k : bytes) (j : Json) : Prop :=
  match member k j with Some (JFloat n d) => lo <= Z.quot n (Z.pos d) <= hi | _ => True end.
Definition listen_numbers (j : Json) : Prop :=
  number_ok 0 65535 (str "port") j /\ number_ok 0 (2 ^ 32 - 1) (str "backlog") j.
Definition point_numbers (j : Json) : Prop :=
  number_ok 0 65535 (str "server_port") j /\ number_ok 0 (2 ^ 32 - 1) (str "delay_ms") j /\
  number_ok (- 2 ^ 31) (2 ^ 31 - 1) (str "error_code") j /\ number_ok 0 (2 ^ 32 - 1) (str "probability") j.
Definition callback_numbers (j : Json) : Prop := number_ok 0 65535 (str "server_port") j.
Definition items (k : bytes) (ok : Json -> Prop) (j : Json) : Prop :=
  match member k j with Some (JArray l) => Forall ok l | _ => True end.

(** The numbers of the listeners, the debug points and the callbacks. *)
Definition numbers_ok (j : Json) : Prop :=
  items (str "listens") listen_numbers j /\
  match member (str "debug") j with
  | Some (JObject m) => items (str "debug_points") point_numbers (JObject m) | _ => True end /\
  match member (str "callbacks") j with
  | Some (JObject m) => items (str "callbacks") callback_numbers (JObject m) | _ => True end.

Lemma field_number_defined conv lo hi k j old :
  is_Some (field_number (get_number conv lo hi) k j old) <-> number_ok lo hi k j.
Proof.
  unfold field_number, number_ok. destruct (member k j) as [[| | |n d| | |]|]; cbn; try (split; [done|by eexists]).
  destruct (_ && _)%bool eqn:E; zb; (split; [|intros ?]); [lia|by eexists|by intros [? ?]|].
  exfalso. apply not_true_iff_false in E. apply E. zb. lia.
Qed.

Lemma bind_defined {A B} (m : option A) (f : A -> option B) (P Q : Prop) :
  (is_Some m <-> P) -> (forall x, m = Some x -> is_Some (f x) <-> Q) -> is_Some (m ≫= f) <-> P /\ Q.
Proof.
  intros HP HQ. rewrite <- HP. destruct m as [x|]; cbn.
  - rewrite (HQ x eq_refl). split; [by split; [eexists|]|by intros [_ ?]].
  - split; [by intros [? ?]|by intros [? _]].
Qed.

Lemma ret_defined {A} (x : A) : is_Some (Some x) <-> True.
Proof. split; [done|by eexists]. Qed.

Lemma last_defined {A B} (m : option A) (g : A -> B) P : (is_Some m <-> P) -> is_Some (x ← m; Some (g x)) <-> P.
Proof. intros <-. destruct m; cbn; split; try done; intros _; by eexists. Qed.

Lemma items_defined {A} (f : Json -> option A) ok k j old :
  (forall x, is_Some (f x) <-> ok x) ->
  is_Some (match member k j with Some (JArray l) => mapM f l | _ => Some old end) <-> items k ok j.
Proof.
  intros Hf. unfold items. destruct (member k j) as [[]|]; try apply ret_defined.
  rewrite mapM_is_Some. by apply Forall_iff.
Qed.

Lemma parse_listen_defined x c : is_Some (ParseListenConfig x c) <-> listen_numbers x.
Proof.
  unfold ParseListenConfig, listen_numbers. apply bind_defined; [apply field_number_defined|]. intros p _.
  apply last_defined, field_number_defined.
Qed.

Lemma parse_point_defined x c : is_Some (ParseDebugPointConfig x c) <-> point_numbers x.
Proof.
  unfold ParseDebugPointConfig, point_numbers. do 3 (apply bind_defined; [apply field_number_defined|]; intros ? _).
  apply last_defined, field_number_defined.
Qed.

Lemma parse_callback_defined x c : is_Some (ParseCallbackConfig x c) <-> callback_numbers x.
Proof.
  unfold ParseCallbackConfig, callback_numbers. apply last_defined, field_number_defined.
Qed.

Lemma parse_debug_defined j c : is_Some (ParseDebugConfig j c) <-> items (str "debug_points") point_numbers j.
Proof.
  unfold ParseDebugConfig, items. destruct (member _ j) as [[]|]; try apply ret_defined.
  apply last_defined. rewrite mapM_is_Some. apply Forall_iff. intros x. apply parse_point_defined.
Qed.

Lemma parse_callbacks_defined j c : is_Some (ParseCallbacksConfig j c) <-> items (str "callbacks") callback_numbers j.
Proof.
  unfold ParseCallbacksConfig, items. destruct (member _ j) as [[]|]; try apply ret_defined.
  apply last_defined. rewrite mapM_is_Some. apply Forall_iff. intros x. apply parse_callback_defined.
Qed.

Lemma load_json_defined j c : is_Some (load_json j c) <-> numbers_ok j.
Proof.
  unfold load_json, numbers_ok. apply bind_defined; [apply items_defined; intros; apply parse_listen_defined|].
  intros ls _. apply bind_defined.
  { unfold section. destruct (member _ j) as [[]|]; try apply ret_defined. apply parse_debug_defined. }
  intros d _. apply last_defined.
  unfold section. destruct (member _ j) as [[]|]; try apply ret_defined.
  apply last_defined, parse_callbacks_defined.
Qed.

(** C31. What a load can do. Text the library cannot parse, or a file that
    cannot be opened, gives -1 and leaves the configuration as it was; any
    other text gives 0, whatever its members are, with one exception: loading is
    undefined exactly when the text has, in a listener, debug point or callback,
    a number with a fraction or an exponent that does not fit the field's type
    once truncated ([numbers_ok]; a port of 1e10, say). The configuration that is
    left has its numbers within the ranges of their types. [validate] then
    returns 0 exactly when there is a listener and every port is from 1 to
    65535. *)
Theorem config_load_outcomes parse content c : wf c ->
  (is_Some (load_from_file parse content c) <-> forall j, content ≫= parse = Some j -> numbers_ok j) /\
  forall c' ret, load_from_file parse content c = Some (c', ret) ->
    (ret = -1 /\ c' = c /\ content ≫= parse = None \/ ret = 0 /\ is_Some (content ≫= parse)) /\
    wf c' /\
    (validate c' = 0 <-> listens_ c' <> [] /\ Forall (fun l => 1 <= port l <= 65535) (listens_ c')) /\
    (validate c' = 0 \/ validate c' = -1).
Proof.
  intros Hw. split.
  { unfold load_from_file, load_from_string. destruct content as [s|]; cbn [mbind option_bind]; [|split; [done|by eexists]].
    destruct (parse s) as [j|]; [|split; [done|by eexists]].
    transitivity (is_Some (load_json j c)); [by destruct (load_json j c); split; intros [? ?]; try done; eexists|].
    rewrite load_json_defined. split; [by intros ? ? [= <-]|auto]. }
  intros c' ret E. assert (Hv : forall c, wf c ->
    (validate c = 0 <-> listens_ c <> [] /\ Forall (fun l => 1 <= port l <= 65535) (listens_ c)) /\
    (validate c = 0 \/ validate c = -1)).
  { clear. intros c [Hl _ _]. unfold validate. destruct (listens_ c) as [|l ls]; [naive_solver|].
    destruct (existsb _ (l :: ls)) eqn:Eb; (split; [split|by auto]).
    - done.
    - apply existsb_exists in Eb as (x & Hx & Hx0). intros [_ Hf]. rewrite Forall_forall in Hf.
      specialize (Hf x (proj2 (list_elem_of_In _ _) Hx)). zb. lia.
    - intros _. split; [done|]. rewrite Forall_forall in *. intros x Hx. destruct (Hl x Hx) as [Hp _].
      unfold is_u16 in Hp. assert (port x <> 0); [|lia]. intros H0. rewrite <- not_true_iff_false in Eb.
      apply Eb, existsb_exists. exists x. split; [by apply list_elem_of_In|]. by rewrite H0.
    - done. }
  revert E. unfold load_from_file, load_from_string. destruct content as [s|]; cbn [mbind option_bind].
  - destruct (parse s) as [j|] eqn:Ej.
    + destruct (load_json j c) as [c1|] eqn:El; cbn; [|done]. intros [= <- <-].
      assert (Hw1 : wf c1) by (by eapply load_json_wf).
      split; [by right|]. split; [done|]. by apply Hv.
    + intros [= <- <-]. split; [by left|]. split; [done|]. by apply Hv.
  - intros [= <- <-]. split; [by left|]. split; [done|]. by apply Hv.
Qed.

Lemma config_reset_wf : wf reset.
Proof. split; cbn; [|constructor|constructor]. constructor; [|constructor]. by split. Qed.

Lemma config_load_roundtrip_witness :
  load_from_file (fun _ => Some (config_json reset)) (Some []) reset = Some (reset, 0).
Proof.
  apply (config_load_roundtrip (fun _ => Some (config_json reset)) [] reset reset config_reset_wf eq_refl eq_refl).
Defined.

(** A port of 1e10 is not loaded. *)
Lemma config_load_outcomes_witness :
  let file z := JObject [(str "listens", JArray [JObject [(str "port", JFloat z 1)]])] in
  ~ is_Some (load_from_file (fun _ => Some (file (10 ^ 10))) (Some []) reset) /\
  is_Some (load_from_file (fun _ => Some (file 443)) (Some []) reset) /\
  load_from_file (fun _ => None) (Some (str "{")) reset = Some (reset, -1) /\ wf reset /\
  (validate reset = 0 \/ validate reset = -1).
Proof.
  intros file. split_and!; [| |reflexivity|exact config_reset_wf|].
  - intros H. apply (proj1 (config_load_outcomes (fun _ => Some (file (10 ^ 10))) (Some []) reset config_reset_wf))
      with (j := file (10 ^ 10)) in H; [|reflexivity].
    destruct H as [H _]. apply Forall_inv in H. destruct H as [[_ H] _]. by apply H.
  - apply (config_load_outcomes (fun _ => Some (file 443)) (Some []) reset config_reset_wf).
    intros j [= <-]. split; [|done]. repeat constructor; by vm_compute.
  - apply (config_load_outcomes (fun _ => None) (Some (str "{")) reset config_reset_wf) with (ret := -1). reflexivity.
Defined.

(** A port is taken modulo [2^16] before anything checks it: a file that asks
    for port [65536 + p] is accepted and the server listens on [p]. *)
Theorem config_port_wraps parse s z c :
  parse s = Some (JObject [(str "listens", JArray [JObject [(str "port", JInt z)]])]) ->
  exists c', load_from_string parse s c = Some (c', 0) /\ port <$> listens_ c' = [z mod 2 ^ 16] /\
    (validate c' = 0 <-> z mod 2 ^ 16 <> 0).
Proof.
  intros Hs. unfold load_from_string. rewrite Hs. eexists. split; [reflexivity|]. split; [reflexivity|].
  unfold validate. cbn [listens_ existsb port]. change (u16 z) with (z mod 2 ^ 16).
  destruct (z mod 2 ^ 16 =? 0) eqn:E; zb; cbn [orb]; split; done.
Qed.

Lemma config_port_wraps_witness :
  exists c', load_from_string (fun _ => Some (JObject [(str "listens", JArray [JObject [(str "port", JInt 73979)]])]))
      [] reset = Some (c', 0) /\ port <$> listens_ c' = [8443].
Proof.
  destruct (config_port_wraps (fun _ => Some (JObject [(str "listens", JArray [JObject [(str "port", JInt 73979)]])]))
    [] 73979 reset eq_refl) as (c' & E & Hp & _).
  exists c'. split; [exact E|exact Hp].
Defined.
End Config.
