(* ===== verification/Factory.v ===== *)
(** From the configuration to a protocol handler: the translation of the
    settings (protocol/source/config_converter.cpp) and the two factories
    (protocol/source/protocol_handler_factory.cpp and the [ProtocolFactory] of
    protocol/source/protocol_handler.cpp). *)

From S2P Require Import Prelude StdMap ByteBuffer CString Hpack Http Tls Http1 Http2 Config.
Open Scope Z_scope.

Module ConfigConverter.
Definition is_empty (s : bytes) : bool := bool_decide (s = []).

Definition convert_cert_config (src : Config.CertificatesConfig) : CertConfig :=
  mkCertConfig (Config.cert_path src) (Config.key_path src) (Config.ca_path src)
    (Config.sm2_cert_path src) (Config.sm2_key_path src)
    (Config.sm2_sign_cert_path src) (Config.sm2_sign_key_path src)
    (negb (is_empty (Config.sm2_cert_path src)) || negb (is_empty (Config.sm2_key_path src)) ||
     negb (is_empty (Config.sm2_sign_cert_path src)) || negb (is_empty (Config.sm2_sign_key_path src))).

Definition convert_tls_config (config : Config.t) : TlsConfig :=
  mkTlsConfig (Config.cipher_suite (Config.certificates_ config))
    (if Config.http2_enabled (Config.http2_ config) then ALPN_HTTP2_HTTP11 else ALPN_HTTP11)
    true true.
End ConfigConverter.

Module ProtocolFactory.

(** The enumeration's values are integers: any other one is possible. *)
Definition UNKNOWN : Z := 2.
Definition HTTP_1_1 : Z := 0.
Definition HTTP_2 : Z := 1.

Section ProtocolFactory.
Context {T : Type} `{!TlsLayer T}.

(** The two subclasses of [ProtocolHandler]. *)
Inductive ProtocolHandler :=
| AnHttp1Handler (h : Http1Handler.t T)
| AnHttp2Handler (h : Http2Handler.t T).

(** [tls] is the new [TlsHandler]; [conn_] is null until [init]. *)
Definition create_handler (type : Z) (tls : T) : option ProtocolHandler :=
  if type =? HTTP_1_1 then Some (AnHttp1Handler (Http1Handler.create false tls))
  else if type =? HTTP_2 then Some (AnHttp2Handler (Http2Handler.create false tls))
  else None.

Definition select_protocol_by_alpn (alpn : bytes) : Z :=
  if bool_decide (alpn = str "h2") then HTTP_2
  else if bool_decide (alpn = str "http/1.1") then HTTP_1_1
  else HTTP_1_1.

(** [ProtocolHandlerFactory::create]. *)
Definition create (config : Config.t) (tls : T) : ProtocolHandler :=
  if Config.http2_enabled (Config.http2_ config)
  then AnHttp1Handler (Http1Handler.create false tls)
  else AnHttp1Handler (Http1Handler.create false tls).

(** What a successful [init] of the handler does to it (its TLS handler, already
    initialised, is [tls]). *)
Definition initialised (h : ProtocolHandler) (tls : T) : option (ProtocolHandler * Z) :=
  match h with
  | AnHttp1Handler _ => Some (AnHttp1Handler (Http1Handler.create true tls), PROTOCOL_OK)
  | AnHttp2Handler _ => '(h, r) ← Http2Handler.init true tls; Some (AnHttp2Handler h, r)
  end.

(** The virtual [on_read]; [None]: undefined behaviour, or the loop not ended. *)
Definition on_read (h : ProtocolHandler) : option (ProtocolHandler * Z) :=
  match h with
  | AnHttp1Handler h =>
      match Http1Handler.on_read h with
      | Http1Handler.Returned h' r => Some (AnHttp1Handler h', r)
      | _ => None
      end
  | AnHttp2Handler h =>
      match Http2Handler.on_read h with
      | Http2Handler.Returned h' r => Some (AnHttp2Handler h', r)
      | _ => None
      end
  end.

Definition handler_tls (h : ProtocolHandler) : T :=
  match h with
  | AnHttp1Handler h => Http1Handler.tls_handler_ h
  | AnHttp2Handler h => Http2Handler.tls_handler_ h
  end.

(** * Negotiation against service *)

Definition bad_request_response : HttpMessage.HttpResponse :=
  HttpMessage.set_status 400 (str "Bad Request") HttpMessage.response_reset.

Lemma not_http11_line p : HttpParser.parse_request_line p (str "PRI * HTTP/2.0") =
  (HttpParser.set_error p PROTOCOL_ERROR_VERSION (str "HTTP version not supported"),
   PROTOCOL_ERROR_VERSION, (str "PRI", str "*", str "HTTP/2.0")).
Proof. reflexivity. Qed.

(** The HTTP/1 handler refuses the HTTP/2 preface. *)
Lemma http1_refuses_preface tls tls1 x tls2 n :
  tls_read tls Http1Handler.TEMP_BUFFER_SIZE = Some (tls1, PROTOCOL_OK, Http2Handler.client_preface ++ x) ->
  tls_write tls1 (HttpParser.render bad_request_response) = Some (tls2, PROTOCOL_OK, n) ->
  exists h', Http1Handler.on_read (Http1Handler.create true tls) =
    Http1Handler.Returned h' PROTOCOL_ERROR_INVALID /\ Http1Handler.tls_handler_ h' = tls2.
Proof.
  intros Hr Hw. unfold Http1Handler.on_read. cbn [Http1Handler.tls_handler_ Http1Handler.create]. rewrite Hr.
  pose proof (tls_read_len _ _ _ _ _ Hr ltac:(done)) as Hlen.
  change (PROTOCOL_OK =? PROTOCOL_ERROR_EAGAIN) with false. change (PROTOCOL_OK <? 0) with false. cbv iota.
  assert (Hpos : 24 <= blen (Http2Handler.client_preface ++ x)).
  { rewrite blen_app. change (blen Http2Handler.client_preface) with 24. pose proof (blen_nonneg x). lia. }
  ifz; [|lia].
  destruct (Buffer.write_spec (Buffer.create Buffer.DEFAULT_INITIAL_CAPACITY)
    (Http2Handler.client_preface ++ x) (Buffer.create_wf _)) as (b & Eb & Hwb & Hcb).
  { change (Buffer.content _) with (@nil byte). change (blen (@nil byte)) with 0.
    unfold Http1Handler.TEMP_BUFFER_SIZE in Hlen. unfold Buffer.MAX_CAPACITY. lia. }
  change (Http1Handler.plaintext_buffer_ _) with (Buffer.create Buffer.DEFAULT_INITIAL_CAPACITY).
  rewrite Eb. cbn [fmap option_fmap option_map fst].
  unfold Http1Handler.loop_fuel. cbn [Http1Handler.loop Http1Handler.step Http1Handler.state_
    Http1Handler.set_parse Http1Handler.set_tls Http1Handler.create].
  unfold Http1Handler.expect_request_line.
  destruct (HttpParser.read_line_spec HttpParser.init b HttpParser.MAX_LINE_LEN (str "PRI * HTTP/2.0")
    (HttpParser.CRLF ++ str "SM" ++ HttpParser.CRLF ++ HttpParser.CRLF ++ x) Hwb) as (b1 & Er & Hw1 & Hc1);
    [done|by rewrite Hcb|by apply (bool_decide_unpack _)|by vm_compute|].
  cbn [Http1Handler.parser_ Http1Handler.plaintext_buffer_ Http1Handler.set_parse Http1Handler.set_tls
    Http1Handler.create]. rewrite Er, not_http11_line.
  change (PROTOCOL_ERROR_VERSION <? 0) with true. cbv iota. unfold Http1Handler.bad_request.
  rewrite Http1Handler.generate_response_fits by (vm_compute; discriminate).
  cbn [Http1Handler.response_ Http1Handler.set_response Http1Handler.set_state Http1Handler.set_request
    Http1Handler.set_parse Http1Handler.set_tls Http1Handler.create Http1Handler.tls_handler_].
  fold bad_request_response. rewrite Hw. cbn. eexists. done.
Qed.
End ProtocolFactory.

Lemma server_protocols_h2 config : Config.http2_enabled (Config.http2_ config) = true ->
  Alpn.server_protocols (alpn_protocols (ConfigConverter.convert_tls_config config)) = [str "h2"; str "http/1.1"].
Proof. intros H. unfold ConfigConverter.convert_tls_config. rewrite H. reflexivity. Qed.

Lemma select_first alpn ps p l : Forall Alpn.valid_name ps -> Alpn.server_protocols alpn = p :: l -> p ∈ ps ->
  Alpn.select alpn (Alpn.encode_offer ps) = Some p.
Proof.
  intros Hv Hs Hp. unfold Alpn.select. rewrite Hs. cbn [List.find].
  rewrite Alpn.client_offers_spec, bool_decide_eq_true_2; [done..|].
  pose proof (Alpn.length_encode_offer ps). lia.
Qed.

(** HTTP/2 is negotiated but not served. Under every configuration that
    enables HTTP/2 (the default one does), a client that offers [h2] is given
    [h2], for which the protocol factory's own rule names HTTP/2; but the
    handler the server creates is the HTTP/1.1 one, which answers the
    client's HTTP/2 preface with 400 Bad Request and returns -1. *)
Theorem h2_negotiated_but_not_served {T} `{!TlsLayer T} config ps (tls0 tls tls1 tls2 : T) x n :
  Config.http2_enabled (Config.http2_ config) = true ->
  Forall Alpn.valid_name ps -> str "h2" ∈ ps ->
  tls_read tls Http1Handler.TEMP_BUFFER_SIZE = Some (tls1, PROTOCOL_OK, Http2Handler.client_preface ++ x) ->
  tls_write tls1 (HttpParser.render bad_request_response) = Some (tls2, PROTOCOL_OK, n) ->
  Alpn.select (alpn_protocols (ConfigConverter.convert_tls_config config)) (Alpn.encode_offer ps) = Some (str "h2") /\
  select_protocol_by_alpn (str "h2") = HTTP_2 /\
  exists h h', initialised (create config tls0) tls = Some (AnHttp1Handler h, PROTOCOL_OK) /\
    on_read (AnHttp1Handler h) = Some (h', PROTOCOL_ERROR_INVALID) /\ handler_tls h' = tls2.
Proof.
  intros Hc Hv Hp Hr Hw. split; [|split; [done|]].
  - by apply (select_first _ _ _ [str "http/1.1"]); [|apply server_protocols_h2|].
  - destruct (http1_refuses_preface tls tls1 x tls2 n Hr Hw) as (h' & E & Ht).
    exists (Http1Handler.create true tls), (AnHttp1Handler h').
    split; [unfold create; by rewrite Hc|]. split; [|done]. cbn [on_read]. by rewrite E.
Qed.

Lemma h2_negotiated_but_not_served_witness :
  Alpn.select (alpn_protocols (ConfigConverter.convert_tls_config Config.reset))
    (Alpn.encode_offer [str "h2"; str "http/1.1"]) = Some (str "h2") /\
  select_protocol_by_alpn (str "h2") = HTTP_2 /\
  exists h h', initialised (create Config.reset (mkPlain [] [])) (mkPlain [Http2Handler.client_preface ++ []] []) =
      Some (AnHttp1Handler h, PROTOCOL_OK) /\
    on_read (AnHttp1Handler h) = Some (h', PROTOCOL_ERROR_INVALID) /\
    handler_tls h' = mkPlain [] [HttpParser.render bad_request_response].
Proof.
  apply (h2_negotiated_but_not_served Config.reset [str "h2"; str "http/1.1"] (mkPlain [] [])
    (mkPlain [Http2Handler.client_preface ++ []] []) (mkPlain [] [])
    (mkPlain [] [HttpParser.render bad_request_response]) []
    (blen (HttpParser.render bad_request_response)));
    [reflexivity|repeat constructor; by vm_compute|by left|reflexivity|reflexivity].
Defined.

End ProtocolFactory.

(** * The default cipher suites *)

(** The default configuration's [cipher_suite] holds TLS 1.3 suite names
    only, and the TLS handler gives it to [SSL_CTX_set_cipher_list]. OpenSSL
    documents that TLS 1.3 suites are not selected by that call and that it
    fails when it selects none; then, whatever the certificate, no
    configuration that keeps the default string and is not in GM mode can
    initialise a connection: [init] returns -10. *)
Theorem default_cipher_suite_fails_init `{!SslConfig} config f0 :
  set_cipher_list_ok (Config.cipher_suite Config.default_certificates) = false ->
  (forall file, probe_certificate file <> KeyType SM2) -> cert_type_ f0 <> SM2 ->
  Config.cipher_suite (Config.certificates_ config) = Config.cipher_suite Config.default_certificates ->
  let cert := ConfigConverter.convert_cert_config (Config.certificates_ config) in
  use_gmssl cert = false ->
  let '(f, ret, octx) := TlsInit.init cert (ConfigConverter.convert_tls_config config) f0 in
  ret = PROTOCOL_ERROR_TLS /\ error_code_ f = PROTOCOL_ERROR_TLS /\ octx = None.
Proof.
  intros Hset Hprobe Htype Hcs cert Hgm. unfold TlsInit.init.
  set (f := init_fields cert _ f0).
  assert (Hf : certs_ f = cert /\ cert_type_ f <> SM2) by done. clearbody f. destruct Hf as [Hfc Hft].
  unfold TlsInit.init_ssl_context. destruct SSL_CTX_new_ok; [|done]. cbn [negb]. rewrite Z.eqb_refl. cbn [negb].
  assert (Hl : certs_ (TlsInit.load_certificates f) = cert /\ cert_type_ (TlsInit.load_certificates f) <> SM2).
  { unfold TlsInit.load_certificates. rewrite Hfc, Hgm.
    destruct (TlsInit.is_empty _ || TlsInit.is_empty _); [done|].
    destruct (probe_certificate (cert_path cert)) as [| | |k] eqn:Ep; try done.
    split; [done|]. cbn. intros Hk. apply (Hprobe (cert_path cert)). by rewrite Ep, Hk. }
  destruct Hl as [Hlc Hlt]. set (f1 := TlsInit.load_certificates f) in *. clearbody f1.
  destruct (TlsInit.configure_certificates _ f1) as [[f2 octx2] r2] eqn:E2.
  destruct (configure_certificates_spec ctx_new f1 f2 octx2 r2 eq_refl E2)
    as [(-> & -> & ctx2 & -> & _)|(-> & He2 & _)]; [|done].
  rewrite Z.eqb_refl. cbn [negb]. unfold TlsInit.configure_cipher_suites. rewrite Hlc, Hgm.
  assert (is_sm2_cert f1 = false) as -> by (unfold is_sm2_cert; by apply bool_decide_eq_false_2).
  cbn [orb cipher_suites ConfigConverter.convert_tls_config]. rewrite Hcs.
  change (TlsInit.is_empty _) with false. cbn [negb fst]. rewrite Hset. done.
Qed.

Definition no_tls13_config : SslConfig :=
  Build_SslConfig (fun _ => KeyType RSA) true true true (fun _ => true) (fun _ => true)
    (fun _ _ => true) (fun s => negb (bool_decide (s = Config.cipher_suite Config.default_certificates)))
    (fun _ => true).

Lemma default_cipher_suite_fails_init_witness :
  let '(f, ret, octx) := @TlsInit.init no_tls13_config
    (ConfigConverter.convert_cert_config Config.default_certificates)
    (ConfigConverter.convert_tls_config Config.reset) fields_create in
  ret = PROTOCOL_ERROR_TLS /\ error_code_ f = PROTOCOL_ERROR_TLS /\ octx = None.
Proof.
  apply (@default_cipher_suite_fails_init no_tls13_config Config.reset fields_create);
    [by vm_compute|done|done|reflexivity|reflexivity].
Defined.
