(* ===== verification/Session.v ===== *)
(** A connection with its protocol handler: the interface [ProtocolHandler] of
    protocol/include/protocol/protocol_handler.hpp, the two classes that
    implement it, and [Connection] (connection/source/connection.cpp) as their
    client, down to the TLS layer.

    [TlsCloses] is what a handler needs of a TLS layer that was closed; both
    builds of [TlsHandler] provide it. [ProtocolHandler] holds the virtual
    functions and [HandlerLaws] what every implementation promises; the theorems
    about sessions use nothing else of a handler. *)

From S2P Require Import Prelude StdMap ByteBuffer CString Hpack Http Tls Http1 Http2 Config Factory Conn.

Module Session.

(** * A closed TLS layer *)

(** [wire] is what the layer reads from and writes to: the two buffers of the
    connection. A closed layer fails every call and leaves them alone. *)
Class TlsCloses (T : Type) `{!TlsLayer T} := {
  wire : T -> option Buffer.t * option Buffer.t;
  tls_closed : T -> Prop;
  close_is_closed x : tls_closed (tls_close x) /\ wire (tls_close x) = wire x;
  closed_read x n : tls_closed x -> exists x',
    tls_read x n = Some (x', PROTOCOL_ERROR_INVALID, []) /\ tls_closed x' /\ wire x' = wire x;
  closed_write x d : tls_closed x -> exists x',
    tls_write x d = Some (x', PROTOCOL_ERROR_INVALID, 0) /\ tls_closed x' /\ wire x' = wire x;
}.

#[export] Existing Instance Tls.openssl_layer.
#[export] Existing Instance Stub.stub_layer.

#[export] Instance openssl_closes {S} `{!OpenSSL S} : TlsCloses (Tls.t S).
Proof.
  refine {| wire h := (Tls.read_buffer_ h, Tls.write_buffer_ h);
            tls_closed h := initialized_ (Tls.fields h) = false |}; [done|..];
    intros x n Hc; exists (Tls.on_fields not_initialized x); split; try done;
    cbn; unfold Tls.read, Tls.write, Tls.ready; by rewrite Hc.
Defined.

#[export] Instance stub_closes : TlsCloses TlsFields.
Proof.
  refine {| wire _ := (None, None); tls_closed f := initialized_ f = false |}; [done|..];
    intros x n Hc; exists (not_initialized x); split; try done;
    cbn; unfold Stub.read, Stub.write; by rewrite Hc.
Defined.

(** * The interface *)

Inductive outcome (H : Type) := Did (h : H) (ret : Z) | Undefined | Endless.
Arguments Did {H} h ret.
Arguments Undefined {H}.
Arguments Endless {H}.

Class ProtocolHandler (T H : Type) := {
  on_read : H -> outcome H;
  on_write : H -> H * Z;
  send_response : bytes -> H -> option (H * Z);
  close : H -> H;
  reset : H -> H;
  get_tls_handler : H -> T;
  get_protocol_type : H -> Z;
}.

(** What happened to the layer below a closed handler: nothing. *)
Definition silent {T} `{TlsCloses T} (x x' : T) : Prop := tls_closed x' /\ wire x' = wire x.

(** [sound] is the implementation's invariant, [received] what it has read and
    not used, [hostile] the input it is not safe against. *)
Class HandlerLaws (T H : Type) `{!TlsLayer T} `{!ProtocolHandler T H} := {
  sound : H -> Prop;
  received : H -> bytes;
  hostile : H -> bytes -> Prop;
  read_sound h : sound h -> blen (received h) + 4096 <= Buffer.MAX_CAPACITY ->
    match on_read h with
    | Did h' ret => sound h' /\ blen (received h') <= blen (received h) + 4096 /\
        get_protocol_type h' = get_protocol_type h
    | Undefined => tls_undefined (get_tls_handler h) 4096 \/
        exists x ret d, tls_read (get_tls_handler h) 4096 = Some (x, ret, d) /\ hostile h (received h ++ d)
    | Endless => False
    end;
  write_sound h : on_write h = (h, PROTOCOL_OK);
  send_sound d h : sound h ->
    match send_response d h with
    | Some (h', _) => sound h' /\ received h' = received h /\ get_protocol_type h' = get_protocol_type h
    | None => write_undefined (get_tls_handler h)
    end;
  close_sound h : sound h -> sound (close h) /\ received (close h) = received h /\
    get_protocol_type (close h) = get_protocol_type h;
  reset_sound h : sound h -> sound (reset h) /\ received (reset h) = received h /\
    get_protocol_type (reset h) = get_protocol_type h;
  close_closes h : get_tls_handler (close h) = tls_close (get_tls_handler h);
  reset_tls h : get_tls_handler (reset h) = get_tls_handler h;
  dead_read `{!TlsCloses T} h : sound h -> tls_closed (get_tls_handler h) -> exists h' ret,
    on_read h = Did h' ret /\ ret < 0 /\ sound h' /\ silent (get_tls_handler h) (get_tls_handler h');
  dead_send `{!TlsCloses T} d h : sound h -> tls_closed (get_tls_handler h) -> exists h' ret,
    send_response d h = Some (h', ret) /\ (d <> [] -> ret < 0) /\ sound h' /\
    silent (get_tls_handler h) (get_tls_handler h');
}.

(** * The two implementations *)

Abbreviation An1 := ProtocolFactory.AnHttp1Handler.
Abbreviation An2 := ProtocolFactory.AnHttp2Handler.

Section Implementations.
Context {T : Type} `{!TlsLayer T}.

Definition h1_on_read (h : Http1Handler.t T) : outcome (Http1Handler.t T) :=
  match Http1Handler.on_read h with
  | Http1Handler.Returned h' ret => Did h' ret
  | Http1Handler.Undefined => Undefined
  | Http1Handler.OutOfFuel => Endless
  end.

Definition h2_on_read (h : Http2Handler.t T) : outcome (Http2Handler.t T) :=
  match Http2Handler.on_read h with
  | Http2Handler.Returned h' ret => Did h' ret
  | Http2Handler.Undefined => Undefined
  | Http2Handler.OutOfFuel => Endless
  end.

#[export] Instance http1_handler : ProtocolHandler T (Http1Handler.t T) := {
  on_read := h1_on_read;
  on_write := Http1Handler.on_write;
  send_response d := Http1Handler.send_response (Some d) (blen d);
  close := Http1Handler.close;
  reset := Http1Handler.reset;
  get_tls_handler := Http1Handler.tls_handler_;
  get_protocol_type _ := ProtocolFactory.HTTP_1_1;
}.

#[export] Instance http2_handler : ProtocolHandler T (Http2Handler.t T) := {
  on_read := h2_on_read;
  on_write := Http2Handler.on_write;
  send_response := Http2Handler.send_response;
  close := Http2Handler.close;
  reset := Http2Handler.reset;
  get_tls_handler := Http2Handler.tls_handler_;
  get_protocol_type _ := ProtocolFactory.HTTP_2;
}.

(** ** HTTP/1.1 *)

Lemma generate_response_keeps (h h' : Http1Handler.t T) ret :
  Http1Handler.generate_response h = Some (h', ret) -> Http1Handler.inv h -> Http1Handler.inv h'.
Proof. intros E Hi. pose proof (Http1Handler.generate_response_inv h Hi) as Ho. rewrite E in Ho. apply Ho. Qed.

Lemma generate_response_dead `{!TlsCloses T} (h : Http1Handler.t T) :
  tls_closed (Http1Handler.tls_handler_ h) -> exists h' ret,
    Http1Handler.generate_response h = Some (h', ret) /\ ret < 0 /\
    silent (Http1Handler.tls_handler_ h) (Http1Handler.tls_handler_ h').
Proof.
  intros Hc. unfold Http1Handler.generate_response. rewrite HttpParser.build_response_eq.
  assert (Hend : forall p out, exists h' ret,
    ('(tls', ret, _) ← tls_write (Http1Handler.tls_handler_ h) out;
     Some (Http1Handler.set_tls tls' (Http1Handler.set_parse p (Http1Handler.plaintext_buffer_ h) h),
           if ret =? PROTOCOL_OK then PROTOCOL_OK else ret)) = Some (h', ret) /\ ret < 0 /\
    silent (Http1Handler.tls_handler_ h) (Http1Handler.tls_handler_ h')).
  { intros p out. destruct (closed_write (Http1Handler.tls_handler_ h) out Hc) as (x & -> & Hx).
    cbn [mbind option_bind]. do 2 eexists. split; [reflexivity|]. done. }
  destruct (_ <=? _); [apply Hend|]. rewrite Z.eqb_refl, HttpParser.build_response_eq.
  destruct (_ <=? _); [apply Hend|]. do 2 eexists. split; [reflexivity|]. done.
Qed.

Lemma bad_request_dead `{!TlsCloses T} (h : Http1Handler.t T) :
  Http1Handler.inv h -> tls_closed (Http1Handler.tls_handler_ h) -> exists h',
    Http1Handler.bad_request h = Some (h', PROTOCOL_ERROR_INVALID) /\ Http1Handler.inv h' /\
    silent (Http1Handler.tls_handler_ h) (Http1Handler.tls_handler_ h').
Proof.
  intros [Hw Hb Hl Hs] Hc. unfold Http1Handler.bad_request. set (h1 := Http1Handler.set_response _ _).
  destruct (generate_response_dead h1 Hc) as (h' & ret & E & _ & Hq). rewrite E.
  exists h'. split; [done|]. split; [|done]. apply (generate_response_keeps h1 h' ret E). by split.
Qed.

#[export] Instance http1_laws : HandlerLaws T (Http1Handler.t T).
Proof.
  refine {| sound := Http1Handler.inv;
            received h := Buffer.content (Http1Handler.plaintext_buffer_ h);
            hostile _ _ := False |}; cbn -[Http1Handler.send_response].
  - intros h Hi Hr. pose proof (Http1Handler.on_read_h1_ok h Hi Hr) as Ho. unfold h1_on_read.
    destruct (Http1Handler.on_read h); [by destruct Ho|left|done].
    destruct Ho as [?|(x & ret & d & ? & Hf)]; [by left|right]. exists x, ret, d. split; [done|by apply wu_now].
  - done.
  - intros d h [Hw Hb Hl Hs]. unfold Http1Handler.send_response. set (h1 := Http1Handler.set_response _ h).
    pose proof (Http1Handler.generate_response_inv h1 ltac:(by split)) as Hg.
    destruct (Http1Handler.generate_response h1) as [[h' ret]|]; [|by apply wu_now]. by destruct Hg as [? ->].
  - intros h Hi. split; [|done]. apply Http1Handler.reset_inv. by destruct Hi; split.
  - intros h Hi. split; [by apply Http1Handler.reset_inv|done].
  - done.
  - done.
  - intros ? h Hi Hc. unfold h1_on_read, Http1Handler.on_read.
    destruct (closed_read (Http1Handler.tls_handler_ h) Http1Handler.TEMP_BUFFER_SIZE Hc) as (x & -> & Hx & Hwx).
    cbn -[Http1Handler.bad_request].
    destruct (bad_request_dead (Http1Handler.set_tls x h)) as (h' & -> & Hi' & Hq & Hwq);
      [by destruct Hi; split|done|].
    exists h', PROTOCOL_ERROR_INVALID. split_and!; [done..|]. split; [done|]. by rewrite Hwq.
  - intros ? d h [Hw Hb Hl Hs] Hc. unfold Http1Handler.send_response.
    set (h1 := Http1Handler.set_response _ h).
    destruct (generate_response_dead h1 Hc) as (h' & ret & E & Hn & Hq).
    exists h', ret. split_and!; [done|done| |done]. apply (generate_response_keeps h1 h' ret E). by split.
Defined.

(** ** HTTP/2 *)

Lemma write_frame_dead `{!TlsCloses T} f (h : Http2Handler.t T) :
  tls_closed (Http2Handler.tls_handler_ h) -> exists x,
    Http2Handler.write_frame f h = Some (Http2Handler.set_tls x h, PROTOCOL_ERROR_INVALID) /\
    silent (Http2Handler.tls_handler_ h) x.
Proof.
  intros Hc. unfold Http2Handler.write_frame.
  destruct (closed_write _ (Http2Handler.frame_header_bytes f) Hc) as (x & -> & Hx). by exists x.
Qed.

#[export] Instance http2_laws : HandlerLaws T (Http2Handler.t T).
Proof.
  refine {| sound := Http2Handler.inv;
            received h := Buffer.content (Http2Handler.plaintext_buffer_ h);
            hostile _ d := Http2Handler.overflows d |}; cbn -[Http2Handler.send_response].
  - intros h Hi Hr. pose proof (Http2Handler.on_read_h2_ok h Hi Hr) as Ho.
    unfold h2_on_read. destruct (Http2Handler.on_read h); [|done..]. by destruct Ho as (? & _ & ?).
  - done.
  - intros d h Hi. unfold Http2Handler.send_response.
    pose proof (Http2Handler.send_data_only_tls 1 d true h (Http2Handler.local_max h Hi)) as Ho.
    destruct (Http2Handler.send_data_frame 1 d true h) as [[h' ret]|]; [|exact Ho].
    destruct Ho as (x & -> & _). split; [by apply Http2Handler.set_tls_inv|done].
  - intros h [Hb Hl Hm Hs]. by split.
  - intros h [Hb Hl Hm Hs]. by split.
  - done.
  - done.
  - intros ? h Hi Hc. unfold h2_on_read, Http2Handler.on_read.
    destruct (closed_read (Http2Handler.tls_handler_ h) 4096 Hc) as (x & -> & Hx & Hwx). cbn.
    do 2 eexists. split; [reflexivity|]. split; [done|]. split; [by apply Http2Handler.set_tls_inv|done].
  - intros ? d h Hi Hc. unfold Http2Handler.send_response, Http2Handler.send_data_frame.
    cbn [Http2Handler.send_data_loop]. destruct (blen d =? 0) eqn:Ed; zb.
    { do 2 eexists. split; [reflexivity|]. rewrite (blen_0_nil d) by lia. done. }
    destruct (write_frame_dead (Http2Handler.mkFrame Http2Handler.DATA 1
      (if (Z.min (blen d) (Http2Handler.max_frame_size (Http2Handler.local_settings_ h)) =? blen d) && true
       then Http2Handler.HTTP2_FLAG_END_STREAM else 0)
      (ztake (Z.min (blen d) (Http2Handler.max_frame_size (Http2Handler.local_settings_ h))) d)) h Hc)
      as (x & -> & Hx). cbn.
    do 2 eexists. split; [reflexivity|]. split; [done|]. split; [by apply Http2Handler.set_tls_inv|done].
Defined.

(** ** Either of them: the dispatch of a virtual call *)

Definition map_outcome {A B} (f : A -> B) (o : outcome A) : outcome B :=
  match o with Did h ret => Did (f h) ret | Undefined => Undefined | Endless => Endless end.

#[export] Instance any_handler : ProtocolHandler T (@ProtocolFactory.ProtocolHandler T) := {
  on_read h := match h with
    | An1 h => map_outcome An1 (on_read h)
    | An2 h => map_outcome An2 (on_read h) end;
  on_write h := match h with
    | An1 h => let '(h', r) := on_write h in (An1 h', r)
    | An2 h => let '(h', r) := on_write h in (An2 h', r) end;
  send_response d h := match h with
    | An1 h => '(h', r) ← send_response d h; Some (An1 h', r)
    | An2 h => '(h', r) ← send_response d h; Some (An2 h', r) end;
  close h := match h with
    | An1 h => An1 (close h) | An2 h => An2 (close h) end;
  reset h := match h with
    | An1 h => An1 (reset h) | An2 h => An2 (reset h) end;
  get_tls_handler h := match h with
    | An1 h => get_tls_handler h | An2 h => get_tls_handler h end;
  get_protocol_type h := match h with
    | An1 h => get_protocol_type h | An2 h => get_protocol_type h end;
}.

(** The laws of the dispatch are the laws of the two classes. *)
#[export] Instance any_laws : HandlerLaws T (@ProtocolFactory.ProtocolHandler T).
Proof.
  refine {| sound h := match h with An1 h => sound h | An2 h => sound h end;
            received h := match h with An1 h => received h | An2 h => received h end;
            hostile h d := match h with An1 h => hostile h d | An2 h => hostile h d end |}.
  - intros [h|h] Hi Hr; [pose proof (read_sound (HandlerLaws := http1_laws) h Hi Hr) as Ho
      |pose proof (read_sound (HandlerLaws := http2_laws) h Hi Hr) as Ho];
      cbn [on_read any_handler]; destruct (on_read h); exact Ho.
  - intros [h|h]; cbn [on_write any_handler]; [rewrite (write_sound (HandlerLaws := http1_laws))
      |rewrite (write_sound (HandlerLaws := http2_laws))]; done.
  - intros d [h|h] Hi; [pose proof (send_sound (HandlerLaws := http1_laws) d h Hi) as Ho
      |pose proof (send_sound (HandlerLaws := http2_laws) d h Hi) as Ho];
      cbn [send_response any_handler]; destruct (send_response d h) as [[h' r]|]; exact Ho.
  - intros [h|h]; [apply (close_sound (HandlerLaws := http1_laws))|apply (close_sound (HandlerLaws := http2_laws))].
  - intros [h|h]; [apply (reset_sound (HandlerLaws := http1_laws))|apply (reset_sound (HandlerLaws := http2_laws))].
  - intros [h|h]; [apply (close_closes (HandlerLaws := http1_laws))|apply (close_closes (HandlerLaws := http2_laws))].
  - intros [h|h]; [apply (reset_tls (HandlerLaws := http1_laws))|apply (reset_tls (HandlerLaws := http2_laws))].
  - intros ? [h|h] Hi Hc; [destruct (dead_read (HandlerLaws := http1_laws) h Hi Hc) as (h' & r & E & Ho)
      |destruct (dead_read (HandlerLaws := http2_laws) h Hi Hc) as (h' & r & E & Ho)];
      cbn [on_read any_handler]; rewrite E; do 2 eexists; (split; [reflexivity|exact Ho]).
  - intros ? d [h|h] Hi Hc; [destruct (dead_send (HandlerLaws := http1_laws) d h Hi Hc) as (h' & r & E & Ho)
      |destruct (dead_send (HandlerLaws := http2_laws) d h Hi Hc) as (h' & r & E & Ho)];
      cbn [send_response any_handler]; rewrite E; do 2 eexists; (split; [reflexivity|exact Ho]).
Defined.

End Implementations.

(** * A connection and its handler *)

(** What the owner of a connection may call: the connection's own methods, and,
    through [get_protocol_handler], those of its handler. *)
Inductive call (H : Type) :=
| OnConnection (o : Connection.op H)
| OnRead | OnWrite | SendResponse (data : bytes) | CloseHandler | ResetHandler.
Arguments OnConnection {H} o.
Arguments OnRead {H}.
Arguments OnWrite {H}.
Arguments SendResponse {H} data.
Arguments CloseHandler {H}.
Arguments ResetHandler {H}.

Inductive failure :=
| AssertionFails      (* the assertion of [transition_to], in a debug build *)
| UndefinedBehaviour
| NeverReturns.

Section Sessions.
Context {T H : Type} `{!TlsLayer T, !ProtocolHandler T H}.
Variable ndebug : bool.

Abbreviation conn := (Connection.t H).

(** The connection and what the call returned; a [void] call returns [None], and
    a call on a null handler is not made. *)
Definition on_handler (c : conn) (f : H -> failure + H * option Z) : failure + conn * option Z :=
  match Connection.protocol_handler_ c with
  | None => inr (c, None)
  | Some h =>
      match f h with
      | inl e => inl e
      | inr (h', r) => inr (Connection.set_handler (Some h') c, r)
      end
  end.

Definition run_call (c : conn) (k : call H) : failure + conn * option Z :=
  match k with
  | OnConnection o =>
      match Connection.run_op close ndebug c o with
      | Some c' => inr (c', None)
      | None => inl AssertionFails
      end
  | OnRead => on_handler c (fun h =>
      match on_read h with
      | Did h' r => inr (h', Some r)
      | Undefined => inl UndefinedBehaviour
      | Endless => inl NeverReturns
      end)
  | OnWrite => on_handler c (fun h => let '(h', r) := on_write h in inr (h', Some r))
  | SendResponse d => on_handler c (fun h =>
      match send_response d h with
      | Some (h', r) => inr (h', Some r)
      | None => inl UndefinedBehaviour
      end)
  | CloseHandler => on_handler c (fun h => inr (close h, None))
  | ResetHandler => on_handler c (fun h => inr (reset h, None))
  end.

Fixpoint session (c : conn) (ks : list (call H)) : failure + conn * list (option Z) :=
  match ks with
  | [] => inr (c, [])
  | k :: ks =>
      match run_call c k with
      | inl e => inl e
      | inr (c', r) =>
          match session c' ks with
          | inl e => inl e
          | inr (c'', rs) => inr (c'', r :: rs)
          end
      end
  end.

End Sessions.

(** * What sessions do *)

Definition installs {H} (k : call H) : option (option H) :=
  match k with OnConnection (Connection.SetHandler h) => Some h | _ => None end.
Definition is_read {H} (k : call H) : bool := match k with OnRead => true | _ => false end.
Definition reads {H} (ks : list (call H)) : Z := blen (List.filter is_read ks).

Section Safety.
Context {T H : Type} `{!TlsLayer T, !ProtocolHandler T H, !HandlerLaws T H}.
Variable ndebug : bool.

(** A sound handler with room for [n] more reads, or none. *)
Definition roomy (n : Z) (oh : option H) : Prop :=
  match oh with
  | Some h => sound h /\ blen (received h) + 4096 * n <= Buffer.MAX_CAPACITY
  | None => True
  end.

(** The calls on a handler that may be undefined, and what makes them so. *)
Definition undefined_call (k : call H) (h : H) : Prop :=
  match k with
  | OnRead => tls_undefined (get_tls_handler h) 4096 \/
      exists x ret d, tls_read (get_tls_handler h) 4096 = Some (x, ret, d) /\ hostile h (received h ++ d)
  | SendResponse _ => write_undefined (get_tls_handler h)
  | _ => False
  end.

Lemma roomy_le n n' oh : n' <= n -> roomy n oh -> roomy n' oh.
Proof. intros Hn. destruct oh as [h|]; [|done]. intros [Hs Hr]. split; [done|lia]. Qed.

Lemma run_op_handler (c c' : Connection.t H) o : Connection.run_op close ndebug c o = Some c' ->
  Connection.protocol_handler_ c' =
    match o with
    | Connection.SetHandler oh => oh
    | Connection.Close _ => if bool_decide (Connection.state_ c = Connection.DISCONNECTED)
        then Connection.protocol_handler_ c else close <$> Connection.protocol_handler_ c
    | _ => Connection.protocol_handler_ c
    end.
Proof.
  destruct o; cbn [Connection.run_op]; try (by intros [= <-]).
  - unfold Connection.transition_to. intros E. repeat first [progress simplify_eq | case_match]; done.
  - rewrite Connection.close_spec. intros [= <-]. by case_bool_decide.
  - intros [= <-]. unfold Connection.close_fd. by case_match.
Qed.

Lemma run_call_ok n (c : Connection.t H) k :
  roomy n (Connection.protocol_handler_ c) -> (is_read k = true -> 1 <= n) ->
  (forall oh, installs k = Some oh -> roomy n oh) ->
  match run_call ndebug c k with
  | inr (c', _) => roomy (if is_read k then n - 1 else n) (Connection.protocol_handler_ c')
  | inl AssertionFails => ndebug = false
  | inl UndefinedBehaviour => exists h, Connection.protocol_handler_ c = Some h /\ undefined_call k h
  | inl NeverReturns => False
  end.
Proof.
  intros Hr Hn Hin. destruct k as [o| | |d| |]; cbn [run_call is_read] in *.
  - pose proof (run_op_handler c) as Hh.
    destruct (Connection.run_op close ndebug c o) as [c'|] eqn:E.
    + rewrite (Hh c' o E). destruct o; try done; [by apply Hin|]. case_bool_decide; [done|].
      destruct (Connection.protocol_handler_ c) as [h|]; [|done]. cbn in *. destruct Hr as [Hs Hl].
      destruct (close_sound h Hs) as (Hs' & -> & _). done.
    + destruct ndebug eqn:En; [|done]. exfalso. destruct o; try done; cbn [Connection.run_op] in E.
      * destruct (Connection.transition_to_some true now s c (or_introl eq_refl)) as [c' Ec]. congruence.
      * by rewrite Connection.close_spec in E.
  - unfold on_handler. destruct (Connection.protocol_handler_ c) as [h|] eqn:Eh; [|by rewrite Eh].
    destruct Hr as [Hs Hl]. specialize (Hn eq_refl).
    pose proof (read_sound h Hs ltac:(lia)) as Ho. destruct (on_read h) as [h' r| |]; [|by exists h|done].
    destruct Ho as (Hs' & Hl' & _). cbn. split; [done|lia].
  - unfold on_handler. destruct (Connection.protocol_handler_ c) as [h|] eqn:Eh; [|by rewrite Eh].
    by rewrite write_sound.
  - unfold on_handler. destruct (Connection.protocol_handler_ c) as [h|] eqn:Eh; [|by rewrite Eh].
    destruct Hr as [Hs Hl]. pose proof (send_sound d h Hs) as Ho.
    destruct (send_response d h) as [[h' r]|]; [|by exists h]. destruct Ho as (Hs' & Hl' & _). cbn. by rewrite Hl'.
  - unfold on_handler. destruct (Connection.protocol_handler_ c) as [h|] eqn:Eh; [|by rewrite Eh].
    destruct Hr as [Hs Hl]. destruct (close_sound h Hs) as (Hs' & Hl' & _). cbn. by rewrite Hl'.
  - unfold on_handler. destruct (Connection.protocol_handler_ c) as [h|] eqn:Eh; [|by rewrite Eh].
    destruct Hr as [Hs Hl]. destruct (reset_sound h Hs) as (Hs' & Hl' & _). cbn. by rewrite Hl'.
Qed.

(** Any implementation of the interface is safe in any session. *)
Lemma session_ok ks (c : Connection.t H) :
  roomy (reads ks) (Connection.protocol_handler_ c) ->
  (forall k oh, k ∈ ks -> installs k = Some oh -> roomy (reads ks) oh) ->
  match session ndebug c ks with
  | inr (c', rs) => length rs = length ks /\ roomy 0 (Connection.protocol_handler_ c')
  | inl AssertionFails => ndebug = false
  | inl UndefinedBehaviour => exists ks1 k ks2 c1 rs h, ks = ks1 ++ k :: ks2 /\
      session ndebug c ks1 = inr (c1, rs) /\ Connection.protocol_handler_ c1 = Some h /\ undefined_call k h
  | inl NeverReturns => False
  end.
Proof.
  revert c. induction ks as [|k ks IH]; intros c Hr Hin; [by split|].
  assert (Hk : reads (k :: ks) = (if is_read k then 1 else 0) + reads ks).
  { unfold reads. cbn [List.filter]. destruct (is_read k); [by rewrite blen_cons|lia]. }
  assert (Hpos : 0 <= reads ks) by apply blen_nonneg. cbn [session].
  pose proof (run_call_ok (reads (k :: ks)) c k Hr) as Hc.
  specialize (Hc ltac:(intros E; rewrite E in Hk; lia) ltac:(intros oh; apply Hin; by left)).
  destruct (run_call ndebug c k) as [[]|[c' r]] eqn:Ec; [done| |done|].
  - destruct Hc as (h & ? & ?). by exists [], k, ks, c, [], h.
  - assert (Hr' : roomy (reads ks) (Connection.protocol_handler_ c')).
    { eapply roomy_le; [|exact Hc]. destruct (is_read k); lia. }
    assert (Hin' : forall k' oh, k' ∈ ks -> installs k' = Some oh -> roomy (reads ks) oh).
    { intros k' oh Hk' E. eapply roomy_le; [|apply (Hin k'); [by right|done]]. destruct (is_read k); lia. }
    specialize (IH c' Hr' Hin').
    destruct (session ndebug c' ks) as [[]|[c'' rs]]; [done| |done|].
    + destruct IH as (ks1 & k' & ks2 & c1 & rs & h & -> & E & ?).
      exists (k :: ks1), k', ks2, c1, (r :: rs), h. split; [done|]. split; [|done].
      cbn [session]. by rewrite Ec, E.
    + destruct IH as [Hlen ?]. cbn. by rewrite Hlen.
Qed.

End Safety.

(** * After [close] *)

(** What a call on a closed connection returns. *)
Definition refused {H} (k : call H) (r : option Z) : Prop :=
  match k with
  | OnRead => exists z, r = Some z /\ z < 0
  | SendResponse d => exists z, r = Some z /\ (d <> [] -> z < 0)
  | _ => True
  end.

Section Closing.
Context {T H : Type} `{!TlsLayer T, !TlsCloses T, !ProtocolHandler T H, !HandlerLaws T H}.
Variable ndebug : bool.

(** A disconnected connection whose handler has a closed TLS layer over [w]. *)
Record dead (w : option Buffer.t * option Buffer.t) (fds : list Z) (c : Connection.t H) : Prop := {
  dead_state : Connection.state_ c = Connection.DISCONNECTED;
  dead_fd : Connection.fd_ c < 0;
  dead_closed : Connection.closed c = fds;
  dead_handler : exists h, Connection.protocol_handler_ c = Some h /\ sound h /\
    tls_closed (get_tls_handler h) /\ wire (get_tls_handler h) = w;
}.

Lemma run_op_dead w fds c o : dead w fds c -> installs (OnConnection o) = None ->
  exists c', Connection.run_op close ndebug c o = Some c' /\ dead w fds c'.
Proof.
  intros [Hs Hf Hc Hh] Hi. destruct o; cbn [Connection.run_op installs] in *; try done;
    try (eexists; split; [reflexivity|by split]).
  - exists c. split; [|by split]. unfold Connection.transition_to. rewrite Hs. by repeat case_bool_decide.
  - exists c. split; [|by split]. by rewrite Connection.close_spec, bool_decide_eq_true_2.
  - exists c. split; [|by split]. unfold Connection.close_fd.
    by destruct (0 <=? Connection.fd_ c) eqn:E; zb; [lia|].
Qed.

Lemma set_handler_dead w fds c h : dead w fds c -> sound h -> tls_closed (get_tls_handler h) ->
  wire (get_tls_handler h) = w -> dead w fds (Connection.set_handler (Some h) c).
Proof. intros [Hs Hf Hc _] ? ? ?. split; [done..|]. by exists h. Qed.

Lemma run_call_dead w fds c k : dead w fds c -> installs k = None ->
  exists c' r, run_call ndebug c k = inr (c', r) /\ dead w fds c' /\ refused k r.
Proof.
  intros Hd Hi. pose proof (dead_handler w fds c Hd) as (h & Eh & Hs & Hc & Hw).
  destruct k as [o| | |d| |]; cbn [run_call]; unfold on_handler; rewrite ?Eh.
  - destruct (run_op_dead w fds c o Hd Hi) as (c' & -> & Hd'). by exists c', None.
  - destruct (dead_read h Hs Hc) as (h' & r & -> & Hr & Hs' & Hc' & Hw').
    do 2 eexists. split; [reflexivity|]. split; [|by exists r].
    apply set_handler_dead; [done..|congruence].
  - rewrite write_sound. do 2 eexists. split; [reflexivity|]. split; [|done]. by apply set_handler_dead.
  - destruct (dead_send d h Hs Hc) as (h' & r & -> & Hr & Hs' & Hc' & Hw').
    do 2 eexists. split; [reflexivity|]. split; [|by exists r].
    apply set_handler_dead; [done..|congruence].
  - destruct (close_sound h Hs) as (Hs' & _). destruct (close_is_closed (get_tls_handler h)) as [Hc' Hw'].
    do 2 eexists. split; [reflexivity|]. split; [|done].
    apply set_handler_dead; rewrite ?close_closes; [done..|congruence].
  - destruct (reset_sound h Hs) as (Hs' & _). do 2 eexists. split; [reflexivity|]. split; [|done].
    by apply set_handler_dead; rewrite ?reset_tls.
Qed.

Lemma session_dead w fds ks c : dead w fds c -> Forall (fun k => installs k = None) ks ->
  exists c' rs, session ndebug c ks = inr (c', rs) /\ dead w fds c' /\ Forall2 refused ks rs.
Proof.
  intros Hd Hk. revert c Hd. induction Hk as [|k ks Hk _ IH]; intros c Hd; cbn [session].
  { by exists c, []. }
  destruct (run_call_dead w fds c k Hd Hk) as (c1 & r & -> & Hd1 & Hr).
  destruct (IH c1 Hd1) as (c2 & rs & -> & Hd2 & Hrs). exists c2, (r :: rs).
  split_and!; [done|done|by constructor].
Qed.

Lemma close_dead now c h : Connection.state_ c <> Connection.DISCONNECTED ->
  Connection.protocol_handler_ c = Some h -> sound h ->
  dead (wire (get_tls_handler h)) (Connection.closed c ++ (if 0 <=? Connection.fd_ c then [Connection.fd_ c] else []))
    (Connection.closed_conn close now c).
Proof.
  intros Hs Eh Hh. destruct (close_sound h Hh) as (Hh' & _).
  destruct (close_is_closed (get_tls_handler h)) as [Hc Hw].
  split; [done|unfold Connection.closed_conn; cbn [Connection.fd_]; ifz; lia|done|].
  exists (close h). rewrite close_closes. split; [|done]. cbn. by rewrite Eh.
Qed.

End Closing.

(** * The two protocols *)

Section Protocols.
Context {T : Type} `{!TlsLayer T}.
Abbreviation handler := (@ProtocolFactory.ProtocolHandler T).

(** C33. Serving a connection. Whatever the owner of a connection calls on it
    and on its handler, HTTP/1.1 or HTTP/2, new handlers included, every call
    returns and the handler's invariant holds, as long as every handler installed
    is a good one and no plaintext buffer has less room than the TLS reads of the
    session may fill. There are three exceptions, and in each every call before
    the one that fails has returned. An assertion of a debug build. The TLS
    layer's own undefined behaviour, in the read of an [on_read] or in a write
    that [on_read] or [send_response] may come to; the build without OpenSSL has
    none, [TlsHandler] with OpenSSL has it when the connection's write buffer is
    full. And an HTTP/2 handler's [on_read] that takes a complete HEADERS or
    CONTINUATION frame whose block has an integer the HPACK decoder shifts past
    31 bits. *)
Theorem session_safe ndebug (c : Connection.t handler) (ks : list (call handler)) :
  roomy (reads ks) (Connection.protocol_handler_ c) ->
  (forall oh, OnConnection (Connection.SetHandler oh) ∈ ks -> roomy (reads ks) oh) ->
  match session ndebug c ks with
  | inr (c', rs) => length rs = length ks /\
      (forall h, Connection.protocol_handler_ c' = Some h -> sound h)
  | inl AssertionFails => ndebug = false
  | inl UndefinedBehaviour => exists ks1 k ks2 c1 rs h, ks = ks1 ++ k :: ks2 /\
      session ndebug c ks1 = inr (c1, rs) /\ Connection.protocol_handler_ c1 = Some h /\
      (k = OnRead /\ tls_undefined (get_tls_handler h) 4096 \/
       (exists d, k = SendResponse d) /\ write_undefined (get_tls_handler h) \/
       exists h2 x ret d, k = OnRead /\ h = An2 h2 /\
         tls_read (Http2Handler.tls_handler_ h2) 4096 = Some (x, ret, d) /\
         Http2Handler.overflows (Buffer.content (Http2Handler.plaintext_buffer_ h2) ++ d))
  | inl NeverReturns => False
  end.
Proof.
  intros Hr Hin. pose proof (session_ok ndebug ks c Hr) as Ho.
  assert (Hin' : forall k oh, k ∈ ks -> installs k = Some oh -> roomy (reads ks) oh).
  { intros [[]| | | | |] oh Hk; cbn; try done. intros [= ->]. by apply Hin. }
  specialize (Ho Hin'). destruct (session ndebug c ks) as [[]|[c' rs]]; [done| |done|].
  - destruct Ho as (ks1 & k & ks2 & c1 & rs & h & ? & ? & ? & Hu). exists ks1, k, ks2, c1, rs, h.
    split_and!; [done..|]. destruct k as [|  | |d| |]; try done; [|right; left; by split; [exists d|]].
    destruct Hu as [?|(x & ret & d & ? & Hh)]; [by left|]. destruct h as [h|h]; [done|].
    right; right. by exists h, x, ret, d.
  - destruct Ho as [? Ho]. split; [done|]. intros h Eh. rewrite Eh in Ho. apply Ho.
Qed.

(** C34. A closed connection is silent. Once [Connection::close] has run, on a
    connection that was not disconnected and has a protocol handler, it stays
    disconnected with its descriptor closed once, whatever is called on it and on
    that handler, as long as no other handler is installed
    ([set_protocol_handler] is the one call left out: a fresh handler can read and
    answer again, over a TLS layer of its own): nothing is read from or written to
    the buffers under TLS, every [on_read] fails, and so does every
    [send_response] that has something to send. ([close] itself sends nothing
    either: no TLS close_notify.) *)
Theorem closed_connection_silent `{!TlsCloses T} ndebug now (c : Connection.t handler) (h : handler)
    (ks : list (call handler)) :
  Connection.state_ c <> Connection.DISCONNECTED -> Connection.protocol_handler_ c = Some h -> sound h ->
  Forall (fun k => installs k = None) ks ->
  exists c1 c2 rs h2, Connection.close close ndebug now c = Some c1 /\
    session ndebug c1 ks = inr (c2, rs) /\ Forall2 refused ks rs /\
    Connection.state_ c2 = Connection.DISCONNECTED /\
    Connection.closed c2 = Connection.closed c ++ (if 0 <=? Connection.fd_ c then [Connection.fd_ c] else []) /\
    Connection.protocol_handler_ c2 = Some h2 /\
    wire (get_tls_handler h2) = wire (get_tls_handler h).
Proof.
  intros Hs Eh Hh Hk. pose proof (close_dead now c h Hs Eh Hh) as Hd.
  destruct (session_dead ndebug _ _ ks _ Hd Hk) as (c2 & rs & E & [Hs2 _ Hc2 (h2 & Eh2 & _ & _ & Hw)] & Hrs).
  exists (Connection.closed_conn close now c), c2, rs, h2.
  rewrite Connection.close_spec, bool_decide_eq_false_2 by done. done.
Qed.

End Protocols.

(** * Examples *)

Lemma create_sound {T} `{!TlsLayer T} conn x :
  sound (An1 (Http1Handler.create conn x)) /\ sound (An2 (Http2Handler.create conn x)).
Proof. split; [apply Http1Handler.create_h1_inv|]. by split; [apply Buffer.create_wf|..]. Qed.

(** A handler of each kind: the second replaces the first. *)
Definition demo_conn : Connection.t (@ProtocolFactory.ProtocolHandler PlainTls) :=
  Connection.set_protocol_handler
    (Some (An2 (Http2Handler.create true (mkPlain [[x00; x00; x00; x04; x00; x00; x00; x00; x00]] []))))
    (Connection.create 1 5 8443 0).
Definition demo_http1 : @ProtocolFactory.ProtocolHandler PlainTls :=
  An1 (Http1Handler.create true (mkPlain [Http1Handler.demo_request] [])).
Definition demo_calls : list (call (@ProtocolFactory.ProtocolHandler PlainTls)) :=
  [OnConnection (Connection.Transition 1 Connection.TLS_HANDSHAKING); OnRead; SendResponse (str "hello"); OnRead;
   OnConnection (Connection.SetHandler (Some demo_http1)); OnRead; OnWrite;
   OnConnection (Connection.Close 9); OnRead].

Lemma session_safe_witness :
  match session true demo_conn demo_calls with
  | inr (c', rs) => length rs = length demo_calls /\
      (forall h, Connection.protocol_handler_ c' = Some h -> sound h)
  | inl AssertionFails => true = false
  | inl UndefinedBehaviour => exists ks1 k ks2 c1 rs h, demo_calls = ks1 ++ k :: ks2 /\
      session true demo_conn ks1 = inr (c1, rs) /\ Connection.protocol_handler_ c1 = Some h /\
      (k = OnRead /\ tls_undefined (get_tls_handler h) 4096 \/
       (exists d, k = SendResponse d) /\ write_undefined (get_tls_handler h) \/
       exists h2 x ret d, k = OnRead /\ h = An2 h2 /\
         tls_read (Http2Handler.tls_handler_ h2) 4096 = Some (x, ret, d) /\
         Http2Handler.overflows (Buffer.content (Http2Handler.plaintext_buffer_ h2) ++ d))
  | inl NeverReturns => False
  end.
Proof.
  apply (session_safe true demo_conn demo_calls).
  - split; [apply (proj2 (create_sound true _))|by vm_compute].
  - intros oh Hin. unfold demo_calls in Hin. rewrite !elem_of_cons, elem_of_nil in Hin.
    destruct_or! Hin; try done. injection Hin as ->. split; [apply (proj1 (create_sound true _))|by vm_compute].
Defined.

(** What the calls of the example return: the second handler answers. *)
Example demo_session_results :
  match session true demo_conn demo_calls with
  | inr (_, rs) => rs = [None; Some 0; Some 0; Some 0; None; Some 0; Some 0; None; Some 0]
  | inl _ => False
  end.
Proof. vm_compute. reflexivity. Qed.

#[local] Existing Instance demo_ssl.
Definition demo_tls_conn : Connection.t (@ProtocolFactory.ProtocolHandler (Tls.t (bytes * bytes))) :=
  Connection.set_protocol_handler (Some (An1 (Http1Handler.create true demo_tls)))
    (Connection.create 1 5 8443 0).

Lemma closed_connection_silent_witness :
  exists c1 c2 rs h2, Connection.close close true 7 demo_tls_conn = Some c1 /\
    session true c1 [OnRead; SendResponse (str "late"); ResetHandler; OnConnection (Connection.Close 8)]
      = inr (c2, rs) /\
    Forall2 refused [OnRead; SendResponse (str "late"); ResetHandler;
      OnConnection (H := @ProtocolFactory.ProtocolHandler (Tls.t (bytes * bytes))) (Connection.Close 8)] rs /\
    Connection.state_ c2 = Connection.DISCONNECTED /\ Connection.closed c2 = [] ++ [5] /\
    Connection.protocol_handler_ c2 = Some h2 /\
    wire (get_tls_handler h2) = wire demo_tls.
Proof.
  apply (closed_connection_silent true 7 demo_tls_conn (An1 (Http1Handler.create true demo_tls))
    [OnRead; SendResponse (str "late"); ResetHandler; OnConnection (Connection.Close 8)]).
  - done.
  - reflexivity.
  - apply (proj1 (create_sound true _)).
  - by repeat constructor.
Defined.

End Session.
