(* ===== verification/Server.v ===== *)
(** The server's life cycle (server/include/server/server.hpp and
    server/source/server.cpp), over the configuration, the connection manager
    and the message centre.

    What the system calls return is an argument ([syscalls] of each listener, in
    order), as are the clocks and what the other threads do to the connections
    while a loop sleeps ([waiting]). The calls are modelled one at a time: two
    threads inside [start] or [stop] are not. *)

From S2P Require Import Prelude ByteBuffer CString EventQ Workers MsgCentre StdMap Http Tls Http1 Config Conn.
Open Scope Z_scope.

Module Server.

Definition ERR_SUCCESS : Z := 0.
Definition ERR_INVALID_STATE : Z := -1.
Definition ERR_CONFIG_LOAD : Z := -2.
Definition ERR_CONFIG_VALIDATE : Z := -3.
Definition ERR_SOCKET_CREATE : Z := -4.
Definition ERR_SOCKET_BIND : Z := -5.
Definition ERR_SOCKET_LISTEN : Z := -6.
Definition ERR_MSG_CENTER_START : Z := -7.
Definition ERR_INVALID_ARGUMENT : Z := -8.
Definition ERR_INTERNAL : Z := -9.
Definition MAX_CALLBACK_TIMEOUT_SECONDS : Z := 30.
Definition MAX_CONN_CLOSE_WAIT_SECONDS : Z := 5.

Inductive ServerStatusEnum := STOPPED | INITIALIZING | RUNNING | SHUTTING_DOWN | ERROR.
#[export] Instance ServerStatusEnum_eq_dec : EqDecision ServerStatusEnum.
Proof. solve_decision. Defined.

(** What [get_status] fills in. *)
Record ServerStatus := mkStatus {
  status : ServerStatusEnum;
  uptime_seconds : Z;
  current_connections : Z;
  listen_port : Z;
  listen_ip : bytes;       (* the string in [char[64]] *)
}.

(** What the system calls made for one listener return. *)
Record syscalls := mkSys {
  sys_socket : Z;
  sys_reuseaddr : Z;
  sys_inet_pton : Z;
  sys_bind : Z;
  sys_listen : Z;
}.

Section Server.
Context {H T HC : Type}.
Variable handler_close : HC -> HC.
Variable ndebug : bool.
Variable snapshot : gset Z -> list Z.
Variable parse : bytes -> option Json.

Record t := mk {
  config_ : option Config.t;
  conn_manager_ : option (ConnectionManager.t HC);
  msg_center_ : option (MsgCenter.t H T);
  listen_fds_ : list Z;
  listen_ports_ : list Z;
  listen_ips_ : list bytes;
  status_ : ServerStatusEnum;
  running_ : bool;
  graceful_shutdown_ : bool;
  resources_cleaned_ : bool;
  start_time_ : option Z;        (* None: the default time point *)
  opened : list Z;               (* descriptors [socket] returned *)
  closed : list Z;               (* descriptors given to [::close] *)
}.

Definition create : t := mk None None None [] [] [] STOPPED false false false None [] [].

Definition set_status (x : ServerStatusEnum) (s : t) : t :=
  mk (config_ s) (conn_manager_ s) (msg_center_ s) (listen_fds_ s) (listen_ports_ s) (listen_ips_ s)
     x (running_ s) (graceful_shutdown_ s) (resources_cleaned_ s) (start_time_ s) (opened s) (closed s).
Definition set_running (r : bool) (s : t) : t :=
  mk (config_ s) (conn_manager_ s) (msg_center_ s) (listen_fds_ s) (listen_ports_ s) (listen_ips_ s)
     (status_ s) r (graceful_shutdown_ s) (resources_cleaned_ s) (start_time_ s) (opened s) (closed s).
Definition set_flags (g c : bool) (s : t) : t :=
  mk (config_ s) (conn_manager_ s) (msg_center_ s) (listen_fds_ s) (listen_ports_ s) (listen_ips_ s)
     (status_ s) (running_ s) g c (start_time_ s) (opened s) (closed s).
Definition set_modules (c : option Config.t) (m : option (ConnectionManager.t HC))
    (x : option (MsgCenter.t H T)) (s : t) : t :=
  mk c m x (listen_fds_ s) (listen_ports_ s) (listen_ips_ s)
     (status_ s) (running_ s) (graceful_shutdown_ s) (resources_cleaned_ s) (start_time_ s) (opened s) (closed s).
Definition set_start_time (now : Z) (s : t) : t :=
  mk (config_ s) (conn_manager_ s) (msg_center_ s) (listen_fds_ s) (listen_ports_ s) (listen_ips_ s)
     (status_ s) (running_ s) (graceful_shutdown_ s) (resources_cleaned_ s) (Some now) (opened s) (closed s).
Definition set_listeners (fds ports : list Z) (ips : list bytes) (s : t) : t :=
  mk (config_ s) (conn_manager_ s) (msg_center_ s) fds ports ips
     (status_ s) (running_ s) (graceful_shutdown_ s) (resources_cleaned_ s) (start_time_ s) (opened s) (closed s).
(** [socket] and [::close] calls. *)
Definition open_fd (fd : Z) (s : t) : t :=
  mk (config_ s) (conn_manager_ s) (msg_center_ s) (listen_fds_ s) (listen_ports_ s) (listen_ips_ s)
     (status_ s) (running_ s) (graceful_shutdown_ s) (resources_cleaned_ s) (start_time_ s)
     (opened s ++ [fd]) (closed s).
Definition close_fds (fds : list Z) (s : t) : t :=
  mk (config_ s) (conn_manager_ s) (msg_center_ s) (listen_fds_ s) (listen_ports_ s) (listen_ips_ s)
     (status_ s) (running_ s) (graceful_shutdown_ s) (resources_cleaned_ s) (start_time_ s)
     (opened s) (closed s ++ fds).

(** The descriptors of a list that a loop guarded by [fd >= 0] closes. *)
Definition valid_fds (fds : list Z) : list Z := filter (fun fd => (0 <=? fd) = true) fds.

Definition rollback_listen_sockets (s : t) : t :=
  set_listeners [] [] [] (close_fds (valid_fds (listen_fds_ s)) s).

(** The loop of [init_listen_sockets]; [i] counts the enabled listeners. A
    failing [SO_REUSEPORT] is ignored. *)
Fixpoint open_listeners (sys : nat -> syscalls) (i : nat) (ls : list Config.ListenConfig) (s : t) : t * Z :=
  match ls with
  | [] => (s, ERR_SUCCESS)
  | l :: r =>
      if negb (Config.listen_enabled l) then open_listeners sys i r s
      else
        let fd := sys_socket (sys i) in
        if fd <? 0 then (rollback_listen_sockets s, ERR_SOCKET_CREATE)
        else
          let s1 := open_fd fd s in
          let abandon code := (rollback_listen_sockets (close_fds [fd] s1), code) in
          if sys_reuseaddr (sys i) <? 0 then abandon ERR_INTERNAL
          else if sys_inet_pton (sys i) =? 0 then abandon ERR_INVALID_ARGUMENT
          else if sys_inet_pton (sys i) <? 0 then abandon ERR_INTERNAL
          else if sys_bind (sys i) <? 0 then abandon ERR_SOCKET_BIND
          else if sys_listen (sys i) <? 0 then abandon ERR_SOCKET_LISTEN
          else open_listeners sys (S i) r
                 (set_listeners (listen_fds_ s1 ++ [fd]) (listen_ports_ s1 ++ [Config.port l])
                    (listen_ips_ s1 ++ [Config.ip l]) s1)
  end.
Definition init_listen_sockets (sys : nat -> syscalls) (c : Config.t) (s : t) : t * Z :=
  open_listeners sys 0 (Config.listens_ c) s.

(** [~MsgCenter]: [stop], then the members; destroying a joinable
    [std::thread] terminates the process ([None]). *)
Definition destroy_msg_center (m : option (MsgCenter.t H T)) : option unit :=
  match m with
  | None => Some tt
  | Some m => if MsgCenter.event_loop_thread_ (MsgCenter.stop m) then None else Some tt
  end.

Definition cleanup_resources (s : t) : t :=
  if resources_cleaned_ s then s
  else
    set_flags false true
      (set_running false (set_modules (config_ s) (conn_manager_ s) (MsgCenter.stop <$> msg_center_ s) s)).

(** [cleanup], also the destructor. *)
Definition cleanup (s : t) : option t :=
  let s1 := cleanup_resources (rollback_listen_sockets s) in
  destroy_msg_center (msg_center_ s1);;
  Some (set_flags (graceful_shutdown_ s1) false (set_status STOPPED (set_modules None None None s1))).

Definition handle_init_error (s : t) : option t := cleanup (set_status ERROR s).

(** [content]: what the configuration file holds, if it can be opened. *)
Definition init (content : option bytes) (sys : nat -> syscalls) (s : t) : option (t * Z) :=
  if negb (bool_decide (status_ s = STOPPED)) then Some (s, ERR_INVALID_STATE)
  else
    '(c, ret) ← Config.load_from_file parse content Config.reset;
    let s1 := set_modules (Some c) (conn_manager_ s) (msg_center_ s) (set_status INITIALIZING s) in
    if negb (ret =? ERR_SUCCESS) then s2 ← handle_init_error s1; Some (s2, ERR_CONFIG_LOAD)
    else if negb (Config.validate c =? ERR_SUCCESS) then
      s2 ← handle_init_error s1; Some (s2, ERR_CONFIG_VALIDATE)
    else
      let '(s2, socket_ret) := init_listen_sockets sys c s1 in
      if negb (socket_ret =? ERR_SUCCESS) then s3 ← handle_init_error s2; Some (s3, socket_ret)
      else
        destroy_msg_center (msg_center_ s2);;
        Some (set_status STOPPED
                (set_modules (Some c) (Some ConnectionManager.create) (Some (MsgCenter.create 2 2)) s2),
              ERR_SUCCESS).

(** Registering the listeners: [listen_ports_[i]] past its end is undefined
    behaviour ([None]); the result is the message centre and whether every
    descriptor was accepted, with those registered so far. *)
Fixpoint register_listeners (fds ports : list Z) (done : list Z) (m : MsgCenter.t H T)
    : option (MsgCenter.t H T * list Z * bool) :=
  match fds with
  | [] => Some (m, done, true)
  | fd :: r =>
      match ports with
      | [] => None
      | p :: ps =>
          let '(m1, ret) := MsgCenter.add_listen_fd fd p m in
          if negb (MsgCenter.code ret =? ERR_SUCCESS) then Some (m1, done, false)
          else register_listeners r ps (done ++ [fd]) m1
      end
  end.

Definition remove_listeners (fds : list Z) (m : MsgCenter.t H T) : MsgCenter.t H T :=
  foldl (fun m fd => fst (MsgCenter.remove_listen_fd fd m)) m fds.

Definition start (e : MsgCenter.env) (now : Z) (s : t) : option (t * Z) :=
  match config_ s with
  | None => Some (s, ERR_INVALID_STATE)
  | Some c =>
      if negb (bool_decide (status_ s = STOPPED)) then Some (s, ERR_INVALID_STATE)
      else
        let s1 := set_running true (set_status RUNNING s) in
        m0 ← msg_center_ s1;
        '(m, r) ← MsgCenter.start e m0;
        let s2 := set_modules (Some c) (conn_manager_ s1) (Some m) s1 in
        if negb (MsgCenter.code r =? ERR_SUCCESS) then
          s3 ← cleanup (set_running false (set_status ERROR s2)); Some (s3, ERR_MSG_CENTER_START)
        else
          '(m1, reg, ok) ← register_listeners (listen_fds_ s2) (listen_ports_ s2) [] m;
          if negb ok then
            let m2 := MsgCenter.stop (remove_listeners reg m1) in
            let s3 := cleanup_resources (set_modules (Some c) (conn_manager_ s2) (Some m2) s2) in
            destroy_msg_center (msg_center_ s3);;
            Some (set_flags (graceful_shutdown_ s3) false
                    (set_running false (set_status STOPPED (set_modules None None None s3))), ERR_INTERNAL)
          else
            Some (set_start_time now (set_modules (Some c) (conn_manager_ s2) (Some m1) s2), ERR_SUCCESS)
  end.

(** * Shutting down *)

(** What a waiting loop sees in its round [k]: the wall clock, the seconds
    since the loop began, and what the other threads do to the connections
    while it sleeps. *)
Record waiting := mkWaiting {
  wall : nat -> Z;
  elapsed : nat -> Z;
  others : nat -> ConnectionManager.t HC -> ConnectionManager.t HC;
}.

Fixpoint wait_pending_requests (fuel : nat) (e : waiting) (k : nat) (m : ConnectionManager.t HC)
    : option (ConnectionManager.t HC) :=
  match fuel with
  | O => None
  | S n =>
      m1 ← ConnectionManager.check_callback_timeouts handler_close ndebug snapshot (wall e k)
             MAX_CALLBACK_TIMEOUT_SECONDS m;
      if ConnectionManager.get_connection_count m1 =? 0 then Some m1
      else if MAX_CALLBACK_TIMEOUT_SECONDS <=? elapsed e k then Some m1
      else wait_pending_requests n e (S k) (others e k m1)
  end.

Fixpoint wait_closed (fuel : nat) (e : waiting) (k : nat) (m : ConnectionManager.t HC)
    : option (ConnectionManager.t HC) :=
  match fuel with
  | O => None
  | S n =>
      if ConnectionManager.get_connection_count m =? 0 then Some m
      else if MAX_CONN_CLOSE_WAIT_SECONDS <=? elapsed e k then Some m
      else wait_closed n e (S k) (others e k m)
  end.
Definition close_all_connections (fuel : nat) (e : waiting) (m : ConnectionManager.t HC)
    : option (ConnectionManager.t HC) :=
  m1 ← ConnectionManager.close_all handler_close ndebug snapshot (wall e 0) m;
  wait_closed fuel e 0 m1.

(** At least 100 ms pass per round: 301 and 51 rounds reach 30 s and 5 s. *)
Definition wait_fuel : nat := 301.
Definition close_fuel : nat := 51.

Definition stop_accepting (s : t) : t :=
  match msg_center_ s with
  | None => s
  | Some m =>
      let fds := valid_fds (listen_fds_ s) in
      set_listeners [] (listen_ports_ s) (listen_ips_ s)
        (close_fds fds (set_modules (config_ s) (conn_manager_ s) (Some (remove_listeners fds m)) s))
  end.

Definition graceful_shutdown (e1 e2 : waiting) (s : t) : option t :=
  let s1 := stop_accepting (set_status SHUTTING_DOWN (set_flags true (resources_cleaned_ s) s)) in
  m ← match conn_manager_ s1 with
      | None => Some None
      | Some m0 =>
          m1 ← wait_pending_requests wait_fuel e1 0 m0;
          m2 ← close_all_connections close_fuel e2 m1;
          Some (Some m2)
      end;
  Some (set_status STOPPED (cleanup_resources (set_modules (config_ s1) m (msg_center_ s1) s1))).

Definition stop (e1 e2 : waiting) (s : t) : option (t * Z) :=
  if negb (bool_decide (status_ s = RUNNING)) then Some (s, ERR_INVALID_STATE)
  else s' ← graceful_shutdown e1 e2 s; Some (s', ERR_SUCCESS).

(** [now], like [start_time_], is the steady clock in nanoseconds. *)
Definition get_status (now : Z) (s : t) : ServerStatus :=
  mkStatus (status_ s)
    match start_time_ s with
    | Some st => if bool_decide (status_ s = RUNNING) then u64 (Z.quot (now - st) 1000000000) else 0
    | None => 0
    end
    match conn_manager_ s with Some m => ConnectionManager.get_connection_count m | None => 0 end
    match listen_ports_ s with p :: _ => p | [] => 0 end
    match listen_ips_ s with ip :: _ => ztake 63 (c_str ip) | [] => [] end.


(** * The message centre of a server *)

(** It can be destroyed without terminating the process. *)
Definition joined (m : MsgCenter.t H T) : Prop :=
  MsgCenter.running_ m = true \/ MsgCenter.event_loop_thread_ m = false.

Record centre_inv (m : MsgCenter.t H T) : Prop := {
  centre_ok : MsgCenter.inv m;
  centre_io : MsgCenter.io_thread_count_ m = 2%nat;
  centre_workers : MsgCenter.worker_thread_count_ m = 2%nat;
}.

Lemma centre_joined m : centre_inv m -> joined m.
Proof.
  intros [Hi _ _]. unfold joined. destruct (MsgCenter.running_ m) eqn:E; [by left|right].
  by apply (MsgCenter.inv_down m Hi).
Qed.

Lemma stop_joined m : joined m -> joined (MsgCenter.stop m) /\ MsgCenter.event_loop_thread_ (MsgCenter.stop m) = false.
Proof.
  unfold joined, MsgCenter.stop. destruct (MsgCenter.running_ m) eqn:E; cbn; [auto|].
  intros [?|?]; [congruence|]. rewrite E. auto.
Qed.

Lemma destroy_joined m : joined m -> destroy_msg_center (Some m) = Some tt.
Proof. intros Hj. unfold destroy_msg_center. by rewrite (proj2 (stop_joined m Hj)). Qed.

Lemma stop_centre m : centre_inv m -> centre_inv (MsgCenter.stop m) /\ MsgCenter.running_ (MsgCenter.stop m) = false.
Proof.
  intros [Hi H1 H2]. unfold MsgCenter.stop. destruct (MsgCenter.running_ m) eqn:E; cbn; [|done].
  split; [|done]. split; cbn; [|done|done]. split; cbn; [apply Hi|constructor|done|done].
Qed.

Lemma create_centre : centre_inv (MsgCenter.create 2 2).
Proof. split; [apply MsgCenter.create_centre_inv|done|done]. Qed.

(** Starting it: it runs, or it can be destroyed. *)
Lemma start_centre e m : e <> MsgCenter.Timeout -> centre_inv m ->
  exists m' r, MsgCenter.start e m = Some (m', r) /\
    (r = MsgCenter.SUCCESS -> centre_inv m' /\ MsgCenter.running_ m' = true) /\ joined m'.
Proof.
  intros He Hc. pose proof (centre_joined m Hc) as Hj. destruct Hc as [Hi H1 H2].
  unfold MsgCenter.start. destruct (MsgCenter.running_ m) eqn:Er.
  { exists m, MsgCenter.ALREADY_RUNNING. done. }
  rewrite H1, H2. cbn [Nat.eqb orb]. pose proof (MsgCenter.inv_down m Hi Er) as (_ & _ & _ & Ht).
  assert (Hfine : e = MsgCenter.Fine -> exists m', MsgCenter.start_body e m = Some (m', true) /\
    centre_inv m' /\ MsgCenter.running_ m' = true).
  { intros ->. destruct (MsgCenter.start_fine m Hi) as (m' & r & E & Hi' & _ & Hs).
    revert E. unfold MsgCenter.start. rewrite Er, H1, H2. cbn [Nat.eqb orb].
    unfold MsgCenter.start_body. rewrite Ht. intros [= E <-]. exists m'. rewrite E.
    split; [done|]. split; [|by apply Hs]. subst m'. by split. }
  unfold MsgCenter.stop. destruct e as [| |k|k|].
  - destruct (Hfine eq_refl) as (m' & -> & Hc' & Hr'). exists m', MsgCenter.SUCCESS.
    split; [done|]. split; [done|]. by left.
  - done.
  - cbn. rewrite Er. cbn. eexists _, _. split; [reflexivity|]. split; [done|]. by right.
  - cbn. rewrite Er. cbn. eexists _, _. split; [reflexivity|]. split; [done|]. by right.
  - cbn. rewrite Er. cbn. eexists _, _. split; [reflexivity|]. split; [done|]. by right.
Qed.

Lemma add_listen_centre fd p m : 0 <= fd -> centre_inv m ->
  exists m', MsgCenter.add_listen_fd fd p m = (m', MsgCenter.SUCCESS) /\ centre_inv m' /\
    MsgCenter.running_ m' = MsgCenter.running_ m.
Proof.
  intros Hfd [Hi H1 H2]. pose proof (MsgCenter.add_listen_fd_inv fd p m Hi) as Hi'.
  unfold MsgCenter.add_listen_fd in *. revert Hi'. ifz; [lia|]. cbn [fst]. intros Hi'.
  eexists. split; [reflexivity|]. by split.
Qed.

Lemma register_all fds ports reg m :
  Forall (fun fd => 0 <= fd) fds -> (length fds <= length ports)%nat -> centre_inv m ->
  exists m', register_listeners fds ports reg m = Some (m', reg ++ fds, true) /\ centre_inv m' /\
    MsgCenter.running_ m' = MsgCenter.running_ m.
Proof.
  intros Hf. revert ports reg m. induction Hf as [|fd fds Hfd Hf IH]; intros ports reg m Hl Hc; cbn.
  - exists m. by rewrite app_nil_r.
  - destruct ports as [|p ports]; [cbn in Hl; lia|].
    destruct (add_listen_centre fd p m Hfd Hc) as (m1 & -> & Hc1 & Hr1). cbn.
    destruct (IH ports (reg ++ [fd]) m1) as (m' & -> & Hc' & Hr'); [cbn in Hl; lia|done|].
    exists m'. rewrite <- app_assoc, Hr', Hr1. done.
Qed.

Lemma remove_centre fds m : centre_inv m ->
  centre_inv (remove_listeners fds m) /\ MsgCenter.running_ (remove_listeners fds m) = MsgCenter.running_ m.
Proof.
  unfold remove_listeners. revert m. induction fds as [|fd fds IH]; intros m Hc; cbn [foldl]; [done|].
  assert (Hc1 : centre_inv (fst (MsgCenter.remove_listen_fd fd m))).
  { destruct Hc as [Hi H1 H2]. split; [by apply MsgCenter.remove_listen_fd_inv|done|done]. }
  destruct (IH _ Hc1) as [? ->]. done.
Qed.

(** * The descriptors *)

Record fds_ok (s : t) : Prop := {
  fds_accounted : opened s ≡ₚ closed s ++ listen_fds_ s;
  fds_valid : Forall (fun fd => 0 <= fd) (listen_fds_ s);
  fds_ports : (length (listen_fds_ s) <= length (listen_ports_ s))%nat;
}.

Lemma valid_fds_id fds : Forall (fun fd => 0 <= fd) fds -> valid_fds fds = fds.
Proof.
  induction 1 as [|fd fds Hfd _ IH]; [done|]. unfold valid_fds in *.
  rewrite filter_cons_True by (by apply Z.leb_le). by rewrite IH.
Qed.

Lemma rollback_ok s : fds_ok s -> fds_ok (rollback_listen_sockets s).
Proof.
  intros [Ha Hv Hp]. unfold rollback_listen_sockets. rewrite valid_fds_id by done.
  split; cbn; [by rewrite app_nil_r|constructor|lia].
Qed.

Lemma open_listeners_ok sys i ls s : fds_ok s ->
  let s' := (open_listeners sys i ls s).1 in
  fds_ok s' /\ config_ s' = config_ s /\ conn_manager_ s' = conn_manager_ s /\
  msg_center_ s' = msg_center_ s /\ status_ s' = status_ s.
Proof.
  revert i s. induction ls as [|l ls IH]; intros i s Hok; cbn [open_listeners]; [done|].
  destruct (Config.listen_enabled l); cbn [negb]; [|by apply IH].
  assert (Hfail : forall code, let s' := (rollback_listen_sockets (close_fds [sys_socket (sys i)]
      (open_fd (sys_socket (sys i)) s)), code : Z).1 in
    fds_ok s' /\ config_ s' = config_ s /\ conn_manager_ s' = conn_manager_ s /\
    msg_center_ s' = msg_center_ s /\ status_ s' = status_ s).
  { intros code. split; [|done]. apply rollback_ok. destruct Hok as [Ha Hv Hp]. split; cbn; [|done|done].
    rewrite Ha, <- !app_assoc. apply Permutation_app_head, Permutation_app_comm. }
  destruct (sys_socket (sys i) <? 0) eqn:Efd; [split; [by apply rollback_ok|done]|]. zb.
  repeat match goal with |- context [if ?b then (rollback_listen_sockets _, _) else _] =>
    destruct b; [by apply Hfail|] end.
  match goal with |- context [open_listeners sys _ ls ?x] => set (s2 := x) end.
  assert (Hok2 : fds_ok s2).
  { destruct Hok as [Ha Hv Hp]. split; cbn.
    - by rewrite Ha, app_assoc.
    - apply Forall_app. split; [done|]. constructor; [lia|constructor].
    - rewrite !length_app. cbn. lia. }
  destruct (IH (S i) s2 Hok2) as (? & -> & -> & -> & ->). done.
Qed.

(** * The invariant between calls *)

Record inv (s : t) : Prop := {
  inv_fds : fds_ok s;
  inv_status : status_ s = STOPPED \/ status_ s = RUNNING;
  inv_modules :
    (config_ s = None /\ conn_manager_ s = None /\ msg_center_ s = None) \/
    (exists c m x, config_ s = Some c /\ conn_manager_ s = Some m /\ msg_center_ s = Some x /\ centre_inv x);
  inv_running : status_ s = RUNNING -> running_ s = true /\
    exists x, msg_center_ s = Some x /\ MsgCenter.running_ x = true;
}.

Lemma create_server_inv : inv create.
Proof. split; cbn; [split; cbn; [done|constructor|lia]|by left|by left|done]. Qed.

Lemma inv_joined s : inv s -> forall x, msg_center_ s = Some x -> joined x.
Proof.
  intros Hi x Hx. destruct (inv_modules s Hi) as [(_ & _ & E)|(c & m & y & _ & _ & E & Hc)]; [congruence|].
  apply centre_joined. congruence.
Qed.

(** What [cleanup] leaves. *)
Definition cleaned (s : t) : Prop :=
  inv s /\ status_ s = STOPPED /\ listen_fds_ s = [] /\ config_ s = None /\ msg_center_ s = None /\
  resources_cleaned_ s = false.

Lemma cleanup_total s : fds_ok s -> (forall x, msg_center_ s = Some x -> joined x) ->
  exists s', cleanup s = Some s' /\ cleaned s' /\ closed s' = closed s ++ listen_fds_ s /\ opened s' = opened s.
Proof.
  intros Hf Hj. unfold cleanup.
  assert (Hd : destroy_msg_center (msg_center_ (cleanup_resources (rollback_listen_sockets s))) = Some tt).
  { unfold cleanup_resources, rollback_listen_sockets. destruct (resources_cleaned_ _) eqn:E; cbn;
      (destruct (msg_center_ s) as [x|] eqn:Ex; [|done]); apply destroy_joined; [by apply Hj|].
    by apply stop_joined, Hj. }
  pose proof (rollback_ok s Hf) as [Ha _ _].
  rewrite Hd. cbn [mbind option_bind]. eexists. split; [reflexivity|].
  assert (Hcl : closed (rollback_listen_sockets s) = closed s ++ listen_fds_ s)
    by (destruct Hf; unfold rollback_listen_sockets; cbn; by rewrite valid_fds_id).
  rewrite Hcl in Ha. unfold cleaned, cleanup_resources.
  destruct (resources_cleaned_ (rollback_listen_sockets s)); cbn; rewrite valid_fds_id by apply Hf;
    (split; [|done]); (split; [|done]); split; cbn; try done; try (by left); split; cbn;
    rewrite ?valid_fds_id by apply Hf; first [exact Ha|constructor].
Qed.

Lemma init_total content sys s : inv s ->
  Config.load_from_file parse content Config.reset <> None ->
  exists s' r, init content sys s = Some (s', r) /\ inv s' /\ (status_ s = RUNNING -> s' = s).
Proof.
  intros Hi Hl. unfold init. case_bool_decide as Hs; cbn [negb]; [|by exists s, ERR_INVALID_STATE].
  assert (Hnr : status_ s <> RUNNING) by (rewrite Hs; done).
  destruct (Config.load_from_file parse content Config.reset) as [[c ret]|]; [|done]. cbn [mbind option_bind].
  assert (Herr : forall s1 (code : Z), fds_ok s1 -> msg_center_ s1 = msg_center_ s -> exists s' r,
    (s2 ← handle_init_error s1; Some (s2, code)) = Some (s', r) /\ inv s' /\ (status_ s = RUNNING -> s' = s)).
  { intros s1 code Hf Hm. unfold handle_init_error.
    destruct (cleanup_total (set_status ERROR s1)) as (s' & -> & Hc & _); [by destruct Hf; split| |].
    { intros x. cbn. rewrite Hm. by apply inv_joined. }
    cbn. exists s', code. split; [done|]. split; [apply Hc|done]. }
  assert (Hf1 : fds_ok (set_modules (Some c) (conn_manager_ s) (msg_center_ s) (set_status INITIALIZING s)))
    by (destruct Hi as [[]]; by split).
  destruct (negb (ret =? ERR_SUCCESS)); [by apply Herr|].
  destruct (negb (Config.validate c =? ERR_SUCCESS)); [by apply Herr|].
  unfold init_listen_sockets.
  pose proof (open_listeners_ok sys 0 (Config.listens_ c) _ Hf1) as Ho. cbv zeta in Ho.
  destruct (open_listeners _ _ _ _) as [s2 code]. cbn [fst] in Ho. destruct Ho as (Hf2 & Hc2 & Hm2 & Hx2 & Hst2).
  destruct (negb (code =? ERR_SUCCESS)); [by apply Herr|].
  rewrite Hx2. cbn [msg_center_ set_modules].
  assert (destroy_msg_center (msg_center_ s) = Some tt) as ->.
  { destruct (msg_center_ s) as [x|] eqn:Ex; [|done]. apply destroy_joined. by apply (inv_joined s). }
  cbn [mbind option_bind]. eexists _, _. split; [reflexivity|]. split; [|done].
  destruct Hf2. split; cbn; [by split|by left| |done].
  right. do 3 eexists. do 3 (split; [reflexivity|]). apply create_centre.
Qed.

Lemma start_total e now s : inv s -> e <> MsgCenter.Timeout ->
  exists s' r, start e now s = Some (s', r) /\ inv s'.
Proof.
  intros Hi He. unfold start. destruct (inv_modules s Hi) as [(-> & _)|(c & m & x & Hc & Hm & Hx & Hcx)].
  { by exists s, ERR_INVALID_STATE. }
  rewrite Hc. case_bool_decide as Hs; cbn [negb]; [|by exists s, ERR_INVALID_STATE].
  cbn [msg_center_ set_running set_status]. rewrite Hx. cbn [mbind option_bind].
  destruct (start_centre e x He Hcx) as (x1 & r & -> & Hok & Hj). cbn [mbind option_bind].
  destruct (MsgCenter.code r =? ERR_SUCCESS) eqn:Er; cbn [negb].
  - assert (r = MsgCenter.SUCCESS) as -> by (destruct r; done). destruct (Hok eq_refl) as [Hc1 Hr1].
    destruct (inv_fds s Hi) as [Ha Hv Hp].
    destruct (register_all (listen_fds_ s) (listen_ports_ s) [] x1 Hv Hp Hc1) as (x2 & E & Hc2 & Hr2).
    cbn [listen_fds_ listen_ports_ set_modules set_running set_status]. rewrite E. cbn.
    eexists _, _. split; [reflexivity|]. split; cbn; [by split|by right| |].
    + right. do 3 eexists. by rewrite Hm.
    + intros _. split; [done|]. exists x2. by rewrite Hr2.
  - set (s1 := set_running false _).
    destruct (cleanup_total s1) as (s' & -> & Hcl & _).
    + destruct (inv_fds s Hi). by split.
    + intros y. cbn. by intros [= <-].
    + cbn. exists s', ERR_MSG_CENTER_START. split; [done|apply Hcl].
Qed.

(** * Stopping *)

Hypothesis snapshot_lists : ConnectionManager.lists snapshot.

(** Each round of a waiting loop sleeps 100 ms or more. *)
Definition ticks (e : waiting) : Prop := forall k, Z.of_nat k / 10 <= elapsed e k.

Lemma check_callbacks_total now secs m :
  exists m', ConnectionManager.check_callback_timeouts handler_close ndebug snapshot now secs m = Some m'.
Proof.
  unfold ConnectionManager.check_callback_timeouts.
  edestruct (ConnectionManager.on_each_total (Connection.close handler_close ndebug now)
    (ConnectionManager.closed_by handler_close now)) as (o' & -> & _);
    [apply ConnectionManager.close_total|apply NoDup_filter, snapshot_lists|]. by eexists.
Qed.

Lemma close_all_total now m :
  exists m', ConnectionManager.close_all handler_close ndebug snapshot now m = Some m' /\
    ConnectionManager.connections_ m' = ∅ /\
    forall i c, i ∈ ConnectionManager.connections_ m -> ConnectionManager.objects m !! i = Some c ->
      ConnectionManager.objects m' !! i = Some (ConnectionManager.closed_by handler_close now c).
Proof.
  unfold ConnectionManager.close_all.
  edestruct (ConnectionManager.on_each_total (Connection.close handler_close ndebug now)
    (ConnectionManager.closed_by handler_close now)) as (o' & -> & Ho);
    [apply ConnectionManager.close_total|apply snapshot_lists|].
  eexists. split; [reflexivity|]. split; [done|]. cbn. intros i c Hin Hc.
  rewrite Ho, Hc. by rewrite bool_decide_eq_true_2 by by apply snapshot_lists.
Qed.

Lemma wait_pending_total e n k m : ticks e -> (n + k = 301)%nat -> (0 < n)%nat ->
  exists m', wait_pending_requests n e k m = Some m'.
Proof.
  intros He. revert k m. induction n as [|n IH]; intros k m Hk Hn; [lia|]. cbn [wait_pending_requests].
  destruct (check_callbacks_total (wall e k) MAX_CALLBACK_TIMEOUT_SECONDS m) as (m1 & ->).
  cbn [mbind option_bind]. destruct (_ =? 0); [by eexists|].
  destruct (MAX_CALLBACK_TIMEOUT_SECONDS <=? elapsed e k) eqn:E; [by eexists|]. zb.
  apply IH; [lia|]. unfold MAX_CALLBACK_TIMEOUT_SECONDS in E. destruct n; [|lia].
  assert (k = 300%nat) as -> by lia. specialize (He 300%nat). change (Z.of_nat 300 / 10) with 30 in He. lia.
Qed.

Lemma wait_closed_total e n k m : ticks e -> (n + k = 51)%nat -> (0 < n)%nat ->
  exists m', wait_closed n e k m = Some m'.
Proof.
  intros He. revert k m. induction n as [|n IH]; intros k m Hk Hn; [lia|]. cbn [wait_closed].
  destruct (_ =? 0); [by eexists|].
  destruct (MAX_CONN_CLOSE_WAIT_SECONDS <=? elapsed e k) eqn:E; [by eexists|]. zb.
  apply IH; [lia|]. unfold MAX_CONN_CLOSE_WAIT_SECONDS in E. destruct n; [|lia].
  assert (k = 50%nat) as -> by lia. specialize (He 50%nat). change (Z.of_nat 50 / 10) with 5 in He. lia.
Qed.

Lemma shutdown_connections e1 e2 m : ticks e1 -> ticks e2 ->
  exists m1 m2, wait_pending_requests wait_fuel e1 0 m = Some m1 /\
    close_all_connections close_fuel e2 m1 = Some m2.
Proof.
  intros H1 H2. destruct (wait_pending_total e1 wait_fuel 0 m H1) as (m1 & E1);
    [reflexivity|unfold wait_fuel; lia|]. exists m1.
  unfold close_all_connections. destruct (close_all_total (wall e2 0) m1) as (m2 & -> & _).
  cbn [mbind option_bind].
  destruct (wait_closed_total e2 close_fuel 0 m2 H2) as (m3 & E3); [reflexivity|unfold close_fuel; lia|].
  by exists m3.
Qed.

(** Stopping a running server. *)
Lemma stop_running_spec e1 e2 s : inv s -> status_ s = RUNNING -> ticks e1 -> ticks e2 ->
  exists s' x, stop e1 e2 s = Some (s', ERR_SUCCESS) /\ inv s' /\ status_ s' = STOPPED /\
    listen_fds_ s' = [] /\ listen_ports_ s' = listen_ports_ s /\ closed s' = closed s ++ listen_fds_ s /\
    config_ s' = config_ s /\ resources_cleaned_ s' = true /\ msg_center_ s' = Some x /\
    MsgCenter.running_ x = resources_cleaned_ s /\ running_ s' = resources_cleaned_ s.
Proof.
  intros Hi Hs H1 H2. unfold stop. rewrite bool_decide_eq_true_2 by done. cbn [negb].
  pose proof (inv_running s Hi Hs) as (Hrun & x & Hx & Hxr).
  destruct (inv_modules s Hi) as [(_ & _ & E)|(c & m & y & Hc & Hm & Hy & Hcy)]; [congruence|].
  assert (y = x) as -> by congruence. destruct (inv_fds s Hi) as [Ha Hv Hp].
  unfold graceful_shutdown, stop_accepting. cbn [msg_center_ set_status set_flags]. rewrite Hx.
  cbn [conn_manager_ set_listeners close_fds set_modules set_status set_flags listen_fds_]. rewrite Hm.
  destruct (shutdown_connections e1 e2 m H1 H2) as (m1 & m2 & -> & E2). cbn [mbind option_bind]. rewrite E2.
  cbn [mbind option_bind]. rewrite valid_fds_id by done.
  destruct (remove_centre (listen_fds_ s) x Hcy) as [Hcr Hrr]. rewrite Hxr in Hrr.
  destruct (stop_centre _ Hcr) as [Hcs Hrs].
  unfold cleanup_resources. cbn. destruct (resources_cleaned_ s) eqn:Ercl; cbn.
  - do 2 eexists. split; [reflexivity|]. cbn. split; [|by rewrite Hrr].
    split; cbn; [split; cbn; [by rewrite app_nil_r|constructor|lia]|by left| |done].
    right. do 3 eexists. done.
  - do 2 eexists. split; [reflexivity|]. cbn. split; [|by rewrite Hrs].
    split; cbn; [split; cbn; [by rewrite app_nil_r|constructor|lia]|by left| |done].
    right. do 3 eexists. done.
Qed.

(** * Runs *)

Inductive op :=
| Init (content : option bytes) (sys : nat -> syscalls)
| Start (e : MsgCenter.env) (now : Z)
| Stop (e1 e2 : waiting)
| Cleanup.
Definition run_op (s : t) (o : op) : option t :=
  match o with
  | Init content sys => fst <$> init content sys s
  | Start e now => fst <$> start e now s
  | Stop e1 e2 => fst <$> stop e1 e2 s
  | Cleanup => cleanup s
  end.
Definition run_ops (s : t) (os : list op) : option t :=
  foldl (fun s o => s ← s; run_op s o) (Some s) os.

(** What [server_lifecycle] asks of a call: loading the file meets no undefined
    conversion of a number, the event loop's thread reports in time, and the
    waiting loops' sleeps do sleep. *)
Definition op_ok (o : op) : Prop :=
  match o with
  | Init content _ => Config.load_from_file parse content Config.reset <> None
  | Start e _ => e <> MsgCenter.Timeout
  | Stop e1 e2 => ticks e1 /\ ticks e2
  | Cleanup => True
  end.

Lemma run_server_op_inv s o : inv s -> op_ok o -> exists s', run_op s o = Some s' /\ inv s'.
Proof.
  intros Hi Ho. destruct o as [content sys|e now|e1 e2|]; cbn in *.
  - destruct (init_total content sys s Hi Ho) as (s' & r & -> & Hi' & _). by exists s'.
  - destruct (start_total e now s Hi Ho) as (s' & r & -> & Hi'). by exists s'.
  - destruct Ho as [H1 H2]. destruct (decide (status_ s = RUNNING)) as [Hr|Hr].
    + destruct (stop_running_spec e1 e2 s Hi Hr H1 H2) as (s' & x & -> & Hi' & _). by exists s'.
    + unfold stop. rewrite bool_decide_eq_false_2 by done. by exists s.
  - destruct (cleanup_total s) as (s' & -> & Hc & _); [apply Hi|by apply inv_joined|].
    exists s'. split; [done|apply Hc].
Qed.

Lemma run_server_inv os s : inv s -> Forall op_ok os -> exists s', run_ops s os = Some s' /\ inv s'.
Proof.
  unfold run_ops. intros Hi Hos. revert s Hi. induction Hos as [|o os Ho _ IH]; intros s Hi; cbn.
  - by exists s.
  - destruct (run_server_op_inv s o Hi Ho) as (s' & -> & Hi'). by apply IH.
Qed.

(** C11. The life cycle of a server. Take any sequence of [init], [start], [stop]
    and [cleanup], one after the other, with whatever failures of the system
    calls and of thread creation, under three conditions ([op_ok]): no [start]
    waits in vain for the event loop's thread to report within its second (the
    process is then terminated, [start_timeout_terminates]); no configuration
    file has a number whose conversion to its field's type is undefined in C++
    (1e10 for a port, say); and the 100 ms sleeps of [stop]'s waiting loops take
    their time. Then no call is undefined or loops for ever; between calls the
    server is STOPPED or RUNNING; every descriptor [socket] returned has been
    closed exactly once or is still in [listen_fds_]; a running server has a
    running message centre. After [cleanup] everything is closed. *)
Theorem server_lifecycle (os : list op) : Forall op_ok os ->
  exists s, run_ops create os = Some s /\
    (status_ s = STOPPED \/ status_ s = RUNNING) /\
    opened s ≡ₚ closed s ++ listen_fds_ s /\
    (status_ s = RUNNING -> running_ s = true /\
       exists x, msg_center_ s = Some x /\ MsgCenter.running_ x = true) /\
    exists s', cleanup s = Some s' /\ status_ s' = STOPPED /\ closed s' ≡ₚ opened s' /\
      opened s' = opened s /\ config_ s' = None /\ msg_center_ s' = None.
Proof.
  intros Hos. destruct (run_server_inv os create create_server_inv Hos) as (s & E & Hi).
  exists s. split; [done|]. split; [apply Hi|]. split; [apply Hi|]. split; [apply Hi|].
  destruct (cleanup_total s) as (s' & Ec & (Hi' & Hs' & Hl' & Hc' & Hm' & _) & _ & Ho);
    [apply Hi|by apply inv_joined|].
  exists s'. do 2 (split; [done|]). split; [|done].
  symmetry. rewrite (fds_accounted s' (inv_fds s' Hi')), Hl'. by rewrite app_nil_r.
Qed.

(** * What a successful call does *)

(** The system calls all succeed. *)
Definition sys_ok (x : syscalls) : Prop :=
  0 <= sys_socket x /\ 0 <= sys_reuseaddr x /\ 0 < sys_inet_pton x /\ 0 <= sys_bind x /\ 0 <= sys_listen x.

Definition enabled_listens (c : Config.t) : list Config.ListenConfig :=
  filter (fun l => Config.listen_enabled l = true) (Config.listens_ c).

Lemma open_listeners_all sys i ls s : (forall k, sys_ok (sys k)) ->
  let en := filter (fun l => Config.listen_enabled l = true) ls in
  let fds := map (fun k => sys_socket (sys k)) (seq i (length en)) in
  exists s', open_listeners sys i ls s = (s', ERR_SUCCESS) /\
    listen_fds_ s' = listen_fds_ s ++ fds /\ listen_ports_ s' = listen_ports_ s ++ map Config.port en /\
    listen_ips_ s' = listen_ips_ s ++ map Config.ip en /\ opened s' = opened s ++ fds /\ closed s' = closed s /\
    config_ s' = config_ s /\ conn_manager_ s' = conn_manager_ s /\ msg_center_ s' = msg_center_ s /\
    resources_cleaned_ s' = resources_cleaned_ s.
Proof.
  intros Hsys. revert i s. induction ls as [|l ls IH]; intros i s; cbn [open_listeners].
  - exists s. cbn. rewrite !app_nil_r. done.
  - destruct (Config.listen_enabled l) eqn:El; cbn [negb].
    + rewrite filter_cons_True by done. destruct (Hsys i) as (H1 & H2 & H3 & H4 & H5).
      repeat match goal with |- context [if ?b then (_, _) else _] => destruct b eqn:?; zb; [lia|] end.
      match goal with |- context [open_listeners sys _ ls ?x] => set (s2 := x) end.
      destruct (IH (S i) s2) as (s' & E & Hf & Hp & Hips & Ho & Hc & ?). exists s'. split; [done|].
      rewrite Hf, Hp, Hips, Ho, Hc. cbn. by rewrite <- !app_assoc.
    + rewrite filter_cons_False by (rewrite El; done). apply IH.
Qed.

(** A stopped server that loads a valid file opens its enabled listeners. *)
Lemma init_success content sys s c : inv s -> status_ s = STOPPED -> (forall k, sys_ok (sys k)) ->
  Config.load_from_file parse content Config.reset = Some (c, 0) -> Config.validate c = 0 ->
  exists s', init content sys s = Some (s', ERR_SUCCESS) /\ inv s' /\ status_ s' = STOPPED /\
    config_ s' = Some c /\ conn_manager_ s' = Some ConnectionManager.create /\
    msg_center_ s' = Some (MsgCenter.create 2 2) /\
    listen_fds_ s' = listen_fds_ s ++ map (fun k => sys_socket (sys k)) (seq 0 (length (enabled_listens c))) /\
    listen_ports_ s' = listen_ports_ s ++ map Config.port (enabled_listens c) /\
    listen_ips_ s' = listen_ips_ s ++ map Config.ip (enabled_listens c) /\
    closed s' = closed s /\ resources_cleaned_ s' = resources_cleaned_ s.
Proof.
  intros Hi Hs Hsys Hl Hv.
  destruct (init_total content sys s Hi) as (s' & r & E & Hi' & _); [by rewrite Hl|].
  revert E. unfold init. rewrite bool_decide_eq_true_2 by done. cbn [negb]. rewrite Hl.
  cbn [mbind option_bind]. rewrite Hv. change (negb (0 =? ERR_SUCCESS)) with false. cbv iota.
  unfold init_listen_sockets. set (s1 := set_modules _ _ _ _).
  destruct (open_listeners_all sys 0 (Config.listens_ c) s1 Hsys)
    as (s2 & E2 & Hf & Hp & Hips & _ & Hc & _ & _ & Hx & Hrc).
  rewrite E2, Hx. change (negb (ERR_SUCCESS =? ERR_SUCCESS)) with false. cbv iota.
  assert (destroy_msg_center (msg_center_ s1) = Some tt) as ->.
  { cbn. destruct (msg_center_ s) as [x|] eqn:Ex; [|done]. apply destroy_joined. by apply (inv_joined s). }
  cbn [mbind option_bind]. intros [= E <-]. exists s'. split; [by rewrite E|]. split; [done|].
  subst s'. cbn. rewrite Hf, Hp, Hips, Hc, Hrc. done.
Qed.

(** A stopped server whose message centre is not running starts. *)
Lemma start_success now s x : inv s -> status_ s = STOPPED -> msg_center_ s = Some x ->
  MsgCenter.running_ x = false ->
  exists s' x0 x', start MsgCenter.Fine now s = Some (s', ERR_SUCCESS) /\ inv s' /\ status_ s' = RUNNING /\
    listen_fds_ s' = listen_fds_ s /\ listen_ports_ s' = listen_ports_ s /\ listen_ips_ s' = listen_ips_ s /\
    closed s' = closed s /\ resources_cleaned_ s' = resources_cleaned_ s /\ msg_center_ s' = Some x' /\
    centre_inv x0 /\ MsgCenter.running_ x0 = true /\
    register_listeners (listen_fds_ s) (listen_ports_ s) [] x0 = Some (x', listen_fds_ s, true).
Proof.
  intros Hi Hs Hx Hr.
  destruct (start_total MsgCenter.Fine now s Hi ltac:(done)) as (s' & r & E & Hi').
  destruct (inv_modules s Hi) as [(_ & _ & Hx')|(c & m & y & Hc & Hm & Hy & Hcy)]; [congruence|].
  assert (y = x) as -> by congruence.
  revert E. unfold start. rewrite Hc, (bool_decide_eq_true_2 (status_ s = STOPPED)) by done. cbn [negb].
  cbn [msg_center_ set_running set_status]. rewrite Hx. cbn [mbind option_bind].
  destruct (start_centre MsgCenter.Fine x ltac:(done) Hcy) as (x1 & r1 & E1 & Hok & Hj).
  assert (r1 = MsgCenter.SUCCESS) as ->.
  { revert E1. unfold MsgCenter.start. rewrite Hr, (centre_io x Hcy), (centre_workers x Hcy).
    unfold MsgCenter.start_body. cbn [Nat.eqb orb].
    destruct (MsgCenter.inv_down x (centre_ok x Hcy) Hr) as (_ & _ & _ & ->). by intros [= _ <-]. }
  rewrite E1. cbn [mbind option_bind]. destruct (Hok eq_refl) as [Hc1 Hr1].
  change (negb (MsgCenter.code MsgCenter.SUCCESS =? ERR_SUCCESS)) with false. cbv iota.
  destruct (inv_fds s Hi) as [Ha Hv Hp].
  destruct (register_all (listen_fds_ s) (listen_ports_ s) [] x1 Hv Hp Hc1) as (x2 & E2 & _).
  cbn [listen_fds_ listen_ports_ set_modules set_running set_status]. rewrite E2. cbn [mbind option_bind negb].
  intros [= <- <-]. eexists _, x1, x2. split; [reflexivity|]. split; [done|]. cbn. done.
Qed.

(** C12. Stopping. A server that loaded a valid file and started listens on
    exactly the enabled listeners; [stop] then returns 0 after at most 301
    rounds of waiting for requests and 51 of waiting for connections, whatever
    the other threads do meanwhile: the listeners are closed, the message
    centre is stopped, and the server can be started or initialised again. *)
Theorem server_start_stop content sys c now e1 e2 :
  (forall k, sys_ok (sys k)) -> Config.load_from_file parse content Config.reset = Some (c, 0) ->
  Config.validate c = 0 -> ticks e1 -> ticks e2 ->
  let fds := map (fun k => sys_socket (sys k)) (seq 0 (length (enabled_listens c))) in
  exists s1 s2 s3 x, init content sys create = Some (s1, ERR_SUCCESS) /\
    start MsgCenter.Fine now s1 = Some (s2, ERR_SUCCESS) /\
    status_ s2 = RUNNING /\ listen_fds_ s2 = fds /\ listen_ports_ s2 = map Config.port (enabled_listens c) /\
    listen_ips_ s2 = map Config.ip (enabled_listens c) /\ closed s2 = [] /\
    stop e1 e2 s2 = Some (s3, ERR_SUCCESS) /\ status_ s3 = STOPPED /\ listen_fds_ s3 = [] /\ closed s3 = fds /\
    running_ s3 = false /\ msg_center_ s3 = Some x /\ MsgCenter.running_ x = false /\
    inv s3.
Proof.
  intros Hsys Hl Hv H1 H2 fds.
  destruct (init_success content sys create c create_server_inv eq_refl Hsys Hl Hv)
    as (s1 & E1 & Hi1 & Hs1 & Hc1 & _ & Hx1 & Hf1 & Hp1 & Hips1 & Hcl1 & Hr1).
  destruct (start_success now s1 _ Hi1 Hs1 Hx1 eq_refl)
    as (s2 & _ & x2 & E2 & Hi2 & Hs2 & Hf2 & Hp2 & Hips2 & Hcl2 & Hr2 & _).
  destruct (stop_running_spec e1 e2 s2 Hi2 Hs2 H1 H2)
    as (s3 & x & E3 & Hi3 & Hs3 & Hf3 & _ & Hcl3 & _ & _ & Hx3 & Hxr & Hrun).
  exists s1, s2, s3, x. rewrite Hf2, Hp2, Hips2, Hcl2, Hf1, Hp1, Hips1, Hcl1, Hcl3, Hxr, Hrun, Hr2, Hr1, Hcl2, Hcl1, Hf2, Hf1.
  cbn. repeat (split; [done|]). done.
Qed.

(** A second [start] without [init]. The first [stop] leaves
    [resources_cleaned_] set. [start] then succeeds although the server listens
    on nothing, and the next [stop] returns 0 with the status STOPPED while the
    message centre, with its I/O threads, workers and event loop, is still
    running and [running_] is still true. *)
Theorem restart_leaves_centre_running s now e1 e2 e3 e4 :
  inv s -> status_ s = RUNNING -> resources_cleaned_ s = false ->
  ticks e1 -> ticks e2 -> ticks e3 -> ticks e4 ->
  exists s1 s2 s3 x, stop e1 e2 s = Some (s1, ERR_SUCCESS) /\
    start MsgCenter.Fine now s1 = Some (s2, ERR_SUCCESS) /\ status_ s2 = RUNNING /\ listen_fds_ s2 = [] /\
    stop e3 e4 s2 = Some (s3, ERR_SUCCESS) /\ status_ s3 = STOPPED /\ running_ s3 = true /\
    msg_center_ s3 = Some x /\ MsgCenter.running_ x = true.
Proof.
  intros Hi Hs Hrc H1 H2 H3 H4.
  destruct (stop_running_spec e1 e2 s Hi Hs H1 H2)
    as (s1 & x1 & E1 & Hi1 & Hs1 & Hf1 & _ & _ & _ & Hrc1 & Hx1 & Hxr1 & _). rewrite Hrc in Hxr1.
  destruct (start_success now s1 x1 Hi1 Hs1 Hx1 Hxr1)
    as (s2 & _ & x2 & E2 & Hi2 & Hs2 & Hf2 & _ & _ & _ & Hr2 & _).
  destruct (stop_running_spec e3 e4 s2 Hi2 Hs2 H3 H4)
    as (s3 & x & E3 & _ & Hs3 & _ & _ & _ & _ & _ & Hx3 & Hxr & Hrun).
  exists s1, s2, s3, x. rewrite Hf2, Hf1, Hxr, Hrun, Hr2, Hrc1. done.
Qed.

(** [stop] clears [listen_fds_] but not [listen_ports_] and [listen_ips_]. When
    the server is then initialised with another file and started, the
    descriptor of the new listener is registered, in every I/O thread, under
    the port of the old one, which [get_status] reports too. *)
Theorem reinit_keeps_old_ports content1 content2 sys1 sys2 c1 c2 l1 l2 now1 now2 now e1 e2 :
  (forall k, sys_ok (sys1 k)) -> (forall k, sys_ok (sys2 k)) -> ticks e1 -> ticks e2 ->
  Config.load_from_file parse content1 Config.reset = Some (c1, 0) -> Config.validate c1 = 0 ->
  Config.load_from_file parse content2 Config.reset = Some (c2, 0) -> Config.validate c2 = 0 ->
  enabled_listens c1 = [l1] -> enabled_listens c2 = [l2] ->
  exists s1 s2 s3 s4 s5 x, init content1 sys1 create = Some (s1, ERR_SUCCESS) /\
    start MsgCenter.Fine now1 s1 = Some (s2, ERR_SUCCESS) /\ stop e1 e2 s2 = Some (s3, ERR_SUCCESS) /\
    init content2 sys2 s3 = Some (s4, ERR_SUCCESS) /\ start MsgCenter.Fine now2 s4 = Some (s5, ERR_SUCCESS) /\
    listen_fds_ s5 = [sys_socket (sys2 0%nat)] /\ listen_port (get_status now s5) = Config.port l1 /\
    msg_center_ s5 = Some x /\ length (MsgCenter.io_threads_ x) = 2%nat /\
    Forall (fun i => IoThread.listen_fd_to_port_ i !! sys_socket (sys2 0%nat) = Some (Config.port l1))
      (MsgCenter.io_threads_ x).
Proof.
  intros Hsys1 Hsys2 H1 H2 Hl1 Hv1 Hl2 Hv2 He1 He2.
  destruct (init_success content1 sys1 create c1 create_server_inv eq_refl Hsys1 Hl1 Hv1)
    as (s1 & E1 & Hi1 & Hs1 & _ & _ & Hx1 & _ & Hp1 & _).
  destruct (start_success now1 s1 _ Hi1 Hs1 Hx1 eq_refl)
    as (s2 & _ & _ & E2 & Hi2 & Hs2 & _ & Hp2 & _).
  destruct (stop_running_spec e1 e2 s2 Hi2 Hs2 H1 H2) as (s3 & _ & E3 & Hi3 & Hs3 & Hf3 & Hp3 & _).
  destruct (init_success content2 sys2 s3 c2 Hi3 Hs3 Hsys2 Hl2 Hv2)
    as (s4 & E4 & Hi4 & Hs4 & _ & _ & Hx4 & Hf4 & Hp4 & _).
  destruct (start_success now2 s4 _ Hi4 Hs4 Hx4 eq_refl)
    as (s5 & x0 & x & E5 & _ & _ & Hf5 & Hp5 & _ & _ & _ & Hx5 & Hc0 & Hr0 & Hreg).
  exists s1, s2, s3, s4, s5, x. do 5 (split; [done|]).
  rewrite He2, Hf3 in Hf4. cbn in Hf4. rewrite Hp3, Hp2, Hp1, He1, He2 in Hp4. cbn in Hp4.
  split; [by rewrite Hf5|]. split; [unfold get_status; cbn; by rewrite Hp5, Hp4|]. split; [done|].
  rewrite Hf4, Hp4 in Hreg. cbn [register_listeners] in Hreg.
  destruct (add_listen_centre (sys_socket (sys2 0%nat)) (Config.port l1) x0) as (x1 & Ea & _ & _);
    [by apply Hsys2|done|]. rewrite Ea in Hreg. injection Hreg as <-.
  revert Ea. unfold MsgCenter.add_listen_fd. ifz; [done|]. intros [= <-]. cbn. rewrite length_map.
  destruct (MsgCenter.inv_up x0 (centre_ok x0 Hc0) Hr0) as (_ & _ & -> & _). split; [apply Hc0|].
  apply Forall_map, Forall_forall. intros i _. cbn. apply lookup_insert_eq.
Qed.

Lemma start_timeout_centre x : centre_inv x -> MsgCenter.running_ x = false ->
  exists x', MsgCenter.start MsgCenter.Timeout x = Some (x', MsgCenter.THREAD_CREATE_FAILED) /\
    MsgCenter.running_ x' = false /\ MsgCenter.event_loop_thread_ x' = true.
Proof.
  intros Hcx Hr. destruct (MsgCenter.inv_down x (centre_ok x Hcx) Hr) as (_ & _ & _ & Ht).
  unfold MsgCenter.start. rewrite Hr, (centre_io x Hcx), (centre_workers x Hcx). cbn [Nat.eqb orb].
  unfold MsgCenter.start_body. rewrite Ht. unfold MsgCenter.stop. cbn [MsgCenter.running_]. rewrite Hr.
  cbn [negb]. eexists. split; [reflexivity|]. by split.
Qed.

Lemma cleanup_unjoined s x : msg_center_ s = Some x -> MsgCenter.running_ x = false ->
  MsgCenter.event_loop_thread_ x = true -> cleanup s = None.
Proof.
  intros Hx Hr Ht. unfold cleanup.
  assert (Hst : MsgCenter.stop x = x) by (unfold MsgCenter.stop; by rewrite Hr).
  assert (destroy_msg_center (msg_center_ (cleanup_resources (rollback_listen_sockets s))) = None) as ->; [|done].
  assert (msg_center_ (cleanup_resources (rollback_listen_sockets s)) = Some x) as ->.
  { unfold cleanup_resources, rollback_listen_sockets. destruct (resources_cleaned_ _); cbn; [done|].
    rewrite Hx. cbn. by rewrite Hst. }
  unfold destroy_msg_center. by rewrite Hst, Ht.
Qed.

(** [start] when the event loop's thread does not report within a second.
    [MsgCenter::start] returns -2, but its clean-up did nothing; [start] then
    destroys the message centre, whose thread object is still joinable: instead
    of returning [ERR_MSG_CENTER_START] the process is terminated. *)
Theorem start_timeout_terminates s now x :
  inv s -> status_ s = STOPPED -> msg_center_ s = Some x -> MsgCenter.running_ x = false ->
  (exists x', MsgCenter.start MsgCenter.Timeout x = Some (x', MsgCenter.THREAD_CREATE_FAILED)) /\
  start MsgCenter.Timeout now s = None.
Proof.
  intros Hi Hs Hx Hr.
  destruct (inv_modules s Hi) as [(_ & _ & Hx')|(c & m & y & Hc & _ & Hy & Hcy)]; [congruence|].
  assert (y = x) as -> by congruence.
  pose proof (start_timeout_centre x Hcy Hr) as Hm.
  destruct Hm as (x' & Em & Hr' & Ht'). split; [by exists x'|].
  unfold start. rewrite Hc, (bool_decide_eq_true_2 (status_ s = STOPPED)) by done. cbn [negb].
  change (msg_center_ (set_running true (set_status RUNNING s))) with (msg_center_ s).
  rewrite Hx. cbn [mbind option_bind]. rewrite Em. cbn [mbind option_bind].
  set (s1 := set_running false _).
  assert (Hx1 : msg_center_ s1 = Some x') by reflexivity. clearbody s1.
  change (MsgCenter.code MsgCenter.THREAD_CREATE_FAILED =? ERR_SUCCESS) with false. cbn [negb].
  by rewrite (cleanup_unjoined s1 x' Hx1 Hr' Ht').
Qed.

End Server.
Arguments t : clear implicits.
Arguments waiting : clear implicits.
Arguments op : clear implicits.

(** * Concrete runs *)

Definition demo_sys (k : nat) : syscalls := mkSys (3 + Z.of_nat k) 0 1 0 0.
Definition demo_waiting : waiting nat := mkWaiting (fun _ => 0) (fun k => Z.of_nat k / 10) (fun _ m => m).
(** The file names its one port: its first byte. *)
Definition demo_parse (s : bytes) : option Json :=
  match s with
  | b :: _ => Some (JObject [(str "listens", JArray [JObject [(str "port", JInt (b2z b))]])])
  | [] => None
  end.
Lemma demo_ticks : ticks demo_waiting.
Proof. intros k. cbn. lia. Qed.
Lemma demo_sys_ok k : sys_ok (demo_sys k).
Proof. unfold sys_ok. cbn. lia. Qed.

Lemma demo_loads : Config.load_from_file demo_parse (Some [x50]) Config.reset =
  Some (Config.mk [Config.mkListen (str "0.0.0.0") 80 true 128] Config.default_certificates Config.default_debug
    Config.default_callbacks Config.default_logging Config.default_http2 (str "callbacks"), 0).
Proof. reflexivity. Qed.

Lemma server_lifecycle_witness :
  exists s, @run_ops nat nat nat (fun x => x) false ConnectionManager.sorted_snapshot demo_parse create
      [Init (Some [x50]) demo_sys; Start MsgCenter.Fine 1; Stop demo_waiting demo_waiting;
       Start (MsgCenter.ThrowIo 1) 2; Init None demo_sys; Cleanup] = Some s /\
    opened s ≡ₚ closed s ++ listen_fds_ s.
Proof.
  destruct (@server_lifecycle nat nat nat (fun x => x) false ConnectionManager.sorted_snapshot demo_parse
    ConnectionManager.sorted_snapshot_lists
    [Init (Some [x50]) demo_sys; Start MsgCenter.Fine 1; Stop demo_waiting demo_waiting;
     Start (MsgCenter.ThrowIo 1) 2; Init None demo_sys; Cleanup]) as (s & E & _ & Ho & _).
  { repeat constructor; try done; apply demo_ticks. }
  exists s. split; [exact E|exact Ho].
Defined.

Lemma server_start_stop_witness :
  exists s1 s2 s3, @init nat nat nat demo_parse (Some [x50]) demo_sys create = Some (s1, ERR_SUCCESS) /\
    start MsgCenter.Fine 1 s1 = Some (s2, ERR_SUCCESS) /\ listen_fds_ s2 = [3] /\ listen_ports_ s2 = [80] /\
    stop (fun x => x) false ConnectionManager.sorted_snapshot demo_waiting demo_waiting s2 = Some (s3, ERR_SUCCESS) /\
    closed s3 = [3].
Proof.
  destruct (@server_start_stop nat nat nat (fun x => x) false ConnectionManager.sorted_snapshot demo_parse
    ConnectionManager.sorted_snapshot_lists (Some [x50]) demo_sys _ 1 demo_waiting demo_waiting
    demo_sys_ok demo_loads eq_refl demo_ticks demo_ticks)
    as (s1 & s2 & s3 & x & E1 & E2 & _ & Hf & Hp & _ & _ & E3 & _ & _ & Hc & _).
  exists s1, s2, s3. split; [exact E1|]. split; [exact E2|]. split; [exact Hf|]. split; [exact Hp|].
  split; [exact E3|exact Hc].
Defined.

(** A server that has started, and one that has only been initialised. *)
Lemma demo_running : exists s : t nat nat nat, inv s /\ status_ s = RUNNING /\ resources_cleaned_ s = false.
Proof.
  destruct (@init_success nat nat nat demo_parse (Some [x50]) demo_sys create _ create_server_inv eq_refl
    demo_sys_ok demo_loads eq_refl) as (s1 & _ & Hi1 & Hs1 & _ & _ & Hx1 & _ & _ & _ & _ & Hr1).
  destruct (start_success 1 s1 _ Hi1 Hs1 Hx1 eq_refl)
    as (s2 & _ & _ & _ & Hi2 & Hs2 & _ & _ & _ & _ & Hr2 & _).
  exists s2. by rewrite Hr2, Hr1.
Qed.

Lemma demo_initialised : exists (s : t nat nat nat) x, inv s /\ status_ s = STOPPED /\
  msg_center_ s = Some x /\ MsgCenter.running_ x = false.
Proof.
  destruct (@init_success nat nat nat demo_parse (Some [x50]) demo_sys create _ create_server_inv eq_refl
    demo_sys_ok demo_loads eq_refl) as (s1 & _ & Hi1 & Hs1 & _ & _ & Hx1 & _).
  by exists s1, (MsgCenter.create 2 2).
Qed.

Lemma restart_leaves_centre_running_witness :
  exists (s3 : t nat nat nat) x, status_ s3 = STOPPED /\ msg_center_ s3 = Some x /\
    MsgCenter.running_ x = true.
Proof.
  destruct demo_running as (s & Hi & Hs & Hr).
  destruct (@restart_leaves_centre_running nat nat nat (fun x => x) false ConnectionManager.sorted_snapshot
    ConnectionManager.sorted_snapshot_lists s 1 demo_waiting demo_waiting demo_waiting demo_waiting
    Hi Hs Hr demo_ticks demo_ticks demo_ticks demo_ticks)
    as (s1 & s2 & s3 & x & _ & _ & _ & _ & _ & Hs3 & _ & Hx & Hxr).
  exists s3, x. split; [exact Hs3|]. split; [exact Hx|exact Hxr].
Defined.

Lemma reinit_keeps_old_ports_witness :
  exists s5 x, listen_fds_ s5 = [3] /\ listen_port (get_status 9 s5) = 80 /\
    @msg_center_ nat nat nat s5 = Some x /\
    Forall (fun i => IoThread.listen_fd_to_port_ i !! 3 = Some 80) (MsgCenter.io_threads_ x).
Proof.
  destruct (@reinit_keeps_old_ports nat nat nat (fun x => x) false ConnectionManager.sorted_snapshot demo_parse
    ConnectionManager.sorted_snapshot_lists (Some [x50]) (Some [x51]) demo_sys demo_sys _ _ _ _ 1 2 9
    demo_waiting demo_waiting demo_sys_ok demo_sys_ok demo_ticks demo_ticks
    eq_refl eq_refl eq_refl eq_refl eq_refl eq_refl)
    as (s1 & s2 & s3 & s4 & s5 & x & _ & _ & _ & _ & _ & Hf & Hp & Hx & _ & Hm).
  exists s5, x. split; [exact Hf|]. split; [exact Hp|]. split; [exact Hx|exact Hm].
Defined.

Lemma start_timeout_terminates_witness :
  exists s : t nat nat nat, start MsgCenter.Timeout 1 s = None.
Proof.
  destruct demo_initialised as (s & x & Hi & Hs & Hx & Hr).
  exists s. exact (proj2 (start_timeout_terminates s 1 x Hi Hs Hx Hr)).
Defined.
End Server.
