(* ===== verification/ServerStops.v ===== *)
(** Concurrent calls of [Server::stop] (server/source/server.cpp).

    [stop] looks at [status_] in one critical section and changes it in another,
    so several threads may get past the check; what follows runs without a lock,
    but for the compare-and-exchange of [cleanup_resources]. A step is one
    critical section, one access to an atomic flag, one system call, or one call
    into the message centre or the connection manager. The waits for the
    connections are one step each: [Server.server_start_stop] shows that they
    end. *)

From S2P Require Import Prelude EventQ Workers MsgCentre Conn Config Server.

Module ServerStops.
Import Server.

Inductive pc :=
| CheckStatus                                (* [stop], under [mutex_] *)
| MarkGraceful | MarkShuttingDown            (* [graceful_shutdown] *)
| EnterLoop                                  (* [stop_accepting]: begin and end of [listen_fds_] *)
| NextListener (rest : list Z)
| CloseListener (fd : Z) (rest : list Z)
| ClearListeners
| WaitPending | CloseConnections
| Claim                                      (* [cleanup_resources] *)
| StopCentre | ClearRunning | ClearGraceful
| MarkStopped
| Returned (ret : Z).

#[export] Instance pc_eq_dec : EqDecision pc.
Proof. solve_decision. Defined.

(** [registered] and [centre_stops] are the message centre's part; [closed]
    records which thread gave which descriptor to [close]. *)
Record shared := mk {
  status_ : ServerStatusEnum;
  running_ : bool;
  graceful_shutdown_ : bool;
  resources_cleaned_ : bool;
  listen_fds_ : list Z;
  registered : list Z;
  centre_stops : nat;
  closed : list (nat * Z);
}.
Record t := mkState { sh : shared; threads : list pc }.

Definition started (fds : list Z) (n : nat) : t :=
  mkState (mk RUNNING true false false fds (valid_fds fds) 0 []) (replicate n CheckStatus).

Definition set_status (x : ServerStatusEnum) (s : shared) : shared :=
  mk x (running_ s) (graceful_shutdown_ s) (resources_cleaned_ s) (listen_fds_ s) (registered s)
     (centre_stops s) (closed s).
Definition set_flags (r g c : bool) (s : shared) : shared :=
  mk (status_ s) r g c (listen_fds_ s) (registered s) (centre_stops s) (closed s).
Definition set_listeners (fds reg : list Z) (cl : list (nat * Z)) (s : shared) : shared :=
  mk (status_ s) (running_ s) (graceful_shutdown_ s) (resources_cleaned_ s) fds reg (centre_stops s) cl.
Definition stop_centre (s : shared) : shared :=
  mk (status_ s) (running_ s) (graceful_shutdown_ s) (resources_cleaned_ s) (listen_fds_ s) (registered s)
     (S (centre_stops s)) (closed s).

(** [stop_accepting], by thread [i]. *)
Definition accept_step (i : nat) (p : pc) (s : shared) : shared * pc :=
  match p with
  | EnterLoop => (s, NextListener (listen_fds_ s))
  | NextListener [] => (s, ClearListeners)
  | NextListener (fd :: rest) =>
      if 0 <=? fd
      then (set_listeners (listen_fds_ s) (filter (fun x => x <> fd) (registered s)) (closed s) s, CloseListener fd rest)
      else (s, NextListener rest)
  | CloseListener fd rest =>
      (set_listeners (listen_fds_ s) (registered s) (closed s ++ [(i, fd)]) s, NextListener rest)
  | ClearListeners => (set_listeners [] (registered s) (closed s) s, WaitPending)
  | _ => (s, p)
  end.

(** [cleanup_resources]; only one caller wins the exchange. *)
Definition cleanup_step (p : pc) (s : shared) : shared * pc :=
  match p with
  | Claim =>
      if resources_cleaned_ s then (s, MarkStopped)
      else (set_flags (running_ s) (graceful_shutdown_ s) true s, StopCentre)
  | StopCentre => (stop_centre s, ClearRunning)
  | ClearRunning => (set_flags false (graceful_shutdown_ s) (resources_cleaned_ s) s, ClearGraceful)
  | ClearGraceful => (set_flags (running_ s) false (resources_cleaned_ s) s, MarkStopped)
  | _ => (s, p)
  end.

(** What thread [i] does at [p]: the check of [stop], then [graceful_shutdown]. *)
Definition exec (i : nat) (p : pc) (s : shared) : shared * pc :=
  match p with
  | CheckStatus =>
      if bool_decide (status_ s = RUNNING) then (s, MarkGraceful) else (s, Returned ERR_INVALID_STATE)
  | MarkGraceful => (set_flags (running_ s) true (resources_cleaned_ s) s, MarkShuttingDown)
  | MarkShuttingDown => (set_status SHUTTING_DOWN s, EnterLoop)
  | EnterLoop | NextListener _ | CloseListener _ _ | ClearListeners => accept_step i p s
  | WaitPending => (s, CloseConnections)
  | CloseConnections => (s, Claim)
  | Claim | StopCentre | ClearRunning | ClearGraceful => cleanup_step p s
  | MarkStopped => (set_status STOPPED s, Returned ERR_SUCCESS)
  | Returned _ => (s, p)
  end.

(** A step of thread [i]; none if it has returned. *)
Definition step (i : nat) (s : t) : option t :=
  p ← threads s !! i;
  match p with
  | Returned _ => None
  | _ => let '(x, p') := exec i p (sh s) in Some (mkState x (<[i := p']> (threads s)))
  end.

(** Two threads that may access [listen_fds_] at once, one of them writing. *)
Definition races (s : t) : Prop :=
  exists i j p, i <> j /\ threads s !! i = Some ClearListeners /\ threads s !! j = Some p /\
    match p with EnterLoop | NextListener _ | ClearListeners => True | _ => False end.

(** The descriptors thread [i] closed. *)
Definition own (i : nat) (s : shared) : list Z :=
  (filter (fun x => x.1 = i) (closed s)).*2.

(** * The invariant *)

(** Where a thread is: past the check only, in [stop_accepting], after it. *)
Definition past_shutting (p : pc) : Prop :=
  match p with CheckStatus | MarkGraceful | MarkShuttingDown => False | Returned r => r = ERR_SUCCESS | _ => True end.
Definition active (p : pc) : Prop := past_shutting p /\ forall r, p <> Returned r.
Definition past_claim (p : pc) : Prop :=
  match p with
  | StopCentre | ClearRunning | ClearGraceful | MarkStopped => True | Returned r => r = ERR_SUCCESS | _ => False
  end.

Definition listeners_ok (fds mine : list Z) (cleared : Prop) (p : pc) : Prop :=
  match p with
  | CheckStatus | MarkGraceful | MarkShuttingDown | EnterLoop => mine = []
  | NextListener rest => mine ++ valid_fds rest = valid_fds fds \/ (mine = [] /\ rest = [] /\ cleared)
  | CloseListener fd rest => mine ++ fd :: valid_fds rest = valid_fds fds
  | ClearListeners => mine = valid_fds fds \/ (mine = [] /\ cleared)
  | Returned r => (r = ERR_INVALID_STATE /\ mine = []) \/
      (r = ERR_SUCCESS /\ (mine = valid_fds fds \/ mine = []) /\ cleared)
  | _ => (mine = valid_fds fds \/ mine = []) /\ cleared
  end.

(** What the thread that claimed the clean-up has done, and nobody else. *)
Definition winner_ok (s : shared) (p : pc) : Prop :=
  match p with
  | StopCentre => centre_stops s = 0%nat
  | ClearRunning => centre_stops s = 1%nat
  | _ => past_claim p /\ centre_stops s = 1%nat /\ running_ s = false
  end.
Definition not_cleaning (p : pc) : Prop :=
  match p with StopCentre | ClearRunning | ClearGraceful => False | _ => True end.

#[export] Instance not_cleaning_dec p : Decision (not_cleaning p).
Proof. destruct p; cbn; apply _. Defined.

Record inv (fds : list Z) (s : t) : Prop := {
  inv_threads : forall i p, threads s !! i = Some p ->
    listeners_ok fds (own i (sh s)) (listen_fds_ (sh s) = []) p;
  inv_fds : listen_fds_ (sh s) = fds \/
    (listen_fds_ (sh s) = [] /\ exists i, is_Some (threads s !! i) /\ own i (sh s) = valid_fds fds);
  inv_own : forall i, threads s !! i = None -> own i (sh s) = [];
  inv_status : match status_ (sh s) with
    | RUNNING => forall i p, threads s !! i = Some p ->
        p = CheckStatus \/ p = MarkGraceful \/ p = MarkShuttingDown
    | SHUTTING_DOWN => exists i p, threads s !! i = Some p /\ active p
    | STOPPED => exists i p, threads s !! i = Some p /\ past_shutting p
    | _ => False
    end;
  inv_cleaned : if resources_cleaned_ (sh s)
    then exists w p, threads s !! w = Some p /\ winner_ok (sh s) p /\
      forall i q, i <> w -> threads s !! i = Some q -> not_cleaning q
    else centre_stops (sh s) = 0%nat /\ forall i q, threads s !! i = Some q -> ~ past_claim q;
}.

Lemma own_app i l s a reg :
  own i (set_listeners l reg (closed s ++ a) s) = own i s ++ (filter (fun x => x.1 = i) a).*2.
Proof. unfold own. cbn. by rewrite filter_app, fmap_app. Qed.

Lemma exec_own i p s x p' : exec i p s = (x, p') ->
  own i x = own i s ++ (match p with CloseListener fd _ => [fd] | _ => [] end) /\
  forall j, j <> i -> own j x = own j s.
Proof.
  destruct p as [| | | |[|fd rest]|fd rest| | | | | | | | |r]; cbn; intros E;
    repeat case_match; simplify_eq; try (by rewrite app_nil_r).
  split; [|intros j Hj]; rewrite own_app, filter_cons; cbn.
  - by rewrite decide_True.
  - by rewrite decide_False, app_nil_r.
Qed.

Lemma exec_fds i p s x p' : exec i p s = (x, p') ->
  listen_fds_ x = match p with ClearListeners => [] | _ => listen_fds_ s end.
Proof.
  destruct p as [| | | |[|fd rest]|fd rest| | | | | | | | |r]; cbn; intros E; by repeat case_match; simplify_eq.
Qed.

Lemma listeners_ok_mono fds mine (c c' : Prop) p :
  (c -> c') -> listeners_ok fds mine c p -> listeners_ok fds mine c' p.
Proof. intros Hc. destruct p; cbn; naive_solver. Qed.

Lemma valid_fds_cons fd rest :
  valid_fds (fd :: rest) = if 0 <=? fd then fd :: valid_fds rest else valid_fds rest.
Proof. unfold valid_fds. rewrite filter_cons. by destruct (0 <=? fd). Qed.

(** What a thread's step does to its own part. *)
Lemma exec_listeners fds i p s x p' : exec i p s = (x, p') ->
  listen_fds_ s = fds \/ listen_fds_ s = [] ->
  listeners_ok fds (own i s) (listen_fds_ s = []) p ->
  listeners_ok fds (own i x) (listen_fds_ x = []) p'.
Proof.
  intros E Hf Hp. destruct (exec_own _ _ _ _ _ E) as [-> _]. rewrite (exec_fds _ _ _ _ _ E).
  destruct p as [| | | |[|fd rest]|fd rest| | | | | | | | |r]; cbn in E; repeat case_match; simplify_eq;
    rewrite ?app_nil_r; cbn [listeners_ok] in *; try (by naive_solver).
  - rewrite Hp. destruct Hf as [->| ->]; [by left|by right].
  - rewrite app_nil_r in Hp. naive_solver.
  - rewrite valid_fds_cons in Hp. destruct (0 <=? fd); [|done]. by destruct Hp as [?|(_ & ? & _)].
  - rewrite valid_fds_cons in Hp. destruct (0 <=? fd); [done|]. destruct Hp as [?|(_ & ? & _)]; [by left|done].
  - left. by rewrite <- app_assoc.
Qed.

Lemma step_inv_eq i s s' : step i s = Some s' ->
  exists p x p', threads s !! i = Some p /\ (forall r, p <> Returned r) /\ exec i p (sh s) = (x, p') /\
    s' = mkState x (<[i := p']> (threads s)).
Proof.
  unfold step. destruct (threads s !! i) as [p|] eqn:Ep; [|done]. cbn [mbind option_bind].
  destruct (exec i p (sh s)) as [x p'] eqn:E.
  intros Hs. exists p, x, p'. destruct p; simplify_eq; done.
Qed.

Lemma threads_after {A} (l : list A) i p' j q : <[i := p']> l !! j = Some q ->
  (j = i /\ q = p') \/ (j <> i /\ l !! j = Some q).
Proof.
  intros Hl. destruct (decide (j = i)) as [->|Hj].
  - left. split; [done|]. apply list_lookup_insert_Some in Hl. naive_solver.
  - right. by rewrite list_lookup_insert_ne in Hl.
Qed.

Section Steps.
Context (fds : list Z) (i : nat) (p p' : pc) (s : t) (x : shared).
Hypotheses (Hi : inv fds s) (Hp : threads s !! i = Some p) (Hr : forall r, p <> Returned r)
  (E : exec i p (sh s) = (x, p')).
Let s' := mkState x (<[i := p']> (threads s)).

Lemma thread_i : threads s' !! i = Some p'.
Proof. cbn. apply list_lookup_insert_eq. by apply lookup_lt_Some in Hp. Qed.

Lemma thread_other j q : j <> i -> threads s !! j = Some q -> threads s' !! j = Some q.
Proof. intros Hj. cbn. by rewrite list_lookup_insert_ne. Qed.

Lemma listeners_i : listeners_ok fds (own i x) (listen_fds_ x = []) p'.
Proof.
  apply (exec_listeners fds i p (sh s) x p' E); [|by apply (inv_threads fds s Hi)].
  destruct (inv_fds fds s Hi) as [?|[? _]]; [by left|by right].
Qed.

Lemma fds_stay_empty : listen_fds_ (sh s) = [] -> listen_fds_ x = [].
Proof. rewrite (exec_fds _ _ _ _ _ E). by destruct p. Qed.

Lemma own_other j : j <> i -> own j x = own j (sh s).
Proof. apply (exec_own _ _ _ _ _ E). Qed.

Lemma keep_threads j q : threads s' !! j = Some q ->
  listeners_ok fds (own j (sh s')) (listen_fds_ (sh s') = []) q.
Proof.
  intros Hq. apply threads_after in Hq as [[-> ->]|[Hj Hq]]; [apply listeners_i|]. cbn [sh s'].
  rewrite own_other by done. eapply listeners_ok_mono; [apply fds_stay_empty|]. by apply (inv_threads fds s Hi).
Qed.

Lemma keep_fds : listen_fds_ (sh s') = fds \/
  (listen_fds_ (sh s') = [] /\ exists j, is_Some (threads s' !! j) /\ own j (sh s') = valid_fds fds).
Proof.
  cbn [sh s']. destruct (inv_fds fds s Hi) as [Hf|(Hf & j & Hj & Ho)].
  - destruct (decide (p = ClearListeners)) as [Hc|Hc].
    2: { left. rewrite (exec_fds _ _ _ _ _ E). clear - Hc Hf. by destruct p. }
    assert (Hx : p' = WaitPending /\ x = set_listeners [] (registered (sh s)) (closed (sh s)) (sh s)).
    { clear - E Hc. subst. cbn in E. by simplify_eq. }
    right. split; [by rewrite (proj2 Hx)|]. exists i. rewrite thread_i. split; [done|].
    pose proof (inv_threads fds s Hi i _ Hp) as Ho. clear - Ho Hc Hx Hf. destruct Hx as [_ ->]. subst p. cbn in Ho.
    unfold own in *. cbn. destruct Ho as [?|[Ho1 Ho2]]; [done|]. by rewrite Ho1, <- Hf, Ho2.
  - right. split; [by apply fds_stay_empty|]. exists j. destruct (decide (j = i)) as [->|Hji].
    + rewrite thread_i. split; [done|]. destruct (exec_own _ _ _ _ _ E) as [-> _]. rewrite Ho.
      pose proof (inv_threads fds s Hi i p Hp) as Hl. clear - Hl Ho. destruct p; rewrite ?app_nil_r; try done.
      cbn in Hl. rewrite Ho in Hl. apply (f_equal length) in Hl. rewrite length_app in Hl. cbn in Hl. lia.
    + rewrite own_other by done. split; [|done]. destruct Hj as [q Hq]. exists q. by apply thread_other.
Qed.

Lemma keep_own j : threads s' !! j = None -> own j (sh s') = [].
Proof.
  intros Hj. destruct (decide (j = i)) as [->|Hji]; [by rewrite thread_i in Hj|]. cbn [sh s'].
  rewrite own_other by done. apply (inv_own fds s Hi). cbn in Hj. by rewrite list_lookup_insert_ne in Hj.
Qed.

Lemma exec_status : status_ x =
  match p with MarkShuttingDown => SHUTTING_DOWN | MarkStopped => STOPPED | _ => status_ (sh s) end.
Proof.
  clear - E. destruct p as [| | | |[|fd rest]|fd rest| | | | | | | | |r]; cbn in E; by repeat case_match; simplify_eq.
Qed.

Lemma exec_past : past_shutting p -> past_shutting p' /\ (p <> MarkStopped -> active p').
Proof.
  clear - E Hr. unfold active. destruct p as [| | | |[|fd rest]|fd rest| | | | | | | | |r]; cbn in E;
    repeat case_match; simplify_eq; cbn; try done.
Qed.

Lemma keep_status : match status_ (sh s') with
  | RUNNING => forall j q, threads s' !! j = Some q -> q = CheckStatus \/ q = MarkGraceful \/ q = MarkShuttingDown
  | SHUTTING_DOWN => exists j q, threads s' !! j = Some q /\ active q
  | STOPPED => exists j q, threads s' !! j = Some q /\ past_shutting q
  | _ => False
  end.
Proof.
  pose proof (inv_status fds s Hi) as Hs. cbn [sh s']. pose proof exec_past as He.
  assert (Hcase : past_shutting p \/ p = CheckStatus \/ p = MarkGraceful \/ p = MarkShuttingDown).
  { clear - Hr. destruct p; cbn; auto. by destruct (Hr ret). }
  destruct Hcase as [Hpast|Hearly].
  - specialize (He Hpast). rewrite exec_status. destruct (decide (p = MarkStopped)) as [Hm|Hn].
    { rewrite Hm. exists i, p'. split; [apply thread_i|apply (proj1 He)]. }
    assert (Hx : match p with MarkShuttingDown => SHUTTING_DOWN | MarkStopped => STOPPED | _ => status_ (sh s) end
      = status_ (sh s)).
    { clear - Hn Hpast. by destruct p. }
    rewrite Hx.
    destruct (status_ (sh s)); try done.
    + exists i, p'. split; [apply thread_i|apply (proj1 He)].
    + exfalso. pose proof (Hs i p Hp) as Hq. clear - Hq Hpast. destruct Hq as [->|[->| ->]]; done.
    + exists i, p'. split; [apply thread_i|by apply (proj2 He)].
  - assert (Hne : forall j q, threads s !! j = Some q -> past_shutting q -> j <> i).
    { intros j q Hq Hpq ->. rewrite Hp in Hq. assert (p = q) as Hpq' by congruence. clear - Hpq Hpq' Hearly.
      subst q. destruct Hearly as [->|[->| ->]]; done. }
    destruct (decide (p = MarkShuttingDown)) as [Hm|Hm].
    { rewrite exec_status, Hm. exists i, p'. split; [apply thread_i|]. clear - E Hm.
      subst. cbn in E. by simplify_eq. }
    rewrite exec_status. assert (p <> MarkStopped) by (clear - Hearly; by destruct Hearly as [->|[->| ->]]).
    replace (match p with MarkShuttingDown => SHUTTING_DOWN | MarkStopped => STOPPED | _ => status_ (sh s) end)
      with (status_ (sh s)) by (clear - Hm H; by destruct p).
    destruct (status_ (sh s)) eqn:Est; try done.
    + destruct Hs as (j & q & Hq & Hpq). exists j, q. split; [|done]. apply thread_other; [by apply (Hne j q)|done].
    + intros j q Hq. apply threads_after in Hq as [[-> ->]|[Hj Hq]]; [|by apply (Hs j)].
      clear - E Est Hearly Hm. destruct Hearly as [->|[->| ->]]; cbn in E; [|by simplify_eq; auto|done].
      rewrite bool_decide_eq_true_2 in E by done. simplify_eq. auto.
    + destruct Hs as (j & q & Hq & Hpq). exists j, q. split; [|done].
      apply thread_other; [apply (Hne j q); [done|apply Hpq]|done].
Qed.

(** Outside [cleanup_resources] nothing of it changes. *)
Lemma exec_outside : not_cleaning p -> p <> Claim ->
  resources_cleaned_ x = resources_cleaned_ (sh s) /\ centre_stops x = centre_stops (sh s) /\
  running_ x = running_ (sh s) /\ not_cleaning p' /\ (past_claim p' <-> past_claim p) /\
  (past_claim p' -> forall s0, winner_ok s0 p -> winner_ok s0 p').
Proof.
  clear - E Hr. destruct p as [| | | |[|fd rest]|fd rest| | | | | | | | |r]; cbn in E;
    repeat case_match; simplify_eq; cbn; try done; naive_solver.
Qed.

Lemma keep_cleaned : if resources_cleaned_ (sh s')
  then exists w q, threads s' !! w = Some q /\ winner_ok (sh s') q /\
    forall j r, j <> w -> threads s' !! j = Some r -> not_cleaning r
  else centre_stops (sh s') = 0%nat /\ forall j q, threads s' !! j = Some q -> ~ past_claim q.
Proof.
  pose proof (inv_cleaned fds s Hi) as Hc. cbn [sh s'].
  destruct (decide (not_cleaning p /\ p <> Claim)) as [[Hn Hcl]|Hin].
  - destruct (exec_outside Hn Hcl) as (Hcd & Hst & Hrn & Hn' & Hpc & Hw). rewrite Hcd.
    destruct (resources_cleaned_ (sh s)).
    + destruct Hc as (w & q & Hq & Hwq & Ho). destruct (decide (w = i)) as [->|Hwi].
      * assert (q = p) as -> by congruence. exists i, p'. split; [apply thread_i|]. split.
        -- assert (past_claim p) as Hpp by (clear - Hwq Hn; destruct p; cbn in *; tauto).
           apply Hpc in Hpp. specialize (Hw Hpp). specialize (Hw _ Hwq).
           clear - Hw Hst Hrn. unfold winner_ok in *. by rewrite Hst, Hrn.
        -- intros j r Hj Hjr. apply threads_after in Hjr as [[-> _]|[_ Hjr]]; [done|by apply (Ho j)].
      * exists w, q. split; [by apply thread_other|]. split; [by unfold winner_ok in *; rewrite Hst, Hrn|].
        intros j r Hj Hjr. apply threads_after in Hjr as [[_ ->]|[_ Hjr]]; [done|by apply (Ho j)].
    + destruct Hc as [Hc0 Ho]. split; [congruence|]. intros j q Hq.
      apply threads_after in Hq as [[_ ->]|[_ Hq]]; [|by apply (Ho j)]. rewrite Hpc. by apply (Ho i).
  - destruct (decide (p = Claim)) as [Hcl|Hcl].
    + destruct (resources_cleaned_ (sh s)) eqn:Ec.
      * assert (p' = MarkStopped /\ x = sh s) as [Hp' Hx] by (clear - E Hcl Ec; subst p; cbn in E; rewrite Ec in E; by simplify_eq).
        rewrite Hx, Ec. destruct Hc as (w & q & Hq & Hwq & Ho). exists w, q.
        assert (w <> i).
        { intros ->. assert (q = Claim) as -> by congruence. clear - Hwq. cbn in Hwq. tauto. }
        split; [by apply thread_other|]. split; [done|]. intros j r Hj Hjr.
        apply threads_after in Hjr as [[_ ->]|[_ Hjr]]; [by rewrite Hp'|by apply (Ho j)].
      * assert (p' = StopCentre /\ resources_cleaned_ x = true /\ centre_stops x = centre_stops (sh s)) as (Hp' & -> & Hst)
          by (clear - E Hcl Ec; subst p; cbn in E; rewrite Ec in E; by simplify_eq).
        destruct Hc as [Hc0 Ho]. exists i, p'. split; [apply thread_i|]. split; [rewrite Hp'; cbn; congruence|].
        intros j r Hj Hjr. apply threads_after in Hjr as [[-> _]|[_ Hjr]]; [done|].
        specialize (Ho j r Hjr). clear - Ho. destruct r; cbn in *; tauto.
    + assert (Hp3 : p = StopCentre \/ p = ClearRunning \/ p = ClearGraceful) by (clear - Hin Hcl; destruct p; cbn in Hin; tauto).
      assert (past_claim p /\ ~ not_cleaning p) as [Hpc Hnc] by (clear - Hp3; by destruct Hp3 as [->|[->| ->]]; cbn; tauto).
      destruct (resources_cleaned_ (sh s)) eqn:Ec; [|by destruct (proj2 Hc i p Hp)].
      destruct Hc as (w & q & Hq & Hwq & Ho).
      assert (w = i) as -> by (destruct (decide (w = i)); [done|]; by destruct Hnc; apply (Ho i)).
      assert (q = p) as -> by congruence.
      assert (Hnew : resources_cleaned_ x = true /\ winner_ok x p').
      { clear - E Hp3 Hwq Ec. destruct Hp3 as [-> | [-> | ->]]; cbn in E, Hwq; simplify_eq; cbn;
          (split; [done|]); [congruence|tauto..]. }
      destruct Hnew as [-> Hnew]. exists i, p'. split; [apply thread_i|]. split; [done|].
      intros j r Hj Hjr. apply threads_after in Hjr as [[-> _]|[_ Hjr]]; [done|by apply (Ho j)].
Qed.

Lemma keep_inv : inv fds s'.
Proof. split; [apply keep_threads|apply keep_fds|apply keep_own|apply keep_status|apply keep_cleaned]. Qed.

End Steps.

Lemma started_inv fds n : inv fds (started fds n).
Proof.
  split; cbn.
  - intros i p Hp. by apply lookup_replicate in Hp as [-> _].
  - by left.
  - done.
  - intros i p Hp. apply lookup_replicate in Hp as [-> _]. auto.
  - split; [done|]. intros i p Hp. apply lookup_replicate in Hp as [-> _]. cbn. tauto.
Qed.

Lemma step_keeps_inv fds i s s' : inv fds s -> step i s = Some s' -> inv fds s'.
Proof.
  intros Hi Hs. apply step_inv_eq in Hs as (p & x & p' & Hp & Hr & E & ->). by apply (keep_inv fds i p p' s x).
Qed.

Lemma run_inv fds n sched s : run_steps step sched (started fds n) = Some s -> inv fds s.
Proof.
  apply (run_steps_keeps step (inv fds)); [|apply started_inv]. intros i s1 s2 _. apply step_keeps_inv.
Qed.

(** * Every call returns *)

Definition pc_weight (n : nat) (p : pc) : nat :=
  match p with
  | CheckStatus => 13 + 2 * n | MarkGraceful => 12 + 2 * n | MarkShuttingDown => 11 + 2 * n
  | EnterLoop => 10 + 2 * n
  | NextListener rest => 9 + 2 * length rest
  | CloseListener _ rest => 10 + 2 * length rest
  | ClearListeners => 8 | WaitPending => 7 | CloseConnections => 6 | Claim => 5
  | StopCentre => 4 | ClearRunning => 3 | ClearGraceful => 2 | MarkStopped => 1
  | Returned _ => 0
  end.
Definition total_weight (n : nat) (s : t) : nat := sum_list_with (pc_weight n) (threads s).

Lemma step_weight fds i s s' : inv fds s -> step i s = Some s' ->
  (1 + total_weight (length fds) s' <= total_weight (length fds) s)%nat.
Proof.
  intros Hi Hs. apply step_inv_eq in Hs as (p & x & p' & Hp & Hr & E & ->).
  unfold total_weight. cbn [threads].
  pose proof (sum_insert (pc_weight (length fds)) (threads s) i p p' Hp) as Hsum.
  assert (Hlen : (length (listen_fds_ (sh s)) <= length fds)%nat).
  { destruct (inv_fds fds s Hi) as [->|[-> _]]; cbn; lia. }
  enough (pc_weight (length fds) p' < pc_weight (length fds) p)%nat by lia. clear - E Hr Hlen.
  destruct p as [| | | |[|fd rest]|fd rest| | | | | | | | |r]; cbn in E; repeat case_match; simplify_eq;
    cbn [pc_weight length]; try lia. by destruct (Hr r).
Qed.

Lemma started_weight fds n m : total_weight m (started fds n) = (n * (13 + 2 * m))%nat.
Proof.
  unfold total_weight, started. cbn [threads].
  induction n as [|n IH]; [done|]. cbn [replicate sum_list_with pc_weight]. rewrite IH. lia.
Qed.

Lemma run_weight fds n sched s : run_steps step sched (started fds n) = Some s ->
  (length sched <= n * (13 + 2 * length fds))%nat.
Proof.
  intros Hrun.
  destruct (run_steps_lower step (inv fds) (total_weight (length fds)) sched) with
    (s := started fds n) (s' := s) as [_ Hle]; [|apply started_inv|done|].
  - intros i s1 s2 _ Hi Hs. split; [by apply (step_keeps_inv fds i s1)|].
    pose proof (step_weight fds i s1 s2 Hi Hs). lia.
  - rewrite started_weight in Hle. lia.
Qed.

Lemma run_threads fds n sched s : run_steps step sched (started fds n) = Some s -> length (threads s) = n.
Proof.
  apply (run_steps_keeps step (fun s => length (threads s) = n)).
  - intros i s1 s2 _ Hn Hs. apply step_inv_eq in Hs as (p & x & p' & _ & _ & _ & ->). cbn. by rewrite length_insert.
  - cbn. apply length_replicate.
Qed.

(** A thread that has not returned can take a step. *)
Lemma step_enabled i s p : threads s !! i = Some p -> (forall r, p <> Returned r) -> is_Some (step i s).
Proof.
  intros Hp Hr. unfold step. rewrite Hp. cbn [mbind option_bind]. destruct (exec i p (sh s)) as [x p'].
  destruct p; try (by eexists). by destruct (Hr ret).
Qed.

Lemma own_prefix fds i s : inv fds s -> exists rest, valid_fds fds = own i (sh s) ++ rest.
Proof.
  intros Hi. destruct (threads s !! i) as [p|] eqn:Hp; [|by rewrite (inv_own fds s Hi i Hp); eexists].
  pose proof (inv_threads fds s Hi i p Hp) as Hl. clear Hp.
  assert (Hc : own i (sh s) = [] \/ own i (sh s) = valid_fds fds \/ exists rest, own i (sh s) ++ rest = valid_fds fds)
    by (destruct p; cbn in Hl; naive_solver).
  destruct Hc as [->|[->|[rest <-]]]; [by eexists|exists []; by rewrite app_nil_r|by exists rest].
Qed.

(** What one thread alone closed is all that was closed. *)
Lemma own_only i (l : list (nat * Z)) :
  (forall j, j <> i -> (filter (fun x => x.1 = j) l).*2 = []) -> (filter (fun x => x.1 = i) l).*2 = l.*2.
Proof.
  induction l as [|[k fd] l IH]; intros Ho; [done|]. rewrite filter_cons. destruct (decide (k = i)) as [->|Hk].
  - rewrite decide_True by done. cbn. f_equal. apply IH. intros j Hj. specialize (Ho j Hj).
    by rewrite filter_cons_False in Ho by (cbn; congruence).
  - exfalso. specialize (Ho k Hk). by rewrite filter_cons_True in Ho by done.
Qed.

Definition all_returned (s : t) : Prop := forall i p, threads s !! i = Some p -> exists r, p = Returned r.

Lemma returned_listeners fds s i r : inv fds s -> threads s !! i = Some (Returned r) ->
  (r = ERR_INVALID_STATE /\ own i (sh s) = []) \/ (r = ERR_SUCCESS /\ listen_fds_ (sh s) = []).
Proof. intros Hi Hr. pose proof (inv_threads fds s Hi i _ Hr) as Hl. cbn in Hl. naive_solver. Qed.

(** When everybody has returned, somebody succeeded. *)
Lemma some_success fds s : inv fds s -> all_returned s -> threads s <> [] ->
  status_ (sh s) = STOPPED /\ exists i, threads s !! i = Some (Returned ERR_SUCCESS).
Proof.
  intros Hi Ha Hn. pose proof (inv_status fds s Hi) as Hs.
  destruct (status_ (sh s)); try done.
  - split; [done|]. destruct Hs as (i & p & Hp & Hpast). destruct (Ha i p Hp) as [r ->]. cbn in Hpast. subst.
    by exists i.
  - exfalso. destruct (threads s) as [|p ps] eqn:Et; [done|].
    destruct (Ha 0%nat p) as [r Hr]; [by rewrite Et|]. destruct (Hs 0%nat p eq_refl) as [->|[->| ->]]; done.
  - exfalso. destruct Hs as (i & p & Hp & _ & Hact). destruct (Ha i p Hp) as [r ->]. by apply (Hact r).
Qed.

Lemma success_cleaned fds s i : inv fds s -> all_returned s -> threads s !! i = Some (Returned ERR_SUCCESS) ->
  centre_stops (sh s) = 1%nat /\ running_ (sh s) = false.
Proof.
  intros Hi Ha Hr. pose proof (inv_cleaned fds s Hi) as Hc. destruct (resources_cleaned_ (sh s)).
  - destruct Hc as (w & p & Hp & Hw & _). destruct (Ha w p Hp) as [r ->]. cbn in Hw. tauto.
  - by destruct (proj2 Hc i _ Hr).
Qed.

(** C13. Concurrent [stop]s of a running server. In every interleaving of any
    number of calls, each takes a bounded number of steps and none is ever
    blocked; the message centre is stopped at most once, and no call closes a
    descriptor twice or one that is not a listener. When all have returned, each
    gave 0 or [ERR_INVALID_STATE], at least one of them 0, the server is STOPPED
    and not running, the message centre was stopped exactly once, the list of
    listeners is empty and all of them were closed; if only one call gave 0, the
    descriptors closed are the listeners, once each, in order. (Two calls that
    give 0 may both close them: [two_stops_close_twice].) *)
Theorem concurrent_stops fds n sched s : run_steps step sched (started fds n) = Some s ->
  (length sched <= n * (13 + 2 * length fds))%nat /\
  (forall i p, threads s !! i = Some p -> (forall r, p <> Returned r) -> is_Some (step i s)) /\
  (centre_stops (sh s) <= 1)%nat /\
  (forall i, exists rest, valid_fds fds = own i (sh s) ++ rest) /\
  (all_returned s -> (0 < n)%nat ->
     (forall i r, threads s !! i = Some (Returned r) -> r = ERR_SUCCESS \/ r = ERR_INVALID_STATE) /\
     status_ (sh s) = STOPPED /\ running_ (sh s) = false /\ centre_stops (sh s) = 1%nat /\
     listen_fds_ (sh s) = [] /\ (exists i, own i (sh s) = valid_fds fds) /\
     exists i, threads s !! i = Some (Returned ERR_SUCCESS) /\
       ((forall j, threads s !! j = Some (Returned ERR_SUCCESS) -> j = i) ->
        (closed (sh s)).*2 = valid_fds fds)).
Proof.
  intros Hrun. pose proof (run_inv _ _ _ _ Hrun) as Hi.
  split; [by apply run_weight in Hrun|]. split; [intros i p; apply step_enabled|]. split.
  { pose proof (inv_cleaned fds s Hi) as Hc. destruct (resources_cleaned_ (sh s)); [|lia].
    destruct Hc as (w & p & _ & Hw & _). destruct p; cbn in Hw; lia. }
  split; [intros i; by apply own_prefix|]. intros Ha Hn.
  assert (Hne : threads s <> []).
  { pose proof (run_threads _ _ _ _ Hrun) as Hlen. intros E. rewrite E in Hlen. cbn in Hlen. lia. }
  destruct (some_success fds s Hi Ha Hne) as [Hst [i Hr]].
  destruct (success_cleaned fds s i Hi Ha Hr) as [Hcs Hrn].
  destruct (returned_listeners fds s i _ Hi Hr) as [[? _]|[_ Hl]]; [done|].
  assert (Hall : exists j, own j (sh s) = valid_fds fds).
  { destruct (inv_fds fds s Hi) as [Hf|(_ & j & _ & Hj)]; [|by exists j].
    exists (length (threads s)). rewrite (inv_own fds s Hi) by (apply lookup_ge_None_2; lia).
    by rewrite <- Hf, Hl. }
  split_and!; try done.
  { intros j r Hj. destruct (returned_listeners fds s j r Hi Hj) as [[? _]|[? _]]; auto. }
  exists i. split; [done|]. intros Hone.
  assert (Hothers : forall j, j <> i -> own j (sh s) = []).
  { intros j Hj. destruct (threads s !! j) as [p|] eqn:Ep; [|by apply (inv_own fds s Hi)].
    destruct (Ha j p Ep) as [r ->]. destruct (returned_listeners fds s j r Hi Ep) as [[_ ?]|[-> _]]; [done|].
    by destruct Hj; apply Hone. }
  rewrite <- (own_only i (closed (sh s)) Hothers). destruct Hall as [j Hj].
  destruct (decide (j = i)) as [->|Hji]; [done|]. rewrite Hothers in Hj by done. rewrite <- Hj.
  destruct (own_prefix fds i s Hi) as [rest Hp]. rewrite <- Hj in Hp. symmetry in Hp.
  by apply app_eq_nil in Hp as [? _].
Qed.

(** One caller runs to the end, then a second one. *)
Definition one_then_another : list nat := replicate 17 0%nat ++ [1%nat].

Lemma concurrent_stops_witness :
  exists s, run_steps step one_then_another (started [5; 6] 2) = Some s /\
    (closed (sh s)).*2 = [5; 6] /\ threads s = [Returned ERR_SUCCESS; Returned ERR_INVALID_STATE].
Proof.
  destruct (run_steps step one_then_another (started [5; 6] 2)) as [s|] eqn:E; [|by vm_compute in E].
  assert (Ht : threads s = [Returned ERR_SUCCESS; Returned ERR_INVALID_STATE]).
  { assert (H : threads <$> run_steps step one_then_another (started [5; 6] 2) =
      Some [Returned ERR_SUCCESS; Returned ERR_INVALID_STATE]) by (vm_compute; reflexivity).
    rewrite E in H. by injection H. }
  exists s. split; [done|]. split; [|done].
  destruct (concurrent_stops [5; 6] 2 one_then_another s E) as (_ & _ & _ & _ & Hend).
  destruct Hend as (_ & _ & _ & _ & _ & _ & i & Hr & Hone); [|lia|].
  - intros j p Hp. rewrite Ht in Hp. clear - Hp. destruct j as [|[|j]]; cbn in Hp; simplify_eq; by eexists.
  - apply Hone. intros j Hj. rewrite Ht in Hj, Hr.
    clear - Hj Hr. destruct i as [|[|i]], j as [|[|j]]; cbn in Hj, Hr; simplify_eq; done.
Defined.

(** Two callers that both see RUNNING both close every listener, and race for
    the list. *)
Definition both_pass : list nat :=
  [0; 1; 0; 0; 0; 0; 0; 0; 1; 1; 1; 1; 1; 0]%nat.

Lemma two_stops_close_twice :
  exists s, run_steps step both_pass (started [5] 2) = Some s /\
    closed (sh s) = [(0%nat, 5); (1%nat, 5)] /\ threads s !! 0%nat = Some WaitPending /\
    exists s0, run_steps step (take 13 both_pass) (started [5] 2) = Some s0 /\ races s0.
Proof.
  destruct (run_steps step both_pass (started [5] 2)) as [s|] eqn:E; [|by vm_compute in E].
  vm_compute in E. injection E as <-. eexists. split; [reflexivity|]. split; [reflexivity|].
  split; [reflexivity|]. eexists. split; [vm_compute; reflexivity|].
  exists 0%nat, 1%nat. eexists. split; [done|]. split; [reflexivity|]. split; [reflexivity|]. done.
Qed.

(** A caller that passed the check and goes on after another has finished finds
    nothing to close, but leaves [graceful_shutdown_] set. *)
Lemma late_stop_leaves_flag :
  (fun s => (graceful_shutdown_ (sh s), (closed (sh s)).*2, threads s)) <$>
    run_steps step (0%nat :: replicate 15 1%nat ++ replicate 9 0%nat) (started [5] 2) =
  Some (true, [5], [Returned ERR_SUCCESS; Returned ERR_SUCCESS]).
Proof. vm_compute. reflexivity. Qed.

End ServerStops.
