(* ===== verification/ServerStart.v ===== *)
(** [Server::start] while other threads call [Server::stop]
    (server/source/server.cpp).

    [start] announces RUNNING in its first critical section and only then starts
    the message centre and registers the listeners, so a [stop] can come in
    between. The stopping threads are those of ServerStops; the starting thread
    is past its critical section. [MsgCenter::start] is one step, and succeeds;
    every descriptor is valid, so no registration is refused. *)

From S2P Require Import Prelude EventQ Workers MsgCentre Conn Config Server ServerStops.

Module ServerStart.
Import Server ServerStops.

(** [Register i]: before the test of the loop, with its index. *)
Inductive start_pc := StartCentre | Register (i : nat) | Started (ret : Z).

(** [centre]: the message centre runs. [late] records that it had been stopped
    before it was started. *)
Record t := mk { stops : ServerStops.t; starter : start_pc; centre : bool; late : bool }.

Definition announced (fds : list Z) (n : nat) : t :=
  mk (mkState (ServerStops.mk Server.RUNNING true false false fds [] 0 []) (replicate n CheckStatus)) StartCentre false false.

Definition register (fd : Z) (s : ServerStops.t) : ServerStops.t :=
  mkState (set_listeners (listen_fds_ (sh s)) (registered (sh s) ++ [fd]) (closed (sh s)) (sh s)) (threads s).

(** The rest of [start]; the list of listeners is read in every round. *)
Definition start_step (s : t) : option t :=
  match starter s with
  | StartCentre => Some (mk (stops s) (Register 0) true (0 <? centre_stops (sh (stops s)))%nat)
  | Register i =>
      match listen_fds_ (sh (stops s)) !! i with
      | Some fd => Some (mk (register fd (stops s)) (Register (S i)) (centre s) (late s))
      | None => Some (mk (stops s) (Started ERR_SUCCESS) (centre s) (late s))
      end
  | Started _ => None
  end.

Inductive label := ByStart | ByStop (i : nat).

(** [MsgCenter::stop] does nothing to a centre that does not run. *)
Definition step (l : label) (s : t) : option t :=
  match l with
  | ByStart => start_step s
  | ByStop i =>
      let stopping := bool_decide (threads (stops s) !! i = Some StopCentre) in
      x ← ServerStops.step i (stops s);
      Some (mk x (starter s) (centre s && negb stopping) (late s))
  end.

(** Two threads at the list of listeners, one of them writing. *)
Definition races (s : t) : Prop :=
  (exists k, starter s = Register k) /\ exists i, threads (stops s) !! i = Some ClearListeners.






(** ** Every call returns *)







(** A listener that the stopping thread has already closed is registered, and the
    list is read while it is cleared. *)
Lemma closed_listener_registered :
  (fun s => (registered (sh (stops s)), (closed (sh (stops s))).*2, starter s, threads (stops s))) <$>
    run_steps step (replicate 6 (ByStop 0) ++ [ByStart; ByStart; ByStop 0]) (announced [5] 1) =
  Some ([5], [5], Register 1, [ClearListeners]).
Proof. vm_compute. reflexivity. Qed.

End ServerStart.
