(* ===== verification/Errors.v ===== *)
(** Error codes and results (utils/include/utils/error.hpp and
    utils/source/error.cpp). *)

From S2P Require Import Prelude.

Module Error.

Inductive ErrorCode :=
  | SUCCESS | UNKNOWN_ERROR | INVALID_ARGUMENT | NULL_POINTER | OUT_OF_MEMORY
  | OUT_OF_RANGE | NOT_INITIALIZED | ALREADY_INITIALIZED | OPERATION_FAILED | TIMEOUT
  | BUFFER_OVERFLOW | BUFFER_UNDERFLOW | FILE_NOT_FOUND | FILE_PERMISSION_DENIED | FILE_READ_ERROR
  | FILE_WRITE_ERROR | FILE_CLOSE_ERROR | CONFIG_PARSE_ERROR | CONFIG_MISSING_REQUIRED | CONFIG_INVALID_VALUE
  | CONFIG_INVALID_PORT | CONFIG_INVALID_THREAD_COUNT | CONFIG_INVALID_LOG_LEVEL | NETWORK_SOCKET_ERROR | NETWORK_BIND_ERROR
  | NETWORK_LISTEN_ERROR | NETWORK_ACCEPT_ERROR | NETWORK_CONNECT_ERROR | NETWORK_READ_ERROR | NETWORK_WRITE_ERROR
  | NETWORK_CLOSED | TLS_INIT_ERROR | TLS_CERT_ERROR | TLS_KEY_ERROR | TLS_HANDSHAKE_ERROR
  | TLS_ENCRYPT_ERROR | TLS_DECRYPT_ERROR | PROTOCOL_INVALID_FRAME | PROTOCOL_INVALID_HEADER | PROTOCOL_FRAME_TOO_LARGE
  | PROTOCOL_STREAM_ERROR | PROTOCOL_GOAWAY | BUFFER_TOO_SMALL | BUFFER_CAPACITY_EXCEEDED | BUFFER_NO_DATA.
#[export] Instance ErrorCode_eq_dec : EqDecision ErrorCode.
Proof. solve_decision. Defined.

Definition value (c : ErrorCode) : Z :=
  match c with
  | SUCCESS => 0 | UNKNOWN_ERROR => 1 | INVALID_ARGUMENT => 2 | NULL_POINTER => 3
  | OUT_OF_MEMORY => 4 | OUT_OF_RANGE => 5 | NOT_INITIALIZED => 6 | ALREADY_INITIALIZED => 7
  | OPERATION_FAILED => 8 | TIMEOUT => 9 | BUFFER_OVERFLOW => 10 | BUFFER_UNDERFLOW => 11
  | FILE_NOT_FOUND => 1000 | FILE_PERMISSION_DENIED => 1001 | FILE_READ_ERROR => 1002 | FILE_WRITE_ERROR => 1003
  | FILE_CLOSE_ERROR => 1004 | CONFIG_PARSE_ERROR => 2000 | CONFIG_MISSING_REQUIRED => 2001 | CONFIG_INVALID_VALUE => 2002
  | CONFIG_INVALID_PORT => 2003 | CONFIG_INVALID_THREAD_COUNT => 2004 | CONFIG_INVALID_LOG_LEVEL => 2005 | NETWORK_SOCKET_ERROR => 3000
  | NETWORK_BIND_ERROR => 3001 | NETWORK_LISTEN_ERROR => 3002 | NETWORK_ACCEPT_ERROR => 3003 | NETWORK_CONNECT_ERROR => 3004
  | NETWORK_READ_ERROR => 3005 | NETWORK_WRITE_ERROR => 3006 | NETWORK_CLOSED => 3007 | TLS_INIT_ERROR => 4000
  | TLS_CERT_ERROR => 4001 | TLS_KEY_ERROR => 4002 | TLS_HANDSHAKE_ERROR => 4003 | TLS_ENCRYPT_ERROR => 4004
  | TLS_DECRYPT_ERROR => 4005 | PROTOCOL_INVALID_FRAME => 5000 | PROTOCOL_INVALID_HEADER => 5001 | PROTOCOL_FRAME_TOO_LARGE => 5002
  | PROTOCOL_STREAM_ERROR => 5003 | PROTOCOL_GOAWAY => 5004 | BUFFER_TOO_SMALL => 6000 | BUFFER_CAPACITY_EXCEEDED => 6001
  | BUFFER_NO_DATA => 6002
  end.

Definition name (c : ErrorCode) : bytes :=
  match c with
  | SUCCESS => str "SUCCESS" | UNKNOWN_ERROR => str "UNKNOWN_ERROR"
  | INVALID_ARGUMENT => str "INVALID_ARGUMENT" | NULL_POINTER => str "NULL_POINTER"
  | OUT_OF_MEMORY => str "OUT_OF_MEMORY" | OUT_OF_RANGE => str "OUT_OF_RANGE"
  | NOT_INITIALIZED => str "NOT_INITIALIZED" | ALREADY_INITIALIZED => str "ALREADY_INITIALIZED"
  | OPERATION_FAILED => str "OPERATION_FAILED" | TIMEOUT => str "TIMEOUT"
  | BUFFER_OVERFLOW => str "BUFFER_OVERFLOW" | BUFFER_UNDERFLOW => str "BUFFER_UNDERFLOW"
  | FILE_NOT_FOUND => str "FILE_NOT_FOUND" | FILE_PERMISSION_DENIED => str "FILE_PERMISSION_DENIED"
  | FILE_READ_ERROR => str "FILE_READ_ERROR" | FILE_WRITE_ERROR => str "FILE_WRITE_ERROR"
  | FILE_CLOSE_ERROR => str "FILE_CLOSE_ERROR" | CONFIG_PARSE_ERROR => str "CONFIG_PARSE_ERROR"
  | CONFIG_MISSING_REQUIRED => str "CONFIG_MISSING_REQUIRED" | CONFIG_INVALID_VALUE => str "CONFIG_INVALID_VALUE"
  | CONFIG_INVALID_PORT => str "CONFIG_INVALID_PORT" | CONFIG_INVALID_THREAD_COUNT => str "CONFIG_INVALID_THREAD_COUNT"
  | CONFIG_INVALID_LOG_LEVEL => str "CONFIG_INVALID_LOG_LEVEL" | NETWORK_SOCKET_ERROR => str "NETWORK_SOCKET_ERROR"
  | NETWORK_BIND_ERROR => str "NETWORK_BIND_ERROR" | NETWORK_LISTEN_ERROR => str "NETWORK_LISTEN_ERROR"
  | NETWORK_ACCEPT_ERROR => str "NETWORK_ACCEPT_ERROR" | NETWORK_CONNECT_ERROR => str "NETWORK_CONNECT_ERROR"
  | NETWORK_READ_ERROR => str "NETWORK_READ_ERROR" | NETWORK_WRITE_ERROR => str "NETWORK_WRITE_ERROR"
  | NETWORK_CLOSED => str "NETWORK_CLOSED" | TLS_INIT_ERROR => str "TLS_INIT_ERROR"
  | TLS_CERT_ERROR => str "TLS_CERT_ERROR" | TLS_KEY_ERROR => str "TLS_KEY_ERROR"
  | TLS_HANDSHAKE_ERROR => str "TLS_HANDSHAKE_ERROR" | TLS_ENCRYPT_ERROR => str "TLS_ENCRYPT_ERROR"
  | TLS_DECRYPT_ERROR => str "TLS_DECRYPT_ERROR" | PROTOCOL_INVALID_FRAME => str "PROTOCOL_INVALID_FRAME"
  | PROTOCOL_INVALID_HEADER => str "PROTOCOL_INVALID_HEADER" | PROTOCOL_FRAME_TOO_LARGE => str "PROTOCOL_FRAME_TOO_LARGE"
  | PROTOCOL_STREAM_ERROR => str "PROTOCOL_STREAM_ERROR" | PROTOCOL_GOAWAY => str "PROTOCOL_GOAWAY"
  | BUFFER_TOO_SMALL => str "BUFFER_TOO_SMALL" | BUFFER_CAPACITY_EXCEEDED => str "BUFFER_CAPACITY_EXCEEDED"
  | BUFFER_NO_DATA => str "BUFFER_NO_DATA"
  end.

Definition description (c : ErrorCode) : bytes :=
  match c with
  | SUCCESS => str "Operation completed successfully" | UNKNOWN_ERROR => str "An unknown error occurred"
  | INVALID_ARGUMENT => str "Invalid argument" | NULL_POINTER => str "Null pointer"
  | OUT_OF_MEMORY => str "Out of memory" | OUT_OF_RANGE => str "Out of range"
  | NOT_INITIALIZED => str "Not initialized" | ALREADY_INITIALIZED => str "Already initialized"
  | OPERATION_FAILED => str "Operation failed" | TIMEOUT => str "Operation timed out"
  | BUFFER_OVERFLOW => str "Buffer overflow" | BUFFER_UNDERFLOW => str "Buffer underflow"
  | FILE_NOT_FOUND => str "File not found" | FILE_PERMISSION_DENIED => str "Permission denied"
  | FILE_READ_ERROR => str "File read error" | FILE_WRITE_ERROR => str "File write error"
  | FILE_CLOSE_ERROR => str "File close error" | CONFIG_PARSE_ERROR => str "Config parse error"
  | CONFIG_MISSING_REQUIRED => str "Missing required config" | CONFIG_INVALID_VALUE => str "Invalid config value"
  | CONFIG_INVALID_PORT => str "Invalid port number" | CONFIG_INVALID_THREAD_COUNT => str "Invalid thread count"
  | CONFIG_INVALID_LOG_LEVEL => str "Invalid log level" | NETWORK_SOCKET_ERROR => str "Socket error"
  | NETWORK_BIND_ERROR => str "Bind error" | NETWORK_LISTEN_ERROR => str "Listen error"
  | NETWORK_ACCEPT_ERROR => str "Accept error" | NETWORK_CONNECT_ERROR => str "Connect error"
  | NETWORK_READ_ERROR => str "Network read error" | NETWORK_WRITE_ERROR => str "Network write error"
  | NETWORK_CLOSED => str "Connection closed" | TLS_INIT_ERROR => str "TLS init error"
  | TLS_CERT_ERROR => str "TLS certificate error" | TLS_KEY_ERROR => str "TLS key error"
  | TLS_HANDSHAKE_ERROR => str "TLS handshake error" | TLS_ENCRYPT_ERROR => str "TLS encrypt error"
  | TLS_DECRYPT_ERROR => str "TLS decrypt error" | PROTOCOL_INVALID_FRAME => str "Invalid protocol frame"
  | PROTOCOL_INVALID_HEADER => str "Invalid protocol header" | PROTOCOL_FRAME_TOO_LARGE => str "Frame too large"
  | PROTOCOL_STREAM_ERROR => str "Stream error" | PROTOCOL_GOAWAY => str "GOAWAY received"
  | BUFFER_TOO_SMALL => str "Buffer too small" | BUFFER_CAPACITY_EXCEEDED => str "Buffer capacity exceeded"
  | BUFFER_NO_DATA => str "No data in buffer"
  end.

Definition codes : list ErrorCode :=
  [SUCCESS; UNKNOWN_ERROR; INVALID_ARGUMENT; NULL_POINTER; OUT_OF_MEMORY; OUT_OF_RANGE; NOT_INITIALIZED; ALREADY_INITIALIZED; OPERATION_FAILED; TIMEOUT; BUFFER_OVERFLOW; BUFFER_UNDERFLOW; FILE_NOT_FOUND; FILE_PERMISSION_DENIED; FILE_READ_ERROR; FILE_WRITE_ERROR; FILE_CLOSE_ERROR; CONFIG_PARSE_ERROR; CONFIG_MISSING_REQUIRED; CONFIG_INVALID_VALUE; CONFIG_INVALID_PORT; CONFIG_INVALID_THREAD_COUNT; CONFIG_INVALID_LOG_LEVEL; NETWORK_SOCKET_ERROR; NETWORK_BIND_ERROR; NETWORK_LISTEN_ERROR; NETWORK_ACCEPT_ERROR; NETWORK_CONNECT_ERROR; NETWORK_READ_ERROR; NETWORK_WRITE_ERROR; NETWORK_CLOSED; TLS_INIT_ERROR; TLS_CERT_ERROR; TLS_KEY_ERROR; TLS_HANDSHAKE_ERROR; TLS_ENCRYPT_ERROR; TLS_DECRYPT_ERROR; PROTOCOL_INVALID_FRAME; PROTOCOL_INVALID_HEADER; PROTOCOL_FRAME_TOO_LARGE; PROTOCOL_STREAM_ERROR; PROTOCOL_GOAWAY; BUFFER_TOO_SMALL; BUFFER_CAPACITY_EXCEEDED; BUFFER_NO_DATA].

(** The enumerator a value of the underlying type denotes. *)
Definition of_value (v : Z) : option ErrorCode := List.find (fun c => value c =? v) codes.

(** The two switches, on the underlying [int32_t]: any value may be passed. *)
Definition error_code_to_string (v : Z) : bytes :=
  match of_value v with Some c => name c | None => str "UNKNOWN_ERROR_CODE" end.
Definition error_code_to_description (v : Z) : bytes :=
  match of_value v with Some c => description c | None => str "Unknown error" end.

Definition is_success (v : Z) : bool := v =? value SUCCESS.
Definition is_error (v : Z) : bool := negb (v =? value SUCCESS).

(** * Results *)

(** [Result<T>]; [d] is the default value of [T]. *)
Record Result (T : Type) := mkResult { code_ : Z; message_ : bytes; value_ : T; has_value_ : bool }.
Arguments mkResult {T} _ _ _ _.
Arguments code_ {T} _.
Arguments message_ {T} _.
Arguments value_ {T} _.
Arguments has_value_ {T} _.

Definition make_ok {T} (x : T) : Result T := mkResult (value SUCCESS) [] x true.
Definition make_err_code {T} (d : T) (c : Z) : Result T := mkResult c (error_code_to_description c) d false.
Definition make_err {T} (d : T) (c : Z) (message : bytes) : Result T := mkResult c message d false.
Definition is_ok {T} (r : Result T) : bool := has_value_ r.
Definition value_or {T} (r : Result T) (default_value : T) : T :=
  if has_value_ r then value_ r else default_value.

(** [Result<void>]: a code and a message. *)
Record ResultVoid := mkVoid { void_code : Z; void_message : bytes }.
Definition make_ok_void : ResultVoid := mkVoid (value SUCCESS) [].
Definition make_err_void_code (c : Z) : ResultVoid := mkVoid c (error_code_to_description c).
Definition make_err_void (c : Z) (message : bytes) : ResultVoid := mkVoid c message.
Definition is_ok_void (r : ResultVoid) : bool := void_code r =? value SUCCESS.

(** * Properties *)

Lemma of_value_value c : of_value (value c) = Some c.
Proof. by destruct c. Qed.

Lemma of_value_some v c : of_value v = Some c -> value c = v.
Proof. unfold of_value. intros H. apply find_some in H as [_ H]. by apply Z.eqb_eq in H. Qed.

(** The error table. The two switches cover every enumerator: two codes
    never share a value or a name, no enumerator has the name given to unknown
    values, and every other integer gets exactly that name. *)
Theorem error_table (c1 c2 : ErrorCode) (v : Z) :
  (value c1 = value c2 -> c1 = c2) /\
  (error_code_to_string (value c1) = error_code_to_string (value c2) -> c1 = c2) /\
  error_code_to_string (value c1) <> str "UNKNOWN_ERROR_CODE" /\
  error_code_to_description (value c1) <> str "Unknown error" /\
  ((forall c, value c <> v) -> error_code_to_string v = str "UNKNOWN_ERROR_CODE" /\
     error_code_to_description v = str "Unknown error") /\
  (is_success v = true <-> v = value SUCCESS) /\ is_error v = negb (is_success v).
Proof.
  unfold error_code_to_string, error_code_to_description. rewrite !of_value_value.
  split_and!.
  - intros H. pose proof (of_value_value c1) as H1. rewrite H, of_value_value in H1. by injection H1.
  - intros H. destruct c1, c2; first [reflexivity | by vm_compute in H].
  - by destruct c1.
  - by destruct c1.
  - intros H. destruct (of_value v) as [c|] eqn:E; [|done]. by apply of_value_some, H in E.
  - unfold is_success. apply Z.eqb_eq.
  - done.
Qed.

(** A result built from a value is a success; one built from a code is an
    error, even when the code is [SUCCESS]: only [Result<void>] goes by its
    code. *)
Theorem result_kinds {T} (x d : T) (c : Z) (m : bytes) :
  is_ok (make_ok x) = true /\ value_or (make_ok x) d = x /\
  is_ok (make_err d c m) = false /\ value_or (make_err d c m) x = x /\
  is_ok (make_err_code d (value SUCCESS)) = false /\
  (is_ok_void (make_err_void c m) = true <-> c = value SUCCESS).
Proof. split_and!; try done. unfold is_ok_void. apply Z.eqb_eq. Qed.

End Error.
