(* ===== verification/Logging.v ===== *)
(** The logger (utils/include/utils/logger.hpp and utils/source/logger.cpp).

    What [vsnprintf] makes of a format and its arguments, the formatted time and
    the thread's id are arguments; [can_open] says which paths the system opens.
    The calls are serialised by [mutex_], which is not recursive: locking it
    again in the same call never returns ([None]). *)

From S2P Require Import Prelude CString.

(** The first occurrence of [pat] in [s]: what is before it and after it. *)
Fixpoint find_sub (pat s : bytes) : option (bytes * bytes) :=
  if bool_decide (take (length pat) s = pat) then Some ([], drop (length pat) s)
  else
    match s with
    | [] => None
    | b :: r => '(p, q) ← find_sub pat r; Some (b :: p, q)
    end.

(** [pos = s.find(pat); if (pos != npos) s.replace(pos, pat.size(), by)] *)
Definition replace_first (pat by_ s : bytes) : bytes :=
  match find_sub pat s with Some (p, q) => p ++ by_ ++ q | None => s end.

Module Logger.

(** [LogLevel], by its underlying [uint8_t]. *)
Definition DEBUG : Z := 0.
Definition INFO : Z := 1.
Definition WARN : Z := 2.
Definition ERROR : Z := 3.

Definition log_level_to_string (level : Z) : bytes :=
  if level =? DEBUG then str "DEBUG" else if level =? INFO then str "INFO"
  else if level =? WARN then str "WARN" else if level =? ERROR then str "ERROR"
  else str "UNKNOWN".

Definition string_to_log_level (s : bytes) : Z :=
  if bool_decide (s = str "DEBUG") then DEBUG
  else if bool_decide (s = str "INFO") then INFO
  else if bool_decide (s = str "WARN") then WARN
  else if bool_decide (s = str "ERROR") then ERROR
  else INFO.

(** [std::ofstream]: the file it has open, and its [failbit]. *)
Record ofstream := mkStream { path : option bytes; failbit : bool }.
Definition is_open (f : ofstream) : bool := match path f with Some _ => true | None => false end.
Definition close (f : ofstream) : ofstream := mkStream None (failbit f || negb (is_open f)).

(** Where a line goes. *)
Inductive sink := Stdout | Stderr | File (p : bytes).

Record t := mk {
  level_ : Z;
  mutex_ : bool;                      (* held by the running call *)
  file_ : ofstream;
  console_enabled_ : bool;
  format_ : bytes;
  initialized_ : bool;
  written : list (sink * bytes);      (* the lines written, oldest first *)
}.

Definition default_format : bytes := str "[%time] [%level] [%module] %message".
Definition create : t := mk INFO false (mkStream None false) true default_format false [].

Section Logger.
Variable can_open : bytes -> bool.

(** Opening an open stream fails and leaves it open; a success clears the state. *)
Definition open (p : bytes) (f : ofstream) : ofstream :=
  match path f with
  | Some _ => mkStream (path f) true
  | None => if can_open p then mkStream (Some p) false else mkStream None true
  end.

Definition set_mutex (b : bool) (s : t) : t :=
  mk (level_ s) b (file_ s) (console_enabled_ s) (format_ s) (initialized_ s) (written s).
Definition set_stream (f : ofstream) (s : t) : t :=
  mk (level_ s) (mutex_ s) f (console_enabled_ s) (format_ s) (initialized_ s) (written s).
Definition set_initialized (b : bool) (s : t) : t :=
  mk (level_ s) (mutex_ s) (file_ s) (console_enabled_ s) (format_ s) b (written s).
Definition set_level (level : Z) (s : t) : t :=
  mk level (mutex_ s) (file_ s) (console_enabled_ s) (format_ s) (initialized_ s) (written s).
Definition write (w : list (sink * bytes)) (s : t) : t :=
  mk (level_ s) (mutex_ s) (file_ s) (console_enabled_ s) (format_ s) (initialized_ s) (written s ++ w).

(** [std::lock_guard]. *)
Definition with_lock {A} (f : t -> option (t * A)) (s : t) : option (t * A) :=
  if mutex_ s then None
  else '(s', a) ← f (set_mutex true s); Some (set_mutex false s', a).

Definition shutdown : t -> option (t * unit) :=
  with_lock (fun s =>
    Some (set_initialized false (if is_open (file_ s) then set_stream (close (file_ s)) s else s), tt)).

Definition init (level : Z) (file : bytes) : t -> option (t * Z) :=
  with_lock (fun s =>
    s1 ← (if initialized_ s then fst <$> shutdown s else Some s);
    let s2 := set_level level s1 in
    if negb (bool_decide (file = [])) then
      let s3 := set_stream (open file (file_ s2)) s2 in
      if negb (is_open (file_ s3)) then Some (s3, -1) else Some (set_initialized true s3, 0)
    else Some (set_initialized true s2, 0)).
Definition init_by_name (level file : bytes) : t -> option (t * Z) := init (string_to_log_level level) file.

Definition get_level (s : t) : Z := level_ s.

Definition set_file (file : bytes) : t -> option (t * Z) :=
  with_lock (fun s =>
    let s1 := if is_open (file_ s) then set_stream (close (file_ s)) s else s in
    if bool_decide (file = []) then Some (s1, 0)
    else
      let s2 := set_stream (open file (file_ s1)) s1 in
      Some (s2, if is_open (file_ s2) then 0 else -1)).

Definition set_console_output (enabled : bool) : t -> option (t * unit) :=
  with_lock (fun s => Some (mk (level_ s) (mutex_ s) (file_ s) enabled (format_ s) (initialized_ s) (written s), tt)).
Definition set_format (format : bytes) : t -> option (t * unit) :=
  with_lock (fun s => Some (mk (level_ s) (mutex_ s) (file_ s) (console_enabled_ s) format (initialized_ s) (written s), tt)).

Definition is_level_enabled (level : Z) (s : t) : bool := level_ s <=? level.

(** The line made of the format. *)
Definition format_line (format : bytes) (level : Z) (module_ : option bytes) (message time thread : bytes) : bytes :=
  let r1 := replace_first (str "%time") time format in
  let r2 := replace_first (str "%level") (log_level_to_string level) r1 in
  let r3 := replace_first (str "%module") (default (str "unknown") module_) r2 in
  let r4 := replace_first (str "%thread") thread r3 in
  let r5 := replace_first (str "%message") message r4 in
  r5 ++ [x0a].

Definition format_and_write (level : Z) (module_ : option bytes) (message time thread : bytes) (s : t) : t :=
  let result := format_line (format_ s) level module_ message time thread in
  let s1 :=
    if console_enabled_ s then write [(if WARN <=? level then Stderr else Stdout, result)] s else s in
  match path (file_ s1) with
  | Some p => if failbit (file_ s1) then s1 else write [(File p, result)] s1
  | None => s1
  end.

(** [text]: the whole text [vsnprintf] would print; the buffer has 4096 bytes. *)
Definition logv (level : Z) (module_ : option bytes) (text time thread : bytes) : t -> option (t * unit) :=
  with_lock (fun s => Some (format_and_write level module_ (ztake 4095 (c_str text)) time thread s, tt)).

Definition log (level : Z) (module_ : option bytes) (text time thread : bytes) (s : t) : option (t * unit) :=
  if negb (is_level_enabled level s) then Some (s, tt) else logv level module_ text time thread s.
Definition debug := log DEBUG.
Definition info := log INFO.
Definition warn := log WARN.
Definition error := log ERROR.

(** Only what is visible in the model: nothing is buffered. *)
Definition flush : t -> option (t * unit) := with_lock (fun s => Some (s, tt)).
End Logger.

(** * Substitution *)

Lemma find_sub_none l p r b :
  b ∉ l -> find_sub (b :: p) (l ++ r) = (fun x => (l ++ x.1, x.2)) <$> find_sub (b :: p) r.
Proof.
  induction l as [|a l IH]; intros Hb; cbn [app].
  - destruct (find_sub (b :: p) r) as [[x y]|]; done.
  - apply not_elem_of_cons in Hb as [Ha Hb]. cbn [find_sub length take].
    rewrite bool_decide_eq_false_2 by congruence. rewrite IH by done.
    destruct (find_sub (b :: p) r) as [[x y]|]; done.
Qed.

Lemma find_sub_here p r : find_sub p (p ++ r) = Some ([], r).
Proof.
  destruct (p ++ r) as [|a l] eqn:E; cbn [find_sub]; rewrite <- E;
    by rewrite take_app_length, bool_decide_eq_true_2, drop_app_length.
Qed.

Lemma replace_first_at b p by_ l r :
  b ∉ l -> replace_first (b :: p) by_ (l ++ (b :: p) ++ r) = l ++ by_ ++ r.
Proof.
  intros Hb. unfold replace_first. rewrite find_sub_none by done. rewrite find_sub_here. cbn.
  by rewrite app_nil_r.
Qed.

Lemma replace_first_none b p by_ l r :
  b ∉ l -> find_sub (b :: p) r = None -> replace_first (b :: p) by_ (l ++ r) = l ++ r.
Proof. intros Hb Hr. unfold replace_first. rewrite find_sub_none by done. by rewrite Hr. Qed.

Definition no_percent (l : bytes) : Prop := x25 ∉ l.

Lemma level_no_percent level : no_percent (log_level_to_string level).
Proof. unfold log_level_to_string, no_percent. repeat ifz; by apply (bool_decide_unpack _). Qed.

(** The line of the default format; the message is copied as it is. *)
Definition default_line (level : Z) (module_ : bytes) (message time : bytes) : bytes :=
  str "[" ++ time ++ str "] [" ++ log_level_to_string level ++ str "] [" ++ module_ ++ str "] " ++ message ++ [x0a].

Lemma format_default level m message time thread :
  no_percent time -> no_percent (default (str "unknown") m) ->
  format_line default_format level m message time thread =
  default_line level (default (str "unknown") m) message time.
Proof.
  intros Ht Hm. unfold format_line. set (md := default (str "unknown") m) in *.
  pose proof (level_no_percent level) as Hl. set (lv := log_level_to_string level) in *.
  assert (Hs : forall s, bool_decide (x25 ∉ s) = true -> no_percent s) by (intros s; apply bool_decide_eq_true_1).
  change default_format with (str "[" ++ str "%time" ++ str "] [%level] [%module] %message").
  change (str "%time") with (x25 :: str "time"). rewrite replace_first_at by by apply Hs.
  change (str "%level") with (x25 :: str "level").
  replace (str "[" ++ time ++ str "] [%level] [%module] %message")
    with ((str "[" ++ time ++ str "] [") ++ (x25 :: str "level") ++ str "] [%module] %message")
    by (rewrite <- !app_assoc; reflexivity).
  assert (H1 : no_percent (str "[" ++ time ++ str "] [")).
  { unfold no_percent. rewrite !not_elem_of_app. split_and!; [by apply Hs|done|by apply Hs]. }
  rewrite replace_first_at by done. set (pre := str "[" ++ time ++ str "] [") in *.
  change (str "%module") with (x25 :: str "module").
  replace (pre ++ lv ++ str "] [%module] %message")
    with ((pre ++ lv ++ str "] [") ++ (x25 :: str "module") ++ str "] %message")
    by (rewrite <- !app_assoc; reflexivity).
  assert (H2 : no_percent (pre ++ lv ++ str "] [")).
  { unfold no_percent. rewrite !not_elem_of_app. split_and!; [done|done|by apply Hs]. }
  rewrite replace_first_at by done.
  change (str "%thread") with (x25 :: str "thread"). change (str "%message") with (x25 :: str "message").
  replace ((pre ++ lv ++ str "] [") ++ md ++ str "] %message")
    with ((pre ++ lv ++ str "] [" ++ md ++ str "] ") ++ x25 :: str "message" ++ [])
    by (rewrite <- !app_assoc, app_nil_r; reflexivity).
  assert (H3 : no_percent (pre ++ lv ++ str "] [" ++ md ++ str "] ")).
  { unfold no_percent in *. rewrite !not_elem_of_app in *. split_and!; try done; try tauto; by apply Hs. }
  rewrite replace_first_none by (done || by vm_compute).
  change (x25 :: str "message" ++ []) with ((x25 :: str "message") ++ []).
  rewrite replace_first_at by done. unfold default_line, pre. by rewrite !app_nil_r, <- !app_assoc.
Qed.

(** * Properties *)

Lemma with_lock_free {A} (f : t -> option (t * A)) s : mutex_ s = false ->
  with_lock f s = ('(s', a) ← f (set_mutex true s); Some (set_mutex false s', a)).
Proof. intros H. unfold with_lock. by rewrite H. Qed.

(** A log call under the default format. Nothing is written below the
    logger's level; otherwise one line is written to the console, if enabled
    (to [stderr] from WARN on), and to the open file: time, level, module and
    the first 4095 bytes of the text, copied as they are, whatever [%] signs
    they hold. *)
Theorem logger_default_line level m text time thread s :
  mutex_ s = false -> format_ s = default_format ->
  no_percent time -> no_percent (default (str "unknown") m) ->
  exists s', log level m text time thread s = Some (s', tt) /\ mutex_ s' = false /\ format_ s' = format_ s /\
    level_ s' = level_ s /\
    written s' = written s ++
      (if is_level_enabled level s then
         let line := default_line level (default (str "unknown") m) (ztake 4095 (c_str text)) time in
         (if console_enabled_ s then [(if WARN <=? level then Stderr else Stdout, line)] else []) ++
         match path (file_ s) with
         | Some p => if failbit (file_ s) then [] else [(File p, line)]
         | None => []
         end
       else []).
Proof.
  intros Hm Hf Ht Hmd. unfold log. destruct (is_level_enabled level s); cbn [negb]; cycle 1.
  { exists s. by rewrite app_nil_r. }
  unfold logv. rewrite with_lock_free by done. cbn [mbind option_bind]. eexists. split; [reflexivity|].
  unfold format_and_write. cbn [format_ console_enabled_ set_mutex]. rewrite Hf, format_default by done.
  destruct (console_enabled_ s); cbn; destruct (path (file_ s)) as [p|]; cbn;
    try destruct (failbit (file_ s)); cbn; by rewrite <- ?app_assoc, ?app_nil_r.
Qed.

Lemma logger_default_line_witness :
  exists s', warn (Some (str "Server")) (str "100%message") (str "2026-01-01 00:00:00") (str "1") create = Some (s', tt) /\
    written s' = [(Stderr, default_line WARN (str "Server") (str "100%message") (str "2026-01-01 00:00:00"))].
Proof.
  destruct (logger_default_line WARN (Some (str "Server")) (str "100%message") (str "2026-01-01 00:00:00")
    (str "1") create eq_refl eq_refl) as (s' & E & _ & _ & _ & Hw);
    [by apply (bool_decide_unpack _)|by apply (bool_decide_unpack _)|].
  exists s'. split; [exact E|exact Hw].
Defined.

(** The names of the levels round-trip. *)
Theorem log_level_roundtrip level : 0 <= level <= 3 ->
  string_to_log_level (log_level_to_string level) = level.
Proof.
  intros Hl. assert (level = DEBUG \/ level = INFO \/ level = WARN \/ level = ERROR) as [->|[->|[->| ->]]]
    by (unfold DEBUG, INFO, WARN, ERROR; lia); reflexivity.
Qed.

Lemma log_level_roundtrip_witness : string_to_log_level (log_level_to_string 2) = 2.
Proof. apply (log_level_roundtrip 2). lia. Defined.

Section Properties.
Variable can_open : bytes -> bool.

Inductive op :=
| Init (level : Z) (file : bytes)
| SetLevel (level : Z)
| SetFile (file : bytes)
| SetConsole (enabled : bool)
| SetFormat (format : bytes)
| Log (level : Z) (m : option bytes) (text time thread : bytes)
| Flush
| Shutdown.
Definition run_op (s : t) (o : op) : option t :=
  match o with
  | Init l f => fst <$> init can_open l f s
  | SetLevel l => Some (set_level l s)
  | SetFile f => fst <$> set_file can_open f s
  | SetConsole b => fst <$> set_console_output b s
  | SetFormat f => fst <$> set_format f s
  | Log l m x tm th => fst <$> log l m x tm th s
  | Flush => fst <$> flush s
  | Shutdown => fst <$> shutdown s
  end.
Definition run_ops (s : t) (os : list op) : option t := foldl (fun s o => s ← s; run_op s o) (Some s) os.

(** No [init] while the logger is initialised. *)
Fixpoint init_once (initialized : bool) (os : list op) : bool :=
  match os with
  | [] => true
  | Init _ _ :: r => negb initialized && init_once true r
  | Shutdown :: r => init_once false r
  | _ :: r => init_once initialized r
  end.

Lemma init_once_weaken b os : init_once true os = true -> init_once b os = true.
Proof.
  destruct b; [done|]. induction os as [|o os IH]; [done|]. destruct o; cbn; try done; by apply IH.
Qed.

Lemma run_logger_op s o : mutex_ s = false -> init_once (initialized_ s) [o] = true ->
  exists s', run_op s o = Some s' /\ mutex_ s' = false /\
    (initialized_ s' = true -> match o with Init _ _ => True | Shutdown => False | _ => initialized_ s = true end).
Proof.
  intros Hm Ho.
  destruct o as [l f|l|f|b|f|l m x tm th| |]; cbn [run_op init_once] in *;
    unfold init, set_file, set_console_output, set_format, flush, shutdown, log, logv, with_lock; rewrite ?Hm.
  - rewrite andb_true_r in Ho. apply negb_true_iff in Ho. cbn [set_mutex initialized_]. rewrite Ho.
    cbn [mbind option_bind]. destruct (negb (bool_decide (f = []))); [destruct (negb (is_open _))|]; cbn;
      eexists; (split; [reflexivity|]); done.
  - eexists. split; [reflexivity|]. done.
  - cbn. destruct (bool_decide (f = [])); cbn; eexists; (split; [reflexivity|]); cbn;
      destruct (is_open (file_ s)); done.
  - cbn. eexists. split; [reflexivity|]. done.
  - cbn. eexists. split; [reflexivity|]. done.
  - destruct (negb (is_level_enabled l s)); cbn; eexists; (split; [reflexivity|]); [done|].
    unfold format_and_write. cbn. destruct (console_enabled_ s); cbn; destruct (path (file_ s)); cbn;
      try destruct (failbit (file_ s)); done.
  - cbn. eexists. split; [reflexivity|]. done.
  - cbn. eexists. split; [reflexivity|]. cbn. destruct (is_open (file_ s)); done.
Qed.

Lemma init_once_next s s' o os : init_once (initialized_ s) (o :: os) = true ->
  (initialized_ s' = true -> match o with Init _ _ => True | Shutdown => False | _ => initialized_ s = true end) ->
  init_once (initialized_ s') os = true.
Proof.
  intros H Hs. destruct (initialized_ s') eqn:E.
  - specialize (Hs eq_refl). destruct o; cbn in H; try done; try (by rewrite Hs in H).
    by apply andb_true_iff in H as [_ ?].
  - destruct o; cbn in H; try (destruct (initialized_ s); [by apply init_once_weaken|done]); try done.
    apply andb_true_iff in H as [_ ?]. by apply init_once_weaken.
Qed.

(** C39. Calls never block for ever, and leave the mutex free, as long as
    [init] is not called on an initialised logger. That call does block: it
    holds the mutex when it calls [shutdown], which locks it again. *)
Theorem logger_blocks_only_on_reinit os l f :
  (init_once false os = true -> exists s, run_ops create os = Some s /\ mutex_ s = false) /\
  (forall s, initialized_ s = true -> init can_open l f s = None).
Proof.
  split.
  - assert (Hg : forall s, mutex_ s = false -> init_once (initialized_ s) os = true ->
      exists s', run_ops s os = Some s' /\ mutex_ s' = false); [|intros H; by apply (Hg create)].
    unfold run_ops. induction os as [|o os IH]; intros s Hm Ho; cbn; [by exists s|].
    assert (Ho1 : init_once (initialized_ s) [o] = true).
    { destruct o; cbn in *; try done. apply andb_true_iff in Ho as [-> _]. done. }
    destruct (run_logger_op s o Hm Ho1) as (s' & -> & Hm' & Hi'). apply IH; [done|].
    by eapply init_once_next.
  - intros s Hs. unfold init, with_lock. destruct (mutex_ s); [done|]. cbn [set_mutex initialized_]. rewrite Hs.
    reflexivity.
Qed.

(** [init] opens its file on the stream [set_file] has left open: the open
    fails, the old file stays and the stream keeps its error, so [init] returns
    0 and from then on no file gets a line. *)
Theorem init_after_set_file_loses_log f1 f2 level m text time thread :
  f1 <> [] -> f2 <> [] -> can_open f1 = true ->
  exists s1 s2 s3, set_file can_open f1 create = Some (s1, 0) /\ init can_open INFO f2 s1 = Some (s2, 0) /\
    log level m text time thread s2 = Some (s3, tt) /\
    Forall (fun w => match w.1 with File _ => False | _ => True end) (written s3).
Proof.
  intros H1 H2 Hc. unfold set_file, with_lock. cbn [mutex_ create]. cbn [set_mutex file_ create is_open path].
  rewrite bool_decide_eq_false_2 by done. cbn. unfold open. cbn. rewrite Hc. cbn.
  destruct (negb (INFO <=? level)) eqn:El; do 3 eexists; (split; [reflexivity|]); unfold init, with_lock; cbn;
    rewrite bool_decide_eq_false_2 by done; cbn; (split; [reflexivity|]);
    unfold log, logv, with_lock, is_level_enabled; cbn -[Z.leb]; rewrite El; cbn -[Z.leb].
  - split; [reflexivity|]. constructor.
  - split; [reflexivity|]. cbn -[Z.leb]. constructor; [|constructor]. by destruct (WARN <=? level).
Qed.
End Properties.

Lemma logger_blocks_only_on_reinit_witness :
  exists s, run_ops (fun _ => true) create [SetFormat (str "%message"); Init WARN (str "a.log");
    Log ERROR None (str "x") [] []; Shutdown; Init INFO []; Flush] = Some s /\ mutex_ s = false.
Proof.
  apply (logger_blocks_only_on_reinit (fun _ => true) [SetFormat (str "%message"); Init WARN (str "a.log");
    Log ERROR None (str "x") [] []; Shutdown; Init INFO []; Flush] 0 []). reflexivity.
Defined.

Lemma init_after_set_file_loses_log_witness :
  exists s1 s2 s3, set_file (fun _ => true) (str "a") create = Some (s1, 0) /\
    init (fun _ => true) INFO (str "b") s1 = Some (s2, 0) /\
    log ERROR None (str "lost") [] [] s2 = Some (s3, tt) /\
    Forall (fun w => match w.1 with File _ => False | _ => True end) (written s3).
Proof. by apply (init_after_set_file_loses_log (fun _ => true) (str "a") (str "b") ERROR None (str "lost") [] []). Defined.
End Logger.
