(* ===== verification/Clock.v ===== *)
(** Clocks and timeouts (utils/include/utils/time.hpp and
    utils/source/time.cpp). A clock reading is the nanoseconds since its epoch,
    an argument; formatting a date is left to the C library. *)

From S2P Require Import Prelude.

Module Time.

(** [duration_cast] to milli- and microseconds, then [uint64_t]. *)
Definition get_current_time_ms (now : Z) : Z := u64 (Z.quot now 1000000).
Definition get_current_time_us (now : Z) : Z := u64 (Z.quot now 1000).
Definition get_current_time_ns (now : Z) : Z := u64 now.
Definition get_monotonic_time_ms (now : Z) : Z := u64 (Z.quot now 1000000).
Definition get_monotonic_time_us (now : Z) : Z := u64 (Z.quot now 1000).

(** [StopWatch]: the reading it was last reset at. *)
Definition stopwatch_reset (now : Z) : Z := now.
Definition elapsed_ms (now start_ : Z) : Z := u64 (Z.quot (now - start_) 1000000).
Definition elapsed_us (now start_ : Z) : Z := u64 (Z.quot (now - start_) 1000).
Definition elapsed_ns (now start_ : Z) : Z := u64 (now - start_).

(** [TimeoutChecker]. *)
Record t := mk { timeout_ms_ : Z; start_time_ms_ : Z }.
Definition create (timeout_ms now : Z) : t := mk timeout_ms (get_monotonic_time_ms now).
Definition remaining_ms (now : Z) (c : t) : Z :=
  let elapsed := u64 (get_monotonic_time_ms now - start_time_ms_ c) in
  if timeout_ms_ c <=? elapsed then 0 else u64 (timeout_ms_ c - elapsed).
Definition is_timeout (now : Z) (c : t) : bool := remaining_ms now c =? 0.
Definition reset (now : Z) (c : t) : t := mk (timeout_ms_ c) (get_monotonic_time_ms now).
Definition reset_to (new_timeout_ms now : Z) (c : t) : t := mk new_timeout_ms (get_monotonic_time_ms now).

Lemma ms_range now : 0 <= now < 2 ^ 64 -> get_monotonic_time_ms now = now / 1000000 /\ 0 <= now / 1000000 < 2 ^ 64.
Proof.
  intros Hn. unfold get_monotonic_time_ms, u64, wrap. rewrite Z.quot_div_nonneg by lia.
  assert (0 <= now / 1000000 < 2 ^ 64) by (split; [apply Z.div_pos; lia|apply Z.div_lt_upper_bound; lia]).
  by rewrite Z.mod_small.
Qed.

(** A timeout checker created (or reset) at [t0] reports, at a later
    reading of the monotonic clock, the milliseconds that are left, and a
    timeout exactly from the moment the whole delay has passed; a zero delay
    has passed at once. *)
Theorem timeout_checker_exact timeout_ms t0 t1 c :
  is_u64 timeout_ms -> 0 <= t0 <= t1 -> t1 < 2 ^ 64 ->
  c = create timeout_ms t0 \/ (exists c0, timeout_ms_ c0 = timeout_ms /\ c = reset t0 c0) \/
    (exists c0, c = reset_to timeout_ms t0 c0) ->
  remaining_ms t1 c = Z.max 0 (timeout_ms - (t1 / 1000000 - t0 / 1000000)) /\
  (is_timeout t1 c = true <-> timeout_ms <= t1 / 1000000 - t0 / 1000000).
Proof.
  unfold is_u64. intros Ht H0 H1 Hc.
  assert (c = mk timeout_ms (get_monotonic_time_ms t0)) as ->
    by (destruct Hc as [->|[(c0 & <- & ->)|(c0 & ->)]]; done).
  destruct (ms_range t0) as [E0 R0]; [lia|]. destruct (ms_range t1) as [E1 R1]; [lia|].
  assert (Hle : t0 / 1000000 <= t1 / 1000000) by (apply Z.div_le_mono; lia).
  assert (Hr : remaining_ms t1 (mk timeout_ms (get_monotonic_time_ms t0)) =
    Z.max 0 (timeout_ms - (t1 / 1000000 - t0 / 1000000))).
  { unfold remaining_ms. cbn [timeout_ms_ start_time_ms_]. rewrite E0, E1. unfold u64, wrap.
    rewrite Z.mod_small by lia. ifz; [lia|]. rewrite Z.mod_small by lia. lia. }
  split; [done|]. unfold is_timeout. rewrite Hr, Z.eqb_eq. lia.
Qed.

Lemma timeout_checker_exact_witness :
  remaining_ms 7999999 (create 10 3000000) = 6 /\ is_timeout 13000000 (create 10 3000000) = true.
Proof.
  split.
  - exact (proj1 (timeout_checker_exact 10 3000000 7999999 (create 10 3000000)
      ltac:(unfold is_u64; lia) ltac:(lia) ltac:(lia) (or_introl eq_refl))).
  - apply (timeout_checker_exact 10 3000000 13000000 (create 10 3000000)
      ltac:(unfold is_u64; lia) ltac:(lia) ltac:(lia) (or_introl eq_refl)). vm_compute. discriminate.
Defined.

End Time.
