(* ===== verification/UtilsConfig.v ===== *)
(** The configuration class of the utilities (utils/include/utils/config.hpp
    and utils/source/config.cpp), which the server does not use.

    It reads its settings with [get<T>()] and no check of their types: the
    library throws, and what was assigned before stays. The texts of the error
    messages are not modelled; the library's parser and printer are parameters. *)

From S2P Require Import Prelude StdMap Errors Config.
Open Scope Z_scope.

Module UtilsConfig.

Record ServerConfig := mkServer {
  listen_ip : bytes; listen_port : Z; tls_version : bytes; thread_count : Z; timeout_seconds : Z;
}.
Record CertificatesConfig := mkCertificates {
  cert_file : bytes; key_file : bytes; cert_type : bytes; cipher_suites : list bytes;
}.
Record DebugConfig := mkDebug { debug_enabled : bool; log_packets : bool }.
(** The unordered map is kept as the list of its pairs, sorted. *)
Record CallbacksConfig := mkCallbacks { strategy : bytes; port_mapping : list (bytes * bytes) }.
Record LoggingConfig := mkLogging { level : bytes; file : bytes; max_size_mb : Z; max_files : Z }.
Record Http2Config := mkHttp2 {
  http2_enabled : bool; max_concurrent_streams : Z; initial_window_size : Z;
}.

Record t := mk {
  server_ : ServerConfig;
  certificates_ : CertificatesConfig;
  debug_ : DebugConfig;
  callbacks_ : CallbacksConfig;
  logging_ : LoggingConfig;
  http2_ : Http2Config;
}.
Definition create : t :=
  mk (mkServer (str "0.0.0.0") 8443 (str "both") 5 30) (mkCertificates [] [] (str "international") [])
     (mkDebug false false) (mkCallbacks (str "port_based") []) (mkLogging (str "INFO") [] 100 10)
     (mkHttp2 true 100 65535).

(** * The library's conversions

    [Err 302] is its [type_error]. A boolean converts to a number. *)
Definition type_error : Z := 302.
Definition get_string (j : Json) : outcome bytes :=
  match j with JString s => Ok s | _ => Err type_error end.
Definition get_bool (j : Json) : outcome bool :=
  match j with JBool b => Ok b | _ => Err type_error end.
Definition get_uint (w : Z) (j : Json) : outcome Z :=
  match j with
  | JInt z => Ok (wrap w z)
  | JFloat n d => let q := Z.quot n (Z.pos d) in if (0 <=? q) && (q <? 2 ^ w) then Ok q else UB
  | JBool b => Ok (if b then 1 else 0)
  | _ => Err type_error
  end.
Fixpoint get_all {A B} (get : A -> outcome B) (l : list A) : outcome (list B) :=
  match l with
  | [] => Ok []
  | j :: r => obind (get j) (fun x => obind (get_all get r) (fun xs : list B => Ok (x :: xs)))
  end.
Definition get_strings (j : Json) : outcome (list bytes) :=
  match j with JArray l => get_all get_string l | _ => Err type_error end.
Definition get_map (j : Json) : outcome (list (bytes * bytes)) :=
  match j with
  | JObject m => get_all (fun p => obind (get_string p.2) (fun v => Ok (p.1, v))) m
  | _ => Err type_error
  end.

(** * Loading

    A step changes a structure and says whether it completed ([false]: an
    exception left it); [None] is undefined behaviour. *)
Definition step (S : Type) : Type := S -> option (S * bool).
Definition seq {S} (a b : step S) : step S :=
  fun s =>
    match a s with
    | Some (s1, true) => b s1
    | r => r
    end.
(** [if (j.contains(k)) field = j[k].get<A>();] *)
Definition assign {S A} (k : bytes) (get : Json -> outcome A) (set : A -> S -> S) (j : Json) : step S :=
  fun s =>
    match member k j with
    | None => Some (s, true)
    | Some v => match get v with Ok x => Some (set x s, true) | Err _ => Some (s, false) | UB => None end
    end.
(** The steps of the section [k], on the part of the configuration it fills. *)
Definition section {S} (k : bytes) (part : t -> S) (update : S -> t -> t) (body : Json -> step S) (j : Json) : step t :=
  fun c =>
    match member k j with
    | None => Some (c, true)
    | Some v => match body v (part c) with Some (p, ok) => Some (update p c, ok) | None => None end
    end.

Definition load_server (j : Json) : step ServerConfig :=
  seq (assign (str "listen_ip") get_string (fun x s => mkServer x (listen_port s) (tls_version s) (thread_count s) (timeout_seconds s)) j)
  (seq (assign (str "listen_port") (get_uint 16) (fun x s => mkServer (listen_ip s) x (tls_version s) (thread_count s) (timeout_seconds s)) j)
  (seq (assign (str "tls_version") get_string (fun x s => mkServer (listen_ip s) (listen_port s) x (thread_count s) (timeout_seconds s)) j)
  (seq (assign (str "thread_count") (get_uint 32) (fun x s => mkServer (listen_ip s) (listen_port s) (tls_version s) x (timeout_seconds s)) j)
       (assign (str "timeout_seconds") (get_uint 32) (fun x s => mkServer (listen_ip s) (listen_port s) (tls_version s) (thread_count s) x) j)))).
Definition load_certificates (j : Json) : step CertificatesConfig :=
  seq (assign (str "cert_file") get_string (fun x s => mkCertificates x (key_file s) (cert_type s) (cipher_suites s)) j)
  (seq (assign (str "key_file") get_string (fun x s => mkCertificates (cert_file s) x (cert_type s) (cipher_suites s)) j)
  (seq (assign (str "cert_type") get_string (fun x s => mkCertificates (cert_file s) (key_file s) x (cipher_suites s)) j)
       (assign (str "cipher_suites") get_strings (fun x s => mkCertificates (cert_file s) (key_file s) (cert_type s) x) j))).
Definition load_debug (j : Json) : step DebugConfig :=
  seq (assign (str "enabled") get_bool (fun x s => mkDebug x (log_packets s)) j)
      (assign (str "log_packets") get_bool (fun x s => mkDebug (debug_enabled s) x) j).
Definition load_callbacks (j : Json) : step CallbacksConfig :=
  seq (assign (str "strategy") get_string (fun x s => mkCallbacks x (port_mapping s)) j)
      (assign (str "port_mapping") get_map (fun x s => mkCallbacks (strategy s) x) j).
Definition load_logging (j : Json) : step LoggingConfig :=
  seq (assign (str "level") get_string (fun x s => mkLogging x (file s) (max_size_mb s) (max_files s)) j)
  (seq (assign (str "file") get_string (fun x s => mkLogging (level s) x (max_size_mb s) (max_files s)) j)
  (seq (assign (str "max_size_mb") (get_uint 32) (fun x s => mkLogging (level s) (file s) x (max_files s)) j)
       (assign (str "max_files") (get_uint 32) (fun x s => mkLogging (level s) (file s) (max_size_mb s) x) j))).
Definition load_http2 (j : Json) : step Http2Config :=
  seq (assign (str "enabled") get_bool (fun x s => mkHttp2 x (max_concurrent_streams s) (initial_window_size s)) j)
  (seq (assign (str "max_concurrent_streams") (get_uint 32) (fun x s => mkHttp2 (http2_enabled s) x (initial_window_size s)) j)
       (assign (str "initial_window_size") (get_uint 32) (fun x s => mkHttp2 (http2_enabled s) (max_concurrent_streams s) x) j)).

(** The body of the [try] block of [parse_json_to_config]. *)
Definition load_sections (j : Json) : step t :=
  seq (section (str "server") server_ (fun p c => mk p (certificates_ c) (debug_ c) (callbacks_ c) (logging_ c) (http2_ c)) load_server j)
  (seq (section (str "certificates") certificates_ (fun p c => mk (server_ c) p (debug_ c) (callbacks_ c) (logging_ c) (http2_ c)) load_certificates j)
  (seq (section (str "debug") debug_ (fun p c => mk (server_ c) (certificates_ c) p (callbacks_ c) (logging_ c) (http2_ c)) load_debug j)
  (seq (section (str "callbacks") callbacks_ (fun p c => mk (server_ c) (certificates_ c) (debug_ c) p (logging_ c) (http2_ c)) load_callbacks j)
  (seq (section (str "logging") logging_ (fun p c => mk (server_ c) (certificates_ c) (debug_ c) (callbacks_ c) p (http2_ c)) load_logging j)
       (section (str "http2") http2_ (fun p c => mk (server_ c) (certificates_ c) (debug_ c) (callbacks_ c) (logging_ c) p) load_http2 j))))).

Definition parse_json_to_config (j : Json) (c : t) : option (t * Error.ErrorCode) :=
  match load_sections j c with
  | Some (c', ok) => Some (c', if ok then Error.SUCCESS else Error.CONFIG_INVALID_VALUE)
  | None => None
  end.

(** What the library's parser does with a text. *)
Inductive parsed := Parsed (j : Json) | ParseError | OtherException.

Section Load.
(** [json::parse] wants the whole text to be one value; [file >> j] reads one
    value and leaves the rest of the file. *)
Variables parse read : bytes -> parsed.

Definition load_parsed (r : parsed) (c : t) : option (t * Error.ErrorCode) :=
  match r with
  | Parsed j => parse_json_to_config j c
  | ParseError => Some (c, Error.CONFIG_PARSE_ERROR)
  | OtherException => Some (c, Error.OPERATION_FAILED)
  end.
Definition load_from_string (json_str : bytes) : t -> option (t * Error.ErrorCode) := load_parsed (parse json_str).
(** [content]: what the file holds, [None] if it cannot be opened. *)
Definition load_from_file (content : option bytes) (c : t) : option (t * Error.ErrorCode) :=
  match content with
  | None => Some (c, Error.FILE_NOT_FOUND)
  | Some s => load_parsed (read s) c
  end.
End Load.

Definition validate (c : t) : Error.ErrorCode :=
  if (listen_port (server_ c) =? 0) || (65535 <? listen_port (server_ c)) then Error.CONFIG_INVALID_PORT
  else if (thread_count (server_ c) =? 0) || (1024 <? thread_count (server_ c)) then Error.CONFIG_INVALID_THREAD_COUNT
  else if negb (bool_decide (level (logging_ c) = str "DEBUG")) && negb (bool_decide (level (logging_ c) = str "INFO")) &&
          negb (bool_decide (level (logging_ c) = str "WARN")) && negb (bool_decide (level (logging_ c) = str "ERROR"))
  then Error.CONFIG_INVALID_LOG_LEVEL
  else Error.SUCCESS.

(** The value [to_json_string] builds: the library keeps the members sorted. *)
Definition server_json (c : ServerConfig) : Json :=
  JObject
    [(str "listen_ip", JString (listen_ip c)); (str "listen_port", JInt (listen_port c));
     (str "thread_count", JInt (thread_count c)); (str "timeout_seconds", JInt (timeout_seconds c));
     (str "tls_version", JString (tls_version c))].
Definition certificates_json (c : CertificatesConfig) : Json :=
  JObject
    [(str "cert_file", JString (cert_file c)); (str "cert_type", JString (cert_type c));
     (str "cipher_suites", JArray (map JString (cipher_suites c))); (str "key_file", JString (key_file c))].
Definition debug_json (c : DebugConfig) : Json :=
  JObject [(str "enabled", JBool (debug_enabled c)); (str "log_packets", JBool (log_packets c))].
Definition callbacks_json (c : CallbacksConfig) : Json :=
  JObject
    [(str "port_mapping", JObject (map (fun p => (p.1, JString p.2)) (port_mapping c)));
     (str "strategy", JString (strategy c))].
Definition logging_json (c : LoggingConfig) : Json :=
  JObject
    [(str "file", JString (file c)); (str "level", JString (level c)); (str "max_files", JInt (max_files c));
     (str "max_size_mb", JInt (max_size_mb c))].
Definition http2_json (c : Http2Config) : Json :=
  JObject
    [(str "enabled", JBool (http2_enabled c)); (str "initial_window_size", JInt (initial_window_size c));
     (str "max_concurrent_streams", JInt (max_concurrent_streams c))].
Definition to_json (c : t) : Json :=
  JObject
    [(str "callbacks", callbacks_json (callbacks_ c)); (str "certificates", certificates_json (certificates_ c));
     (str "debug", debug_json (debug_ c)); (str "http2", http2_json (http2_ c));
     (str "logging", logging_json (logging_ c)); (str "server", server_json (server_ c))].

(** [dump] fails on text that is not UTF-8. *)
Definition to_json_string (dump : Json -> option bytes) (c : t) : Error.Result bytes :=
  match dump (to_json c) with
  | Some s => Error.make_ok s
  | None => Error.make_err [] (Error.value Error.OPERATION_FAILED)
              (str "Failed to serialize config to JSON")
  end.

(** The ranges of the fields' types. *)
Record wf (c : t) : Prop := {
  wf_port : is_u16 (listen_port (server_ c));
  wf_server : is_u32 (thread_count (server_ c)) /\ is_u32 (timeout_seconds (server_ c));
  wf_logging : is_u32 (max_size_mb (logging_ c)) /\ is_u32 (max_files (logging_ c));
  wf_http2 : is_u32 (max_concurrent_streams (http2_ c)) /\ is_u32 (initial_window_size (http2_ c));
}.

(** * Round trip *)

Lemma seq_ok {S} (a b : step S) s s1 : a s = Some (s1, true) -> seq a b s = b s1.
Proof. intros H. unfold seq. by rewrite H. Qed.

Lemma assign_ok {S A} k (get : Json -> outcome A) set j v x (s : S) :
  member k j = Some v -> get v = Ok x -> assign k get set j s = Some (set x s, true).
Proof. intros Hm Hg. unfold assign. by rewrite Hm, Hg. Qed.

Lemma section_ok {S} k part update (body : Json -> step S) j v p c :
  member k j = Some v -> body v (part c) = Some (p, true) -> section k part update body j c = Some (update p c, true).
Proof. intros Hm Hb. unfold section. by rewrite Hm, Hb. Qed.

Lemma get_all_ok {A B} (get : A -> outcome B) (f : B -> A) l :
  (forall x, get (f x) = Ok x) -> get_all get (map f l) = Ok l.
Proof. intros H. induction l as [|x l IH]; cbn; [done|]. rewrite H. cbn. by rewrite IH. Qed.

Lemma get_uint_ok w z : 0 <= z < 2 ^ w -> get_uint w (JInt z) = Ok z.
Proof. intros H. cbn. unfold wrap. by rewrite Z.mod_small. Qed.

Lemma get_strings_ok l : get_strings (JArray (map JString l)) = Ok l.
Proof. by apply get_all_ok. Qed.

Lemma get_map_ok m : get_map (JObject (map (fun p => (p.1, JString p.2)) m)) = Ok m.
Proof. apply get_all_ok. by intros []. Qed.

(** Run the assignments of a section whose members are all there. *)
Ltac run_fields :=
  repeat (erewrite seq_ok; [|eapply assign_ok; [reflexivity|first [apply get_uint_ok; eassumption|reflexivity
    |apply get_strings_ok|apply get_map_ok]]]);
  (eapply eq_trans; [eapply assign_ok; [reflexivity|first [apply get_uint_ok; eassumption|reflexivity
    |apply get_strings_ok|apply get_map_ok]]|]).

Lemma load_server_json c s :
  is_u16 (listen_port c) -> is_u32 (thread_count c) -> is_u32 (timeout_seconds c) ->
  load_server (server_json c) s = Some (c, true).
Proof. destruct c. unfold is_u16, is_u32, load_server. cbn [listen_port thread_count timeout_seconds]. intros. by run_fields. Qed.

Lemma load_certificates_json c s : load_certificates (certificates_json c) s = Some (c, true).
Proof. destruct c. unfold load_certificates. by run_fields. Qed.

Lemma load_debug_json c s : load_debug (debug_json c) s = Some (c, true).
Proof. destruct c. unfold load_debug. by run_fields. Qed.

Lemma load_callbacks_json c s : load_callbacks (callbacks_json c) s = Some (c, true).
Proof. destruct c. unfold load_callbacks. by run_fields. Qed.

Lemma load_logging_json c s :
  is_u32 (max_size_mb c) -> is_u32 (max_files c) -> load_logging (logging_json c) s = Some (c, true).
Proof. destruct c. unfold is_u32, load_logging. cbn [max_size_mb max_files]. intros. by run_fields. Qed.

Lemma load_http2_json c s :
  is_u32 (max_concurrent_streams c) -> is_u32 (initial_window_size c) -> load_http2 (http2_json c) s = Some (c, true).
Proof. destruct c. unfold is_u32, load_http2. cbn [max_concurrent_streams initial_window_size]. intros. by run_fields. Qed.

Lemma load_sections_to_json c c0 : wf c -> load_sections (to_json c) c0 = Some (c, true).
Proof.
  intros [Hp [Ht Hs] [Hm Hf] [Hc Hw]]. unfold load_sections.
  erewrite seq_ok by (eapply section_ok; [reflexivity|by apply load_server_json]).
  erewrite seq_ok by (eapply section_ok; [reflexivity|apply load_certificates_json]).
  erewrite seq_ok by (eapply section_ok; [reflexivity|apply load_debug_json]).
  erewrite seq_ok by (eapply section_ok; [reflexivity|apply load_callbacks_json]).
  erewrite seq_ok by (eapply section_ok; [reflexivity|by apply load_logging_json]).
  erewrite section_ok; [|reflexivity|by apply load_http2_json].
  by destruct c.
Qed.

(** Export and load. If the library prints the exported value and parses
    the text back to it, then loading that text, as a string or from a file and
    whatever was loaded before, succeeds and gives the configuration that was
    exported. *)
Theorem utils_config_roundtrip dump parse read c c0 s :
  wf c -> dump (to_json c) = Some s -> parse s = Parsed (to_json c) -> read s = Parsed (to_json c) ->
  Error.value_or (to_json_string dump c) [] = s /\ Error.is_ok (to_json_string dump c) = true /\
  load_from_string parse s c0 = Some (c, Error.SUCCESS) /\
  load_from_file read (Some s) c0 = Some (c, Error.SUCCESS).
Proof.
  intros Hw Hd Hp Hr. unfold to_json_string. rewrite Hd. do 2 (split; [done|]).
  unfold load_from_file, load_from_string, load_parsed, parse_json_to_config. rewrite Hp, Hr.
  by rewrite load_sections_to_json.
Qed.

Lemma create_config_wf : wf create.
Proof. split; cbn; by vm_compute. Qed.

Lemma utils_config_roundtrip_witness :
  load_from_string (fun _ => Parsed (to_json create)) (str "x")
    (mk (server_ create) (certificates_ create) (mkDebug true true) (callbacks_ create) (logging_ create)
       (http2_ create)) = Some (create, Error.SUCCESS).
Proof.
  exact (proj1 (proj2 (proj2 (utils_config_roundtrip (fun _ => Some (str "x")) (fun _ => Parsed (to_json create))
    (fun _ => Parsed (to_json create)) create
    (mk (server_ create) (certificates_ create) (mkDebug true true) (callbacks_ create) (logging_ create)
       (http2_ create)) (str "x") create_config_wf eq_refl eq_refl eq_refl)))).
Defined.

(** * Loading anything *)

(** A step keeps a property, whether it completes or not. *)
Definition keeps {S} (P : S -> Prop) (a : step S) : Prop :=
  forall s s' ok, P s -> a s = Some (s', ok) -> P s'.

Lemma seq_keeps {S} (P : S -> Prop) a b : keeps P a -> keeps P b -> keeps P (seq a b).
Proof.
  intros Ha Hb s s' ok Hs. unfold seq. destruct (a s) as [[s1 [|]]|] eqn:E; [| |done].
  - apply Hb. by eapply Ha.
  - intros [= <- <-]. by eapply Ha.
Qed.

Lemma assign_keeps {S A} (P : S -> Prop) k (get : Json -> outcome A) set j :
  (forall v x s, get v = Ok x -> P s -> P (set x s)) -> keeps P (assign k get set j).
Proof.
  intros Hset s s' ok Hs. unfold assign. destruct (member k j) as [v|]; [|by intros [= <- _]].
  destruct (get v) as [x| |] eqn:E; [|by intros [= <- _]|done]. intros [= <- _]. by eapply Hset.
Qed.

Lemma section_keeps {S} (P : t -> Prop) (Q : S -> Prop) k part update body j :
  (forall v, keeps Q (body v)) -> (forall c, P c -> Q (part c)) -> (forall p c, Q p -> P c -> P (update p c)) ->
  keeps P (section k part update body j).
Proof.
  intros Hb Hp Hu c c' ok Hc. unfold section. destruct (member k j) as [v|]; [|by intros [= <- _]].
  destruct (body v (part c)) as [[p ok']|] eqn:E; [|done]. intros [= <- _]. apply Hu; [|done].
  eapply Hb; [by apply Hp|exact E].
Qed.

Lemma get_uint_range w j x : 0 < w -> get_uint w j = Ok x -> 0 <= x < 2 ^ w.
Proof.
  intros Hw. assert (2 ^ 1 <= 2 ^ w) by (apply Z.pow_le_mono_r; lia).
  destruct j as [|[|]| | | | |]; cbn; try done; try (intros [= <-]; lia).
  - intros [= <-]. unfold wrap. apply Z.mod_pos_bound. lia.
  - destruct ((0 <=? _) && (_ <? 2 ^ w)) eqn:E; zb; [|done]. intros [= <-]. lia.
Qed.

Lemma load_sections_wf j : keeps wf (load_sections j).
Proof.
  assert (Hu : forall w v x, 0 < w -> get_uint w v = Ok x -> 0 <= x < 2 ^ w) by (intros; by eapply get_uint_range).
  unfold load_sections. repeat apply seq_keeps.
  - apply (section_keeps _ (fun p => is_u16 (listen_port p) /\ is_u32 (thread_count p) /\ is_u32 (timeout_seconds p))).
    + intros v. unfold load_server. repeat apply seq_keeps; apply assign_keeps; intros y x s Hx Hs; cbn; try tauto;
        apply Hu in Hx; unfold is_u16, is_u32 in *; tauto || lia.
    + by intros c [? [? ?] _ _].
    + intros p c (? & ? & ?) [_ _ ? ?]. by split.
  - apply (section_keeps _ (fun _ => True)); [by intros; intros ?|done|]. intros p c _ [? ? ? ?]. by split.
  - apply (section_keeps _ (fun _ => True)); [by intros; intros ?|done|]. intros p c _ [? ? ? ?]. by split.
  - apply (section_keeps _ (fun _ => True)); [by intros; intros ?|done|]. intros p c _ [? ? ? ?]. by split.
  - apply (section_keeps _ (fun p => is_u32 (max_size_mb p) /\ is_u32 (max_files p))).
    + intros v. unfold load_logging. repeat apply seq_keeps; apply assign_keeps; intros y x s Hx Hs; cbn; try tauto;
        apply Hu in Hx; unfold is_u32 in *; tauto || lia.
    + by intros c [_ _ ? _].
    + intros p c ? [? ? _ ?]. by split.
  - apply (section_keeps _ (fun p => is_u32 (max_concurrent_streams p) /\ is_u32 (initial_window_size p))).
    + intros v. unfold load_http2. repeat apply seq_keeps; apply assign_keeps; intros y x s Hx Hs; cbn; try tauto;
        apply Hu in Hx; unfold is_u32 in *; tauto || lia.
    + by intros c [_ _ _ ?].
    + intros p c ? [? ? ? _]. by split.
Qed.

Lemma validate_spec c :
  wf c ->
  (validate c = Error.SUCCESS <->
     1 <= listen_port (server_ c) <= 65535 /\ 1 <= thread_count (server_ c) <= 1024 /\
     level (logging_ c) ∈ [str "DEBUG"; str "INFO"; str "WARN"; str "ERROR"]).
Proof.
  intros [Hp [Ht _] _ _]. unfold is_u16, is_u32, validate in *. rewrite !elem_of_cons, elem_of_nil.
  ifz; [split; [done|lia]|]. ifz; [split; [done|lia]|].
  repeat case_bool_decide; cbn [negb andb]; (split; [intros ?; split_and!; try lia; try tauto; done|]); try done.
  intros (_ & _ & ?). tauto.
Qed.

(** ** The settings, independently of the code that loads them *)

Inductive kind := Text | Flag | Number (w : Z) | Texts | TextMap.
(** Of the kind; of another JSON type; a fraction that does not fit the field. *)
Inductive verdict := Fits | WrongType | Unconvertible.

Definition is_text (v : Json) : bool := match v with JString _ => true | _ => false end.
Definition judge (k : kind) (v : Json) : verdict :=
  match k, v with
  | Text, JString _ => Fits
  | Flag, JBool _ => Fits
  | Number _, JInt _ => Fits
  | Number _, JBool _ => Fits
  | Number w, JFloat n d =>
      if bool_decide (0 <= Z.quot n (Z.pos d) < 2 ^ w) then Fits else Unconvertible
  | Texts, JArray l => if forallb is_text l then Fits else WrongType
  | TextMap, JObject m => if forallb (fun p => is_text p.2) m then Fits else WrongType
  | _, _ => WrongType
  end.

(** What a value of the right kind is read as. *)
Definition text (v : Json) : bytes := match v with JString s => s | _ => [] end.
Definition flag (v : Json) : bool := match v with JBool b => b | _ => false end.
Definition number (w : Z) (v : Json) : Z :=
  match v with
  | JInt z => z mod 2 ^ w | JFloat n d => Z.quot n (Z.pos d) | JBool true => 1 | _ => 0
  end.
Definition texts (v : Json) : list bytes := match v with JArray l => map text l | _ => [] end.
Definition text_map (v : Json) : list (bytes * bytes) :=
  match v with JObject m => map (fun p => (p.1, text p.2)) m | _ => [] end.

(** The member [st_key] of the section [st_section], its kind, and the field it
    goes to. *)
Record setting := mkSetting { st_section : bytes; st_key : bytes; st_kind : kind; st_put : Json -> t -> t }.
Definition on_server f (c : t) : t := mk (f (server_ c)) (certificates_ c) (debug_ c) (callbacks_ c) (logging_ c) (http2_ c).
Definition on_certificates f (c : t) : t := mk (server_ c) (f (certificates_ c)) (debug_ c) (callbacks_ c) (logging_ c) (http2_ c).
Definition on_debug f (c : t) : t := mk (server_ c) (certificates_ c) (f (debug_ c)) (callbacks_ c) (logging_ c) (http2_ c).
Definition on_callbacks f (c : t) : t := mk (server_ c) (certificates_ c) (debug_ c) (f (callbacks_ c)) (logging_ c) (http2_ c).
Definition on_logging f (c : t) : t := mk (server_ c) (certificates_ c) (debug_ c) (callbacks_ c) (f (logging_ c)) (http2_ c).
Definition on_http2 f (c : t) : t := mk (server_ c) (certificates_ c) (debug_ c) (callbacks_ c) (logging_ c) (f (http2_ c)).

Definition server_settings : list setting :=
  [mkSetting (str "server") (str "listen_ip") Text (fun v => on_server (fun s => mkServer (text v) (listen_port s) (tls_version s) (thread_count s) (timeout_seconds s)));
   mkSetting (str "server") (str "listen_port") (Number 16) (fun v => on_server (fun s => mkServer (listen_ip s) (number 16 v) (tls_version s) (thread_count s) (timeout_seconds s)));
   mkSetting (str "server") (str "tls_version") Text (fun v => on_server (fun s => mkServer (listen_ip s) (listen_port s) (text v) (thread_count s) (timeout_seconds s)));
   mkSetting (str "server") (str "thread_count") (Number 32) (fun v => on_server (fun s => mkServer (listen_ip s) (listen_port s) (tls_version s) (number 32 v) (timeout_seconds s)));
   mkSetting (str "server") (str "timeout_seconds") (Number 32) (fun v => on_server (fun s => mkServer (listen_ip s) (listen_port s) (tls_version s) (thread_count s) (number 32 v)))].
Definition certificates_settings : list setting :=
  [mkSetting (str "certificates") (str "cert_file") Text (fun v => on_certificates (fun s => mkCertificates (text v) (key_file s) (cert_type s) (cipher_suites s)));
   mkSetting (str "certificates") (str "key_file") Text (fun v => on_certificates (fun s => mkCertificates (cert_file s) (text v) (cert_type s) (cipher_suites s)));
   mkSetting (str "certificates") (str "cert_type") Text (fun v => on_certificates (fun s => mkCertificates (cert_file s) (key_file s) (text v) (cipher_suites s)));
   mkSetting (str "certificates") (str "cipher_suites") Texts (fun v => on_certificates (fun s => mkCertificates (cert_file s) (key_file s) (cert_type s) (texts v)))].
Definition debug_settings : list setting :=
  [mkSetting (str "debug") (str "enabled") Flag (fun v => on_debug (fun s => mkDebug (flag v) (log_packets s)));
   mkSetting (str "debug") (str "log_packets") Flag (fun v => on_debug (fun s => mkDebug (debug_enabled s) (flag v)))].
Definition callbacks_settings : list setting :=
  [mkSetting (str "callbacks") (str "strategy") Text (fun v => on_callbacks (fun s => mkCallbacks (text v) (port_mapping s)));
   mkSetting (str "callbacks") (str "port_mapping") TextMap (fun v => on_callbacks (fun s => mkCallbacks (strategy s) (text_map v)))].
Definition logging_settings : list setting :=
  [mkSetting (str "logging") (str "level") Text (fun v => on_logging (fun s => mkLogging (text v) (file s) (max_size_mb s) (max_files s)));
   mkSetting (str "logging") (str "file") Text (fun v => on_logging (fun s => mkLogging (level s) (text v) (max_size_mb s) (max_files s)));
   mkSetting (str "logging") (str "max_size_mb") (Number 32) (fun v => on_logging (fun s => mkLogging (level s) (file s) (number 32 v) (max_files s)));
   mkSetting (str "logging") (str "max_files") (Number 32) (fun v => on_logging (fun s => mkLogging (level s) (file s) (max_size_mb s) (number 32 v)))].
Definition http2_settings : list setting :=
  [mkSetting (str "http2") (str "enabled") Flag (fun v => on_http2 (fun s => mkHttp2 (flag v) (max_concurrent_streams s) (initial_window_size s)));
   mkSetting (str "http2") (str "max_concurrent_streams") (Number 32) (fun v => on_http2 (fun s => mkHttp2 (http2_enabled s) (number 32 v) (initial_window_size s)));
   mkSetting (str "http2") (str "initial_window_size") (Number 32) (fun v => on_http2 (fun s => mkHttp2 (http2_enabled s) (max_concurrent_streams s) (number 32 v)))].
(** In the order in which they are read. *)
Definition settings : list setting :=
  server_settings ++ certificates_settings ++ debug_settings ++ callbacks_settings ++ logging_settings ++ http2_settings.

(** The value the file gives for a setting. *)
Definition given (j : Json) (x : setting) : option Json := member (st_section x) j ≫= member (st_key x).

(** [c'] is [c] with the settings of [l] that the file gives, all of the right
    kind, put in one after the other. *)
Inductive assigned (j : Json) : list setting -> t -> t -> Prop :=
| as_nil c : assigned j [] c c
| as_absent x l c c' : given j x = None -> assigned j l c c' -> assigned j (x :: l) c c'
| as_given x l v c c' : given j x = Some v -> judge (st_kind x) v = Fits ->
    assigned j l (st_put x v c) c' -> assigned j (x :: l) c c'.

(** All of [l] is read, or all that precedes a value that is not of its kind. *)
Definition loads (j : Json) (l : list setting) (c : t) (r : option (t * bool)) : Prop :=
  (exists c', assigned j l c c' /\ r = Some (c', true)) \/
  exists l1 x l2 v c', l = l1 ++ x :: l2 /\ assigned j l1 c c' /\ given j x = Some v /\
    (judge (st_kind x) v = WrongType /\ r = Some (c', false) \/ judge (st_kind x) v = Unconvertible /\ r = None).
Definition implements (j : Json) (l : list setting) (a : step t) : Prop := forall c, loads j l c (a c).

Lemma assigned_app j l1 l2 c c1 c2 : assigned j l1 c c1 -> assigned j l2 c1 c2 -> assigned j (l1 ++ l2) c c2.
Proof. induction 1; cbn; eauto using assigned. Qed.

Lemma implements_seq j l1 l2 a b : implements j l1 a -> implements j l2 b -> implements j (l1 ++ l2) (seq a b).
Proof.
  intros Ha Hb c. unfold seq. destruct (Ha c) as [(c1 & H1 & ->)|(k1 & x & k2 & v & c1 & -> & H1 & Hg & Hv)].
  - destruct (Hb c1) as [(c2 & H2 & ->)|(k1 & x & k2 & v & c2 & -> & H2 & Hg & Hv)].
    + left. exists c2. split; [by eapply assigned_app|done].
    + right. exists (l1 ++ k1), x, k2, v, c2. rewrite <- app_assoc. split_and!; [done|by eapply assigned_app|done..].
  - right. exists k1, x, (k2 ++ l2), v, c1. rewrite <- app_assoc. split_and!; [done..|].
    by destruct Hv as [[? ->]|[? ->]]; [left|right].
Qed.

(** A conversion of the library against what is read and what is judged. *)
Definition reads {A} (k : kind) (get : Json -> outcome A) (conv : Json -> A) : Prop :=
  forall v, match judge k v with
    | Fits => get v = Ok (conv v) | WrongType => exists e, get v = Err e | Unconvertible => get v = UB end.

Lemma reads_text : reads Text get_string text.
Proof. intros []; cbn; eauto. Qed.
Lemma reads_flag : reads Flag get_bool flag.
Proof. intros []; cbn; eauto. Qed.
Lemma reads_number w : reads (Number w) (get_uint w) (number w).
Proof.
  intros [|[]|z|n d| | |]; cbn; eauto. case_bool_decide as Hd; destruct (_ && _)%bool eqn:E; try done; exfalso.
  - apply not_true_iff_false in E. apply E. zb. lia.
  - apply Hd. zb. lia.
Qed.

Lemma get_all_reads {A B} (get : A -> outcome B) (conv : A -> B) (ok : A -> bool) l :
  (forall x, if ok x then get x = Ok (conv x) else exists e, get x = Err e) ->
  if forallb ok l then get_all get l = Ok (map conv l) else exists e, get_all get l = Err e.
Proof.
  intros H. induction l as [|x l IH]; cbn; [done|]. specialize (H x). destruct (ok x); cbn.
  - rewrite H. cbn. destruct (forallb ok l); [by rewrite IH|]. destruct IH as [e ->]. by exists e.
  - destruct H as [e ->]. by exists e.
Qed.

Lemma reads_texts : reads Texts get_strings texts.
Proof.
  intros [| | | | |l|]; cbn; eauto. pose proof (get_all_reads get_string text is_text l) as H.
  destruct (forallb is_text l); apply H; intros []; cbn; eauto.
Qed.
Lemma reads_map : reads TextMap get_map text_map.
Proof.
  intros [| | | | | |m]; cbn; eauto.
  pose proof (get_all_reads (fun p => obind (get_string p.2) (fun v => Ok (p.1, v))) (fun p => (p.1, text p.2))
    (fun p => is_text p.2) m) as H.
  destruct (forallb _ m); apply H; intros [k []]; cbn; eauto.
Qed.

Section Fields.
Context {S : Type} (k : bytes) (part : t -> S) (update : S -> t -> t) (j : Json).
Hypotheses (part_update : forall p c, part (update p c) = p)
  (update_part : forall c, update (part c) c = c)
  (update_update : forall p p' c, update p (update p' c) = update p c).

(** One setting. *)
Lemma implements_assign {A} key kd (get : Json -> outcome A) conv set put :
  reads kd get conv -> (forall v c, put v c = update (set (conv v) (part c)) c) ->
  implements j [mkSetting k key kd put]
    (section k part update (assign key get set) j).
Proof.
  intros Hr Hput c. unfold loads, section, assign. destruct (member k j) as [s|] eqn:Es.
  2: { left. exists c. split; [|done]. apply as_absent; [by unfold given; cbn; rewrite Es|constructor]. }
  destruct (member key s) as [v|] eqn:Ev.
  2: { left. exists c. rewrite update_part. split; [|done]. apply as_absent; [by unfold given; cbn; rewrite Es|constructor]. }
  assert (Hg : given j (mkSetting k key kd put) = Some v)
    by (unfold given; cbn; by rewrite Es).
  specialize (Hr v). destruct (judge kd v) eqn:Ej.
  - left. rewrite Hr. eexists. split; [|reflexivity]. rewrite <- Hput. eapply as_given; [done|done|constructor].
  - right. destruct Hr as [e ->]. exists [], (mkSetting k key kd put), [], v, c.
    rewrite update_part. split_and!; [done|constructor|done|by left].
  - right. rewrite Hr. exists [], (mkSetting k key kd put), [], v, c.
    split_and!; [done|constructor|done|by right].
Qed.

(** A section is the sequence of its settings. *)
Lemma section_seq a b c :
  section k part update (fun v => seq (a v) (b v)) j c =
  seq (section k part update a j) (section k part update b j) c.
Proof.
  unfold section, seq. destruct (member k j) as [v|]; [|done].
  destruct (a v (part c)) as [[p [|]]|]; [|done..]. rewrite part_update.
  destruct (b v p) as [[p' ok]|]; [|done]. by rewrite update_update.
Qed.

Lemma implements_fields x l a b :
  implements j [x] (section k part update a j) -> implements j l (section k part update b j) ->
  implements j (x :: l) (section k part update (fun v => seq (a v) (b v)) j).
Proof. intros Ha Hb c. rewrite section_seq. by apply (implements_seq j [x] l). Qed.
End Fields.

Ltac run_reads := first [apply reads_text|apply reads_flag|apply reads_number|apply reads_texts|apply reads_map].
Ltac run_section :=
  repeat (apply implements_fields; [done|done|eapply implements_assign; [by intros []|run_reads|done]|]);
  eapply implements_assign; [by intros []|run_reads|done].

Lemma load_sections_loads j : implements j settings (load_sections j).
Proof.
  unfold load_sections, settings. repeat apply implements_seq.
  all: unfold server_settings, load_server, certificates_settings, load_certificates, debug_settings, load_debug,
    callbacks_settings, load_callbacks, logging_settings, load_logging, http2_settings, load_http2; run_section.
Qed.

(** C40. What a load does, in every case. A file that cannot be opened gives
    [FILE_NOT_FOUND], a text that is not JSON [CONFIG_PARSE_ERROR], any other
    exception of the parser [OPERATION_FAILED]; the configuration is then
    unchanged. Otherwise the settings the file gives ([settings] lists all of
    them in the order they are read) are put in one after the other up to the
    first whose value is not of its kind. If there is none the result is
    [SUCCESS]. If that value has the wrong JSON type the result is
    [CONFIG_INVALID_VALUE], and the settings before it are kept, the later ones
    not read. If it is a fraction that does not fit the field's type the load is
    undefined. The numbers stay in the ranges of their types in every case, and
    [validate] accepts exactly a non-zero port, 1 to 1024 threads and one of the
    four level names. *)
Theorem utils_config_load read content c : wf c ->
  match content with
  | None => load_from_file read content c = Some (c, Error.FILE_NOT_FOUND)
  | Some s =>
      match read s with
      | ParseError => load_from_file read content c = Some (c, Error.CONFIG_PARSE_ERROR)
      | OtherException => load_from_file read content c = Some (c, Error.OPERATION_FAILED)
      | Parsed j =>
          (exists c', assigned j settings c c' /\ load_from_file read content c = Some (c', Error.SUCCESS)) \/
          exists before x after v c', settings = before ++ x :: after /\
            assigned j before c c' /\ given j x = Some v /\
            (judge (st_kind x) v = WrongType /\
               load_from_file read content c = Some (c', Error.CONFIG_INVALID_VALUE) \/
             judge (st_kind x) v = Unconvertible /\ load_from_file read content c = None)
      end
  end /\
  forall c' code, load_from_file read content c = Some (c', code) ->
    wf c' /\
    (validate c' = Error.SUCCESS <->
       1 <= listen_port (server_ c') <= 65535 /\ 1 <= thread_count (server_ c') <= 1024 /\
       level (logging_ c') ∈ [str "DEBUG"; str "INFO"; str "WARN"; str "ERROR"]).
Proof.
  intros Hw. unfold load_from_file, load_parsed, parse_json_to_config. split.
  - destruct content as [s|]; [|done]. destruct (read s) as [j| |]; [|done..].
    destruct (load_sections_loads j c) as [(c' & Ha & ->)|(l1 & x & l2 & v & c' & Hl & Ha & Hg & Hv)].
    + left. by exists c'.
    + right. exists l1, x, l2, v, c'. split_and!; [done..|].
      destruct Hv as [[? ->]|[? ->]]; [by left|by right].
  - intros c' code Hl. assert (Hw' : wf c'); [|split; [done|by apply validate_spec]].
    destruct content as [s|]; [|by injection Hl as <- _]. destruct (read s) as [j| |]; [|by injection Hl as <- _..].
    destruct (load_sections j c) as [[c1 ok]|] eqn:E; [|done]. injection Hl as <- _. by eapply load_sections_wf.
Qed.

Definition demo_file : Json :=
  JObject [(str "server", JObject [(str "listen_port", JInt 70000); (str "thread_count", JString (str "8"))])].

Lemma utils_config_load_witness :
  (exists c', assigned demo_file settings create c' /\
     load_from_file (fun _ => Parsed demo_file) (Some []) create = Some (c', Error.SUCCESS)) \/
  exists before x after v c', settings = before ++ x :: after /\
    assigned demo_file before create c' /\ given demo_file x = Some v /\
    (judge (st_kind x) v = WrongType /\
       load_from_file (fun _ => Parsed demo_file) (Some []) create = Some (c', Error.CONFIG_INVALID_VALUE) \/
     judge (st_kind x) v = Unconvertible /\ load_from_file (fun _ => Parsed demo_file) (Some []) create = None).
Proof. exact (proj1 (utils_config_load (fun _ => Parsed demo_file) (Some []) create create_config_wf)). Defined.

(** The settings that precede the one of the wrong type are kept: here the
    port, taken modulo [2^16]. *)
Example partial_load :
  (fun r => (listen_port (server_ r.1), thread_count (server_ r.1), r.2)) <$>
    load_from_file (fun _ => Parsed demo_file) (Some []) create =
  Some (4464, 5, Error.CONFIG_INVALID_VALUE).
Proof. reflexivity. Qed.
End UtilsConfig.
